(* ===== verification/_CoqProject ===== *)
-Q . S2P
Prelude.v
Records.v
Doubles.v
Dates.v
Text.v
Tables.v
Crypto.v
Json.v
Stringify.v
Effects.v
Logistics.v
Cache.v
Prisma.v
EscrowRepo.v
Coherence.v
Demo.v
LogisticsSpec.v
CacheSpec.v
QuerySpec.v
Contract.v
Lifecycle.v
EscrowSvc.v
Vendor.v
Notify.v
RetryQueue.v
Analytics.v
Auth.v
Http.v
Logging.v
Health.v
Config.v
EscrowSound.v
EscrowSpec.v
ContractSpec.v
SyncSpec.v
Disputes.v
Workers.v
WorkersSound.v
Ownership.v
TrackingSound.v
Dlq.v
Webhook.v
Dto.v
Api.v
Wire.v
Stress.v
Poller.v
Periodic.v
Backend.v
Concurrency.v
Retention.v
WebhookSpec.v
PollerSpec.v
DlqSpec.v
DisputeSpec.v
Parallel.v
WorkerSpec.v
PeriodicSpec.v
VendorSpec.v
RetrySpec.v
NotifySpec.v
AuthSpec.v
Connection.v
Seed.v
Benchmark.v
Tracing.v
HttpSpec.v
LoggingSpec.v
SeedSpec.v
TracingSpec.v
HealthSpec.v
AnalyticsSpec.v
BenchmarkSpec.v
ApiSpec.v
ConfigSpec.v
DtoSpec.v
WireSpec.v
StressSpec.v
