(* ===== verification/Prelude.v ===== *)
(** * Trust-Link backend: a verification development

    The program is the NestJS backend of an escrow marketplace on Stellar
    ([src/src]).  A vendor creates an escrow, a buyer's payment funds it, the
    vendor ships, the delivery is tracked, and the funds are released,
    refunded or disputed; the state of an escrow also lives in a Soroban
    contract, and the two are kept in step by contract calls in one direction
    and by polled contract events and payment webhooks in the other.

    ** Model

    Asynchronous code is a [Prog] (file Effects): a tree of atomic actions,
    one per [await].  [run] executes a program alone; [pool_step] interleaves a
    pool of programs atom by atom; [par] and [promiseAll] interleave inside one
    program according to a schedule.  The shared state is [World]: the database
    tables ([Db]), the two cache backends, the transactions handed to the chain,
    the notifications started, and the in-memory flags and counters.  [Env] is
    what the code does not control, consulted at the current tick: the clock,
    database faults, generated ids, configuration, the RPC server, the Stellar
    SDK, HMAC and encryption, the logistics provider, the schedule.  These are
    parameters: nothing is assumed of them beyond the hypotheses of a theorem
    ([good_env]: the clock is in the range of ISO dates and invalidations reach
    Redis; [db_reliable]: no database call fails).  Exceptions are values of
    [exn]; an exception does not undo the writes made before it.  JavaScript
    numbers are IEEE doubles as [m * 2^e] (Records), amounts in the database
    are integers of the Decimal(18, 8) column, contract ids are integers.  Text
    is UTF-8: [trim] and the length of a string work on its code points, as
    JavaScript's do, and the case functions know every character with an image
    in ASCII, so comparisons with ASCII keys, codes and names are those of the
    code.

    ** Files

    - Prelude: exceptions, string functions of JavaScript, stable sorting,
      shared tactics.  Records: enums, constants, records of
      [prisma.service.ts], numbers.  Doubles: arithmetic of JavaScript numbers
      and the error of its rounding.  Dates: ISO dates and big integers as
      text, with their round trips.  Text: URL encoding, [Number(s)], canonical
      JSON.  Json: [JSON.parse].  Stringify: [JSON.stringify] and its inverse.  Crypto: base64url, the formats
      of encrypted contacts and credentials.  Tables: the rows of the
      notification, vendor, credential and session tables.  Effects: programs,
      worlds, environments, [wp], [every].
    - Cache: [cache.service.ts] and the JSON image of a cached escrow.
      Prisma: the database calls with the constraints of the schema.
      EscrowRepo: [escrow.repository.ts].  Coherence: the invariant [Inv]
      between database and cache, and rules for reads and writes.
      Demo: concrete environments and worlds.
    - Contract: the interface [ContractApi] and [contract.service.ts] as its
      instance.  EscrowSvc: [escrow.service.ts].  Disputes:
      [dispute.repository.ts], [buyer-dispute.service.ts],
      [admin/dispute/dispute.service.ts].  Workers:
      [auto-release.worker.ts], [tracking-poll.worker.ts].  Dlq: the dead-letter
      queue, its endpoints and the audit log.  Webhook: [stellar-webhook.*],
      [cursor.service.ts], [event-replay.service.ts].  Poller:
      [blockchain-listener.service.ts], [soroban-poller.service.ts].  Periodic:
      the timers of the two workers and of the poller, and the cycles they start.
    - Logistics: the provider client, its error classes and its key
      ([src/src/logistics]).  Vendor: profiles, notification preferences and
      account details ([src/src/vendor]).  Notify: [notifications.service.ts]
      and its repository.  RetryQueue: [notification-retry-queue.service.ts].
      Analytics: [vendor/analytics] and [admin/stats].  Auth: [auth/sep10], the
      guards and the clean-up jobs.  Http: sanitisation, the global exception filter
      with every class of error it knows and the line it logs, the security
      configuration, request ids ([src/src/common]).  Logging: the JSON
      logger and the request log.  Health: the
      probes of [app.controller.ts], [horizon.service.ts],
      [soroban-health.service.ts], the JSON-RPC requests of the poller and
      [queue-dashboard.service.ts].  Config: [src/src/config].  Stress:
      [src/src/stress-test] and [scripts/stress-test-runner.ts].  Dto: the classes of request bodies and queries with
      their validators and transforms, behind a [ValidationPipe] of which only
      the documented laws are assumed.  Api: the handlers of the controllers with their
      guards, and [answer], which serves a list of typed requests.  Wire: body
      parsers, routes, guards and pipes in front of them, and [serve_all], which
      serves a list of HTTP requests with untyped bodies.
    - Connection: the connection string, the slow-query log and the test reset of
      [prisma.service.ts].  Tracing: the spans of [src/src/tracing], written to a
      log beside the program, and the Sentry interceptor.  Seed:
      [prisma/seed.ts] and the escrows of [scripts/db-seed.ts].  Benchmark:
      [scripts/benchmark-chart-aggregation.ts].
    - Lifecycle: the abstract state machine of an escrow, [evolves], and the
      rules for [sound] programs.  EscrowSound, WorkersSound, TrackingSound,
      Backend: every entry point is sound; [Request] and [serve] put them
      together.  Ownership: the logic of loops that run side by side, each on
      the rows it took off a shared queue; with it TrackingSound shows that a
      whole tracking cycle is sound under every schedule of its loops.
    - The files ending in Spec hold the theorems of the component they are
      named after.  Concurrency, Retention, Parallel: interleavings.

    ** Theorems

    - Whole backend (Backend, Retention, ApiSpec, WireSpec): any sequence of requests
      keeps the store invariant and moves escrows along the life cycle; terminal
      states are final; item references stay unique; cached reads agree with the
      database; under every interleaving no record is lost and the audit log
      only grows; HTTP requests of people without a part in an escrow change
      nothing of it, whatever their bodies ([serve_all] refines [answer]); guarded routes do nothing without a valid token.
    - Operations (EscrowSpec, DisputeSpec, DlqSpec, WebhookSpec, WorkerSpec,
      NotifySpec, VendorSpec, AnalyticsSpec, HealthSpec): the answer and the
      effect on every branch.
    - Sessions (AuthSpec): a challenge is redeemed once, refresh tokens rotate
      and reuse revokes, issued tokens are accepted until they expire; each
      request is a step of a relation that adds at most one session, for a
      challenge or a token that is spent by it ([auth_step]).
    - Errors and payloads (HttpSpec): the response and the log line of every
      class of error; what is left of a sanitised body.
    - Refinement (SyncSpec): chain events drive the database exactly as an
      abstract transition function says.
    - Round trips (CacheSpec, LogisticsSpec, AuthSpec, VendorSpec): values read
      back as they were written, through JSON, encryption, tokens and updates.
    - Concurrency, Parallel, PeriodicSpec: the auto-release claim has one winner
      under every interleaving; the delivery claim has not; cycles of one
      periodic job never overlap; every shipment of a tracking
      cycle is started once under every schedule.
    - Event stream (PollerSpec): the stored cursor follows the events that were
      synchronised or dead-lettered.  Retry queue (RetrySpec): the in-process
      runner and the BullMQ worker treat a job and its JSON image alike.
    - Bounds and termination (ContractSpec, CacheSpec, PollerSpec, RetrySpec,
      HealthSpec, StressSpec): number of submissions, the confirmation loops,
      the cache size, the retries of a bad event, the jitter of a delay, the
      workers of a load profile.
    - Tracing (TracingSpec): a traced program behaves as the one it wraps, alone
      and interleaved ([prog_eq]), and every span it opens is closed.
    - Seeds (SeedSpec): a second run of [prisma/seed.ts] changes nothing; an
      interrupted run of [scripts/db-seed.ts] is never completed.
    - Logs (LoggingSpec, on the round trip of Stringify): a log line is one line
      and reads back as what was logged, whatever a client sent; by default
      every request but a successful probe is logged.
    - Benchmark (BenchmarkSpec): its two aggregations count alike in UTC, its new
      chart is blank, and no run of it completes.
    - Configuration (ConfigSpec): what an accepted environment guarantees.
    - Requests (HttpSpec, DtoSpec): what sanitised and accepted bodies carry; an
      accepted amount is stored and read back exactly, an accepted tracking id
      is its own URL path, an accepted page is bounded.
    - Findings are theorems about concrete runs or universal impossibilities:
      no contract id is ever assigned, no dead letter can be replayed, a
      pending cancellation never refunds, a recorded failure resubmits, a
      challenge is redeemed twice by concurrent requests, a chart drops the
      current day west of UTC.

    ** Fuel

    The confirmation loop of a contract call has one unit per poll until the
    deadline plus one ([POLL_FUEL], 121); [confirmation_terminates] shows that
    with a clock that advances by the poll interval per round it is never used
    up; likewise [CONFIRM_FUEL] of the Horizon loop and
    [horizon_confirmation_terminates].  A loop of [runWithConcurrency] has one
    unit per item plus one; [every_item_started_once] shows that it is never
    used up.  [JSON.parse] has one unit per character plus one, since every call
    consumes one.  The loop of the daily chart has one unit per day between its
    dates plus one.  All other recursion is structural.

    ** Not modelled

    The wiring of modules, throttling, the inside of the ValidationPipe, the
    OpenAPI decorators and response classes, the decoding of form bodies (a
    parameter of Wire), connecting and disconnecting of clients, the exporters of traces, the
    rest of [scripts/db-seed.ts], and the scripts that check the repository
    itself: framework code, input and output, or tooling without a decision of
    the escrow system.  Which log lines the services write is left out; how a
    line is written is in Logging.
    A notification an operation starts, to the parties or to the operator, is
    an entry of [w_outbox]; its delivery is modelled apart, in Notify. *)
From stdpp Require Export base tactics list strings gmap sorting relations.
From Stdlib Require Export ZArith Lia.

(** ** Exceptions

    The exception classes the services throw (NestJS' [HttpException]
    subclasses), the ones Prisma raises (by code), the contract layer's own
    class and plain JavaScript errors.  Each carries the message the code
    builds. *)
Inductive exn : Type :=
| BadRequestException (msg : string)
| UnauthorizedException (msg : string)
| ForbiddenException (msg : string)
| NotFoundException (msg : string)
| ConflictException (msg : string)
| UnprocessableEntityException (msg : string)
| InternalServerErrorException (msg : string)
| ServiceUnavailableException (msg : string)
| ContractCallFailedException (msg : string)
| AutoReleaseSourceNotConfiguredError
| PrismaError (code : string)
| JsError (msg : string).

#[export] Instance exn_eq_dec : EqDecision exn.
Proof. solve_decision. Defined.

(** The HTTP status of an [HttpException], [None] for any other error. *)
Definition exn_status (e : exn) : option Z :=
  match e with
  | BadRequestException _ => Some 400%Z
  | UnauthorizedException _ => Some 401%Z
  | ForbiddenException _ => Some 403%Z
  | NotFoundException _ => Some 404%Z
  | ConflictException _ => Some 409%Z
  | UnprocessableEntityException _ => Some 422%Z
  | InternalServerErrorException _ => Some 500%Z
  | ServiceUnavailableException _ => Some 503%Z
  | _ => None
  end.

Definition exn_message (e : exn) : string :=
  match e with
  | BadRequestException m | UnauthorizedException m | ForbiddenException m
  | NotFoundException m | ConflictException m | UnprocessableEntityException m
  | InternalServerErrorException m | ServiceUnavailableException m
  | ContractCallFailedException m | JsError m => m
  | AutoReleaseSourceNotConfiguredError =>
      "AUTO_RELEASE_SOURCE_ADDRESS is not configured, so auto-release is unavailable."
  | PrismaError code => "Prisma error " +:+ code
  end.

(** The outcome of a settled promise: fulfilled or rejected. *)
Inductive outcome (A : Type) : Type :=
| Ok (a : A)
| Throw (e : exn).
Arguments Ok {A} a.
Arguments Throw {A} e.

Definition is_ok {A} (r : outcome A) : bool :=
  match r with Ok _ => true | Throw _ => false end.

(** ** JavaScript idioms *)

(** [x ?? d] on a nullable value. *)
Definition coalesce {A} (o : option A) (d : A) : A :=
  match o with Some a => a | None => d end.

(** Truthiness of a nullable string: [null] and [''] are falsy. *)
Definition truthy (o : option string) : bool :=
  match o with Some s => negb (bool_decide (s = "")) | None => false end.

(** [a || b || ''] on nullable strings: the first truthy one. *)
Definition or_str (o : option string) (d : string) : string :=
  match o with Some s => if bool_decide (s = "") then d else s | None => d end.

(** The white space [String.prototype.trim] removes, in UTF-8: of one byte, of
    two (no-break space) and of three (the Unicode spaces, the line and
    paragraph separators and the byte-order mark). *)
Definition is_space (c : Ascii.ascii) : bool :=
  let n := Ascii.nat_of_ascii c in (Nat.leb 9 n && Nat.leb n 13) || Nat.eqb n 32.

Definition is_space2 (c1 c2 : Ascii.ascii) : bool :=
  Nat.eqb (Ascii.nat_of_ascii c1) 194 && Nat.eqb (Ascii.nat_of_ascii c2) 160.

Definition is_space3 (c1 c2 c3 : Ascii.ascii) : bool :=
  let n1 := Ascii.nat_of_ascii c1 in let n2 := Ascii.nat_of_ascii c2 in let n3 := Ascii.nat_of_ascii c3 in
  (Nat.eqb n1 225 && Nat.eqb n2 154 && Nat.eqb n3 128) ||
  (Nat.eqb n1 226 && Nat.eqb n2 128 &&
     ((Nat.leb 128 n3 && Nat.leb n3 138) || Nat.eqb n3 168 || Nat.eqb n3 169 || Nat.eqb n3 175)) ||
  (Nat.eqb n1 226 && Nat.eqb n2 129 && Nat.eqb n3 159) ||
  (Nat.eqb n1 227 && Nat.eqb n2 128 && Nat.eqb n3 128) ||
  (Nat.eqb n1 239 && Nat.eqb n2 187 && Nat.eqb n3 191).

Fixpoint trim_start (s : string) : string :=
  match s with
  | EmptyString => EmptyString
  | String c1 s1 =>
      if is_space c1 then trim_start s1
      else match s1 with
           | EmptyString => s
           | String c2 s2 =>
               if is_space2 c1 c2 then trim_start s2
               else match s2 with
                    | EmptyString => s
                    | String c3 s3 => if is_space3 c1 c2 c3 then trim_start s3 else s
                    end
           end
  end.

(** Cuts where only white space is left. *)
Fixpoint trim_end (s : string) : string :=
  match s with
  | EmptyString => EmptyString
  | String c s' => if bool_decide (trim_start s = EmptyString) then EmptyString else String c (trim_end s')
  end.

Definition trim (s : string) : string := trim_end (trim_start s).

(** [s.length], in UTF-16 code units, of a UTF-8 text: one for each character,
    two for those of four bytes. *)
Fixpoint js_length (s : string) : nat :=
  match s with
  | EmptyString => 0
  | String c s =>
      let n := Ascii.nat_of_ascii c in
      (if Nat.leb 128 n && Nat.ltb n 192 then 0 else if Nat.leb 240 n then 2 else 1) + js_length s
  end.

(** [String.prototype.toLowerCase] and [toUpperCase] on UTF-8: the ASCII letters
    and the other characters with an image in ASCII, that is dotted I and the
    Kelvin sign downwards, dotless i, long s, sharp s and the Latin ligatures
    upwards.  All other characters stay, so that the result is a given ASCII
    text exactly when that of JavaScript is. *)
Definition lower_char (c : Ascii.ascii) : Ascii.ascii :=
  let n := Ascii.nat_of_ascii c in
  if Nat.leb 65 n && Nat.leb n 90 then Ascii.ascii_of_nat (n + 32) else c.
Definition upper_char (c : Ascii.ascii) : Ascii.ascii :=
  let n := Ascii.nat_of_ascii c in
  if Nat.leb 97 n && Nat.leb n 122 then Ascii.ascii_of_nat (n - 32) else c.

Definition bytes_are (s : string) (l : list N) : bool :=
  bool_decide (map Ascii.N_of_ascii (String.list_ascii_of_string s) = l).

(** The images of the special characters, by their bytes. *)
Definition CaseTable : Type := list (list N * string).

Definition LOWER_SPECIAL : CaseTable :=
  [([196; 176]%N, "i" +:+ (String (Ascii.ascii_of_nat 204) (String (Ascii.ascii_of_nat 135) EmptyString)));
   ([226; 132; 170]%N, "k")].
Definition UPPER_SPECIAL : CaseTable :=
  [([196; 177]%N, "I"); ([197; 191]%N, "S"); ([195; 159]%N, "SS"); ([239; 172; 128]%N, "FF"); ([239; 172; 129]%N, "FI");
   ([239; 172; 130]%N, "FL"); ([239; 172; 131]%N, "FFI"); ([239; 172; 132]%N, "FFL"); ([239; 172; 133]%N, "ST");
   ([239; 172; 134]%N, "ST")].

Definition case_lookup (table : CaseTable) (s : string) : option string :=
  snd <$> List.find (fun '(bytes, _) => bytes_are s bytes) table.

Fixpoint map_case (f : Ascii.ascii -> Ascii.ascii) (table : CaseTable) (s : string) : string :=
  match s with
  | EmptyString => EmptyString
  | String c1 s1 =>
      match s1 with
      | EmptyString => String (f c1) EmptyString
      | String c2 s2 =>
          match case_lookup table (String c1 (String c2 EmptyString)) with
          | Some image => image +:+ map_case f table s2
          | None =>
              match s2 with
              | EmptyString => String (f c1) (map_case f table s1)
              | String c3 s3 =>
                  match case_lookup table (String c1 (String c2 (String c3 EmptyString))) with
                  | Some image => image +:+ map_case f table s3
                  | None => String (f c1) (map_case f table s1)
                  end
              end
          end
      end
  end.

Definition toLowerCase (s : string) : string := map_case lower_char LOWER_SPECIAL s.
Definition toUpperCase (s : string) : string := map_case upper_char UPPER_SPECIAL s.
#[global] Arguments toLowerCase : simpl never.
#[global] Arguments toUpperCase : simpl never.

(** [s.includes(sub)]. *)
Fixpoint includes (sub s : string) : bool :=
  String.prefix sub s ||
  match s with String _ s' => includes sub s' | EmptyString => false end.

(** ** Shared tactics *)

(** Case analysis on the head [match] of the goal or of a hypothesis. *)
Ltac split_match :=
  match goal with
  | |- context [ match ?x with _ => _ end ] => destruct x eqn:?
  end.
Ltac split_match_in H :=
  match type of H with
  | context [ match ?x with _ => _ end ] => destruct x eqn:?
  end.

(** Turns boolean tests of the code into the propositions they decide. *)
Ltac b2p :=
  repeat
    match goal with
    | H : bool_decide _ = true |- _ => apply bool_decide_eq_true_1 in H
    | H : bool_decide _ = false |- _ => apply bool_decide_eq_false_1 in H
    | H : negb _ = true |- _ => apply negb_true_iff in H
    | H : negb _ = false |- _ => apply negb_false_iff in H
    | H : andb _ _ = true |- _ => apply andb_true_iff in H; destruct H
    | H : orb _ _ = false |- _ => apply orb_false_iff in H; destruct H
    | H : Z.leb _ _ = true |- _ => apply Z.leb_le in H
    | H : Z.leb _ _ = false |- _ => apply Z.leb_gt in H
    | H : Z.ltb _ _ = true |- _ => apply Z.ltb_lt in H
    | H : Z.ltb _ _ = false |- _ => apply Z.ltb_ge in H
    | H : Z.eqb _ _ = true |- _ => apply Z.eqb_eq in H
    | H : Z.eqb _ _ = false |- _ => apply Z.eqb_neq in H
    end.

(** ** Generic lemmas *)

Lemma string_app_assoc (a b c : string) : (a +:+ b) +:+ c = a +:+ (b +:+ c).
Proof. induction a as [|x a IH]; [done|]. exact (f_equal (String x) IH). Qed.

Lemma string_app_inj_l (p a b : string) : p +:+ a = p +:+ b -> a = b.
Proof. induction p as [|x p IH]; simpl; [done|]. intros [= H]. auto. Qed.

(** A filtered list of a finite map: membership. *)
Lemma elem_of_rows `{Countable K} {V} (m : gmap K V) (P : V -> bool) (v : V) :
  v ∈ List.filter P (map_to_list m).*2 <-> P v = true /\ exists k, m !! k = Some v.
Proof.
  rewrite list_elem_of_In, filter_In, <- list_elem_of_In, list_elem_of_fmap.
  split.
  - intros [([k v'] & -> & Hk%elem_of_map_to_list) HP]. eauto.
  - intros [HP [k Hk]]. split; [|done]. exists (k, v). by rewrite elem_of_map_to_list.
Qed.

(** ** Sorting

    [Array.prototype.sort] and [orderBy] with a comparison: a stable
    insertion sort on a boolean order. *)
Section sort_by.
Context {A : Type} (le : A -> A -> bool).

Fixpoint insert_by (x : A) (l : list A) : list A :=
  match l with
  | [] => [x]
  | y :: l' => if le x y then x :: l else y :: insert_by x l'
  end.

Definition sort_by (l : list A) : list A := foldr insert_by [] l.

Lemma insert_by_perm x l : insert_by x l ≡ₚ x :: l.
Proof.
  induction l as [|y l IH]; [done|]. simpl. case_match; [done|].
  rewrite IH. apply Permutation_swap.
Qed.

Lemma sort_by_perm l : sort_by l ≡ₚ l.
Proof. induction l as [|x l IH]; [done|]. simpl. by rewrite insert_by_perm, IH. Qed.

Context (le_total : forall x y, le x y = true \/ le y x = true)
        (le_trans : forall x y z, le x y = true -> le y z = true -> le x z = true).

Lemma insert_by_sorted x l :
  StronglySorted (fun a b => le a b = true) l ->
  StronglySorted (fun a b => le a b = true) (insert_by x l).
Proof.
  induction 1 as [|y l Hl IH Hy]; simpl; [repeat constructor|].
  destruct (le x y) eqn:E.
  - constructor; [by constructor|]. constructor; [done|].
    eapply Forall_impl; [exact Hy|]. eauto.
  - constructor; [exact IH|]. rewrite insert_by_perm. constructor; [|exact Hy].
    destruct (le_total x y); congruence.
Qed.

Lemma sort_by_sorted l : StronglySorted (fun a b => le a b = true) (sort_by l).
Proof. induction l; simpl; [constructor|]. by apply insert_by_sorted. Qed.
End sort_by.

(** [orderBy: [{a: 'asc'}, {b: ...}]]: the second order breaks ties. *)
Definition then_by {A} (le1 le2 : A -> A -> bool) (x y : A) : bool :=
  if le1 x y then (if le1 y x then le2 x y else true) else false.

Definition asc {A} (key : A -> Z) (x y : A) : bool := (key x <=? key y)%Z.
Definition desc {A} (key : A -> Z) (x y : A) : bool := (key y <=? key x)%Z.

(** [{ sort: 'asc', nulls: 'first' }]. *)
Definition asc_nulls_first {A} (key : A -> option Z) (x y : A) : bool :=
  match key x, key y with
  | None, _ => true
  | Some _, None => false
  | Some a, Some b => (a <=? b)%Z
  end.

(** [asc] on a nullable column: Postgres puts nulls last. *)
Definition asc_nulls_last {A} (key : A -> option Z) (x y : A) : bool :=
  match key x, key y with
  | _, None => true
  | None, Some _ => false
  | Some a, Some b => (a <=? b)%Z
  end.

Definition asc_str {A} (key : A -> string) (x y : A) : bool := String.leb (key x) (key y).

(** [skip] and [take] of a page; a negative [skip] is rejected by the callers' validation. *)
Definition page_of {A} (skip limit : Z) (l : list A) : list A :=
  take (Z.to_nat limit) (drop (Z.to_nat skip) l).
