(* ===== verification/Records.v ===== *)
(** * The data model

    The record types of [src/prisma/prisma.service.ts] and the enums of
    [src/common/enums/escrow-state.enum.ts], the time constants, and the
    JavaScript numbers that stand for [Decimal(18, 8)] amounts once
    [toEscrowRecord] has converted them.  Timestamps ([Date]) are
    milliseconds since the epoch, in [Z]; contract ids ([bigint]) are [Z]. *)
From S2P Require Import Prelude.

(** ** Enumerations *)

Inductive EscrowState : Type :=
| CREATED | FUNDED | SHIPPED | DELIVERED | COMPLETED
| RELEASED | DISPUTED | REFUNDED | CANCELLED.

#[export] Instance EscrowState_eq_dec : EqDecision EscrowState.
Proof. solve_decision. Defined.

Definition EscrowState_str (s : EscrowState) : string :=
  match s with
  | CREATED => "CREATED" | FUNDED => "FUNDED" | SHIPPED => "SHIPPED"
  | DELIVERED => "DELIVERED" | COMPLETED => "COMPLETED" | RELEASED => "RELEASED"
  | DISPUTED => "DISPUTED" | REFUNDED => "REFUNDED" | CANCELLED => "CANCELLED"
  end.

(** [new Set(['COMPLETED', 'RELEASED', 'REFUNDED', 'CANCELLED']).has(s)]. *)
Definition TERMINAL_STATES (s : EscrowState) : bool :=
  match s with COMPLETED | RELEASED | REFUNDED | CANCELLED => true | _ => false end.

(** [new Set(['FUNDED', 'SHIPPED', 'DELIVERED']).has(s)]. *)
Definition DISPUTABLE_STATES (s : EscrowState) : bool :=
  match s with FUNDED | SHIPPED | DELIVERED => true | _ => false end.

Inductive DisputeState : Type :=
| OPEN | UNDER_REVIEW | RESOLVED | DCANCELLED | DABANDONED.

#[export] Instance DisputeState_eq_dec : EqDecision DisputeState.
Proof. solve_decision. Defined.

Inductive NotificationType : Type :=
| NFunded | NShipped | NDelivered | NDisputed | NCompleted | NRefunded.

#[export] Instance NotificationType_eq_dec : EqDecision NotificationType.
Proof. solve_decision. Defined.

Inductive FailedTransactionStatus : Type :=
| PENDING_REVIEW | REPLAYING | REPLAYED | ABANDONED.

#[export] Instance FailedTransactionStatus_eq_dec : EqDecision FailedTransactionStatus.
Proof. solve_decision. Defined.

Definition FailedTransactionStatus_str (s : FailedTransactionStatus) : string :=
  match s with
  | PENDING_REVIEW => "PENDING_REVIEW" | REPLAYING => "REPLAYING"
  | REPLAYED => "REPLAYED" | ABANDONED => "ABANDONED"
  end.

(** ** Time constants *)

Definition MILLISECONDS_PER_SECOND : Z := 1000.
Definition SECONDS_PER_MINUTE : Z := 60.
Definition MINUTES_PER_HOUR : Z := 60.
Definition HOURS_PER_DAY : Z := 24.
Definition SECONDS_PER_HOUR : Z := SECONDS_PER_MINUTE * MINUTES_PER_HOUR.
Definition SECONDS_PER_DAY : Z := SECONDS_PER_HOUR * HOURS_PER_DAY.
Definition MILLISECONDS_PER_HOUR : Z := SECONDS_PER_HOUR * MILLISECONDS_PER_SECOND.
Definition ONE_HOUR_SECONDS : Z := SECONDS_PER_HOUR.
Definition ESCROW_CACHE_TTL_SECONDS : Z := 60.
Definition AUTO_RELEASE_WINDOW_HOURS : Z := 48.

(** ** Numbers

    A JavaScript number is an IEEE-754 double.  The finite non-zero ones in
    the range of an amount are [m * 2^e] with [2^52 <= |m| < 2^53]; zero is
    [Finite 0 0].  [ratio_to_number n d] rounds the rational [n / d] to the
    nearest such double, ties to even, the way [Number(...)] does. *)
Inductive number : Type :=
| NaN
| Finite (m e : Z).

#[export] Instance number_eq_dec : EqDecision number.
Proof. solve_decision. Defined.

(** [num / den] rounded to the nearest integer, ties to even. *)
Definition round_half_even (num den : Z) : Z :=
  let q := (num / den)%Z in
  let r := (num mod den)%Z in
  if (2 * r <? den)%Z then q
  else if (den <? 2 * r)%Z then (q + 1)%Z
  else if Z.even q then q else (q + 1)%Z.

Definition pos_ratio_to_number (n d : Z) : number :=
  let e1 := (Z.log2 n - Z.log2 d - 52)%Z in
  let scaled e := (n * 2 ^ Z.max 0 (- e), d * 2 ^ Z.max 0 e)%Z in
  let '(sn, sd) := scaled e1 in
  let e := if (sd * 2 ^ 52 <=? sn)%Z then e1 else (e1 - 1)%Z in
  let '(sn, sd) := scaled e in
  let m := round_half_even sn sd in
  if (m =? 2 ^ 53)%Z then Finite (2 ^ 52) (e + 1) else Finite m e.

Definition ratio_to_number (n d : Z) : number :=
  if (n =? 0)%Z then Finite 0 0
  else if (n <? 0)%Z then
    match pos_ratio_to_number (- n) d with
    | Finite m e => Finite (- m) e
    | x => x
    end
  else pos_ratio_to_number n d.

(** [x <= 0]; comparisons with [NaN] are false. *)
Definition number_le_0 (x : number) : bool :=
  match x with NaN => false | Finite m _ => (m <=? 0)%Z end.

(** [x === y] on numbers: [NaN] is not equal to itself. *)
Definition number_eqb (x y : number) : bool :=
  match x, y with Finite _ _, Finite _ _ => bool_decide (x = y) | _, _ => false end.

(** ** Records

    [EscrowOf N B D] is an escrow whose amount, contract id and dates have
    types [N], [B] and [D]: the generated Prisma row holds a
    [Decimal(18, 8)] (an integer number of 1e-8 units), the [EscrowRecord]
    of the services a JavaScript number. *)
Record EscrowOf (N B D : Type) : Type := mkEscrow {
  e_id : string;
  e_contractEscrowId : option B;
  e_itemName : string;
  e_itemRef : string;
  e_amount : N;
  e_currency : string;
  e_buyerAddress : string;
  e_vendorAddress : string;
  e_state : EscrowState;
  e_trackingId : option string;
  e_trackingCheckedAt : option D;
  e_shippedAt : option D;
  e_deliveredAt : option D;
  e_deliveryRecordedAt : option D;
  e_autoReleaseSubmittedAt : option D;
  e_autoReleaseTxHash : option string;
  e_disputeId : option string;
  e_cancelledAt : option D;
  e_buyerContactEmail : option string;
  e_buyerContactPhone : option string;
  e_createdAt : D;
  e_updatedAt : D
}.
Arguments mkEscrow {N B D}.
Arguments e_id {N B D}. Arguments e_contractEscrowId {N B D}. Arguments e_itemName {N B D}.
Arguments e_itemRef {N B D}. Arguments e_amount {N B D}. Arguments e_currency {N B D}.
Arguments e_buyerAddress {N B D}. Arguments e_vendorAddress {N B D}. Arguments e_state {N B D}.
Arguments e_trackingId {N B D}. Arguments e_trackingCheckedAt {N B D}. Arguments e_shippedAt {N B D}.
Arguments e_deliveredAt {N B D}. Arguments e_deliveryRecordedAt {N B D}.
Arguments e_autoReleaseSubmittedAt {N B D}. Arguments e_autoReleaseTxHash {N B D}.
Arguments e_disputeId {N B D}. Arguments e_cancelledAt {N B D}. Arguments e_buyerContactEmail {N B D}.
Arguments e_buyerContactPhone {N B D}. Arguments e_createdAt {N B D}. Arguments e_updatedAt {N B D}.

Abbreviation PrismaEscrow := (EscrowOf Z Z Z).
Abbreviation EscrowRecord := (EscrowOf number Z Z).
(** What [JSON.parse(JSON.stringify(record))] yields: dates and bigints are strings. *)
Abbreviation EscrowJson := (EscrowOf number string string).

(** [Decimal(18, 8)] as a count of 1e-8 units. *)
Definition DECIMAL_SCALE : Z := 10 ^ 8.

(** [{ ...row, amount: Number(row.amount) }]. *)
Definition toEscrowRecord (row : PrismaEscrow) : EscrowRecord :=
  mkEscrow (e_id row) (e_contractEscrowId row) (e_itemName row) (e_itemRef row)
    (ratio_to_number (e_amount row) DECIMAL_SCALE) (e_currency row)
    (e_buyerAddress row) (e_vendorAddress row) (e_state row) (e_trackingId row)
    (e_trackingCheckedAt row) (e_shippedAt row) (e_deliveredAt row)
    (e_deliveryRecordedAt row) (e_autoReleaseSubmittedAt row) (e_autoReleaseTxHash row)
    (e_disputeId row) (e_cancelledAt row) (e_buyerContactEmail row)
    (e_buyerContactPhone row) (e_createdAt row) (e_updatedAt row).

Record DisputeRecord : Type := mkDispute {
  d_id : string;
  d_escrowId : string;
  d_reason : string;
  d_description : string;
  d_evidenceUrls : list string;
  d_status : DisputeState;
  d_resolvedAt : option Z;
  d_createdAt : Z;
  d_updatedAt : Z
}.

Record VendorProfileRecord : Type := mkVendor {
  v_address : string;
  v_businessName : string;
  v_email : option string;
  v_phone : option string;
  v_description : option string;
  v_createdAt : Z;
  v_updatedAt : Z
}.

(** The free-form [ledgerFeedback] bag: its fields, as the callers write them. *)
Abbreviation LedgerFeedback := (list (string * string)).

Record FailedTransactionRecord : Type := mkFailed {
  f_id : string;
  f_operation : string;
  f_escrowId : option string;
  f_errorMessage : string;
  f_ledgerFeedback : option LedgerFeedback;
  f_attempts : Z;
  f_status : FailedTransactionStatus;
  f_lastReplayTxHash : option string;
  f_createdAt : Z;
  f_updatedAt : Z;
  f_reviewedAt : option Z;
  f_replayedAt : option Z
}.

(** A row of the [EscrowEvent] audit table. *)
Record EscrowEventRow : Type := mkEvent {
  ev_id : string;
  ev_escrowId : string;
  ev_fromState : option string;
  ev_toState : string;
  ev_createdAt : Z
}.

(** A row of the [AuditLog] table. *)
Record AuditLogEntry : Type := mkAudit {
  al_id : string;
  al_action : string;
  al_adminAddress : string;
  al_entityType : string;
  al_entityId : string;
  al_details : list (string * option string);
  al_occurredAt : Z
}.

(** ** Carrier tracking *)

Inductive LogisticsStatus : Type := LPending | LInTransit | LDelivered.

#[export] Instance LogisticsStatus_eq_dec : EqDecision LogisticsStatus.
Proof. solve_decision. Defined.

Record TrackingEventOf (D : Type) : Type := mkTrackingEvent {
  te_timestamp : D;
  te_status : string;
  te_location : option string;
  te_description : string
}.

Arguments mkTrackingEvent {D}. Arguments te_timestamp {D}. Arguments te_status {D}.
Arguments te_location {D}. Arguments te_description {D}.

Record TrackingOf (D : Type) : Type := mkTracking {
  td_status : LogisticsStatus;
  td_estimatedDelivery : option D;
  td_carrier : option string;
  td_events : list (TrackingEventOf D)
}.
Arguments mkTracking {D}. Arguments td_status {D}. Arguments td_estimatedDelivery {D}.
Arguments td_carrier {D}. Arguments td_events {D}.

Abbreviation TrackingDetails := (TrackingOf Z).
Abbreviation TrackingJson := (TrackingOf string).

(** ** Field updates of an escrow row

    The [data] objects the repository passes to [prisma.escrow.update]. *)
Definition upd_escrow {N B D} (r : EscrowOf N B D) (state : EscrowState)
    (tracking : option string) (checked shipped delivered recorded submitted : option D)
    (txHash : option string) (cancelled : option D) (email phone : option string)
    : EscrowOf N B D :=
  mkEscrow (e_id r) (e_contractEscrowId r) (e_itemName r) (e_itemRef r) (e_amount r)
    (e_currency r) (e_buyerAddress r) (e_vendorAddress r) state tracking checked shipped
    delivered recorded submitted txHash (e_disputeId r) cancelled email phone
    (e_createdAt r) (e_updatedAt r).

Definition set_updatedAt {N B D} (now : D) (r : EscrowOf N B D) : EscrowOf N B D :=
  mkEscrow (e_id r) (e_contractEscrowId r) (e_itemName r) (e_itemRef r) (e_amount r)
    (e_currency r) (e_buyerAddress r) (e_vendorAddress r) (e_state r) (e_trackingId r)
    (e_trackingCheckedAt r) (e_shippedAt r) (e_deliveredAt r) (e_deliveryRecordedAt r)
    (e_autoReleaseSubmittedAt r) (e_autoReleaseTxHash r) (e_disputeId r) (e_cancelledAt r)
    (e_buyerContactEmail r) (e_buyerContactPhone r) (e_createdAt r) now.

Definition set_state {N B D} (x : EscrowState) (r : EscrowOf N B D) : EscrowOf N B D :=
  upd_escrow r x (e_trackingId r) (e_trackingCheckedAt r) (e_shippedAt r) (e_deliveredAt r)
    (e_deliveryRecordedAt r) (e_autoReleaseSubmittedAt r) (e_autoReleaseTxHash r)
    (e_cancelledAt r) (e_buyerContactEmail r) (e_buyerContactPhone r).

Definition set_trackingId {N B D} (x : option string) (r : EscrowOf N B D) : EscrowOf N B D :=
  upd_escrow r (e_state r) x (e_trackingCheckedAt r) (e_shippedAt r) (e_deliveredAt r)
    (e_deliveryRecordedAt r) (e_autoReleaseSubmittedAt r) (e_autoReleaseTxHash r)
    (e_cancelledAt r) (e_buyerContactEmail r) (e_buyerContactPhone r).

Definition set_trackingCheckedAt {N B D} (x : option D) (r : EscrowOf N B D) : EscrowOf N B D :=
  upd_escrow r (e_state r) (e_trackingId r) x (e_shippedAt r) (e_deliveredAt r)
    (e_deliveryRecordedAt r) (e_autoReleaseSubmittedAt r) (e_autoReleaseTxHash r)
    (e_cancelledAt r) (e_buyerContactEmail r) (e_buyerContactPhone r).

Definition set_shippedAt {N B D} (x : option D) (r : EscrowOf N B D) : EscrowOf N B D :=
  upd_escrow r (e_state r) (e_trackingId r) (e_trackingCheckedAt r) x (e_deliveredAt r)
    (e_deliveryRecordedAt r) (e_autoReleaseSubmittedAt r) (e_autoReleaseTxHash r)
    (e_cancelledAt r) (e_buyerContactEmail r) (e_buyerContactPhone r).

Definition set_deliveredAt {N B D} (x : option D) (r : EscrowOf N B D) : EscrowOf N B D :=
  upd_escrow r (e_state r) (e_trackingId r) (e_trackingCheckedAt r) (e_shippedAt r) x
    (e_deliveryRecordedAt r) (e_autoReleaseSubmittedAt r) (e_autoReleaseTxHash r)
    (e_cancelledAt r) (e_buyerContactEmail r) (e_buyerContactPhone r).

Definition set_deliveryRecordedAt {N B D} (x : option D) (r : EscrowOf N B D) : EscrowOf N B D :=
  upd_escrow r (e_state r) (e_trackingId r) (e_trackingCheckedAt r) (e_shippedAt r)
    (e_deliveredAt r) x (e_autoReleaseSubmittedAt r) (e_autoReleaseTxHash r)
    (e_cancelledAt r) (e_buyerContactEmail r) (e_buyerContactPhone r).

Definition set_autoReleaseSubmittedAt {N B D} (x : option D) (r : EscrowOf N B D) : EscrowOf N B D :=
  upd_escrow r (e_state r) (e_trackingId r) (e_trackingCheckedAt r) (e_shippedAt r)
    (e_deliveredAt r) (e_deliveryRecordedAt r) x (e_autoReleaseTxHash r) (e_cancelledAt
    r) (e_buyerContactEmail r) (e_buyerContactPhone r).

Definition set_autoReleaseTxHash {N B D} (x : option string) (r : EscrowOf N B D) : EscrowOf N B D :=
  upd_escrow r (e_state r) (e_trackingId r) (e_trackingCheckedAt r) (e_shippedAt r)
    (e_deliveredAt r) (e_deliveryRecordedAt r) (e_autoReleaseSubmittedAt r) x
    (e_cancelledAt r) (e_buyerContactEmail r) (e_buyerContactPhone r).

Definition set_cancelledAt {N B D} (x : option D) (r : EscrowOf N B D) : EscrowOf N B D :=
  upd_escrow r (e_state r) (e_trackingId r) (e_trackingCheckedAt r) (e_shippedAt r)
    (e_deliveredAt r) (e_deliveryRecordedAt r) (e_autoReleaseSubmittedAt r)
    (e_autoReleaseTxHash r) x (e_buyerContactEmail r) (e_buyerContactPhone r).

Definition set_buyerContactEmail {N B D} (x : option string) (r : EscrowOf N B D) : EscrowOf N B D :=
  upd_escrow r (e_state r) (e_trackingId r) (e_trackingCheckedAt r) (e_shippedAt r)
    (e_deliveredAt r) (e_deliveryRecordedAt r) (e_autoReleaseSubmittedAt r)
    (e_autoReleaseTxHash r) (e_cancelledAt r) x (e_buyerContactPhone r).

Definition set_buyerContactPhone {N B D} (x : option string) (r : EscrowOf N B D) : EscrowOf N B D :=
  upd_escrow r (e_state r) (e_trackingId r) (e_trackingCheckedAt r) (e_shippedAt r)
    (e_deliveredAt r) (e_deliveryRecordedAt r) (e_autoReleaseSubmittedAt r)
    (e_autoReleaseTxHash r) (e_cancelledAt r) (e_buyerContactEmail r) x.

(** An [update] only ever changes the mutable columns: identity, parties,
    contract id, amount and creation time are those of the old row. *)
Definition same_identity {N B D} (r r' : EscrowOf N B D) : Prop :=
  e_id r = e_id r' /\ e_contractEscrowId r = e_contractEscrowId r' /\
  e_itemName r = e_itemName r' /\
  e_itemRef r = e_itemRef r' /\ e_amount r = e_amount r' /\
  e_currency r = e_currency r' /\ e_buyerAddress r = e_buyerAddress r' /\
  e_vendorAddress r = e_vendorAddress r' /\ e_disputeId r = e_disputeId r' /\
  e_createdAt r = e_createdAt r'.

Lemma same_identity_refl {N B D} (r : EscrowOf N B D) : same_identity r r.
Proof. repeat split. Qed.

Lemma same_identity_trans {N B D} (r1 r2 r3 : EscrowOf N B D) :
  same_identity r1 r2 -> same_identity r2 r3 -> same_identity r1 r3.
Proof. unfold same_identity. intuition congruence. Qed.

Lemma terminal_not_disputable s :
  DISPUTABLE_STATES s = true -> TERMINAL_STATES s = false.
Proof. by destruct s. Qed.
