(* ===== verification/Doubles.v ===== *)
(** * Arithmetic of doubles

    The operations of JavaScript numbers the components share, on the finite
    doubles of [Records.number]: each result is the exact one rounded once by
    [ratio_to_number].  Then the error bound of that rounding. *)
From S2P Require Import Prelude Records.

(** ** Operations *)

(** A double as a fraction with a power of two below. *)
Definition number_num (m e : Z) : Z := (m * 2 ^ Z.max 0 e)%Z.
Definition number_den (e : Z) : Z := (2 ^ Z.max 0 (- e))%Z.

Definition number_add (x y : number) : number :=
  match x, y with
  | Finite m e, Finite m' e' =>
      ratio_to_number (number_num m e * number_den e' + number_num m' e' * number_den e) (number_den e * number_den e')
  | _, _ => NaN
  end.

(** By a positive integer. *)
Definition number_div (x : number) (n : Z) : number :=
  match x with NaN => NaN | Finite m e => ratio_to_number (number_num m e) (number_den e * n) end.

Definition number_mul (x : number) (n : Z) : number :=
  match x with NaN => NaN | Finite m e => ratio_to_number (number_num m e * n) (number_den e) end.

Definition zero : number := Finite 0 0.

Definition number_ltb (x y : number) : bool :=
  match x, y with
  | Finite m e, Finite m' e' => (number_num m e * number_den e' <? number_num m' e' * number_den e)%Z
  | _, _ => false
  end.

(** By a positive number. *)
Definition number_quot (x y : number) : number :=
  match x, y with
  | Finite m e, Finite m' e' => ratio_to_number (number_num m e * number_den e') (number_den e * number_num m' e')
  | _, _ => NaN
  end.

Definition Math_floor (x : number) : Z := match x with NaN => 0 | Finite m e => number_num m e / number_den e end.
Definition Math_ceil (x : number) : Z := match x with NaN => 0 | Finite m e => - (- number_num m e / number_den e) end.

Definition of_Z (n : Z) : number := ratio_to_number n 1.

(** ** Rounding *)

(** [m * 2^e] is within one part in [2^53] of [n / d]. *)
Definition near (n d m e : Z) : Prop :=
  (Z.abs (m * 2 ^ Z.max 0 e * d - n * 2 ^ Z.max 0 (- e)) * 2 ^ 53 <= Z.abs n * 2 ^ Z.max 0 (- e))%Z.

Lemma round_half_even_near num den : (0 < den)%Z ->
  (2 * Z.abs (round_half_even num den * den - num) <= den)%Z.
Proof.
  intros Hd. unfold round_half_even.
  pose proof (Z.div_mod num den ltac:(lia)) as E. pose proof (Z.mod_pos_bound num den Hd) as B.
  set (q := (num / den)%Z) in *. set (r := (num mod den)%Z) in *.
  replace num with (den * q + r)%Z by lia.
  destruct (2 * r <? den)%Z eqn:E1; b2p; [lia|].
  destruct (den <? 2 * r)%Z eqn:E2; b2p; [lia|].
  destruct (Z.even q); lia.
Qed.

Lemma scaled_ratio n d e : (0 < n)%Z -> (0 < d)%Z -> (e + Z.log2 d + 53 <= Z.log2 n)%Z ->
  (d * 2 ^ Z.max 0 e * 2 ^ 52 <= n * 2 ^ Z.max 0 (- e))%Z.
Proof.
  intros Hn Hd He. pose proof (Z.log2_spec n Hn) as [Ln _]. pose proof (Z.log2_spec d Hd) as [_ Ud].
  pose proof (Z.log2_nonneg n). pose proof (Z.log2_nonneg d).
  trans (2 ^ (Z.succ (Z.log2 d)) * 2 ^ Z.max 0 e * 2 ^ 52)%Z; [apply Z.mul_le_mono_nonneg_r; [lia|]|].
  { apply Z.mul_le_mono_nonneg_r; [|lia]. apply Z.pow_nonneg. lia. }
  trans (2 ^ Z.log2 n * 2 ^ Z.max 0 (- e))%Z; [|apply Z.mul_le_mono_nonneg_r; [apply Z.pow_nonneg; lia|lia]].
  rewrite <- !Z.pow_add_r by lia. apply Z.pow_le_mono_r; lia.
Qed.

Lemma pos_ratio_near n d m e : (0 < n)%Z -> (0 < d)%Z -> pos_ratio_to_number n d = Finite m e -> near n d m e.
Proof.
  intros Hn Hd. unfold pos_ratio_to_number.
  set (e1 := (Z.log2 n - Z.log2 d - 52)%Z).
  set (e2 := if (d * 2 ^ Z.max 0 e1 * 2 ^ 52 <=? n * 2 ^ Z.max 0 (- e1))%Z then e1 else (e1 - 1)%Z).
  assert (H52 : (d * 2 ^ Z.max 0 e2 * 2 ^ 52 <= n * 2 ^ Z.max 0 (- e2))%Z).
  { unfold e2. destruct (_ <=? _)%Z eqn:E; b2p; [done|]. apply scaled_ratio; lia. }
  cbv zeta. fold e2. clearbody e2. clear e1.
  pose proof (round_half_even_near (n * 2 ^ Z.max 0 (- e2)) (d * 2 ^ Z.max 0 e2)) as HR.
  set (r := round_half_even _ _) in *. clearbody r.
  assert (Hp : (0 < 2 ^ Z.max 0 e2)%Z) by (apply Z.pow_pos_nonneg; lia).
  specialize (HR ltac:(apply Z.mul_pos_pos; lia)).
  unfold near. destruct (r =? 2 ^ 53)%Z eqn:E; b2p; intros [= <- <-].
  - rewrite E in HR. destruct (Z.leb_spec 0 e2).
    + replace (Z.max 0 (e2 + 1)) with (Z.succ (Z.max 0 e2)) by lia.
      replace (Z.max 0 (- (e2 + 1))) with (Z.max 0 (- e2)) by lia. rewrite Z.pow_succ_r by lia. lia.
    + replace (Z.max 0 (- e2)) with (Z.succ (Z.max 0 (- (e2 + 1)))) in * by lia.
      replace (Z.max 0 (e2 + 1)) with 0%Z in * by lia. replace (Z.max 0 e2) with 0%Z in * by lia.
      rewrite Z.pow_succ_r in * by lia. lia.
  - lia.
Qed.

Lemma ratio_near n d : (0 < d)%Z -> exists m e, ratio_to_number n d = Finite m e /\ near n d m e.
Proof.
  intros Hd. unfold ratio_to_number. destruct (n =? 0)%Z eqn:E0; b2p.
  { exists 0%Z, 0%Z. subst. split; [done|]. unfold near. simpl. lia. }
  assert (Hpos : forall k, (0 < k)%Z -> exists m e, pos_ratio_to_number k d = Finite m e /\ near k d m e).
  { intros k Hk. destruct (pos_ratio_to_number k d) as [|m e] eqn:E.
    - unfold pos_ratio_to_number in E. cbv zeta in E. by case_match.
    - exists m, e. split; [done|]. by apply pos_ratio_near. }
  destruct (n <? 0)%Z eqn:E1; b2p.
  - destruct (Hpos (- n)%Z ltac:(lia)) as (m & e & -> & H). exists (- m)%Z, e. split; [done|].
    unfold near in *. lia.
  - apply Hpos. lia.
Qed.

Lemma pow2_pos k : (0 < 2 ^ Z.max 0 k)%Z.
Proof. apply Z.pow_pos_nonneg; lia. Qed.

(** ** Fractions *)

(** The exponent [e] puts [n / d] between [2^52] and [2^53]. *)
Definition fits_exponent (n d e : Z) : Prop :=
  (d * 2 ^ Z.max 0 e * 2 ^ 52 <= n * 2 ^ Z.max 0 (- e) < d * 2 ^ Z.max 0 e * 2 ^ 53)%Z.

Lemma fits_exponent_le n d e e' : (0 < d)%Z -> fits_exponent n d e -> fits_exponent n d e' -> (e' <= e)%Z.
Proof.
  intros Hd [_ Hu] [Hl _]. pose proof (pow2_pos e) as A. pose proof (pow2_pos (- e)) as B.
  pose proof (pow2_pos e') as A'. pose proof (pow2_pos (- e')) as B'.
  assert (H : (d * (2 ^ Z.max 0 e' * 2 ^ 52 * 2 ^ Z.max 0 (- e)) < d * (2 ^ Z.max 0 e * 2 ^ 53 * 2 ^ Z.max 0 (- e')))%Z) by nia.
  apply Z.mul_lt_mono_pos_l in H; [|done]. rewrite <- !Z.pow_add_r in H by lia.
  apply Z.pow_lt_mono_r_iff in H; lia.
Qed.

Lemma fits_exponent_unique n d e e' : (0 < d)%Z -> fits_exponent n d e -> fits_exponent n d e' -> e = e'.
Proof. intros Hd H H'. apply Z.le_antisymm; by eapply fits_exponent_le. Qed.

Lemma fits_exponent_scale n d c e : (0 < c)%Z -> fits_exponent (n * c) (d * c) e <-> fits_exponent n d e.
Proof.
  intros Hc. unfold fits_exponent.
  replace (d * c * 2 ^ Z.max 0 e * 2 ^ 52)%Z with (d * 2 ^ Z.max 0 e * 2 ^ 52 * c)%Z by lia.
  replace (d * c * 2 ^ Z.max 0 e * 2 ^ 53)%Z with (d * 2 ^ Z.max 0 e * 2 ^ 53 * c)%Z by lia.
  replace (n * c * 2 ^ Z.max 0 (- e))%Z with (n * 2 ^ Z.max 0 (- e) * c)%Z by lia.
  rewrite <- Z.mul_le_mono_pos_r, <- Z.mul_lt_mono_pos_r by done. done.
Qed.

(** The exponent [pos_ratio_to_number] picks. *)
Definition ratio_exponent (n d : Z) : Z :=
  let e1 := (Z.log2 n - Z.log2 d - 52)%Z in
  if (d * 2 ^ Z.max 0 e1 * 2 ^ 52 <=? n * 2 ^ Z.max 0 (- e1))%Z then e1 else (e1 - 1)%Z.

Lemma pos_ratio_unfold n d :
  pos_ratio_to_number n d =
    let e := ratio_exponent n d in
    let m := round_half_even (n * 2 ^ Z.max 0 (- e)) (d * 2 ^ Z.max 0 e) in
    if (m =? 2 ^ 53)%Z then Finite (2 ^ 52) (e + 1) else Finite m e.
Proof. done. Qed.

(** [n < 2^(l+1)] and [2^k <= d], so [n / d < 2^(l+1-k)]. *)
Lemma ratio_below n d e : (0 < n)%Z -> (0 < d)%Z -> (Z.log2 n + 1 <= Z.log2 d + e + 53)%Z ->
  (n * 2 ^ Z.max 0 (- e) < d * 2 ^ Z.max 0 e * 2 ^ 53)%Z.
Proof.
  intros Hn Hd He. pose proof (Z.log2_spec n Hn) as [_ Un]. pose proof (Z.log2_spec d Hd) as [Ld _].
  pose proof (Z.log2_nonneg n). pose proof (Z.log2_nonneg d).
  apply (Z.lt_le_trans _ (2 ^ Z.succ (Z.log2 n) * 2 ^ Z.max 0 (- e))).
  { apply Z.mul_lt_mono_pos_r; [apply pow2_pos|done]. }
  trans (2 ^ Z.log2 d * 2 ^ Z.max 0 e * 2 ^ 53)%Z.
  - rewrite <- !Z.pow_add_r by lia. apply Z.pow_le_mono_r; lia.
  - apply Z.mul_le_mono_nonneg_r; [lia|]. apply Z.mul_le_mono_nonneg_r; [|done]. apply Z.pow_nonneg. lia.
Qed.

Lemma ratio_exponent_fits n d : (0 < n)%Z -> (0 < d)%Z -> fits_exponent n d (ratio_exponent n d).
Proof.
  intros Hn Hd. unfold ratio_exponent. cbv zeta. destruct (_ <=? _)%Z eqn:E; b2p.
  - split; [done|]. apply ratio_below; lia.
  - split; [apply scaled_ratio; lia|]. set (e1 := (Z.log2 n - Z.log2 d - 52)%Z) in *.
    destruct (Z.leb_spec 1 e1).
    + replace (Z.max 0 e1) with (Z.succ (Z.max 0 (e1 - 1))) in E by lia. rewrite Z.pow_succ_r in E by lia.
      replace (Z.max 0 (- (e1 - 1))) with (Z.max 0 (- e1)) by lia. lia.
    + replace (Z.max 0 (- (e1 - 1))) with (Z.succ (Z.max 0 (- e1))) by lia. rewrite Z.pow_succ_r by lia.
      replace (Z.max 0 (e1 - 1)) with (Z.max 0 e1) by lia. lia.
Qed.

Lemma round_half_even_scale a b c : (0 < b)%Z -> (0 < c)%Z -> round_half_even (a * c) (b * c) = round_half_even a b.
Proof.
  intros Hb Hc. unfold round_half_even. rewrite Z.div_mul_cancel_r, Zmult_mod_distr_r by lia.
  set (r := (a mod b)%Z). replace (2 * (r * c) <? b * c)%Z with (2 * r <? b)%Z; [|apply eq_true_iff_eq; rewrite !Z.ltb_lt; nia].
  replace (b * c <? 2 * (r * c))%Z with (b <? 2 * r)%Z; [done|]. apply eq_true_iff_eq. rewrite !Z.ltb_lt. nia.
Qed.

Lemma pos_ratio_scale n d c : (0 < n)%Z -> (0 < d)%Z -> (0 < c)%Z ->
  pos_ratio_to_number (n * c) (d * c) = pos_ratio_to_number n d.
Proof.
  intros Hn Hd Hc. rewrite !pos_ratio_unfold. cbv zeta.
  replace (ratio_exponent (n * c) (d * c)) with (ratio_exponent n d).
  - set (e := ratio_exponent n d).
    replace (n * c * 2 ^ Z.max 0 (- e))%Z with (n * 2 ^ Z.max 0 (- e) * c)%Z by lia.
    replace (d * c * 2 ^ Z.max 0 e)%Z with (d * 2 ^ Z.max 0 e * c)%Z by lia.
    rewrite round_half_even_scale; [done| |done]. pose proof (pow2_pos e). nia.
  - apply (fits_exponent_unique n d); [done|by apply ratio_exponent_fits|].
    rewrite <- (fits_exponent_scale _ _ c) by done. apply ratio_exponent_fits; nia.
Qed.

(** A number depends on the fraction only, not on how it is written. *)
Lemma ratio_scale n d c : (0 < d)%Z -> (0 < c)%Z -> ratio_to_number (n * c) (d * c) = ratio_to_number n d.
Proof.
  intros Hd Hc. unfold ratio_to_number.
  replace (n * c =? 0)%Z with (n =? 0)%Z by (apply eq_true_iff_eq; rewrite !Z.eqb_eq; nia).
  replace (n * c <? 0)%Z with (n <? 0)%Z by (apply eq_true_iff_eq; rewrite !Z.ltb_lt; nia).
  destruct (n =? 0)%Z eqn:E0; [done|]. destruct (n <? 0)%Z eqn:E1; b2p.
  - replace (- (n * c))%Z with (- n * c)%Z by lia. rewrite pos_ratio_scale by lia. done.
  - apply pos_ratio_scale; lia.
Qed.
