(* ===== verification/Dates.v ===== *)
(** * Dates and their JSON images

    [JSON.stringify] turns a [Date] into its ISO string and (through the
    patch of [src/common/bigint-json.ts]) a [bigint] into a decimal string.
    This file models [Date.prototype.toISOString] and [new Date(iso)] on the
    24-character form [YYYY-MM-DDTHH:mm:ss.sssZ] (years 0000 to 9999), by the
    proleptic Gregorian calendar, and the decimal image of a [bigint]. *)
From Stdlib Require Import Ascii DecimalString DecimalZ.
From S2P Require Import Prelude.
Local Open Scope Z_scope.

(** ** Calendar arithmetic *)

(** Day of a 400-year era (starting 1 March) to its year, month and day. *)
Definition era_civil (doe : Z) : Z * Z * Z :=
  let yoe := (doe - doe / 1460 + doe / 36524 - doe / 146096) / 365 in
  let doy := doe - (365 * yoe + yoe / 4 - yoe / 100) in
  let mp := (5 * doy + 2) / 153 in
  let d := doy - (153 * mp + 2) / 5 + 1 in
  (yoe, mp, d).

(** Year of era, month counted from March, day: back to the day of the era. *)
Definition era_day (yoe mp d : Z) : Z :=
  yoe * 365 + yoe / 4 - yoe / 100 + ((153 * mp + 2) / 5 + d - 1).

Definition civil_from_days (days : Z) : Z * Z * Z :=
  let z := days + 719468 in
  let '(yoe, mp, d) := era_civil (z mod 146097) in
  let m := if mp <? 10 then mp + 3 else mp - 9 in
  let y := yoe + (z / 146097) * 400 in
  (if m <=? 2 then y + 1 else y, m, d).

Definition days_from_civil (y m d : Z) : Z :=
  let y' := if m <=? 2 then y - 1 else y in
  let mp := if 2 <? m then m - 3 else m + 9 in
  (y' / 400) * 146097 + era_day (y' mod 400) mp d - 719468.

(** ** Fixed-width decimals *)

Definition digit (n : Z) : Ascii.ascii := Ascii.ascii_of_nat (48 + Z.to_nat n).

Fixpoint digits (k : nat) (n : Z) : string :=
  match k with
  | O => ""
  | S k => String (digit (n / 10 ^ Z.of_nat k)) (digits k (n mod 10 ^ Z.of_nat k))
  end.

Definition digit_val (c : Ascii.ascii) : option Z :=
  let n := Ascii.nat_of_ascii c in
  if (Nat.leb 48 n && Nat.leb n 57)%bool then Some (Z.of_nat (n - 48)) else None.

(** Reads [k] digits, returning the number and the rest of the string. *)
Fixpoint read_digits (k : nat) (s : string) : option (Z * string) :=
  match k, s with
  | O, _ => Some (0, s)
  | S k, String c s' =>
      match digit_val c, read_digits k s' with
      | Some v, Some (n, rest) => Some (v * 10 ^ Z.of_nat k + n, rest)
      | _, _ => None
      end
  | S _, EmptyString => None
  end.

Definition read_char (c : Ascii.ascii) (s : string) : option string :=
  match s with
  | String c' s' => if Ascii.eqb c c' then Some s' else None
  | EmptyString => None
  end.

(** ** [toISOString] and [new Date(iso).getTime()] *)

Definition MS_PER_DAY : Z := 86400000.

Definition toISOString (ms : Z) : string :=
  let '(y, m, d) := civil_from_days (ms / MS_PER_DAY) in
  let t := ms mod MS_PER_DAY in
  digits 4 y +:+ String "-"%char (digits 2 m +:+ String "-"%char (digits 2 d +:+ String "T"%char
    (digits 2 (t / 3600000) +:+ String ":"%char (digits 2 (t mod 3600000 / 60000) +:+
     String ":"%char (digits 2 (t mod 60000 / 1000) +:+ String "."%char (digits 3 (t mod 1000) +:+
     String "Z"%char "")))))).

Definition parseDate (s : string) : option Z :=
  '(y, s) ← read_digits 4 s; s ← read_char "-"%char s;
  '(m, s) ← read_digits 2 s; s ← read_char "-"%char s;
  '(d, s) ← read_digits 2 s; s ← read_char "T"%char s;
  '(hh, s) ← read_digits 2 s; s ← read_char ":"%char s;
  '(mi, s) ← read_digits 2 s; s ← read_char ":"%char s;
  '(ss, s) ← read_digits 2 s; s ← read_char "."%char s;
  '(ms, s) ← read_digits 3 s; s ← read_char "Z"%char s;
  match s with
  | EmptyString => Some (days_from_civil y m d * MS_PER_DAY
                         + hh * 3600000 + mi * 60000 + ss * 1000 + ms)
  | _ => None
  end.

(** The instants with a four-digit year: 0000-01-01 to 9999-12-31. *)
Definition in_iso_range (ms : Z) : Prop :=
  -62167219200000 <= ms < 253402300800000.

(** ** Decimal image of a bigint *)

Definition bigint_toString (n : Z) : string := NilZero.string_of_int (Z.to_int n).
Definition BigInt_parse (s : string) : option Z := option_map Z.of_int (NilZero.int_of_string s).

(** ** Round trips *)

Lemma digit_val_digit n : 0 <= n < 10 -> digit_val (digit n) = Some n.
Proof.
  intros H.
  assert (Forall (fun m => digit_val (digit m) = Some m) (seqZ 0 10)) as Hall
    by (vm_compute; repeat constructor).
  rewrite Forall_forall in Hall. apply Hall. apply elem_of_seqZ. lia.
Qed.

Lemma read_digits_digits k n rest :
  0 <= n < 10 ^ Z.of_nat k -> read_digits k (digits k n +:+ rest) = Some (n, rest).
Proof.
  revert n. induction k as [|k IH]; intros n Hn.
  - simpl in *. do 2 f_equal. lia.
  - assert (0 < 10 ^ Z.of_nat k) by (apply Z.pow_pos_nonneg; lia).
    rewrite Nat2Z.inj_succ, Z.pow_succ_r in Hn by lia.
    change (digits (S k) n +:+ rest) with (String (digit (n / 10 ^ Z.of_nat k))
      (digits k (n mod 10 ^ Z.of_nat k) +:+ rest)).
    cbn [read_digits].
    rewrite digit_val_digit.
    + rewrite IH by (apply Z.mod_pos_bound; lia). do 2 f_equal.
      pose proof (Z.div_mod n (10 ^ Z.of_nat k)). lia.
    + split; [apply Z.div_pos; lia|]. apply Z.div_lt_upper_bound; lia.
Qed.

Lemma read_char_cons c s : read_char c (String c s) = Some s.
Proof. cbn. by rewrite Ascii.eqb_refl. Qed.

(** Year of era and day of year of any day of the 146097-day era. *)
Lemma era_year_bounds doe :
  0 <= doe < 146097 ->
  let yoe := (doe - doe / 1460 + doe / 36524 - doe / 146096) / 365 in
  let doy := doe - (365 * yoe + yoe / 4 - yoe / 100) in
  0 <= yoe < 400 /\ 0 <= doy <= 365.
Proof. intros H yoe doy. subst doy yoe. Z.to_euclidean_division_equations; lia. Qed.

Lemma era_month_bounds doy :
  0 <= doy <= 365 ->
  let mp := (5 * doy + 2) / 153 in
  let d := doy - (153 * mp + 2) / 5 + 1 in 0 <= mp < 12 /\ 1 <= d < 32.
Proof. intros H mp d. subst d mp. Z.to_euclidean_division_equations; lia. Qed.

Lemma era_roundtrip doe :
  0 <= doe < 146097 ->
  let '(yoe, mp, d) := era_civil doe in
  era_day yoe mp d = doe /\ 0 <= yoe < 400 /\ 0 <= mp < 12 /\ 1 <= d < 32.
Proof.
  intros H. unfold era_civil, era_day.
  pose proof (era_year_bounds doe H) as [Hy Hd].
  pose proof (era_month_bounds _ Hd) as [Hm Hdd]. repeat split; lia.
Qed.

Lemma civil_roundtrip days :
  let '(y, m, d) := civil_from_days days in
  days_from_civil y m d = days /\ 1 <= m <= 12 /\ 1 <= d < 32.
Proof.
  unfold civil_from_days. set (z := days + 719468).
  pose proof (Z.mod_pos_bound z 146097 ltac:(lia)) as Hm.
  pose proof (era_roundtrip (z mod 146097) ltac:(lia)) as H.
  destruct (era_civil (z mod 146097)) as [[yoe mp] d].
  destruct H as (Hd & Hy & Hmp & Hdd).
  pose proof (Z.div_mod z 146097 ltac:(lia)) as Hdiv.
  unfold days_from_civil.
  assert (forall q, (yoe + q * 400) / 400 = q /\ (yoe + q * 400) mod 400 = yoe) as Hq.
  { intros q. rewrite Z.div_add, Z.mod_add, Z.div_small, Z.mod_small by lia. lia. }
  destruct (Hq (z / 146097)) as [Hq1 Hq2].
  destruct (mp <? 10) eqn:E10; b2p.
  - destruct (mp + 3 <=? 2) eqn:E2; b2p; [lia|].
    destruct (2 <? mp + 3) eqn:E3; b2p; [|lia].
    rewrite Hq1, Hq2. replace (mp + 3 - 3) with mp by lia. subst z. lia.
  - destruct (mp - 9 <=? 2) eqn:E2; b2p; [|lia].
    destruct (2 <? mp - 9) eqn:E3; b2p; [lia|].
    rewrite Z.add_simpl_r, Hq1, Hq2. replace (mp - 9 + 9) with mp by lia. subst z. lia.
Qed.

(** In ISO range the year has four digits. *)
Lemma civil_year_range days :
  -719528 <= days < 2932897 ->
  let '(y, m, d) := civil_from_days days in 0 <= y < 10000.
Proof.
  intros Hr. pose proof (civil_roundtrip days) as Hrt.
  destruct (civil_from_days days) as [[y m] d]. destruct Hrt as (Hd & Hm & Hdd).
  unfold days_from_civil, era_day in Hd.
  set (y' := if m <=? 2 then y - 1 else y) in *.
  set (mp := if 2 <? m then m - 3 else m + 9) in *.
  assert (0 <= (153 * mp + 2) / 5 <= 337) as Hmp.
  { subst mp. destruct (2 <? m) eqn:?; b2p; split;
      try (apply Z.div_pos; lia); apply Z.div_le_upper_bound; lia. }
  pose proof (Z.div_mod y' 400 ltac:(lia)). pose proof (Z.mod_pos_bound y' 400 ltac:(lia)).
  assert (m <= 2 /\ y' = y - 1 /\ mp = m + 9 \/ 2 < m /\ y' = y /\ mp = m - 3) as Hcase.
  { subst y' mp. destruct (m <=? 2) eqn:?, (2 <? m) eqn:?; b2p; lia. }
  pose proof (Z.div_mod (y' mod 400) 4 ltac:(lia)).
  pose proof (Z.mod_pos_bound (y' mod 400) 4 ltac:(lia)).
  pose proof (Z.div_mod (y' mod 400) 100 ltac:(lia)).
  pose proof (Z.mod_pos_bound (y' mod 400) 100 ltac:(lia)).
  clearbody y' mp.
  pose proof (Z.div_mod (153 * mp + 2) 5 ltac:(lia)).
  pose proof (Z.mod_pos_bound (153 * mp + 2) 5 ltac:(lia)).
  destruct Hcase as [(? & -> & ->)|(? & -> & ->)]; lia.
Qed.

Lemma parse_toISOString ms : in_iso_range ms -> parseDate (toISOString ms) = Some ms.
Proof.
  intros [Hlo Hhi]. unfold toISOString, parseDate, MS_PER_DAY in *.
  pose proof (Z.div_mod ms 86400000 ltac:(lia)) as Hdm.
  pose proof (Z.mod_pos_bound ms 86400000 ltac:(lia)) as Ht.
  assert (-719528 <= ms / 86400000 < 2932897) as Hdays.
  { split; [apply Z.div_le_lower_bound | apply Z.div_lt_upper_bound]; lia. }
  pose proof (civil_year_range _ Hdays) as Hy. pose proof (civil_roundtrip (ms / 86400000)) as Hc.
  destruct (civil_from_days (ms / 86400000)) as [[y m] d]. destruct Hc as (Hd & Hm & Hdd).
  set (t := ms mod 86400000) in *.
  assert (0 <= t / 3600000 < 100) by (split; [apply Z.div_pos|apply Z.div_lt_upper_bound]; lia).
  pose proof (Z.mod_pos_bound t 3600000 ltac:(lia)).
  pose proof (Z.mod_pos_bound t 60000 ltac:(lia)).
  pose proof (Z.mod_pos_bound t 1000 ltac:(lia)).
  assert (0 <= t mod 3600000 / 60000 < 100)
    by (split; [apply Z.div_pos|apply Z.div_lt_upper_bound]; lia).
  assert (0 <= t mod 60000 / 1000 < 100)
    by (split; [apply Z.div_pos|apply Z.div_lt_upper_bound]; lia).
  repeat (rewrite read_digits_digits by (change (10 ^ Z.of_nat 4) with 10000;
    change (10 ^ Z.of_nat 2) with 100; change (10 ^ Z.of_nat 3) with 1000; lia);
    cbn [mbind option_bind]; rewrite read_char_cons; cbn [mbind option_bind]).
  cbn. f_equal. rewrite Hd.
  pose proof (Z.div_mod t 3600000 ltac:(lia)). pose proof (Z.div_mod (t mod 3600000) 60000 ltac:(lia)).
  pose proof (Z.div_mod (t mod 60000) 1000 ltac:(lia)).
  assert ((t mod 3600000) mod 60000 = t mod 60000)
    by (apply Z.mod_mod_divide; by exists 60).
  assert ((t mod 60000) mod 1000 = t mod 1000)
    by (apply Z.mod_mod_divide; by exists 60).
  lia.
Qed.

Lemma BigInt_parse_toString n : BigInt_parse (bigint_toString n) = Some n.
Proof.
  unfold BigInt_parse, bigint_toString.
  rewrite NilZero.isi; simpl.
  - by rewrite DecimalZ.of_to.
  - destruct n as [|p|p]; simpl; [done| |done].
    intros [= H]. by apply DecimalPos.Unsigned.to_uint_nonnil in H.
  - destruct n as [|p|p]; simpl; [done|done|].
    intros [= H]. by apply DecimalPos.Unsigned.to_uint_nonnil in H.
Qed.

Global Opaque toISOString parseDate bigint_toString BigInt_parse.
