(* ===== verification/Text.v ===== *)
(** * Text helpers

    String functions the services build URLs and hashes with: trailing-slash
    removal, [encodeURIComponent], file extensions, hex decoding, and
    [stableStringify] of [src/escrow/escrow.service.ts], the canonical JSON
    that request hashes are computed from. *)
From Stdlib Require Import Ascii.
From S2P Require Import Prelude Records.
Local Open Scope char_scope.

(** ** URLs *)

(** [s.replace(/\/+$/, '')]. *)
Fixpoint stripTrailingSlashes (s : string) : string :=
  match s with
  | EmptyString => EmptyString
  | String c s =>
      match stripTrailingSlashes s with
      | EmptyString => if bool_decide (c = "/") then EmptyString else String c EmptyString
      | r => String c r
      end
  end.

Definition char_in (lo hi : nat) (c : ascii) : bool :=
  Nat.leb lo (nat_of_ascii c) && Nat.leb (nat_of_ascii c) hi.

(** [A-Z a-z 0-9 - _ . ! ~ * ' ( )]: what [encodeURIComponent] keeps. *)
Definition is_uri_unreserved (c : ascii) : bool :=
  char_in 65 90 c || char_in 97 122 c || char_in 48 57 c ||
  bool_decide (c ∈ ["-"; "_"; "."; "!"; "~"; "*"; "'"; "("; ")"]).

Definition hex_digit (n : nat) : ascii :=
  if Nat.ltb n 10 then ascii_of_nat (48 + n) else ascii_of_nat (55 + n).

Fixpoint encodeURIComponent (s : string) : string :=
  match s with
  | EmptyString => EmptyString
  | String c s =>
      if is_uri_unreserved c then String c (encodeURIComponent s)
      else String "%" (String (hex_digit (nat_of_ascii c / 16))
             (String (hex_digit (nat_of_ascii c mod 16)) (encodeURIComponent s)))
  end.

(** [s.includes('.') ? s.slice(s.lastIndexOf('.') + 1) : '']. *)
Fixpoint extension (s : string) : option string :=
  match s with
  | EmptyString => None
  | String c s' =>
      match extension s' with
      | Some e => Some e
      | None => if bool_decide (c = ".") then Some s' else None
      end
  end.

(** ** Hexadecimal *)

Definition hex_val (c : ascii) : option nat :=
  if char_in 48 57 c then Some (nat_of_ascii c - 48)
  else if char_in 97 102 c then Some (nat_of_ascii c - 87)
  else if char_in 65 70 c then Some (nat_of_ascii c - 55)
  else None.

(** [Buffer.from(s, 'hex')]: the bytes of the leading valid digit pairs. *)
Fixpoint hex_bytes (s : string) : list nat :=
  match s with
  | String a (String b s') =>
      match hex_val a, hex_val b with
      | Some x, Some y => (16 * x + y) :: hex_bytes s'
      | _, _ => []
      end
  | _ => []
  end.

(** ** Numbers *)

(** A run of digits in a radix: its value, its length, the rest. *)
Fixpoint read_uint (radix : nat) (acc : Z) (len : nat) (s : string) : Z * nat * string :=
  match s with
  | String c s' =>
      match hex_val c with
      | Some d => if Nat.ltb d radix then read_uint radix (acc * Z.of_nat radix + Z.of_nat d) (S len) s'
                  else (acc, len, s)
      | None => (acc, len, s)
      end
  | EmptyString => (acc, len, s)
  end.

Definition read_sign (s : string) : bool * string :=
  match s with
  | String c s' =>
      if bool_decide (c = "-") then (true, s')
      else if bool_decide (c = "+") then (false, s') else (false, s)
  | EmptyString => (false, s)
  end.

(** [m * 10 ^ e]. *)
Definition decimal_to_number (m e : Z) : number :=
  if (0 <=? e)%Z then ratio_to_number (m * 10 ^ e) 1 else ratio_to_number m (10 ^ (- e)).

(** The exponent part, if any: [None] when the rest is not an exponent. *)
Definition read_exponent (s : string) : option Z :=
  match s with
  | EmptyString => Some 0%Z
  | String c s' =>
      if bool_decide (c = "e") || bool_decide (c = "E") then
        let '(neg, s1) := read_sign s' in
        match read_uint 10 0 0 s1 with
        | (v, S _, EmptyString) => Some (if neg then - v else v)%Z
        | _ => None
        end
      else None
  end.

Definition parse_decimal (s : string) : number :=
  let '(neg, s1) := read_sign s in
  let '(ip, ni, s2) := read_uint 10 0 0 s1 in
  let '(fp, nf, s3) :=
    match s2 with
    | String c s' => if bool_decide (c = ".") then read_uint 10 ip 0 s' else (ip, 0, s2)
    | EmptyString => (ip, 0, s2)
    end in
  if Nat.eqb (ni + nf) 0 then NaN
  else
    match read_exponent s3 with
    | None => NaN
    | Some e => decimal_to_number (if neg then - fp else fp) (e - Z.of_nat nf)
    end.

Definition parse_radix (radix : nat) (s : string) : number :=
  match read_uint radix 0 0 s with
  | (v, S _, EmptyString) => ratio_to_number v 1
  | _ => NaN
  end.

(** [Number(s)].  The infinities have no value here; they equal no amount, so
    [NaN] stands for them. *)
Definition Number_of_string (s : string) : number :=
  match trim s with
  | EmptyString => Finite 0 0
  | String a (String b s') as s0 =>
      if bool_decide (a = "0") then
        if bool_decide (b = "x") || bool_decide (b = "X") then parse_radix 16 s'
        else if bool_decide (b = "o") || bool_decide (b = "O") then parse_radix 8 s'
        else if bool_decide (b = "b") || bool_decide (b = "B") then parse_radix 2 s'
        else parse_decimal s0
      else parse_decimal s0
  | s0 => parse_decimal s0
  end.

(** ** Canonical JSON *)

(** A JSON value as [JSON.parse] yields it; an object field may be
    [undefined] ([None]), as after a class-transformer pass. *)
Inductive json : Type :=
| JNull
| JBool (b : bool)
| JNum (n : number)
| JStr (s : string)
| JArr (items : list json)
| JObj (fields : list (string * option json)).

(** [JSON.stringify] of a string: quotes, backslashes and control characters
    are escaped. *)
Definition escape_char (c : ascii) : string :=
  let n := nat_of_ascii c in
  let bs s := String "\" s in
  let one c := String c EmptyString in
  if Nat.eqb n 34 then bs (one (ascii_of_nat 34)) else
  if Nat.eqb n 92 then bs (one "\") else
  if Nat.eqb n 8 then bs (one "b") else
  if Nat.eqb n 9 then bs (one "t") else
  if Nat.eqb n 10 then bs (one "n") else
  if Nat.eqb n 12 then bs (one "f") else
  if Nat.eqb n 13 then bs (one "r") else
  if Nat.ltb n 32 then
    bs (String "u" (String "0" (String "0" (String (lower_char (hex_digit (n / 16)))
      (one (lower_char (hex_digit (n mod 16))))))))
  else one c.

Fixpoint escape (s : string) : string :=
  match s with
  | EmptyString => EmptyString
  | String c s => escape_char c +:+ escape s
  end.

Definition DQ : string := String (ascii_of_nat 34) EmptyString.

Definition quote (s : string) : string := DQ +:+ escape s +:+ DQ.

Fixpoint join (sep : string) (l : list string) : string :=
  match l with
  | [] => EmptyString
  | [s] => s
  | s :: l => s +:+ sep +:+ join sep l
  end.

Section stringify.
Context (numberToString : number -> string).

Fixpoint stableStringify (value : json) : string :=
  match value with
  | JArr items => "[" +:+ join "," (stableStringify <$> items) +:+ "]"
  | JObj record =>
      let fields := omap (fun '(key, v) =>
        match v with Some v => Some (key, stableStringify v) | None => None end) record in
      "{" +:+ join "," ((fun '(key, v) => quote key +:+ ":" +:+ v) <$>
        sort_by (fun x y => String.leb x.1 y.1) fields) +:+ "}"
  | JNull => "null"
  | JBool b => if b then "true" else "false"
  | JNum n => numberToString n
  | JStr s => quote s
  end.

End stringify.

(** ** Laws *)

Lemma ascii_compare_lt_trans a b c :
  Ascii.compare a b = Lt -> Ascii.compare b c = Lt -> Ascii.compare a c = Lt.
Proof. unfold Ascii.compare. rewrite !N.compare_lt_iff. lia. Qed.

Lemma ascii_compare_refl a : Ascii.compare a a = Eq.
Proof. apply N.compare_refl. Qed.

Lemma leb_cons a x b y :
  String.leb (String a x) (String b y) = true <->
  Ascii.compare a b = Lt \/ (a = b /\ String.leb x y = true).
Proof.
  unfold String.leb. simpl. destruct (Ascii.compare a b) eqn:E.
  - apply Ascii.compare_eq_iff in E as ->. naive_solver.
  - naive_solver.
  - split; [done|]. intros [?|[-> _]]; [congruence|]. by rewrite ascii_compare_refl in E.
Qed.

Lemma leb_trans x y z : String.leb x y = true -> String.leb y z = true -> String.leb x z = true.
Proof.
  revert y z. induction x as [|a x IH]; intros [|b y] [|c z]; try done.
  rewrite !leb_cons. intros [H1|[-> H1]] [H2|[-> H2]]; eauto using ascii_compare_lt_trans.
Qed.

(** Sorting by distinct keys does not depend on the order of the input. *)
Lemma sort_by_key_unique {A} (l1 l2 : list (string * A)) :
  NoDup l1.*1 -> l1 ≡ₚ l2 ->
  sort_by (fun x y => String.leb x.1 y.1) l1 = sort_by (fun x y => String.leb x.1 y.1) l2.
Proof.
  intros Hnd Hp. eapply (StronglySorted_unique_strong (fun x y => String.leb x.1 y.1 = true)).
  - intros [k1 v1] [k2 v2]. rewrite !sort_by_perm, <- Hp. simpl. intros H1 H2 Hle Hge.
    pose proof (String.leb_antisym _ _ Hle Hge) as ->.
    f_equal. apply (elem_of_list_to_map_1 (M:=gmap string)) in H1, H2; [|done|done]. congruence.
  - apply sort_by_sorted; [intros; apply String.leb_total|intros; eauto using leb_trans].
  - apply sort_by_sorted; [intros; apply String.leb_total|intros; eauto using leb_trans].
  - by rewrite !sort_by_perm.
Qed.

Example number_250 : Number_of_string "250.0000000" = Finite 8796093022208000 (-45).
Proof. vm_compute. reflexivity. Qed.

Example number_agrees : Number_of_string "0.1" = ratio_to_number 10000000 DECIMAL_SCALE.
Proof. vm_compute. reflexivity. Qed.

Example number_bad : Number_of_string "1.2.3" = NaN.
Proof. vm_compute. reflexivity. Qed.
