(* ===== verification/Tables.v ===== *)
(** * The tables and external services around the escrow core

    Rows of the notification, vendor, credential and authentication tables
    ([src/prisma/schema.prisma] and the records of
    [src/src/prisma/prisma.service.ts]), the messages handed to the mail, SMS,
    logistics and web-authentication providers, and what those providers may
    answer.  [Accounts] groups the tables, [Side] the in-memory state of the
    services, [Providers] the external code, which is a parameter. *)
From S2P Require Import Prelude Records Text.

(** ** Rows *)

Inductive NotificationStatus : Type := NPending | NSent | NFailed.

#[export] Instance NotificationStatus_eq_dec : EqDecision NotificationStatus.
Proof. solve_decision. Defined.

Inductive NotificationChannel : Type := EMAIL | SMS.

#[export] Instance NotificationChannel_eq_dec : EqDecision NotificationChannel.
Proof. solve_decision. Defined.

Definition channel_str (c : NotificationChannel) : string :=
  match c with EMAIL => "EMAIL" | SMS => "SMS" end.

(** The fields [CreateNotificationInput] carries. *)
Record NotificationInput : Type := mkNotificationInput {
  ni_escrowId : string;
  ni_type : NotificationType;
  ni_channel : NotificationChannel;
  ni_recipientAddress : string;
  ni_message : string;
  ni_providerMessageId : option string;
  ni_attemptCount : Z;
  ni_lastResponseCode : option Z
}.

Record NotificationRow : Type := mkNotification {
  nt_id : string;
  nt_input : NotificationInput;
  nt_status : NotificationStatus;
  nt_retryCount : Z;
  nt_sentAt : option Z;
  nt_failedAt : option Z;
  nt_lastError : option string;
  nt_createdAt : Z;
  nt_updatedAt : Z
}.

Record VendorTrackingSettingsRecord : Type := mkSettings {
  ts_id : string;
  ts_vendorAddress : string;
  ts_enableTracking : bool;
  ts_trackingProvider : option string;
  ts_trackingApiKey : option string;
  ts_autoUpdateTracking : bool;
  ts_trackingUpdateInterval : Z;
  ts_notifyOnDelivery : bool;
  ts_notifyOnDelay : bool;
  ts_notifyOnException : bool;
  ts_delayThresholdHours : Z;
  ts_deliveryConfirmation : bool;
  ts_requireSignature : bool;
  ts_insuranceRequired : bool;
  ts_insuranceValue : option number;
  ts_customTrackingRules : option json;
  ts_webhookUrl : option string;
  ts_webhookSecret : option string;
  ts_notificationChannels : list string;
  ts_trackingHistoryRetentionDays : Z;
  ts_createdAt : Z;
  ts_updatedAt : Z
}.

Record VendorAccountDetailsRecord : Type := mkDetails {
  ad_id : string;
  ad_vendorAddress : string;
  ad_businessLicense : option string;
  ad_taxId : option string;
  ad_bankAccountNumber : option string;
  ad_bankRoutingNumber : option string;
  ad_paymentMethods : list string;
  ad_preferredCurrency : string;
  ad_billingAddress : option string;
  ad_billingCity : option string;
  ad_billingState : option string;
  ad_billingCountry : option string;
  ad_billingPostalCode : option string;
  ad_shippingAddress : option string;
  ad_shippingCity : option string;
  ad_shippingState : option string;
  ad_shippingCountry : option string;
  ad_shippingPostalCode : option string;
  ad_websiteUrl : option string;
  ad_socialMediaLinks : list string;
  ad_businessHours : option string;
  ad_timezone : string;
  ad_language : string;
  ad_verificationStatus : string;
  ad_verifiedAt : option Z;
  ad_kycStatus : string;
  ad_kycCompletedAt : option Z;
  ad_riskScore : Z;
  ad_complianceNotes : option string;
  ad_customFields : option json;
  ad_createdAt : Z;
  ad_updatedAt : Z
}.

Record RefreshTokenRow : Type := mkToken {
  tk_id : string;
  tk_userId : string;
  tk_tokenHash : string;
  tk_parentTokenId : option string;
  tk_revoked : bool;
  tk_expiresAt : Z;
  tk_createdAt : Z
}.

Record NonceRow : Type := mkNonce {
  no_id : string;
  no_nonce : string;
  no_walletAddress : string;
  no_challenge : string;
  no_used : bool;
  no_expiresAt : Z;
  no_createdAt : Z
}.

(** The tables, by primary key; settings and details, whose [vendorAddress] is
    unique, by vendor. *)
Record Accounts : Type := mkAccounts {
  ac_settings : gmap string VendorTrackingSettingsRecord;
  ac_details : gmap string VendorAccountDetailsRecord;
  ac_tokens : gmap string RefreshTokenRow;
  ac_nonces : gmap string NonceRow;
  ac_credentials : gmap string string;   (* provider -> encryptedKey *)
  ac_notifications : gmap string NotificationRow
}.

Definition empty_accounts : Accounts := mkAccounts ∅ ∅ ∅ ∅ ∅ ∅.

Definition set_settings m (a : Accounts) : Accounts :=
  mkAccounts m (ac_details a) (ac_tokens a) (ac_nonces a) (ac_credentials a) (ac_notifications a).
Definition set_details m (a : Accounts) : Accounts :=
  mkAccounts (ac_settings a) m (ac_tokens a) (ac_nonces a) (ac_credentials a) (ac_notifications a).
Definition set_tokens m (a : Accounts) : Accounts :=
  mkAccounts (ac_settings a) (ac_details a) m (ac_nonces a) (ac_credentials a) (ac_notifications a).
Definition set_nonces m (a : Accounts) : Accounts :=
  mkAccounts (ac_settings a) (ac_details a) (ac_tokens a) m (ac_credentials a) (ac_notifications a).
Definition set_credentials m (a : Accounts) : Accounts :=
  mkAccounts (ac_settings a) (ac_details a) (ac_tokens a) (ac_nonces a) m (ac_notifications a).
Definition set_notifications m (a : Accounts) : Accounts :=
  mkAccounts (ac_settings a) (ac_details a) (ac_tokens a) (ac_nonces a) (ac_credentials a) m.

(** ** Messages to the providers *)

Record EmailMessage : Type := mkEmail {
  em_to : string;
  em_from : option string;
  em_templateId : string;
  em_escrowId : string;
  em_itemName : string;
  em_requestId : string
}.

Record SmsMessage : Type := mkSms { sm_to : string; sm_body : string; sm_from : option string }.

Inductive ProviderCall : Type :=
| SendGridSend (m : EmailMessage)
| TwilioCreate (m : SmsMessage).

(** A rejection of a provider: the fields the code looks at, [None] when one
    is absent or not a number; [pe_response] is [Some] when there is a
    [response] object. *)
Record ProviderError : Type := mkPvError {
  pe_code : option Z;
  pe_status : option Z;
  pe_response : option (option Z * option Z)   (* statusCode, status *)
}.

(** What [sendGrid.send] resolves to: an array whose first element is an
    object, or anything else. *)
Record SgHead : Type := mkSgHead {
  sh_headers : option (gmap string string);
  sh_statusCode : option Z
}.
Inductive SgResponse : Type := SgArray (head : SgHead) | SgOther.

(** ** The retry queue of notifications *)

(** The escrow of a job: the record it was enqueued with, or what JSON leaves
    of it in a job that comes from the BullMQ queue. *)
Inductive JobEscrow : Type :=
| LiveEscrow (r : EscrowRecord)
| StoredEscrow (j : EscrowJson).

Definition job_escrow_id (x : JobEscrow) : string :=
  match x with LiveEscrow r => e_id r | StoredEscrow j => e_id j end.

Record RetryJob : Type := mkJob {
  rj_channel : NotificationChannel;
  rj_type : NotificationType;
  rj_escrow : JobEscrow;
  rj_recipientAddress : string;
  rj_requestId : option string;
  rj_notificationId : option string
}.

(** [failedAt] is a [Date] when the entry is made and a string once it is JSON. *)
Record DeadLetterOf (D : Type) : Type := mkDeadLetter {
  dl_channel : NotificationChannel;
  dl_type : NotificationType;
  dl_escrowId : string;
  dl_recipientAddress : string;
  dl_attemptsExhausted : Z;
  dl_lastError : string;
  dl_failedAt : D;
  dl_requestId : option string
}.
Arguments mkDeadLetter {D}.
Arguments dl_channel {D}. Arguments dl_type {D}. Arguments dl_escrowId {D}.
Arguments dl_recipientAddress {D}. Arguments dl_attemptsExhausted {D}.
Arguments dl_lastError {D}. Arguments dl_failedAt {D}. Arguments dl_requestId {D}.

Abbreviation DeadLetterRecord := (DeadLetterOf Z).
Abbreviation DeadLetterJson := (DeadLetterOf string).

(** ** In-memory state of the services *)

Record Side : Type := mkSide {
  sd_calls : list ProviderCall;          (* requests handed to SendGrid and Twilio *)
  sd_dispatches : list RetryJob;         (* jobs handed to a channel dispatcher *)
  sd_sleeps : list Z;                    (* delays waited between attempts, in ms *)
  sd_bull : list RetryJob;               (* jobs of the BullMQ queue *)
  sd_bullDlq : list DeadLetterJson;      (* entries of the BullMQ dead-letter queue *)
  sd_sink : list DeadLetterRecord;       (* entries handed to the dead-letter sink *)
  sd_apiKey : option string;             (* [LogisticsService.apiKey], encrypted *)
  sd_dispatchers : NotificationChannel -> option (nat -> RetryJob -> outcome unit); (* by the dispatches so far *)
  sd_bullUp : bool                       (* [bullQueue] is connected *)
}.

Definition empty_side : Side := mkSide [] [] [] [] [] [] None (fun _ => None) false.

Definition add_call c (s : Side) : Side :=
  mkSide (sd_calls s ++ [c]) (sd_dispatches s) (sd_sleeps s) (sd_bull s) (sd_bullDlq s) (sd_sink s) (sd_apiKey s)
    (sd_dispatchers s) (sd_bullUp s).
Definition add_dispatch j (s : Side) : Side :=
  mkSide (sd_calls s) (sd_dispatches s ++ [j]) (sd_sleeps s) (sd_bull s) (sd_bullDlq s) (sd_sink s) (sd_apiKey s)
    (sd_dispatchers s) (sd_bullUp s).
Definition add_sleep z (s : Side) : Side :=
  mkSide (sd_calls s) (sd_dispatches s) (sd_sleeps s ++ [z]) (sd_bull s) (sd_bullDlq s) (sd_sink s) (sd_apiKey s)
    (sd_dispatchers s) (sd_bullUp s).
Definition add_bull j (s : Side) : Side :=
  mkSide (sd_calls s) (sd_dispatches s) (sd_sleeps s) (sd_bull s ++ [j]) (sd_bullDlq s) (sd_sink s) (sd_apiKey s)
    (sd_dispatchers s) (sd_bullUp s).
Definition add_bullDlq e (s : Side) : Side :=
  mkSide (sd_calls s) (sd_dispatches s) (sd_sleeps s) (sd_bull s) (sd_bullDlq s ++ [e]) (sd_sink s) (sd_apiKey s)
    (sd_dispatchers s) (sd_bullUp s).
Definition add_sink e (s : Side) : Side :=
  mkSide (sd_calls s) (sd_dispatches s) (sd_sleeps s) (sd_bull s) (sd_bullDlq s) (sd_sink s ++ [e]) (sd_apiKey s)
    (sd_dispatchers s) (sd_bullUp s).
Definition set_apiKey k (s : Side) : Side :=
  mkSide (sd_calls s) (sd_dispatches s) (sd_sleeps s) (sd_bull s) (sd_bullDlq s) (sd_sink s) k
    (sd_dispatchers s) (sd_bullUp s).
Definition set_dispatcher c f (s : Side) : Side :=
  mkSide (sd_calls s) (sd_dispatches s) (sd_sleeps s) (sd_bull s) (sd_bullDlq s) (sd_sink s) (sd_apiKey s)
    (fun c' => if decide (c' = c) then Some f else sd_dispatchers s c') (sd_bullUp s).
Definition set_bullUp b (s : Side) : Side :=
  mkSide (sd_calls s) (sd_dispatches s) (sd_sleeps s) (sd_bull s) (sd_bullDlq s) (sd_sink s) (sd_apiKey s)
    (sd_dispatchers s) b.

(** ** Providers *)

(** The logistics API over axios: a response body, [None] when it is not an
    object; a response with an error status; no response, with the error's code
    and message; or an error that is not axios'.  The fields of a body are
    whatever JSON they are; the events of an array are taken to have the
    documented type. *)
Record GiglEvent : Type := mkGiglEvent {
  ge_event_time : string; ge_event_code : string; ge_location : option string; ge_description : string }.

Record GiglBody : Type := mkGiglBody {
  gb_tracking_number : option json; gb_current_status : option json; gb_carrier_code : option json;
  gb_estimated_delivery : option json;
  gb_events : option (list GiglEvent)   (* [None]: not an array *) }.

Record GiglTrackingResponse : Type := mkGigl {
  gr_tracking_number : string; gr_current_status : string; gr_carrier_code : string;
  gr_estimated_delivery : option string; gr_events : list GiglEvent }.

Inductive GiglReply : Type :=
| GiglData (data : option GiglBody)
| GiglStatus (status : Z)
| GiglNoResponse (code message : option string)
| GiglError (e : exn).

(** What the code uses of [WebAuth] and the transaction type of the Stellar
    SDK, under the server's key, the passphrase and the domains. *)
Record WebAuth : Type := mkWebAuth {
  wa_build : nat -> string -> Z -> outcome string;   (* tick, account, timeout *)
  wa_read : string -> outcome string;                (* the client account of a challenge *)
  wa_hash : string -> outcome string;                (* [fromXDR(tx).hash()] in hex *)
  wa_verify : string -> string -> outcome unit       (* challenge, signer *)
}.

Record Providers : Type := mkProviders {
  pv_strkey : string -> bool;      (* [StrKey.isValidEd25519PublicKey] *)
  pv_vendorProfiles : bool;        (* [VendorProfileRepository] is injected in [NotificationsService] *)
  pv_configNumber : string -> option Z;   (* validated numeric settings *)
  pv_sendgrid : option (nat -> EmailMessage -> SgResponse + ProviderError);  (* [None]: the no-op client *)
  pv_twilio : option (nat -> SmsMessage -> option string + ProviderError);
  pv_bull : nat -> outcome unit;           (* BullMQ: the outcome of connecting or of an [add] *)
  pv_sink : option (nat -> DeadLetterRecord -> outcome unit);  (* the dead-letter sink, if configured *)
  pv_random : nat -> Z;                    (* [Math.random()] in units of 2^-53 *)
  pv_randomHex : nat -> string;            (* [randomBytes(32).toString('hex')] *)
  pv_iv : nat -> list nat;                 (* [randomBytes(12)] *)
  pv_seal : list nat -> list nat -> string -> list nat * list nat;  (* key, iv, text: tag, ciphertext *)
  pv_open : list nat -> list nat -> list nat -> list nat -> option string; (* key, iv, tag, ciphertext *)
  pv_webauth : WebAuth;
  pv_gigl : option (nat -> string -> string -> GiglReply);  (* [None]: no base URL; tick, path, token *)
  pv_parseDate : string -> Z               (* [new Date(s).getTime()] *)
}.
