(* ===== verification/Crypto.v ===== *)
(** * Bytes as text, and encryption at rest

    Hexadecimal and base64url text of byte sequences, splitting, and
    [src/src/common/sanitization/contact-encryption.util.ts] and
    [credential-encryption.util.ts]: AES-256-GCM is a parameter ([pv_seal],
    [pv_open]), the format around it is modelled.  A string is the sequence of
    its UTF-8 bytes, so [Buffer.from(s, 'utf8')] and [toString('utf8')] are
    the identity. *)
From Stdlib Require Import Ascii.
From S2P Require Import Prelude Records Dates Text Tables.
Local Open Scope char_scope.

Definition is_byte (n : nat) : Prop := (n < 256)%nat.

(** ** Hexadecimal *)

(** [buffer.toString('hex')]. *)
Fixpoint hex_string (l : list nat) : string :=
  match l with
  | [] => EmptyString
  | b :: l => String (lower_char (hex_digit (b / 16))) (String (lower_char (hex_digit (b mod 16))) (hex_string l))
  end.

(** ** Splitting *)

(** [s.split(c)]: at least one part. *)
Fixpoint split_on (c : ascii) (s : string) : list string :=
  match s with
  | EmptyString => [EmptyString]
  | String x s =>
      if bool_decide (x = c) then EmptyString :: split_on c s
      else match split_on c s with
           | p :: ps => String x p :: ps
           | [] => [String x EmptyString]
           end
  end.

Fixpoint has_char (c : ascii) (s : string) : bool :=
  match s with
  | EmptyString => false
  | String x s => bool_decide (x = c) || has_char c s
  end.

(** ** Base64url *)

Definition b64_char (n : nat) : ascii :=
  if Nat.ltb n 26 then ascii_of_nat (65 + n)
  else if Nat.ltb n 52 then ascii_of_nat (71 + n)
  else if Nat.ltb n 62 then ascii_of_nat (n - 4)
  else if Nat.eqb n 62 then "-" else "_".

(** The decoder accepts both alphabets and skips every other character. *)
Definition b64_val (c : ascii) : option nat :=
  if char_in 65 90 c then Some (nat_of_ascii c - 65)
  else if char_in 97 122 c then Some (nat_of_ascii c - 71)
  else if char_in 48 57 c then Some (nat_of_ascii c + 4)
  else if bool_decide (c = "-") || bool_decide (c = "+") then Some 62
  else if bool_decide (c = "_") || bool_decide (c = "/") then Some 63
  else None.

(** The six-bit groups of a byte sequence. *)
Fixpoint sextets (l : list nat) : list nat :=
  match l with
  | a :: b :: c :: l =>
      a / 4 :: a mod 4 * 16 + b / 16 :: b mod 16 * 4 + c / 64 :: c mod 64 :: sextets l
  | [a; b] => [a / 4; a mod 4 * 16 + b / 16; b mod 16 * 4]
  | [a] => [a / 4; a mod 4 * 16]
  | [] => []
  end.

Fixpoint unsextets (l : list nat) : list nat :=
  match l with
  | p :: q :: r :: s :: l =>
      p * 4 + q / 16 :: q mod 16 * 16 + r / 4 :: r mod 4 * 64 + s :: unsextets l
  | [p; q; r] => [p * 4 + q / 16; q mod 16 * 16 + r / 4]
  | [p; q] => [p * 4 + q / 16]
  | _ => []
  end.

Definition base64url (l : list nat) : string := String.string_of_list_ascii (b64_char <$> sextets l).

(** [Buffer.from(s, 'base64url')]. *)
Definition base64url_bytes (s : string) : list nat := unsextets (omap b64_val (String.list_ascii_of_string s)).

Definition bytes_of (s : string) : list nat := nat_of_ascii <$> String.list_ascii_of_string s.
Definition text_of (l : list nat) : string := String.string_of_list_ascii (ascii_of_nat <$> l).

(** ** Encryption *)

Definition IV_BYTES : nat := 12.
Definition TAG_BYTES : nat := 16.
Definition SEPARATOR : string := ":".

Section encryption.
Context (pv : Providers).

(** [[iv, tag, encrypted].map(hex).join(':')]. *)
Definition seal_text (key : list nat) (t : nat) (plaintext : string) : string :=
  let iv := pv_iv pv t in
  let '(tag, encrypted) := pv_seal pv key iv plaintext in
  join SEPARATOR [hex_string iv; hex_string tag; hex_string encrypted].

Definition resolveKey (raw : option string) : outcome (list nat) :=
  if negb (truthy raw) then
    Throw (ServiceUnavailableException
      "CONTACT_ENCRYPTION_KEY environment variable is required for buyer contact encryption.")
  else
    let key := hex_bytes (coalesce raw EmptyString) in
    if negb (Nat.eqb (length key) 32) then
      Throw (ServiceUnavailableException
        ("CONTACT_ENCRYPTION_KEY must be exactly 64 hex characters (32 bytes). Got " +:+
          bigint_toString (Z.of_nat (length key)) +:+ " bytes."))
    else Ok key.

Definition encryptContact (raw : option string) (t : nat) (plaintext : string) : outcome string :=
  match resolveKey raw with
  | Throw e => Throw e
  | Ok key => Ok (seal_text key t plaintext)
  end.

Definition decryptContact (raw : option string) (stored : string) : outcome string :=
  match resolveKey raw with
  | Throw e => Throw e
  | Ok key =>
      match split_on ":" stored with
      | [ivHex; tagHex; ctHex] =>
          let iv := hex_bytes ivHex in
          let tag := hex_bytes tagHex in
          let ct := hex_bytes ctHex in
          if negb (Nat.eqb (length iv) IV_BYTES) || negb (Nat.eqb (length tag) TAG_BYTES) then
            Throw (JsError "Malformed encrypted contact: wrong IV or tag length.")
          else match pv_open pv key iv tag ct with
               | Some text => Ok text
               | None => Throw (JsError "Unsupported state or unable to authenticate data")
               end
      | _ => Throw (JsError "Invalid encrypted contact format.")
      end
  end.

Definition credential_key (encryptionKey : string) : outcome (list nat) :=
  let key := hex_bytes encryptionKey in
  if negb (Nat.eqb (length key) 32) then
    Throw (JsError ("Encryption key must be exactly 64 hex characters (32 bytes). Got " +:+
      bigint_toString (Z.of_nat (length key)) +:+ " bytes."))
  else Ok key.

Definition encryptCredential (encryptionKey : string) (t : nat) (plaintext : string) : outcome string :=
  match credential_key encryptionKey with
  | Throw e => Throw e
  | Ok key => Ok (seal_text key t plaintext)
  end.

Definition decryptCredential (encryptionKey stored : string) : outcome string :=
  match credential_key encryptionKey with
  | Throw e => Throw e
  | Ok key =>
      match split_on ":" stored with
      | [ivHex; tagHex; ctHex] =>
          let iv := hex_bytes ivHex in
          let tag := hex_bytes tagHex in
          let ct := hex_bytes ctHex in
          if negb (Nat.eqb (length iv) IV_BYTES) || negb (Nat.eqb (length tag) TAG_BYTES) then
            Throw (JsError "Malformed encrypted credential: wrong IV or tag length.")
          else match pv_open pv key iv tag ct with
               | Some text => Ok text
               | None => Throw (JsError "Failed to decrypt credential: invalid key or corrupted data.")
               end
      | _ => Throw (JsError "Invalid encrypted credential format.")
      end
  end.

Definition reencryptCredential (encrypted oldKey newKey : string) (t : nat) : outcome string :=
  match decryptCredential oldKey encrypted with
  | Throw e => Throw e
  | Ok plaintext => encryptCredential newKey t plaintext
  end.

(** What AES-GCM and the generator of initialisation vectors guarantee. *)
Record gcm_ok : Prop := {
  gcm_iv : forall t, length (pv_iv pv t) = IV_BYTES /\ Forall is_byte (pv_iv pv t);
  gcm_tag : forall k iv s, length (pv_seal pv k iv s).1 = TAG_BYTES /\ Forall is_byte (pv_seal pv k iv s).1;
  gcm_ct : forall k iv s, Forall is_byte (pv_seal pv k iv s).2;
  gcm_open : forall k iv s, pv_open pv k iv (pv_seal pv k iv s).1 (pv_seal pv k iv s).2 = Some s
}.
End encryption.

(** ** Round trips *)

Lemma forall_below (k : nat) (P : nat -> Prop) `{!forall n, Decision (P n)} :
  forallb (fun n => bool_decide (P n)) (seq 0 k) = true -> forall n, (n < k)%nat -> P n.
Proof.
  intros Hall n Hn. rewrite forallb_forall in Hall. apply (bool_decide_eq_true_1 _), Hall, in_seq. lia.
Qed.

(** A statement about small numbers, by enumeration. *)
Ltac enumerate_below :=
  match goal with
  | |- forall n, (n < ?k)%nat -> @?P n => apply (forall_below k P); vm_compute; reflexivity
  end.

Lemma hex_val_digit n : (n < 16)%nat -> hex_val (lower_char (hex_digit n)) = Some n.
Proof. revert n. enumerate_below. Qed.

Lemma hex_round_trip l : Forall is_byte l -> hex_bytes (hex_string l) = l.
Proof.
  induction 1 as [|b l Hb _ IH]; [done|]. unfold is_byte in Hb. cbn [hex_string hex_bytes].
  rewrite !hex_val_digit, IH.
  - f_equal. rewrite (Nat.div_mod_eq b 16) at 3. lia.
  - apply Nat.mod_upper_bound. lia.
  - apply Nat.Div0.div_lt_upper_bound. lia.
Qed.

Lemma hex_digit_no_colon n : (n < 16)%nat -> bool_decide (lower_char (hex_digit n) = ":") = false.
Proof. revert n. enumerate_below. Qed.

Lemma hex_no_colon l : Forall is_byte l -> has_char ":" (hex_string l) = false.
Proof.
  induction 1 as [|b l Hb _ IH]; [done|]. unfold is_byte in Hb. cbn [hex_string has_char].
  rewrite !hex_digit_no_colon, IH; [done| |].
  - apply Nat.mod_upper_bound. lia.
  - apply Nat.Div0.div_lt_upper_bound. lia.
Qed.

Lemma split_plain c s : has_char c s = false -> split_on c s = [s].
Proof.
  induction s as [|x s IH]; [done|]. simpl. intros [Hx Hs]%orb_false_iff. by rewrite Hx, IH.
Qed.

Lemma split_app c s r :
  has_char c s = false -> split_on c (s +:+ String c r) = s :: split_on c r.
Proof.
  induction s as [|x s IH]; intros Hs.
  - simpl. by rewrite bool_decide_true.
  - simpl in Hs. apply orb_false_iff in Hs as [Hx Hs].
    change ((String x s) +:+ String c r) with (String x (s +:+ String c r)).
    cbn [split_on]. by rewrite Hx, IH.
Qed.

Section laws.
Context (pv : Providers) (HG : gcm_ok pv).

(** Splitting and decoding sealed text gives back the three byte sequences. *)
Lemma unseal key t plaintext :
  exists iv tag ct, split_on ":" (seal_text pv key t plaintext) = [iv; tag; ct] /\
    hex_bytes iv = pv_iv pv t /\ length (hex_bytes iv) = IV_BYTES /\ length (hex_bytes tag) = TAG_BYTES /\
    pv_open pv key (hex_bytes iv) (hex_bytes tag) (hex_bytes ct) = Some plaintext.
Proof using HG.
  destruct (gcm_iv _ HG t) as [Hiv Biv]. destruct (gcm_tag _ HG key (pv_iv pv t) plaintext) as [Htag Btag].
  pose proof (gcm_ct _ HG key (pv_iv pv t) plaintext) as Bct.
  pose proof (gcm_open _ HG key (pv_iv pv t) plaintext) as Hopen.
  unfold seal_text. destruct (pv_seal pv key (pv_iv pv t) plaintext) as [tag ct]. cbn [fst snd] in *.
  exists (hex_string (pv_iv pv t)), (hex_string tag), (hex_string ct).
  rewrite !hex_round_trip by done. split_and!; [|done|done|done|done].
  assert (Hsep : forall r, SEPARATOR +:+ r = String ":" r) by done.
  cbn [join]. rewrite !Hsep. rewrite !split_app by by apply hex_no_colon.
  by rewrite split_plain by by apply hex_no_colon.
Qed.

(** What was encrypted is decrypted again, under the same key. *)
Lemma contact_round_trip raw t plaintext s :
  encryptContact pv raw t plaintext = Ok s -> decryptContact pv raw s = Ok plaintext.
Proof using HG.
  unfold encryptContact, decryptContact. destruct (resolveKey raw) as [key|e]; [|done]. intros [= <-].
  destruct (unseal key t plaintext) as (iv & tag & ct & -> & _ & -> & -> & ->). done.
Qed.

Lemma credential_round_trip key t plaintext s :
  encryptCredential pv key t plaintext = Ok s -> decryptCredential pv key s = Ok plaintext.
Proof using HG.
  unfold encryptCredential, decryptCredential. destruct (credential_key key) as [k|e]; [|done]. intros [= <-].
  destruct (unseal k t plaintext) as (iv & tag & ct & -> & _ & -> & -> & ->). done.
Qed.
End laws.

Lemma b64_val_char n : (n < 64)%nat -> b64_val (b64_char n) = Some n.
Proof. revert n. enumerate_below. Qed.

Lemma sextets_small l : Forall is_byte l -> Forall (fun n => n < 64)%nat (sextets l).
Proof.
  unfold is_byte. intros Hl.
  induction l as [l IH] using (induction_ltof1 _ (@length nat)); unfold ltof in IH.
  assert (Hd : forall a, (a < 256 -> a / 4 < 64 /\ a mod 4 * 16 < 64 /\ a / 16 < 16 /\ a mod 16 * 4 < 64 /\
    a / 64 < 4 /\ a mod 64 < 64 /\ a mod 4 * 16 <= 48 /\ a mod 16 * 4 <= 60)%nat).
  { intros a Ha. pose proof (Nat.mod_upper_bound a 4). pose proof (Nat.mod_upper_bound a 16).
    pose proof (Nat.mod_upper_bound a 64).
    pose proof (Nat.Div0.div_lt_upper_bound a 4 64). pose proof (Nat.Div0.div_lt_upper_bound a 16 16).
    pose proof (Nat.Div0.div_lt_upper_bound a 64 4). lia. }
  destruct l as [|a [|b [|c l]]]; repeat (apply Forall_cons in Hl as [?%Hd Hl]); cbn [sextets];
    repeat (apply Forall_cons; split; [lia|]); try done. apply IH; [simpl; lia|done].
Qed.

Lemma unsextets_sextets l : Forall is_byte l -> unsextets (sextets l) = l.
Proof.
  unfold is_byte. intros Hl.
  induction l as [l IH] using (induction_ltof1 _ (@length nat)); unfold ltof in IH.
  assert (Hq : forall a b, (b < 16 -> (a mod 4 * 16 + b) / 16 = a mod 4 /\ (a mod 4 * 16 + b) mod 16 = b)%nat).
  { intros a b Hb. split; [rewrite Nat.div_add_l by lia; rewrite (Nat.div_small b 16) by lia; lia|].
    rewrite Nat.add_comm, Nat.Div0.mod_add. by apply Nat.mod_small. }
  assert (Hr : forall a b, (b < 4 -> (a mod 16 * 4 + b) / 4 = a mod 16 /\ (a mod 16 * 4 + b) mod 4 = b)%nat).
  { intros a b Hb. split; [rewrite Nat.div_add_l by lia; rewrite (Nat.div_small b 4) by lia; lia|].
    rewrite Nat.add_comm, Nat.Div0.mod_add. by apply Nat.mod_small. }
  assert (Hlt : forall a, (a < 256 -> a / 16 < 16 /\ a / 64 < 4)%nat).
  { intros a Ha. split; apply Nat.Div0.div_lt_upper_bound; lia. }
  destruct l as [|a [|b [|c l]]]; [done| | |]; cbn [sextets unsextets].
  - destruct (Hq a 0%nat) as [E _]; [lia|]. rewrite Nat.add_0_r in E. rewrite E. f_equal.
    rewrite (Nat.div_mod_eq a 4) at 3. lia.
  - apply Forall_cons in Hl as [_ Hl]. apply Forall_cons in Hl as [Hb _].
    destruct (Hq a (b / 16)%nat) as [-> ->]; [by apply Hlt|].
    destruct (Hr b 0%nat) as [E _]; [lia|]. rewrite Nat.add_0_r in E. rewrite E.
    rewrite (Nat.div_mod_eq a 4) at 3. rewrite (Nat.div_mod_eq b 16) at 3. do 2 (f_equal; try lia).
  - apply Forall_cons in Hl as [_ Hl]. apply Forall_cons in Hl as [Hb Hl]. apply Forall_cons in Hl as [Hc Hl].
    destruct (Hq a (b / 16)%nat) as [-> ->]; [by apply Hlt|].
    destruct (Hr b (c / 64)%nat) as [-> ->]; [by apply Hlt|].
    rewrite IH by (simpl; lia || done).
    rewrite (Nat.div_mod_eq a 4) at 3. rewrite (Nat.div_mod_eq b 16) at 3. rewrite (Nat.div_mod_eq c 64) at 3.
    do 3 (f_equal; try lia).
Qed.

(** Decoding undoes encoding. *)
Lemma base64url_round_trip l : Forall is_byte l -> base64url_bytes (base64url l) = l.
Proof.
  intros Hl. unfold base64url_bytes, base64url. rewrite String.list_ascii_of_string_of_list_ascii.
  replace (omap b64_val (b64_char <$> sextets l)) with (sextets l); [by apply unsextets_sextets|].
  pose proof (sextets_small l Hl) as Hs. induction Hs as [|x s Hx _ IH]; [done|].
  rewrite fmap_cons. cbn [omap list_omap]. rewrite b64_val_char by done. by rewrite <- IH.
Qed.

Lemma bytes_of_bytes s : Forall is_byte (bytes_of s).
Proof.
  apply Forall_fmap. apply Forall_forall. intros c _. unfold is_byte. simpl. apply nat_ascii_bounded.
Qed.

Lemma text_of_bytes s : text_of (bytes_of s) = s.
Proof.
  unfold text_of, bytes_of. rewrite <- list_fmap_compose.
  rewrite (list_fmap_ext _ id); [by rewrite list_fmap_id, String.string_of_list_ascii_of_string|].
  intros i x _. apply ascii_nat_embedding.
Qed.
