(* ===== verification/Json.v ===== *)
(** * [JSON.parse]

    The JSON texts of access tokens: a parser for RFC 8259 values over the
    bytes of a string, and what it gives back for the text of a string and of
    an integer. *)
From Stdlib Require Import Ascii DecimalString DecimalZ DecimalFacts.
From S2P Require Import Prelude Records Dates Text Tables Crypto.
Local Open Scope char_scope.

(** ** Tokens *)

Definition is_json_space (c : ascii) : bool := bool_decide (nat_of_ascii c ∈ [32; 9; 10; 13]).

Fixpoint skip_ws (s : string) : string :=
  match s with
  | String c s' => if is_json_space c then skip_ws s' else s
  | EmptyString => EmptyString
  end.

(** The UTF-8 bytes of a code point. *)
Definition utf8 (n : Z) : string :=
  text_of (Z.to_nat <$>
    (if n <? 128 then [n]
     else if n <? 2048 then [192 + n / 64; 128 + n mod 64]
     else if n <? 65536 then [224 + n / 4096; 128 + n / 64 mod 64; 128 + n mod 64]
     else [240 + n / 262144; 128 + n / 4096 mod 64; 128 + n / 64 mod 64; 128 + n mod 64])%Z).

Definition hex4 (a b c d : ascii) : option Z :=
  match hex_val a, hex_val b, hex_val c, hex_val d with
  | Some a, Some b, Some c, Some d => Some (((Z.of_nat a * 16 + Z.of_nat b) * 16 + Z.of_nat c) * 16 + Z.of_nat d)%Z
  | _, _, _, _ => None
  end.

(** The halves of a surrogate pair. *)
Definition is_high (n : Z) : bool := ((55296 <=? n) && (n <? 56320))%Z.
Definition is_low (n : Z) : bool := ((56320 <=? n) && (n <? 57344))%Z.

(** The one-character escapes. *)
Definition unescape (c : ascii) : option ascii :=
  match nat_of_ascii c with
  | 34 | 92 | 47 => Some c
  | 98 => Some (ascii_of_nat 8) | 102 => Some (ascii_of_nat 12) | 110 => Some (ascii_of_nat 10)
  | 114 => Some (ascii_of_nat 13) | 116 => Some (ascii_of_nat 9)
  | _ => None
  end.

Definition prepend (p : string) (r : option (string * string)) : option (string * string) :=
  match r with Some (s, rest) => Some (p +:+ s, rest) | None => None end.

(** The rest of a string literal after its opening quote. A surrogate pair of
    escapes is one code point. *)
Fixpoint json_string (s : string) : option (string * string) :=
  match s with
  | EmptyString => None
  | String c s1 =>
      if Nat.eqb (nat_of_ascii c) 34 then Some (EmptyString, s1)
      else if Nat.eqb (nat_of_ascii c) 92 then
        match s1 with
        | String "u" (String a (String b (String c' (String d s2)))) =>
            match hex4 a b c' d with
            | None => None
            | Some n =>
                if is_high n then
                  match s2 with
                  | String "\" (String "u" (String a' (String b' (String c'' (String d' s3))))) =>
                      match hex4 a' b' c'' d' with
                      | Some m =>
                          if is_low m
                          then prepend (utf8 (65536 + (n - 55296) * 1024 + (m - 56320))%Z) (json_string s3)
                          else prepend (utf8 n) (json_string s2)
                      | None => None
                      end
                  | _ => prepend (utf8 n) (json_string s2)
                  end
                else prepend (utf8 n) (json_string s2)
            end
        | String e s2 =>
            match unescape e with
            | Some x => prepend (String x EmptyString) (json_string s2)
            | None => None
            end
        | EmptyString => None
        end
      else if Nat.ltb (nat_of_ascii c) 32 then None
      else prepend (String c EmptyString) (json_string s1)
  end.

(** The integer part: [0], or a run of digits that does not start with it. *)
Definition json_int (s : string) : option (Z * string) :=
  match s with
  | String "0" s' => Some (0%Z, s')
  | _ => match read_uint 10 0 0 s with (v, S _, rest) => Some (v, rest) | _ => None end
  end.

Definition json_fraction (v : Z) (s : string) : option (Z * nat * string) :=
  match s with
  | String "." s' => match read_uint 10 v 0 s' with (v', S n, rest) => Some (v', S n, rest) | _ => None end
  | _ => Some (v, 0, s)
  end.

Definition json_exponent (s : string) : option (Z * string) :=
  match s with
  | String c s' =>
      if bool_decide (c = "e") || bool_decide (c = "E") then
        let '(neg, s1) := read_sign s' in
        match read_uint 10 0 0 s1 with
        | (v, S _, rest) => Some ((if neg then - v else v)%Z, rest)
        | _ => None
        end
      else Some (0%Z, s)
  | EmptyString => Some (0%Z, s)
  end.

Definition json_minus (s : string) : bool * string :=
  match s with String "-" s' => (true, s') | _ => (false, s) end.

Definition json_number (s : string) : option (number * string) :=
  let '(neg, s1) := json_minus s in
  match json_int s1 with
  | None => None
  | Some (ip, s2) =>
      match json_fraction ip s2 with
      | None => None
      | Some (v, nf, s3) =>
          match json_exponent s3 with
          | None => None
          | Some (e, rest) => Some (decimal_to_number (if neg : bool then - v else v)%Z (e - Z.of_nat nf), rest)
          end
      end
  end.

Definition after_prefix (p s : string) : option string :=
  if String.prefix p s then Some (String.substring (String.length p) (String.length s - String.length p) s) else None.

(** ** Values *)

Fixpoint parse_value (fuel : nat) (s : string) : option (json * string) :=
  match fuel with
  | O => None
  | S fuel =>
      match skip_ws s with
      | EmptyString => None
      | String c rest as s0 =>
          if bool_decide (c = "{") then
            match skip_ws rest with
            | String "}" rest => Some (JObj [], rest)
            | s1 => match parse_members fuel s1 with Some (fs, rest) => Some (JObj fs, rest) | None => None end
            end
          else if bool_decide (c = "[") then
            match skip_ws rest with
            | String "]" rest => Some (JArr [], rest)
            | s1 => match parse_items fuel s1 with Some (vs, rest) => Some (JArr vs, rest) | None => None end
            end
          else if Nat.eqb (nat_of_ascii c) 34 then
            match json_string rest with Some (x, rest) => Some (JStr x, rest) | None => None end
          else
            match after_prefix "true" s0, after_prefix "false" s0, after_prefix "null" s0 with
            | Some rest, _, _ => Some (JBool true, rest)
            | _, Some rest, _ => Some (JBool false, rest)
            | _, _, Some rest => Some (JNull, rest)
            | None, None, None =>
                match json_number s0 with Some (n, rest) => Some (JNum n, rest) | None => None end
            end
      end
  end
with parse_members (fuel : nat) (s : string) : option (list (string * option json) * string) :=
  match fuel with
  | O => None
  | S fuel =>
      match skip_ws s with
      | String q s1 =>
          if Nat.eqb (nat_of_ascii q) 34 then
            match json_string s1 with
            | Some (key, s2) =>
                match skip_ws s2 with
                | String ":" s3 =>
                    match parse_value fuel s3 with
                    | Some (v, s4) =>
                        match skip_ws s4 with
                        | String "}" rest => Some ([(key, Some v)], rest)
                        | String "," s5 =>
                            match parse_members fuel s5 with
                            | Some (fs, rest) => Some ((key, Some v) :: fs, rest)
                            | None => None
                            end
                        | _ => None
                        end
                    | None => None
                    end
                | _ => None
                end
            | None => None
            end
          else None
      | EmptyString => None
      end
  end
with parse_items (fuel : nat) (s : string) : option (list json * string) :=
  match fuel with
  | O => None
  | S fuel =>
      match parse_value fuel s with
      | Some (v, s1) =>
          match skip_ws s1 with
          | String "]" rest => Some ([v], rest)
          | String "," s2 =>
              match parse_items fuel s2 with
              | Some (vs, rest) => Some (v :: vs, rest)
              | None => None
              end
          | _ => None
          end
      | None => None
      end
  end.

(** A text longer than its nesting: one unit of fuel per character is more
    than enough. *)
Definition JSON_parse (s : string) : option json :=
  match parse_value (S (String.length s)) s with
  | Some (v, rest) => match skip_ws rest with EmptyString => Some v | _ => None end
  | None => None
  end.

(** [value.key]: the last field of that name; [undefined] is [None]. *)
Definition json_get (key : string) (v : json) : option json :=
  match v with
  | JObj fields => foldl (fun acc kv => if bool_decide (kv.1 = key) then kv.2 else acc) None fields
  | _ => None
  end.

(** ** Laws *)

Lemma json_string_char c t : json_string (escape_char c +:+ t) = prepend (String c EmptyString) (json_string t).
Proof. destruct c as [[] [] [] [] [] [] [] []]; reflexivity. Qed.

Lemma json_string_escape s t : json_string (escape s +:+ DQ +:+ t) = Some (s, t).
Proof.
  induction s as [|c s IH]; [done|]. cbn [escape]. rewrite string_app_assoc, json_string_char, IH. done.
Qed.

(** The digits of a number, read back. *)
Fixpoint uint_value (acc : Z) (u : Decimal.uint) : Z :=
  match u with
  | Decimal.Nil => acc
  | Decimal.D0 u => uint_value (acc * 10 + 0) u
  | Decimal.D1 u => uint_value (acc * 10 + 1) u
  | Decimal.D2 u => uint_value (acc * 10 + 2) u
  | Decimal.D3 u => uint_value (acc * 10 + 3) u
  | Decimal.D4 u => uint_value (acc * 10 + 4) u
  | Decimal.D5 u => uint_value (acc * 10 + 5) u
  | Decimal.D6 u => uint_value (acc * 10 + 6) u
  | Decimal.D7 u => uint_value (acc * 10 + 7) u
  | Decimal.D8 u => uint_value (acc * 10 + 8) u
  | Decimal.D9 u => uint_value (acc * 10 + 9) u
  end.

Lemma uint_value_acc p u : uint_value (Zpos p) u = Zpos (Pos.of_uint_acc u p).
Proof.
  revert p. induction u; intros p; cbn [uint_value Pos.of_uint_acc]; [done|..];
    rewrite <- IHu; f_equal; lia.
Qed.

Lemma uint_value_of u : uint_value 0 u = Z.of_N (Pos.of_uint u).
Proof. induction u; [done|exact IHu|..]; apply uint_value_acc. Qed.

(** A character that ends a run of digits. *)
Definition no_digit (s : string) : Prop :=
  match s with String c _ => char_in 48 57 c = false /\ hex_val c = None | EmptyString => True end.

Lemma read_uint_digits u acc len t :
  no_digit t ->
  read_uint 10 acc len (NilEmpty.string_of_uint u +:+ t) = (uint_value acc u, len + Decimal.nb_digits u, t).
Proof.
  intros Ht. revert acc len.
  induction u; intros acc len; cbn [NilEmpty.string_of_uint Decimal.nb_digits uint_value].
  1: { destruct t as [|c t]; simpl; [by rewrite Nat.add_0_r|]. destruct Ht as [_ ->]. by rewrite Nat.add_0_r. }
  all: simpl; rewrite IHu, Nat.add_succ_r; reflexivity.
Qed.

Lemma digits_app u t : u <> Decimal.Nil ->
  NilZero.string_of_uint u +:+ t = NilEmpty.string_of_uint u +:+ t.
Proof. by destruct u. Qed.

(** The decimal text of a natural number has no leading zero. *)
Lemma to_uint_head p u : Pos.to_uint p <> Decimal.D0 u.
Proof.
  intros E. pose proof (DecimalZ.to_of (Decimal.Pos (Pos.to_uint p))) as H.
  change (Decimal.Pos (Pos.to_uint p)) with (Z.to_int (Zpos p)) in H. rewrite DecimalZ.of_to in H.
  simpl in H. injection H as H. rewrite E in H. unfold Decimal.unorm in H.
  destruct (Decimal.nzhead (Decimal.D0 u)) eqn:En; try discriminate; [|by apply nzhead_nonzero in En].
  injection H as ->. assert (Hp : Zpos p = 0%Z); [|lia].
  rewrite <- (DecimalZ.of_to (Zpos p)). simpl. by rewrite E.
Qed.

Local Transparent bigint_toString.

Lemma json_int_digits n t : (0 <= n)%Z -> no_digit t -> json_int (bigint_toString n +:+ t) = Some (n, t).
Proof.
  intros Hn Ht. unfold bigint_toString. destruct n as [|p|p]; [done| |lia].
  pose proof (DecimalZ.of_to (Zpos p)) as Hv.
  change (Z.of_N (Pos.of_uint (Pos.to_uint p)) = Zpos p) in Hv. rewrite <- uint_value_of in Hv.
  simpl (Z.to_int _). unfold NilZero.string_of_int.
  pose proof (DecimalPos.Unsigned.to_uint_nonnil p) as Hnil.
  pose proof (to_uint_head p) as Hhead. rewrite digits_app by done.
  pose proof (read_uint_digits (Pos.to_uint p) 0 0 t Ht) as HR. rewrite Hv in HR.
  destruct (Pos.to_uint p) eqn:E; [done|by edestruct Hhead|..];
    unfold json_int; cbn [NilEmpty.string_of_uint] in *; simpl in HR |- *; by rewrite HR.
Qed.

Lemma bigint_head n : (0 <= n)%Z -> exists c s, bigint_toString n = String c s /\ char_in 48 57 c = true.
Proof.
  intros Hn. unfold bigint_toString. destruct n as [|p|p]; [by eexists _, _| |lia].
  pose proof (DecimalPos.Unsigned.to_uint_nonnil p). simpl (Z.to_int _). unfold NilZero.string_of_int.
  destruct (Pos.to_uint p); [done|..]; by eexists _, _.
Qed.
Global Opaque bigint_toString.

(** An integer in the exact range is its own double. *)
Lemma integer_exact n : (0 < n < 2 ^ 53)%Z ->
  ratio_to_number n 1 = Finite (n * 2 ^ (52 - Z.log2 n)) (Z.log2 n - 52).
Proof.
  intros Hn. unfold ratio_to_number. rewrite (proj2 (Z.eqb_neq _ _)), (proj2 (Z.ltb_ge _ _)) by lia.
  unfold pos_ratio_to_number. change (Z.log2 1) with 0%Z. rewrite Z.sub_0_r.
  pose proof (Z.log2_spec n ltac:(lia)) as [L U]. pose proof (Z.log2_nonneg n).
  assert (Hl : (Z.log2 n < 53)%Z) by (apply Z.log2_lt_pow2; lia).
  replace (Z.max 0 (Z.log2 n - 52)) with 0%Z by lia. replace (Z.max 0 (- (Z.log2 n - 52))) with (52 - Z.log2 n)%Z by lia.
  assert (Lo : (2 ^ 52 <= n * 2 ^ (52 - Z.log2 n))%Z).
  { replace (2 ^ 52)%Z with (2 ^ Z.log2 n * 2 ^ (52 - Z.log2 n))%Z by (rewrite <- Z.pow_add_r by lia; f_equal; lia).
    apply Z.mul_le_mono_nonneg_r; [apply Z.pow_nonneg|]; lia. }
  assert (Hi : (n * 2 ^ (52 - Z.log2 n) < 2 ^ 53)%Z).
  { replace (2 ^ 53)%Z with (2 ^ Z.succ (Z.log2 n) * 2 ^ (52 - Z.log2 n))%Z by (rewrite <- Z.pow_add_r by lia; f_equal; lia).
    apply Z.mul_lt_mono_pos_r; [apply Z.pow_pos_nonneg|]; lia. }
  change (1 * 2 ^ 0 * 2 ^ 52)%Z with (2 ^ 52)%Z.
  rewrite (proj2 (Z.leb_le (2 ^ 52) (n * 2 ^ (52 - Z.log2 n)))) by done.
  replace (Z.max 0 (Z.log2 n - 52)) with 0%Z by lia. replace (Z.max 0 (- (Z.log2 n - 52))) with (52 - Z.log2 n)%Z by lia.
  unfold round_half_even. change (1 * 2 ^ 0)%Z with 1%Z. rewrite Z.div_1_r, Z.mod_1_r. change (2 * 0 <? 1)%Z with true.
  cbv iota. rewrite (proj2 (Z.eqb_neq _ _)) by lia. done.
Qed.

(** [x <= n] for an integer [n]. *)
Definition number_le (x : number) (n : Z) : bool :=
  match x with
  | NaN => false
  | Finite m e => (m * 2 ^ Z.max 0 e <=? n * 2 ^ Z.max 0 (- e))%Z
  end.

Lemma number_le_integer n k : (0 <= n < 2 ^ 53)%Z -> number_le (ratio_to_number n 1) k = (n <=? k)%Z.
Proof.
  intros Hn. destruct (Z.eq_dec n 0) as [->|H0]; [change (number_le (ratio_to_number 0 1) k) with (0 <=? k * 1)%Z; by rewrite Z.mul_1_r|].
  rewrite integer_exact by lia. unfold number_le.
  assert (Hl : (Z.log2 n < 53)%Z) by (apply Z.log2_lt_pow2; lia).
  replace (Z.max 0 (Z.log2 n - 52)) with 0%Z by lia. replace (Z.max 0 (- (Z.log2 n - 52))) with (52 - Z.log2 n)%Z by lia.
  rewrite Z.mul_1_r. pose proof (Z.pow_pos_nonneg 2 (52 - Z.log2 n) ltac:(lia) ltac:(lia)).
  destruct (Z.leb_spec n k), (Z.leb_spec (n * 2 ^ (52 - Z.log2 n)) (k * 2 ^ (52 - Z.log2 n))); try done; nia.
Qed.

Lemma not_minus c s : char_in 48 57 c = true -> json_minus (String c s) = (false, String c s).
Proof. destruct c as [[] [] [] [] [] [] [] []]; try discriminate; done. Qed.

(** What may follow a value of a compact text. *)
Definition ends_value (t : string) : Prop :=
  match t with EmptyString => True | String c _ => c = "," \/ c = "}" \/ c = "]" end.

Lemma json_number_digits n t :
  (0 <= n)%Z -> ends_value t -> json_number (bigint_toString n +:+ t) = Some (ratio_to_number n 1, t).
Proof.
  intros Hn Ht. destruct (bigint_head n Hn) as (c & s & Hs & Hc).
  unfold json_number. rewrite Hs. change (String c s +:+ t) with (String c (s +:+ t)).
  rewrite not_minus by done. change (String c (s +:+ t)) with (String c s +:+ t). rewrite <- Hs.
  rewrite json_int_digits; [|done|by destruct t; [|destruct Ht as [-> |[-> | ->]]]].
  assert (HF : json_fraction n t = Some (n, 0, t)) by (by destruct t; [|destruct Ht as [-> |[-> | ->]]]).
  assert (HE : json_exponent t = Some (0%Z, t)) by (by destruct t; [|destruct Ht as [-> |[-> | ->]]]).
  rewrite HF, HE. unfold decimal_to_number. simpl. by rewrite Z.mul_1_r.
Qed.

(** *** Values and members of a compact text *)

Lemma quote_app s t : quote s +:+ t = String (ascii_of_nat 34) (escape s +:+ DQ +:+ t).
Proof. unfold quote. rewrite !string_app_assoc. done. Qed.

Lemma parse_value_string fuel s t : parse_value (S fuel) (quote s +:+ t) = Some (JStr s, t).
Proof.
  rewrite quote_app.
  transitivity (match json_string (escape s +:+ DQ +:+ t) with
                | Some (x, rest) => Some (JStr x, rest) | None => None end); [reflexivity|].
  by rewrite json_string_escape.
Qed.

Lemma parse_value_digit fuel c s : char_in 48 57 c = true ->
  parse_value (S fuel) (String c s) =
    match json_number (String c s) with Some (n, rest) => Some (JNum n, rest) | None => None end.
Proof. destruct c as [[] [] [] [] [] [] [] []]; try discriminate; reflexivity. Qed.

Lemma parse_value_int fuel n t : (0 <= n)%Z -> ends_value t ->
  parse_value (S fuel) (bigint_toString n +:+ t) = Some (JNum (ratio_to_number n 1), t).
Proof.
  intros Hn Ht. pose proof (json_number_digits n t Hn Ht) as HN.
  destruct (bigint_head n Hn) as (c & s & Hs & Hc). rewrite Hs in *.
  change (String c s +:+ t) with (String c (s +:+ t)) in *. by rewrite parse_value_digit, HN.
Qed.

Lemma parse_members_quote fuel s :
  parse_members (S fuel) (String (ascii_of_nat 34) s) =
    match json_string s with
    | Some (key, s2) =>
        match skip_ws s2 with
        | String ":" s3 =>
            match parse_value fuel s3 with
            | Some (v, s4) =>
                match skip_ws s4 with
                | String "}" rest => Some ([(key, Some v)], rest)
                | String "," s5 =>
                    match parse_members fuel s5 with
                    | Some (fs, rest) => Some ((key, Some v) :: fs, rest)
                    | None => None
                    end
                | _ => None
                end
            | None => None
            end
        | _ => None
        end
    | None => None
    end.
Proof. reflexivity. Qed.

Lemma parse_members_unfold fuel key s :
  parse_members (S fuel) (quote key +:+ String ":" s) =
    match parse_value fuel s with
    | Some (v, s4) =>
        match skip_ws s4 with
        | String "}" rest => Some ([(key, Some v)], rest)
        | String "," s5 =>
            match parse_members fuel s5 with
            | Some (fs, rest) => Some ((key, Some v) :: fs, rest)
            | None => None
            end
        | _ => None
        end
    | None => None
    end.
Proof. by rewrite quote_app, parse_members_quote, json_string_escape. Qed.

Lemma parse_members_cons fuel key text v r :
  parse_value fuel (text +:+ String "," r) = Some (v, String "," r) ->
  parse_members (S fuel) (quote key +:+ String ":" (text +:+ String "," r)) =
    match parse_members fuel r with Some (fs, rest) => Some ((key, Some v) :: fs, rest) | None => None end.
Proof. intros H. by rewrite parse_members_unfold, H. Qed.

Lemma parse_members_last fuel key text v r :
  parse_value fuel (text +:+ String "}" r) = Some (v, String "}" r) ->
  parse_members (S fuel) (quote key +:+ String ":" (text +:+ String "}" r)) = Some ([(key, Some v)], r).
Proof. intros H. by rewrite parse_members_unfold, H. Qed.

Lemma parse_object fuel key s :
  parse_value (S fuel) (String "{" (quote key +:+ s)) =
    match parse_members fuel (quote key +:+ s) with Some (fs, rest) => Some (JObj fs, rest) | None => None end.
Proof. rewrite quote_app. reflexivity. Qed.

(** ** Properties of an object *)

Definition get_field (key : string) (o : json) : option json :=
  match o with
  | JObj fields => match List.find (fun kv => bool_decide (kv.1 = key)) fields with Some kv => kv.2 | None => None end
  | _ => None
  end.

Definition field_str (key : string) (o : json) : option string :=
  match get_field key o with Some (JStr s) => Some s | _ => None end.
