(* ===== verification/Stringify.v ===== *)
(** * [JSON.stringify]

    The printer for JSON values without indentation, and that [JSON.parse] reads
    back what it prints: fields that are [undefined] are gone, and [NaN] has
    become [null]. *)
From Stdlib Require Import Ascii.
From S2P Require Import Prelude Records Dates Text Tables Crypto Json.
Local Open Scope string_scope.

Section stringify.
Context (numberToString : number -> string).

Fixpoint JSON_stringify (value : json) : string :=
  match value with
  | JNull => "null"
  | JBool b => if b then "true" else "false"
  | JNum NaN => "null"
  | JNum n => numberToString n
  | JStr s => quote s
  | JArr items => "[" +:+ join "," (JSON_stringify <$> items) +:+ "]"
  | JObj fields =>
      "{" +:+ join "," (omap (fun '(key, v) =>
        match v with Some v => Some (quote key +:+ ":" +:+ JSON_stringify v) | None => None end) fields) +:+ "}"
  end.

End stringify.

(** What is left of a value. *)
Fixpoint reread (value : json) : json :=
  match value with
  | JNum NaN => JNull
  | JArr items => JArr (reread <$> items)
  | JObj fields =>
      JObj (omap (fun '(key, v) => match v with Some v => Some (key, Some (reread v)) | None => None end) fields)
  | v => v
  end.

(** Induction through the items and the fields. *)
Lemma json_rect_deep (P : json -> Prop) :
  P JNull -> (forall b, P (JBool b)) -> (forall n, P (JNum n)) -> (forall s, P (JStr s)) ->
  (forall l, Forall P l -> P (JArr l)) ->
  (forall l, Forall (fun kv => match kv.2 with Some v => P v | None => True end) l -> P (JObj l)) ->
  forall v, P v.
Proof.
  intros HN HB HM HS HA HO. fix IH 1. intros [|b|n|s|l|l]; [done|done|done|done| |].
  - apply HA. induction l as [|v l IHl]; constructor; [apply IH|exact IHl].
  - apply HO. induction l as [|[k [v|]] l IHl]; constructor; [apply IH|exact IHl|exact I|exact IHl].
Qed.

(** The numbers of a value, at any depth. *)
Fixpoint numbers_of (value : json) : list number :=
  match value with
  | JNum n => [n]
  | JArr items => mjoin (numbers_of <$> items)
  | JObj fields => mjoin ((fun kv => match kv.2 with Some v => numbers_of v | None => [] end) <$> fields)
  | _ => []
  end.

(** ** One line *)

(** No control character, hence no line break. *)
Definition plain (s : string) : Prop := Forall (fun c => 32 <= nat_of_ascii c) (String.list_ascii_of_string s).

Lemma plain_app s t : plain s -> plain t -> plain (s +:+ t).
Proof. unfold plain. intros Hs Ht. induction s as [|c s IH]; [done|]. inversion Hs; subst. constructor; [done|]. by apply IH. Qed.

Lemma plain_escape s : plain (escape s).
Proof.
  induction s as [|c s IH]; [constructor|]. cbn [escape]. apply plain_app; [|done].
  destruct c as [[] [] [] [] [] [] [] []]; repeat constructor; vm_compute; lia.
Qed.

Lemma plain_quote s : plain (quote s).
Proof. unfold quote. repeat apply plain_app; [|apply plain_escape|]; repeat constructor; vm_compute; lia. Qed.

Lemma plain_join l : Forall plain l -> plain (join "," l).
Proof.
  induction 1 as [|s l Hs _ IH]; [constructor|]. destruct l; [done|]. cbn [join].
  apply plain_app; [done|]. apply plain_app; [|done]. repeat constructor; vm_compute; lia.
Qed.

Ltac plain_lit := repeat constructor; vm_compute; lia.

(** Whatever the strings in a value, its text is one line. *)
Lemma stringify_plain nts v : Forall (fun n => plain (nts n)) (numbers_of v) -> plain (JSON_stringify nts v).
Proof.
  induction v as [|b|n|s|l IH|l IH] using json_rect_deep; simpl; intros H.
  - plain_lit.
  - destruct b; plain_lit.
  - inversion H; subst. destruct n; [plain_lit|done].
  - apply plain_quote.
  - apply (plain_app "["); [plain_lit|]. apply plain_app; [|plain_lit]. apply plain_join, Forall_fmap.
    induction IH as [|v l Hv _ IHl]; [by apply Forall_nil|]. cbn in H. apply Forall_app in H as [H1 H2].
    constructor; [by apply Hv|by apply IHl].
  - apply (plain_app "{"); [plain_lit|]. apply plain_app; [|plain_lit]. apply plain_join.
    induction IH as [|[k [v|]] l Hv _ IHl]; [by apply Forall_nil| |by apply IHl].
    cbn in *. apply Forall_app in H as [H1 H2]. constructor; [|by apply IHl].
    apply plain_app; [apply plain_quote|]. apply (plain_app ":"); [plain_lit|by apply Hv].
Qed.

(** ** Round trip *)

(** The text of a number is a text that [JSON.parse] reads as that number. *)
Definition printable (numberToString : number -> string) (n : number) : Prop :=
  n = NaN \/ forall fuel rest, ends_value rest ->
    parse_value (S fuel) (numberToString n +:+ rest) = Some (JNum n, rest).

(** An integer printed with its digits is. *)
Lemma printable_integer nts n : (0 <= n)%Z -> nts (ratio_to_number n 1) = bigint_toString n -> printable nts (ratio_to_number n 1).
Proof. intros Hn Hnts. right. intros fuel rest Hr. rewrite Hnts. by apply parse_value_int. Qed.

Lemma skip_ws_idem s : skip_ws (skip_ws s) = skip_ws s.
Proof. induction s as [|c s IH]; [done|]. simpl. destruct (is_json_space c) eqn:E; [done|]. simpl. by rewrite E. Qed.

Lemma parse_value_skip fuel s : parse_value fuel (skip_ws s) = parse_value fuel s.
Proof. destruct fuel; [done|]. cbn [parse_value]. by rewrite skip_ws_idem. Qed.

Lemma parse_items_skip fuel s : parse_items fuel (skip_ws s) = parse_items fuel s.
Proof. destruct fuel; [done|]. cbn [parse_items]. by rewrite parse_value_skip. Qed.

Lemma no_value_at_bracket fuel s s' : skip_ws s = String "]" s' -> parse_value fuel s = None.
Proof. intros H. destruct fuel; [done|]. rewrite <- parse_value_skip, H. reflexivity. Qed.

Lemma parse_array fuel s r :
  parse_value fuel s = Some r ->
  parse_value (S (S fuel)) (String "[" s) =
    match parse_items (S fuel) s with Some (vs, rest) => Some (JArr vs, rest) | None => None end.
Proof.
  intros Hr. rewrite <- (parse_items_skip _ s).
  assert (Hh : forall s', skip_ws s <> String "]" s') by (intros s' E; by rewrite (no_value_at_bracket _ _ _ E) in Hr).
  transitivity (match skip_ws s with
    | String "]" rest => Some (JArr [], rest)
    | s1 => match parse_items (S fuel) s1 with Some (vs, rest) => Some (JArr vs, rest) | None => None end
    end); [reflexivity|].
  destruct (skip_ws s) as [|[[] [] [] [] [] [] [] []] s']; try reflexivity. by edestruct Hh.
Qed.

Lemma parse_items_cons fuel s v r :
  parse_value fuel s = Some (v, String "," r) ->
  parse_items (S fuel) s = match parse_items fuel r with Some (vs, rest) => Some (v :: vs, rest) | None => None end.
Proof. intros H. cbn [parse_items]. by rewrite H. Qed.

Lemma parse_items_last fuel s v r :
  parse_value fuel s = Some (v, String "]" r) -> parse_items (S fuel) s = Some ([v], r).
Proof. intros H. cbn [parse_items]. by rewrite H. Qed.

Lemma string_length_app (a b : string) : String.length (a +:+ b) = String.length a + String.length b.
Proof. induction a as [|c a IH]; [done|]. exact (f_equal S IH). Qed.

(** The fields that have a value. *)
Definition defined_fields (fields : list (string * option json)) : list (string * json) :=
  omap (fun '(key, v) => match v with Some v => Some (key, v) | None => None end) fields.

Definition member_text (nts : number -> string) (kv : string * json) : string :=
  quote kv.1 +:+ ":" +:+ JSON_stringify nts kv.2.

Lemma stringify_object nts fields :
  JSON_stringify nts (JObj fields) = "{" +:+ join "," (member_text nts <$> defined_fields fields) +:+ "}".
Proof.
  cbn [JSON_stringify]. repeat f_equal. induction fields as [|[k [v|]] l IH]; [done| |done].
  exact (f_equal (cons _) IH).
Qed.

Lemma reread_object fields :
  reread (JObj fields) = JObj ((fun kv => (kv.1, Some (reread kv.2))) <$> defined_fields fields).
Proof.
  cbn [reread]. f_equal. induction fields as [|[k [v|]] l IH]; [done| |done]. exact (f_equal (cons _) IH).
Qed.

(** A value is read back in front of whatever may follow it. *)
Definition reads_back (nts : number -> string) (v : json) : Prop :=
  forall fuel rest, String.length (JSON_stringify nts v) < fuel -> ends_value rest ->
    parse_value fuel (JSON_stringify nts v +:+ rest) = Some (reread v, rest).

Lemma members_read_back nts kvs fuel rest :
  kvs <> [] -> Forall (fun kv => reads_back nts kv.2) kvs ->
  String.length (join "," (member_text nts <$> kvs)) < fuel ->
  parse_members fuel (join "," (member_text nts <$> kvs) +:+ String "}" rest) =
    Some ((fun kv => (kv.1, Some (reread kv.2))) <$> kvs, rest).
Proof.
  intros Hne Hkvs. revert fuel. induction Hkvs as [|[k v] kvs Hv _ IH]; intros fuel Hf; [done|].
  destruct fuel as [|fuel]; [lia|]. destruct kvs as [|kv kvs].
  - cbn [fmap list_fmap join] in *. unfold member_text in *. cbn [fst snd] in *. rewrite !string_app_assoc.
    change (":" +:+ ?x) with (String ":" x).
    rewrite (parse_members_last _ _ _ (reread v)); [done|]. apply Hv; [|by right; left].
    rewrite !string_length_app in Hf. simpl in Hf. lia.
  - specialize (IH ltac:(done)). change (join "," (member_text nts <$> (k, v) :: kv :: kvs)) with
      (member_text nts (k, v) +:+ String "," (join "," (member_text nts <$> kv :: kvs))) in *.
    set (more := join "," (member_text nts <$> kv :: kvs)) in *. unfold member_text in *. cbn [fst snd] in *.
    rewrite !string_length_app in Hf. simpl in Hf. rewrite !string_app_assoc.
    change (":" +:+ ?x) with (String ":" x). change (String "," more +:+ ?x) with (String "," (more +:+ x)).
    rewrite (parse_members_cons _ _ _ (reread v)) by (apply Hv; [lia|by left]).
    rewrite IH by lia. done.
Qed.

Lemma items_read_back nts vs fuel rest :
  vs <> [] -> Forall (reads_back nts) vs ->
  String.length (join "," (JSON_stringify nts <$> vs)) + 1 < fuel ->
  parse_items fuel (join "," (JSON_stringify nts <$> vs) +:+ String "]" rest) = Some (reread <$> vs, rest).
Proof.
  intros Hne Hvs. revert fuel. induction Hvs as [|v vs Hv _ IH]; intros fuel Hf; [done|].
  destruct fuel as [|fuel]; [lia|]. destruct vs as [|v' vs].
  - cbn [fmap list_fmap join] in *. rewrite (parse_items_last _ _ (reread v) rest); [done|].
    apply Hv; [lia|by right; right].
  - specialize (IH ltac:(done)). change (join "," (JSON_stringify nts <$> v :: v' :: vs)) with
      (JSON_stringify nts v +:+ String "," (join "," (JSON_stringify nts <$> v' :: vs))) in *.
    set (more := join "," (JSON_stringify nts <$> v' :: vs)) in *.
    rewrite string_length_app in Hf. simpl in Hf. rewrite string_app_assoc.
    change (String "," more +:+ ?x) with (String "," (more +:+ x)).
    rewrite (parse_items_cons _ _ (reread v) (more +:+ String "]" rest)) by (apply Hv; [lia|by left]).
    rewrite IH by lia. done.
Qed.

Lemma substring_whole s : String.substring 0 (String.length s) s = s.
Proof. induction s as [|c s IH]; [done|]. exact (f_equal (String c) IH). Qed.

Lemma after_prefix_app p s : after_prefix p (p +:+ s) = Some s.
Proof.
  unfold after_prefix. rewrite string_length_app.
  replace (String.length p + String.length s - String.length p) with (String.length s) by lia.
  assert (Hp : String.prefix p (p +:+ s) = true).
  { induction p as [|c p IH]; [by destruct s|]. simpl. by destruct (ascii_dec c c). }
  rewrite Hp. f_equal. clear Hp. induction p as [|c p IH]; [apply substring_whole|exact IH].
Qed.

Lemma parse_value_letter fuel (c : ascii) s :
  c = "n"%char \/ c = "t"%char \/ c = "f"%char ->
  parse_value (S fuel) (String c s) =
    match after_prefix "true" (String c s), after_prefix "false" (String c s), after_prefix "null" (String c s) with
    | Some rest, _, _ => Some (JBool true, rest)
    | _, Some rest, _ => Some (JBool false, rest)
    | _, _, Some rest => Some (JNull, rest)
    | None, None, None => match json_number (String c s) with Some (n, rest) => Some (JNum n, rest) | None => None end
    end.
Proof. intros [-> |[-> | ->]]; reflexivity. Qed.

Lemma parse_literal fuel rest :
  parse_value (S fuel) ("null" +:+ rest) = Some (JNull, rest) /\
  parse_value (S fuel) ("true" +:+ rest) = Some (JBool true, rest) /\
  parse_value (S fuel) ("false" +:+ rest) = Some (JBool false, rest).
Proof.
  pose proof (after_prefix_app "null" rest) as HN. pose proof (after_prefix_app "true" rest) as HT.
  pose proof (after_prefix_app "false" rest) as HF.
  change ("null" +:+ rest) with (String "n" ("ull" +:+ rest)) in *.
  change ("true" +:+ rest) with (String "t" ("rue" +:+ rest)) in *.
  change ("false" +:+ rest) with (String "f" ("alse" +:+ rest)) in *.
  split; [|split]; rewrite parse_value_letter by auto.
  - rewrite HN. reflexivity.
  - by rewrite HT.
  - rewrite HF. reflexivity.
Qed.

Lemma number_reads_back nts n : printable nts n -> reads_back nts (JNum n).
Proof.
  intros Hp fuel rest Hf Hr. destruct fuel as [|fuel]; [lia|]. destruct n as [|m e].
  - apply parse_literal.
  - destruct Hp as [?|Hn]; [done|by apply Hn].
Qed.

(** [JSON.parse] reads back what [JSON.stringify] printed. *)
Lemma stringify_reads_back nts v : Forall (printable nts) (numbers_of v) -> reads_back nts v.
Proof.
  induction v as [|b|n|s|l IH|l IH] using json_rect_deep; intros Hn.
  - intros [|fuel] rest Hf _; [simpl in Hf; lia|apply parse_literal].
  - intros [|fuel] rest Hf _; [lia|]. destruct b; apply parse_literal.
  - apply number_reads_back. by inversion Hn.
  - intros [|fuel] rest Hf _; [lia|]. apply parse_value_string.
  - assert (Hl : Forall (reads_back nts) l).
    { cbn [numbers_of] in Hn. induction IH as [|v l Hv _ IHl]; constructor; cbn in Hn; apply Forall_app in Hn as [H1 H2]; auto. }
    intros [|[|fuel]] rest Hf Hr; [simpl in Hf; lia..|].
    cbn [JSON_stringify] in *. rewrite !string_length_app in Hf. rewrite !string_app_assoc.
    change ("[" +:+ ?x) with (String "[" x). change ("]" +:+ ?x) with (String "]" x).
    destruct l as [|v l]; [reflexivity|].
    simpl (String.length "[") in Hf. simpl (String.length "]") in Hf.
    assert (Hp : exists r, parse_value fuel (join "," (JSON_stringify nts <$> v :: l) +:+ String "]" rest) = Some r).
    { inversion Hl as [|? ? Hv _]; subst. destruct l as [|v' l]; cbn [fmap list_fmap join] in *; eexists.
      - apply Hv; [lia|by right; right].
      - rewrite !string_length_app in Hf. rewrite !string_app_assoc. apply Hv; [lia|by left]. }
    destruct Hp as [r Hp]. rewrite (parse_array _ _ _ Hp), items_read_back; [done|done|done|lia].
  - assert (Hl : Forall (fun kv => reads_back nts kv.2) (defined_fields l)).
    { cbn [numbers_of] in Hn. induction IH as [|[k [v|]] l Hv _ IHl]; [by apply Forall_nil| |by apply IHl].
      cbn in Hn. apply Forall_app in Hn as [H1 H2]. constructor; [by apply Hv|by apply IHl]. }
    intros [|fuel] rest Hf Hr; [lia|]. rewrite stringify_object, reread_object in *.
    rewrite !string_length_app in Hf. rewrite !string_app_assoc.
    change ("{" +:+ ?x) with (String "{" x). change ("}" +:+ ?x) with (String "}" x).
    simpl (String.length "{") in Hf. simpl (String.length "}") in Hf.
    destruct (defined_fields l) as [|[k v] kvs]; [reflexivity|].
    pose proof (members_read_back nts ((k, v) :: kvs) fuel rest ltac:(done) Hl ltac:(lia)) as HM.
    assert (Hq : exists t, join "," (member_text nts <$> (k, v) :: kvs) +:+ String "}" rest = quote k +:+ t).
    { destruct kvs; cbn [fmap list_fmap join]; unfold member_text at 1; rewrite !string_app_assoc; by eexists. }
    destruct Hq as [t Ht]. rewrite Ht in *. by rewrite parse_object, HM.
Qed.

Lemma JSON_round_trip nts v : Forall (printable nts) (numbers_of v) -> JSON_parse (JSON_stringify nts v) = Some (reread v).
Proof.
  intros Hn. unfold JSON_parse. pose proof (stringify_reads_back nts v Hn (S (String.length (JSON_stringify nts v))) "") as H.
  assert (Ha : forall s, s +:+ "" = s) by (intros s; induction s as [|c s IH]; [done|exact (f_equal (String c) IH)]).
  rewrite Ha in H. by rewrite H by (done || lia).
Qed.
