(* ===== verification/Effects.v ===== *)
(** * Asynchronous programs over the shared backend state

    An [async] function of the code base is a [Prog]: a finite tree of
    atomic actions.  Each [await] on the database, the cache, the RPC server
    or a provider is one [Atom]; between two atoms of one program the event
    loop may run atoms of other programs, so an atom is exactly the unit of
    interleaving.  [run] executes a program alone; [pool_step] interleaves
    several.  An exception does not undo the atoms already performed.

    The state [World] holds the database tables, the two cache backends, the
    calls handed to the chain, the notices started (of a party or the operator) and the in-memory
    flags of the pollers.  [Env] holds what the code cannot control: the
    clock, injected faults, generated ids, configuration and the external
    services, each consulted at the current tick (the number of atoms run so
    far), so that two consecutive calls may answer differently. *)
From S2P Require Import Prelude Records Text Tables.

(** ** The RPC server (an external service) *)

Record SimResponse : Type := mkSim { sim_error : option string }.
Record SendResponse : Type := mkSend {
  send_status : string; send_errorResult : option string; send_hash : option string }.
Record TxResponse : Type := mkTx { tx_status : string; tx_resultXdr : option string }.
Record LegacyResponse : Type := mkLegacy {
  lr_hash : option string; lr_status : option string; lr_resultXdr : option string }.

(** A contract argument, as the code encodes it. *)
Inductive ScArg : Type :=
| ScAddress (a : string)
| ScU64 (n : Z)
| ScString (s : string)
| ScVecSymbol (s : string).

Record ContractTx : Type := mkCall {
  ct_function : string;
  ct_args : list ScArg;
  ct_source : string;
  ct_signed : bool
}.

(** What [getAccount] answers: an [Account] of the SDK, or an object that may
    carry a sequence number. *)
Inductive RawAccount : Type :=
| AccountInstance (sequence : string)
| RawSequence (sequence : option string).

(** The optional methods of [StellarServer]; each answers at a tick. *)
Record StellarServer : Type := mkServer {
  sv_loadAccount : option (nat -> string -> outcome string);
  sv_getAccount : option (nat -> string -> outcome RawAccount);
  sv_simulateTransaction : option (nat -> ContractTx -> outcome SimResponse);
  sv_prepareTransaction : option (nat -> ContractTx -> outcome ContractTx);
  sv_sendTransaction : option (nat -> ContractTx -> outcome SendResponse);
  sv_getTransaction : option (nat -> string -> outcome TxResponse);
  sv_pollTransaction : option (nat -> string -> outcome TxResponse);
  sv_submitTransaction : option (nat -> string -> Z -> outcome LegacyResponse)
}.

(** A native value [scValToNative] yields. *)
Inductive native : Type :=
| NNull
| NBigInt (n : Z)
| NInteger (n : Z)       (* a number with an integral value *)
| NFraction (text : string) (* any other number, with its decimal text *)
| NString (s : string)
| NArray (items : list native)
| NObject (fields : list (string * native))
| NOther.

(** An entry of a [getEvents] response; topics and value are base64 XDR. *)
Record SorobanRpcEvent : Type := mkRpcEvent {
  re_id : string; re_contractId : string; re_type : string; re_ledger : Z;
  re_pagingToken : string; re_topic : list string; re_value : string }.

(** The two ways [getEvents] is addressed. *)
Inductive EventsFrom : Type :=
| StartLedger (ledger : option Z)
| FromCursor (cursor : string).

(** A Horizon operation record: the fields the replay reads, [None] when the
    value is absent or not a string. *)
Record HorizonRecord : Type := mkHorizonRecord {
  hr_id : option string; hr_type : option string; hr_transaction_hash : option string;
  hr_to : option string; hr_amount : option string; hr_asset_code : option string;
  hr_paging_token : option string }.

(** What the service uses of the Stellar SDK: the public key of a secret
    ([None] when [Keypair.fromSecret] throws), the constructors [Contract],
    [Address] and [Account], which throw on a malformed argument,
    [rpc.assembleTransaction], and the decoding of a base64 XDR value. *)
Record StellarSdk : Type := mkSdk {
  sdk_keypair : string -> option string;
  sdk_contract : string -> outcome unit;
  sdk_address : string -> outcome unit;
  sdk_account : string -> string -> outcome unit;
  sdk_assemble : ContractTx -> SimResponse -> outcome ContractTx;
  sdk_decode : string -> outcome native
}.

(** ** Environment *)

Record Env : Type := mkEnv {
  env_now : nat -> Z;                 (* [Date.now()] *)
  env_db : nat -> option exn;         (* a database call that rejects *)
  env_uuid : nat -> string;           (* [randomUUID()] and generated ids *)
  env_cache : bool;                   (* [CacheService] is injected *)
  env_redis : bool;                   (* [REDIS_URL] is set *)
  env_redis_down : nat -> bool;       (* a Redis command that rejects *)
  env_prisma : bool;                  (* [PrismaService] is injected in [EscrowService] *)
  env_logistics : bool;               (* [LogisticsService] is injected in [EscrowService] *)
  env_config : string -> option string;
  env_decimal : number -> Z;          (* a number stored as [Decimal(18, 8)] *)
  env_server : option StellarServer;
  env_sdk : StellarSdk;
  env_sha256 : string -> string;         (* hex digests of [node:crypto] *)
  env_hmac : string -> string -> string; (* HMAC-SHA256: key, message *)
  env_numberToString : number -> string; (* [JSON.stringify] of a number *)
  env_rpc_events : nat -> EventsFrom -> outcome (list SorobanRpcEvent);
  env_rpc_ledger : nat -> outcome Z;     (* [getLatestLedger] *)
  env_horizon : nat -> option string -> outcome (list HorizonRecord);
  env_retentionDays : Z;                 (* [WEBHOOK_EVENT_RETENTION_DAYS] *)
  env_startLedger : option Z;            (* [SOROBAN_START_LEDGER] *)
  env_sched : nat -> bool;               (* which of two parallel programs runs next *)
  env_providers : Providers
}.

(** No database call fails. *)
Definition db_reliable (env : Env) : Prop := forall t, env_db env t = None.

(** ** State *)

Record Db : Type := mkDb {
  db_escrows : gmap string PrismaEscrow;
  db_disputes : gmap string DisputeRecord;          (* by id *)
  db_vendors : gmap string VendorProfileRecord;     (* by address *)
  db_accounts : Accounts;                           (* vendor settings, sessions, notifications *)
  db_failed : gmap string FailedTransactionRecord;  (* by id *)
  db_webhooks : gmap string Z;                      (* operationId -> processedAt *)
  db_cursors : gmap string string;                  (* id -> cursorValue *)
  db_events : list EscrowEventRow;
  db_audit : list AuditLogEntry
}.

(** What the cache stores: an object as it is (in-memory fallback), or what
    is left of it after a JSON round trip (Redis). *)
Record WithPaymentUrl (E : Type) : Type := mkWithUrl {
  wu_escrow : E; wu_paymentUrl : string }.
Arguments mkWithUrl {E}. Arguments wu_escrow {E}. Arguments wu_paymentUrl {E}.

Inductive cval : Type :=
| CEscrow (r : EscrowRecord)
| CEscrowJson (j : EscrowJson)
| CTracking (t : TrackingDetails)
| CTrackingJson (t : TrackingJson)
| CIdempotent (requestHash : string) (result : WithPaymentUrl EscrowRecord)
| CIdempotentJson (requestHash : string) (result : WithPaymentUrl EscrowJson).

Record CacheEntry : Type := mkEntry { ce_value : cval; ce_expiresAt : Z }.

(** A started notification: a notice of a type to the party it is meant for
    ([notifyFunded], [notifyShipped], ..., [notifyDisputed]), or the notice of
    a dispute to the operator's address ([notifyDisputedAdmin]). *)
Inductive Notice : Type :=
| mkNotice (t : NotificationType) (escrow : EscrowRecord)
| mkAdminNotice (escrow : EscrowRecord).

Record World : Type := mkWorld {
  w_db : Db;
  w_memory : list (string * CacheEntry);   (* the fallback [Map], insertion order *)
  w_redis : gmap string CacheEntry;
  w_tick : nat;
  w_chain : list ContractTx;               (* transactions handed to the network *)
  w_outbox : list Notice;
  w_autoRunning : bool;
  w_trackRunning : bool;
  w_polling : bool;
  w_syncRetry : gmap string Z;
  w_index : nat;                           (* shared index of [runWithConcurrency] *)
  w_started : list string;                 (* items it handed out, in order *)
  w_side : Side
}.

Definition set_db (d : Db) (w : World) : World :=
  mkWorld d (w_memory w) (w_redis w) (w_tick w) (w_chain w) (w_outbox w)
    (w_autoRunning w) (w_trackRunning w) (w_polling w) (w_syncRetry w) (w_index w) (w_started w) (w_side w).
Definition set_memory (m : list (string * CacheEntry)) (w : World) : World :=
  mkWorld (w_db w) m (w_redis w) (w_tick w) (w_chain w) (w_outbox w)
    (w_autoRunning w) (w_trackRunning w) (w_polling w) (w_syncRetry w) (w_index w) (w_started w) (w_side w).
Definition set_redis (m : gmap string CacheEntry) (w : World) : World :=
  mkWorld (w_db w) (w_memory w) m (w_tick w) (w_chain w) (w_outbox w)
    (w_autoRunning w) (w_trackRunning w) (w_polling w) (w_syncRetry w) (w_index w) (w_started w) (w_side w).
Definition tick (w : World) : World :=
  mkWorld (w_db w) (w_memory w) (w_redis w) (S (w_tick w)) (w_chain w) (w_outbox w)
    (w_autoRunning w) (w_trackRunning w) (w_polling w) (w_syncRetry w) (w_index w) (w_started w) (w_side w).
Definition log_chain (c : ContractTx) (w : World) : World :=
  mkWorld (w_db w) (w_memory w) (w_redis w) (w_tick w) (w_chain w ++ [c]) (w_outbox w)
    (w_autoRunning w) (w_trackRunning w) (w_polling w) (w_syncRetry w) (w_index w) (w_started w) (w_side w).
Definition log_notice (n : Notice) (w : World) : World :=
  mkWorld (w_db w) (w_memory w) (w_redis w) (w_tick w) (w_chain w) (w_outbox w ++ [n])
    (w_autoRunning w) (w_trackRunning w) (w_polling w) (w_syncRetry w) (w_index w) (w_started w) (w_side w).
Definition set_autoRunning (b : bool) (w : World) : World :=
  mkWorld (w_db w) (w_memory w) (w_redis w) (w_tick w) (w_chain w) (w_outbox w)
    b (w_trackRunning w) (w_polling w) (w_syncRetry w) (w_index w) (w_started w) (w_side w).
Definition set_trackRunning (b : bool) (w : World) : World :=
  mkWorld (w_db w) (w_memory w) (w_redis w) (w_tick w) (w_chain w) (w_outbox w)
    (w_autoRunning w) b (w_polling w) (w_syncRetry w) (w_index w) (w_started w) (w_side w).
Definition set_polling (b : bool) (w : World) : World :=
  mkWorld (w_db w) (w_memory w) (w_redis w) (w_tick w) (w_chain w) (w_outbox w)
    (w_autoRunning w) (w_trackRunning w) b (w_syncRetry w) (w_index w) (w_started w) (w_side w).
Definition set_syncRetry (m : gmap string Z) (w : World) : World :=
  mkWorld (w_db w) (w_memory w) (w_redis w) (w_tick w) (w_chain w) (w_outbox w)
    (w_autoRunning w) (w_trackRunning w) (w_polling w) m (w_index w) (w_started w) (w_side w).

Definition set_index (n : nat) (l : list string) (w : World) : World :=
  mkWorld (w_db w) (w_memory w) (w_redis w) (w_tick w) (w_chain w) (w_outbox w)
    (w_autoRunning w) (w_trackRunning w) (w_polling w) (w_syncRetry w) n l (w_side w).

Definition set_side (s : Side) (w : World) : World :=
  mkWorld (w_db w) (w_memory w) (w_redis w) (w_tick w) (w_chain w) (w_outbox w)
    (w_autoRunning w) (w_trackRunning w) (w_polling w) (w_syncRetry w) (w_index w) (w_started w) s.

Definition set_escrows (m : gmap string PrismaEscrow) (d : Db) : Db :=
  mkDb m (db_disputes d) (db_vendors d) (db_accounts d) (db_failed d)
    (db_webhooks d) (db_cursors d) (db_events d) (db_audit d).
Definition set_disputes (m : gmap string DisputeRecord) (d : Db) : Db :=
  mkDb (db_escrows d) m (db_vendors d) (db_accounts d) (db_failed d)
    (db_webhooks d) (db_cursors d) (db_events d) (db_audit d).
Definition set_vendors (m : gmap string VendorProfileRecord) (d : Db) : Db :=
  mkDb (db_escrows d) (db_disputes d) m (db_accounts d) (db_failed d)
    (db_webhooks d) (db_cursors d) (db_events d) (db_audit d).
Definition set_accounts (a : Accounts) (d : Db) : Db :=
  mkDb (db_escrows d) (db_disputes d) (db_vendors d) a (db_failed d)
    (db_webhooks d) (db_cursors d) (db_events d) (db_audit d).
Definition set_failed (m : gmap string FailedTransactionRecord) (d : Db) : Db :=
  mkDb (db_escrows d) (db_disputes d) (db_vendors d) (db_accounts d) m
    (db_webhooks d) (db_cursors d) (db_events d) (db_audit d).
Definition set_webhooks (m : gmap string Z) (d : Db) : Db :=
  mkDb (db_escrows d) (db_disputes d) (db_vendors d) (db_accounts d) (db_failed d)
    m (db_cursors d) (db_events d) (db_audit d).
Definition set_cursors (m : gmap string string) (d : Db) : Db :=
  mkDb (db_escrows d) (db_disputes d) (db_vendors d) (db_accounts d) (db_failed d)
    (db_webhooks d) m (db_events d) (db_audit d).
Definition set_audit (l : list AuditLogEntry) (d : Db) : Db :=
  mkDb (db_escrows d) (db_disputes d) (db_vendors d) (db_accounts d) (db_failed d)
    (db_webhooks d) (db_cursors d) (db_events d) l.

(** ** Programs *)

Definition Action (X : Type) : Type := Env -> World -> outcome X * World.

Inductive Prog (A : Type) : Type :=
| Ret (a : A)
| Raise (e : exn)
| Atom (X : Type) (f : Action X) (k : outcome X -> Prog A).
Arguments Ret {A} a.
Arguments Raise {A} e.
Arguments Atom {A} X f k.

Fixpoint bind {A B} (m : Prog A) (f : A -> Prog B) : Prog B :=
  match m with
  | Ret a => f a
  | Raise e => Raise e
  | Atom X g k => Atom X g (fun r => bind (k r) f)
  end.

(** [try { m } catch (e) { h e }]. *)
Fixpoint catch {A} (m : Prog A) (h : exn -> Prog A) : Prog A :=
  match m with
  | Ret a => Ret a
  | Raise e => h e
  | Atom X g k => Atom X g (fun r => catch (k r) h)
  end.

Definition settle {A} (r : outcome A) : Prog A :=
  match r with Ok a => Ret a | Throw e => Raise e end.

(** [await] on one action. *)
Definition await {X} (f : Action X) : Prog X := Atom X f settle.

(** The outcome of a program as a value ([Promise.allSettled] of one). *)
Definition attempt {A} (m : Prog A) : Prog (outcome A) :=
  catch (bind m (fun a => Ret (Ok a))) (fun e => Ret (Throw e)).

(** [try { m } finally { fin }]: an exception of [fin] replaces the outcome. *)
Definition finally {A} (m : Prog A) (fin : Prog unit) : Prog A :=
  bind (attempt m) (fun r => bind fin (fun _ => settle r)).

Declare Scope prog_scope.
Delimit Scope prog_scope with prog.
Notation "'let*' x ':=' m 'in' k" := (bind m (fun x => k))
  (at level 10, x name, m at level 100, k at level 200) : prog_scope.
Notation "m ;;; k" := (bind m (fun _ => k))
  (at level 100, k at level 200, right associativity) : prog_scope.
Local Open Scope prog_scope.

(** [for (const x of xs) { await f(x) }]. *)
Fixpoint forEach {A} (xs : list A) (f : A -> Prog unit) : Prog unit :=
  match xs with
  | [] => Ret tt
  | x :: xs => f x ;;; forEach xs f
  end.

(** [Promise.all] of two programs: they take turns atom by atom, in the order
    a schedule picks, until both are settled.  A rejection is kept and raised
    once the other one has settled too (the caller only sees it earlier). *)
Definition schedule : Action bool := fun env w => (Ok (env_sched env (w_tick w)), tick w).

Definition turn (r : outcome bool) : bool := match r with Ok b => b | Throw _ => true end.

Fixpoint par (m1 : Prog unit) {struct m1} : Prog unit -> Prog unit :=
  fix par2 (m2 : Prog unit) : Prog unit :=
    match m1, m2 with
    | Ret _, _ => m2
    | Raise e, Ret _ => Raise e
    | Raise e, Raise _ => Raise e
    | Raise e, Atom X f k => Atom X f (fun r => par2 (k r))
    | Atom _ _ _, Ret _ => m1
    | Atom X f k, Raise e => Atom X f (fun r => par (k r) m2)
    | Atom X1 f1 k1, Atom X2 f2 k2 =>
        Atom bool schedule (fun b =>
          if turn b then Atom X1 f1 (fun r => par (k1 r) m2)
          else Atom X2 f2 (fun r => par2 (k2 r)))
    end.

Definition promiseAll (ms : list (Prog unit)) : Prog unit := foldr par (Ret tt) ms.

(** ** Sequential execution *)

Fixpoint run {A} (m : Prog A) (env : Env) (w : World) : outcome A * World :=
  match m with
  | Ret a => (Ok a, w)
  | Raise e => (Throw e, w)
  | Atom X f k => let '(r, w') := f env w in run (k r) env w'
  end.

(** Weakest precondition of a sequential run. *)
Definition wp {A} (m : Prog A) (env : Env) (w : World) (Q : outcome A -> World -> Prop) : Prop :=
  Q (run m env w).1 (run m env w).2.

(** ** Interleaved execution *)

(** One program of the pool performs its next atom. *)
Inductive pool_step {A} (env : Env) :
  World * list (Prog A) -> World * list (Prog A) -> Prop :=
| pool_atom w ps i X f k r w' :
    ps !! i = Some (Atom X f k) -> f env w = (r, w') ->
    pool_step env (w, ps) (w', <[i := k r]> ps).

(** Every atom of [m], whatever its inputs, relates the worlds by [R]. *)
Fixpoint every {A} (R : World -> World -> Prop) (m : Prog A) : Prop :=
  match m with
  | Ret _ | Raise _ => True
  | Atom X f k => (forall env w, R w (f env w).2) /\ (forall r, every R (k r))
  end.

(** ** Primitive actions *)

(** A read of the clock ([new Date()], [Date.now()]). *)
Definition now : Action Z := fun env w => (Ok (env_now env (w_tick w)), w).

(** A synchronous step on the in-memory state: no fault, no tick. *)
Definition local (f : World -> World) : Action unit := fun _ w => (Ok tt, f w).

(** A database call: it may be rejected by the fault schedule, otherwise it
    runs atomically on the tables, reading the clock and the id generator. *)
Definition db_call {X} (f : Z -> string -> Db -> outcome X * Db) : Action X :=
  fun env w =>
    match env_db env (w_tick w) with
    | Some e => (Throw e, tick w)
    | None =>
        let '(r, d) := f (env_now env (w_tick w)) (env_uuid env (w_tick w)) (w_db w) in
        (r, set_db d (tick w))
    end.

(** A call to an external service, answered at the current tick. *)
Definition ext_call {X} (f : nat -> outcome X) : Action X := fun _ w => (f (w_tick w), tick w).

(** [await new Promise((resolve) => setTimeout(resolve, ms))]: other programs
    run meanwhile, nothing of this one happens. *)
Definition sleep : Action unit := fun _ w => (Ok tt, tick w).

(** Synchronous access to the configuration. *)
Definition ask {X} (f : Env -> X) : Prog X := await (fun env w => (Ok (f env), w)).

(** A notification is started and not awaited: its own failures are caught
    and logged, so the caller only sees that it was started. *)
Definition notify (t : NotificationType) (r : EscrowRecord) : Prog unit :=
  await (local (log_notice (mkNotice t r))).

Definition notifyAdmin (r : EscrowRecord) : Prog unit :=
  await (local (log_notice (mkAdminNotice r))).

(** ** Lemmas *)

Lemma run_bind {A B} (m : Prog A) (f : A -> Prog B) env w :
  run (bind m f) env w =
    match run m env w with
    | (Ok a, w') => run (f a) env w'
    | (Throw e, w') => (Throw e, w')
    end.
Proof.
  revert w. induction m as [a|e|X g k IH]; intros w; simpl; [done|done|].
  destruct (g env w) as [r w']. apply IH.
Qed.

Lemma run_catch {A} (m : Prog A) h env w :
  run (catch m h) env w =
    match run m env w with
    | (Ok a, w') => (Ok a, w')
    | (Throw e, w') => run (h e) env w'
    end.
Proof.
  revert w. induction m as [a|e|X g k IH]; intros w; simpl; [done|done|].
  destruct (g env w) as [r w']. apply IH.
Qed.

Lemma run_settle {A} (r : outcome A) env w : run (settle r) env w = (r, w).
Proof. by destruct r. Qed.

Lemma run_await {X} (f : Action X) env w : run (await f) env w = f env w.
Proof. unfold await. simpl. destruct (f env w) as [r w']. apply run_settle. Qed.

Lemma run_attempt {A} (m : Prog A) env w :
  run (attempt m) env w = (Ok (run m env w).1, (run m env w).2).
Proof.
  unfold attempt. rewrite run_catch, run_bind.
  by destruct (run m env w) as [[a|e] w'].
Qed.

Lemma run_finally {A} (m : Prog A) fin env w :
  run (finally m fin) env w =
    match run fin env (run m env w).2 with
    | (Ok _, w') => ((run m env w).1, w')
    | (Throw e, w') => (Throw e, w')
    end.
Proof.
  unfold finally. rewrite run_bind, run_attempt, run_bind.
  destruct (run fin env (run m env w).2) as [[u|e] w']; [|done]. apply run_settle.
Qed.

Lemma wp_bind {A B} (m : Prog A) (f : A -> Prog B) env w Q :
  wp m env w (fun r w' => match r with Ok a => wp (f a) env w' Q | Throw e => Q (Throw e) w' end) ->
  wp (bind m f) env w Q.
Proof.
  unfold wp. rewrite run_bind. by destruct (run m env w) as [[a|e] w'].
Qed.

Lemma wp_catch {A} (m : Prog A) h env w Q :
  wp m env w (fun r w' => match r with Ok a => Q (Ok a) w' | Throw e => wp (h e) env w' Q end) ->
  wp (catch m h) env w Q.
Proof.
  unfold wp. rewrite run_catch. by destruct (run m env w) as [[a|e] w'].
Qed.

Lemma wp_finally {A} (m : Prog A) fin env w Q :
  wp m env w (fun r w' => wp fin env w' (fun r' w'' =>
    match r' with Ok _ => Q r w'' | Throw e => Q (Throw e) w'' end)) ->
  wp (finally m fin) env w Q.
Proof.
  unfold wp. rewrite run_finally.
  by destruct (run fin env (run m env w).2) as [[u|e] w'].
Qed.

Lemma wp_ret {A} (a : A) env w (Q : outcome A -> World -> Prop) :
  Q (Ok a) w -> wp (Ret a) env w Q.
Proof. done. Qed.

Lemma wp_raise {A} e env w (Q : outcome A -> World -> Prop) :
  Q (Throw e) w -> wp (Raise e) env w Q.
Proof. done. Qed.

Lemma wp_await {X} (f : Action X) env w (Q : outcome X -> World -> Prop) :
  Q (f env w).1 (f env w).2 -> wp (await f) env w Q.
Proof. unfold wp. by rewrite run_await. Qed.

Lemma wp_mono {A} (m : Prog A) env w (Q Q' : outcome A -> World -> Prop) :
  wp m env w Q -> (forall r w', Q r w' -> Q' r w') -> wp m env w Q'.
Proof. unfold wp. auto. Qed.

Lemma wp_run {A} (m : Prog A) env w r w' (Q : outcome A -> World -> Prop) :
  run m env w = (r, w') -> wp m env w Q -> Q r w'.
Proof. unfold wp. by intros ->. Qed.

(** ** Step-wise relations *)

Section every.
Context (R : World -> World -> Prop).

Lemma every_bind {A B} (m : Prog A) (f : A -> Prog B) :
  every R m -> (forall a, every R (f a)) -> every R (bind m f).
Proof.
  intros Hm Hf. induction m as [a|e|X g k IH]; simpl in *; [done|done|].
  destruct Hm as [Hg Hk]. auto.
Qed.

Lemma every_catch {A} (m : Prog A) h :
  every R m -> (forall e, every R (h e)) -> every R (catch m h).
Proof.
  intros Hm Hh. induction m as [a|e|X g k IH]; simpl in *; [done|done|].
  destruct Hm as [Hg Hk]. auto.
Qed.

Lemma every_settle {A} (r : outcome A) : every R (settle r).
Proof. by destruct r. Qed.

Lemma every_await {X} (f : Action X) :
  (forall env w, R w (f env w).2) -> every R (await f).
Proof. intros H. split; [done|]. apply every_settle. Qed.

Lemma every_attempt {A} (m : Prog A) : every R m -> every R (attempt m).
Proof. intros H. apply every_catch; [apply every_bind|]; done. Qed.

Lemma every_finally {A} (m : Prog A) fin : every R m -> every R fin -> every R (finally m fin).
Proof.
  intros Hm Hf. apply every_bind; [by apply every_attempt|]. intros r.
  apply every_bind; [done|]. intros _. apply every_settle.
Qed.

Lemma every_forEach {A} (xs : list A) (f : A -> Prog unit) :
  (forall x, every R (f x)) -> every R (forEach xs f).
Proof. intros Hf. induction xs; [done|]. by apply every_bind. Qed.

(** In parallel: the scheduler itself only ticks. *)
Lemma every_par (m1 m2 : Prog unit) :
  (forall w, R w (tick w)) -> every R m1 -> every R m2 -> every R (par m1 m2).
Proof.
  intros Ht. revert m2. induction m1 as [a|e|X1 f1 k1 IH1]; intros m2 H1 H2.
  - by destruct m2.
  - induction m2 as [a|e2|X2 f2 k2 IH2]; [done|done|]. destruct H2 as [Hf Hk]. split; [done|]. intros r. by apply IH2.
  - induction m2 as [a|e2|X2 f2 k2 IH2]; [done| |].
    + destruct H1 as [Hf Hk]. split; [done|]. intros r. by apply IH1.
    + split; [intros; apply Ht|]. intros b. destruct (turn b).
      * destruct H1 as [Hf Hk]. split; [done|]. intros r. by apply IH1.
      * destruct H2 as [Hf Hk]. split; [done|]. intros r. by apply IH2.
Qed.

Lemma every_promiseAll (ms : list (Prog unit)) :
  (forall w, R w (tick w)) -> Forall (every R) ms -> every R (promiseAll ms).
Proof. intros Ht. induction 1; [done|]. by apply every_par. Qed.

Context `{!PreOrder R}.

Lemma every_run {A} (m : Prog A) env w : every R m -> R w (run m env w).2.
Proof.
  revert w. induction m as [a|e|X g k IH]; intros w; simpl; [done|done|].
  intros [Hg Hk]. specialize (Hg env w). destruct (g env w) as [r w'] eqn:E. simpl in *.
  etrans; [exact Hg|]. by apply IH.
Qed.

(** A relation kept by every atom is kept by any interleaving. *)
Lemma every_pool {A} env w (ps : list (Prog A)) w' ps' :
  Forall (every R) ps -> rtc (pool_step env) (w, ps) (w', ps') ->
  R w w' /\ Forall (every R) ps'.
Proof.
  intros Hps Hstar. remember (w, ps) as c eqn:Hc. remember (w', ps') as c' eqn:Hc'.
  revert w ps Hps Hc. induction Hstar as [c|c1 c2 c3 Hstep Hstar IH]; intros w ps Hps Hc; subst.
  - simplify_eq. done.
  - inversion Hstep as [w0 ps0 i X f k r w1 Hi Hf]; simplify_eq.
    pose proof (Forall_lookup_1 _ _ _ _ Hps Hi) as [Hstepf Hk].
    destruct (IH eq_refl w1 (<[i:=k r]> ps)) as [HR Hps']; [|done|].
    + by apply Forall_insert.
    + split; [|done]. specialize (Hstepf env w). rewrite Hf in Hstepf. etrans; eauto.
Qed.
End every.

Lemma every_mono {A} (R R' : World -> World -> Prop) (m : Prog A) :
  (forall w w', R w w' -> R' w w') -> every R m -> every R' m.
Proof. intros HR. induction m as [a|e|X g k IH]; simpl; [done|done|]. intros [? ?]. auto. Qed.

(** Walks a program, leaving the atoms' obligations to [tac]. *)
Ltac walk_every tac :=
  repeat first
    [ exact I
    | progress intros
    | apply every_settle
    | solve [tac]
    | apply every_bind
    | apply every_catch
    | apply every_attempt
    | apply every_finally
    | apply every_forEach
    | progress cbv zeta
    | case_match ].

#[global] Arguments wp : simpl never.
#[global] Arguments run : simpl never.
#[global] Arguments bind : simpl never.
#[global] Arguments catch : simpl never.
#[global] Arguments await : simpl never.
#[global] Arguments db_call : simpl never.
#[global] Arguments every : simpl never.
