(* ===== verification/Logistics.v ===== *)
(** * Logistics

    [src/src/logistics/]: the provider's API key, kept encrypted in memory and
    in the [ProviderCredential] table ([logistics.service.ts],
    [provider-credential.repository.ts]), the HTTP client ([gigl/gigl.client.ts])
    and the mapping of its payloads ([gigl/gigl-logistics.service.ts]).  The
    HTTP call itself and [new Date] are parameters. *)
From S2P Require Import Prelude Records Dates Text Tables Crypto Effects.
Local Open Scope prog_scope.

Definition LOGISTICS_CREDENTIAL_PROVIDER : string := "logistics".

Module ProviderCredential.

Definition findByProvider (provider : string) : Prog (option string) :=
  await (db_call (fun _ _ d => (Ok (ac_credentials (db_accounts d) !! provider), d))).

Definition upsert (provider encryptedKey : string) : Prog unit :=
  await (db_call (fun _ _ d =>
    (Ok tt, set_accounts (set_credentials (<[provider := encryptedKey]> (ac_credentials (db_accounts d)))
                            (db_accounts d)) d))).

End ProviderCredential.

(** ** The client *)

Module GiglClient.

Definition GiglUnauthorizedError (trackingNumber : string) : exn :=
  JsError ("GIGL API rejected the request for tracking number " +:+ DQ +:+ trackingNumber +:+ DQ +:+ ": " +:+
    "invalid or expired API token (HTTP 401).").
Definition GiglNetworkError (trackingNumber cause : string) : exn :=
  JsError ("Network error while fetching GIGL tracking data for " +:+ DQ +:+ trackingNumber +:+ DQ +:+ ": " +:+ cause).
Definition GiglProviderError (trackingNumber : string) (statusCode : Z) : exn :=
  JsError ("GIGL API returned HTTP " +:+ bigint_toString statusCode +:+ " for tracking number " +:+ DQ +:+
    trackingNumber +:+ DQ +:+ ".").
Definition GiglInvalidResponseError (trackingNumber reason : string) : exn :=
  JsError ("GIGL API returned a malformed response for tracking number " +:+ DQ +:+ trackingNumber +:+ DQ +:+ ": " +:+ reason).

(** The type guard: the body at its narrowed type, [None] when it is not
    valid. *)
Definition isValidGiglResponse (data : option GiglBody) : option GiglTrackingResponse :=
  match data with
  | Some (mkGiglBody (Some (JStr number)) (Some (JStr status)) (Some (JStr carrier)) (Some estimated) (Some events)) =>
      match estimated with
      | JStr date => Some (mkGigl number status carrier (Some date) events)
      | JNull => Some (mkGigl number status carrier None events)
      | _ => None
      end
  | _ => None
  end.

Definition network_cause (code message : option string) : string :=
  if bool_decide (code = Some "ECONNABORTED") || bool_decide (code = Some "ETIMEDOUT")
  then "request timed out (" +:+ coalesce code "" +:+ ")"
  else coalesce message "unknown network error".

Definition settle_reply (trackingNumber : string) (reply : GiglReply) : outcome GiglTrackingResponse :=
  match reply with
  | GiglData data =>
      match isValidGiglResponse data with
      | Some r => Ok r
      | None => Throw (GiglInvalidResponseError trackingNumber "response body is missing one or more required fields")
      end
  | GiglNoResponse code message => Throw (GiglNetworkError trackingNumber (network_cause code message))
  | GiglStatus status =>
      if (status =? 401)%Z then Throw (GiglUnauthorizedError trackingNumber)
      else Throw (GiglProviderError trackingNumber status)
  | GiglError e => Throw e
  end.

(** [http] is the axios instance, [getApiToken] the token supplier. *)
Definition fetchTracking (http : nat -> string -> string -> GiglReply) (getApiToken : Action (option string))
    (trackingNumber : string) : Prog GiglTrackingResponse :=
  let* apiToken := await getApiToken in
  if negb (truthy apiToken) then Raise (GiglUnauthorizedError trackingNumber)
  else await (ext_call (fun t =>
    settle_reply trackingNumber (http t ("/tracking/" +:+ encodeURIComponent trackingNumber) (coalesce apiToken "")))).

End GiglClient.

(** ** The service *)

Module Logistics.

Definition set_key (k : option string) : Action unit := local (fun w => set_side (set_apiKey k (w_side w)) w).

(** [encryptCredential] under the configured key. *)
Definition seal_key (key : string) : Action string := fun env w =>
  let encryptionKey := env_config env "CREDENTIAL_ENCRYPTION_KEY" in
  (if truthy encryptionKey then encryptCredential (env_providers env) (coalesce encryptionKey "") (w_tick w) key
   else Throw (JsError "CREDENTIAL_ENCRYPTION_KEY is not configured"), w).

Definition setApiKey (key : string) : Prog unit :=
  let* encryptedKey := await (seal_key key) in
  await (set_key (Some encryptedKey)).

Definition rotateApiKey (key : string) : Prog unit :=
  let* encryptedKey := await (seal_key key) in
  await (set_key (Some encryptedKey)) ;;;
  ProviderCredential.upsert LOGISTICS_CREDENTIAL_PROVIDER encryptedKey.

Definition getApiKey : Action (option string) := fun env w =>
  (if negb (truthy (sd_apiKey (w_side w))) then Ok None
   else
     let encryptionKey := env_config env "CREDENTIAL_ENCRYPTION_KEY" in
     match (if truthy encryptionKey
            then decryptCredential (env_providers env) (coalesce encryptionKey "") (coalesce (sd_apiKey (w_side w)) "")
            else Throw (JsError "CREDENTIAL_ENCRYPTION_KEY is not configured")) with
     | Ok key => Ok (Some key)
     | Throw _ => Throw (JsError "Failed to decrypt logistics API key")
     end, w).

Definition getEncryptedApiKey : Action (option string) := fun _ w => (Ok (sd_apiKey (w_side w)), w).
Definition setEncryptedApiKey (encryptedKey : string) : Prog unit := await (set_key (Some encryptedKey)).

(** The key of the environment, when no credential is stored. *)
Definition load_env_key : Prog unit :=
  let* envToken := ask (fun env => env_config env "LOGISTICS_API_KEY") in
  let* key := ask (fun env => env_config env "CREDENTIAL_ENCRYPTION_KEY") in
  if truthy envToken && truthy key then setApiKey (coalesce envToken "") else Ret tt.

Definition loadPersistedApiKey : Prog unit :=
  let* record := attempt (ProviderCredential.findByProvider LOGISTICS_CREDENTIAL_PROVIDER) in
  match record with
  | Ok (Some encryptedKey) => await (set_key (Some encryptedKey))
  | _ => load_env_key
  end.

(** A key that cannot be decrypted makes the boot fail. *)
Definition onModuleInit : Prog unit :=
  loadPersistedApiKey ;;;
  await getApiKey ;;;
  Ret tt.

(** *** Mapping *)

Definition mapStatus (giglStatus : string) : LogisticsStatus :=
  if bool_decide (giglStatus = "DELIVERED") then LDelivered
  else if bool_decide (giglStatus = "IN_TRANSIT") || bool_decide (giglStatus = "OUT_FOR_DELIVERY") then LInTransit
  else LPending.

Definition mapEvent (parse : string -> Z) (raw : GiglEvent) : TrackingEventOf Z :=
  mkTrackingEvent (parse (ge_event_time raw)) (ge_event_code raw) (ge_location raw) (ge_description raw).

Definition mapTrackingResponse (parse : string -> Z) (raw : GiglTrackingResponse) : TrackingDetails :=
  mkTracking (mapStatus (gr_current_status raw))
    (if truthy (gr_estimated_delivery raw) then parse <$> gr_estimated_delivery raw else None)
    (Some (gr_carrier_code raw)) (mapEvent parse <$> gr_events raw).

Definition getStatus (trackingId : string) : Prog TrackingDetails :=
  let* client := ask (fun env => pv_gigl (env_providers env)) in
  match client with
  | None => Raise (JsError ("Logistics service is not configured for " +:+ trackingId))
  | Some http =>
      let* raw := GiglClient.fetchTracking http getApiKey trackingId in
      ask (fun env => mapTrackingResponse (pv_parseDate (env_providers env)) raw)
  end.

(** The same request: there is no separate details endpoint. *)
Definition getTrackingDetails (trackingId : string) : Prog TrackingDetails := getStatus trackingId.

End Logistics.
