(* ===== verification/Cache.v ===== *)
(** * CacheService

    [src/cache/cache.service.ts]: the Redis client when [REDIS_URL] is set,
    otherwise the in-memory [Map] with expiry, sweep and a capacity bound.
    Also [reviveCachedEscrow] of [src/escrow/escrow.repository.ts], which
    undoes what a Redis round trip does to a cached escrow. *)
From S2P Require Import Prelude Records Dates Text Tables Effects.
Local Open Scope prog_scope.

(** ** JSON images *)

Definition escrow_json (r : EscrowRecord) : EscrowJson :=
  mkEscrow (e_id r) (bigint_toString <$> e_contractEscrowId r) (e_itemName r)
    (e_itemRef r) (e_amount r) (e_currency r) (e_buyerAddress r) (e_vendorAddress r)
    (e_state r) (e_trackingId r) (toISOString <$> e_trackingCheckedAt r)
    (toISOString <$> e_shippedAt r) (toISOString <$> e_deliveredAt r)
    (toISOString <$> e_deliveryRecordedAt r) (toISOString <$> e_autoReleaseSubmittedAt r)
    (e_autoReleaseTxHash r) (e_disputeId r) (toISOString <$> e_cancelledAt r)
    (e_buyerContactEmail r) (e_buyerContactPhone r) (toISOString (e_createdAt r))
    (toISOString (e_updatedAt r)).

Definition tracking_json (t : TrackingDetails) : TrackingJson :=
  mkTracking (td_status t) (toISOString <$> td_estimatedDelivery t) (td_carrier t)
    ((fun ev => mkTrackingEvent (toISOString (te_timestamp ev)) (te_status ev)
        (te_location ev) (te_description ev)) <$> td_events t).

(** [JSON.parse(JSON.stringify(value))]. *)
Definition json_image (v : cval) : cval :=
  match v with
  | CEscrow r => CEscrowJson (escrow_json r)
  | CTracking t => CTrackingJson (tracking_json t)
  | CIdempotent h r => CIdempotentJson h (mkWithUrl (escrow_json (wu_escrow r)) (wu_paymentUrl r))
  | v => v
  end.

(** [if (typeof value === 'string') record[field] = new Date(value)], for
    the nullable date fields. *)
Definition revive_date (o : option string) : option (option Z) :=
  match o with
  | None => Some None
  | Some s => match parseDate s with Some d => Some (Some d) | None => None end
  end.

Definition revive_bigint (o : option string) : option (option Z) :=
  match o with
  | None => Some None
  | Some s => match BigInt_parse s with Some n => Some (Some n) | None => None end
  end.

(** [None] stands for a value that is not the image of an escrow (an
    [Invalid Date], or a string [BigInt] refuses). *)
Definition reviveCachedEscrow (v : cval) : option EscrowRecord :=
  match v with
  | CEscrow r => Some r
  | CEscrowJson j =>
      match revive_bigint (e_contractEscrowId j), revive_date (e_trackingCheckedAt j),
        revive_date (e_shippedAt j), revive_date (e_deliveredAt j),
        revive_date (e_deliveryRecordedAt j), revive_date (e_autoReleaseSubmittedAt j),
        revive_date (e_cancelledAt j), parseDate (e_createdAt j), parseDate (e_updatedAt j)
      with
      | Some cid, Some checked, Some shipped, Some delivered, Some recorded,
        Some submitted, Some cancelled, Some created, Some updated =>
          Some (mkEscrow (e_id j) cid (e_itemName j) (e_itemRef j) (e_amount j)
            (e_currency j) (e_buyerAddress j) (e_vendorAddress j) (e_state j)
            (e_trackingId j) checked shipped delivered recorded submitted
            (e_autoReleaseTxHash j) (e_disputeId j) cancelled (e_buyerContactEmail j)
            (e_buyerContactPhone j) created updated)
      | _, _, _, _, _, _, _, _, _ => None
      end
  | _ => None
  end.

(** ** The in-memory fallback: an insertion-ordered [Map] *)

Definition MAX_MEMORY_ENTRIES : Z := 1000.

Abbreviation memory := (list (string * CacheEntry)).

Fixpoint map_get (key : string) (m : memory) : option CacheEntry :=
  match m with
  | [] => None
  | (k, e) :: m => if bool_decide (k = key) then Some e else map_get key m
  end.

Definition map_delete (key : string) (m : memory) : memory :=
  List.filter (fun kv => negb (bool_decide (kv.1 = key))) m.

(** [Map.prototype.set]: an existing key keeps its place. *)
Fixpoint map_set (key : string) (e : CacheEntry) (m : memory) : memory :=
  match m with
  | [] => [(key, e)]
  | (k, e') :: m => if bool_decide (k = key) then (k, e) :: m else (k, e') :: map_set key e m
  end.

(** [sweep]: drops every entry past its expiry. *)
Definition sweep (now : Z) (m : memory) : memory :=
  List.filter (fun kv => negb (ce_expiresAt kv.2 <? now)%Z) m.

(** [entries.sort((a, b) => a.expiresAt - b.expiresAt)], stable. *)
Definition sort_by_expiry (m : memory) : memory := sort_by (asc (fun kv => ce_expiresAt kv.2)) m.

Definition evictToCapacity (m : memory) : memory :=
  if (Z.of_nat (length m) <=? MAX_MEMORY_ENTRIES)%Z then m
  else
    let toDelete := (Z.of_nat (length m) - MAX_MEMORY_ENTRIES)%Z in
    foldl (fun m kv => map_delete kv.1 m) m (take (Z.to_nat toDelete) (sort_by_expiry m)).

(** ** Public API *)

Definition cache_get_action (key : string) : Action (option cval) := fun env w =>
  let t := env_now env (w_tick w) in
  if env_redis env then
    if env_redis_down env (w_tick w) then (Ok None, tick w)
    else
      match w_redis w !! key with
      | Some e =>
          (* the server drops a key past its [EX] expiry *)
          if (ce_expiresAt e <=? t)%Z then (Ok None, set_redis (delete key (w_redis w)) (tick w))
          else (Ok (Some (ce_value e)), tick w)
      | None => (Ok None, tick w)
      end
  else
    match map_get key (w_memory w) with
    | None => (Ok None, tick w)
    | Some e =>
        if (ce_expiresAt e <? t)%Z
        then (Ok None, set_memory (map_delete key (w_memory w)) (tick w))
        else (Ok (Some (ce_value e)), tick w)
    end.

Definition cache_set_action (key : string) (value : cval) (ttlSeconds : Z) : Action unit :=
  fun env w =>
  let entry v := mkEntry v (env_now env (w_tick w) + ttlSeconds * 1000)%Z in
  if env_redis env then
    if env_redis_down env (w_tick w) then (Ok tt, tick w)
    else (Ok tt, set_redis (<[key := entry (json_image value)]> (w_redis w)) (tick w))
  else
    (Ok tt, set_memory (evictToCapacity (map_set key (entry value) (w_memory w))) (tick w)).

Definition cache_del_action (key : string) : Action unit := fun env w =>
  if env_redis env then
    if env_redis_down env (w_tick w) then (Ok tt, tick w)
    else (Ok tt, set_redis (delete key (w_redis w)) (tick w))
  else (Ok tt, set_memory (map_delete key (w_memory w)) (tick w)).

(** [this.cache?.get(key)]: without an injected cache, [undefined]. *)
Definition cache_get (key : string) : Prog (option cval) :=
  await (fun env w => if env_cache env then cache_get_action key env w else (Ok None, w)).

Definition cache_set (key : string) (value : cval) (ttlSeconds : Z) : Prog unit :=
  await (fun env w => if env_cache env then cache_set_action key value ttlSeconds env w
                      else (Ok tt, w)).

Definition cache_del (key : string) : Prog unit :=
  await (fun env w => if env_cache env then cache_del_action key env w else (Ok tt, w)).

(** The raw entry the active backend holds under a key, expired or not. *)
Definition cached (env : Env) (w : World) (key : string) : option cval :=
  if env_cache env then
    ce_value <$> (if env_redis env then w_redis w !! key else map_get key (w_memory w))
  else None.

(** ** Round trip through Redis *)

Definition opt_iso (o : option Z) : Prop := match o with Some d => in_iso_range d | None => True end.

Definition dates_ok {N B} (r : EscrowOf N B Z) : Prop :=
  opt_iso (e_trackingCheckedAt r) /\ opt_iso (e_shippedAt r) /\ opt_iso (e_deliveredAt r) /\
  opt_iso (e_deliveryRecordedAt r) /\ opt_iso (e_autoReleaseSubmittedAt r) /\
  opt_iso (e_cancelledAt r) /\ in_iso_range (e_createdAt r) /\ in_iso_range (e_updatedAt r).

Lemma revive_date_iso o : opt_iso o -> revive_date (toISOString <$> o) = Some o.
Proof. destruct o as [d|]; [|done]. intros H. cbn [fmap option_fmap option_map revive_date]. by rewrite parse_toISOString. Qed.

Lemma revive_bigint_image o : revive_bigint (bigint_toString <$> o) = Some o.
Proof. destruct o as [n|]; [|done]. cbn [fmap option_fmap option_map revive_bigint]. by rewrite BigInt_parse_toString. Qed.

Lemma revive_json_image r :
  dates_ok r -> reviveCachedEscrow (json_image (CEscrow r)) = Some r.
Proof.
  intros (H1 & H2 & H3 & H4 & H5 & H6 & H7 & H8). destruct r. cbn [json_image reviveCachedEscrow].
  unfold escrow_json. cbn in *.
  rewrite revive_bigint_image, !revive_date_iso, !parse_toISOString by done. done.
Qed.

(** ** Laws of the fallback map *)

Lemma map_get_delete_eq key m : map_get key (map_delete key m) = None.
Proof.
  induction m as [|[k e] m IH]; [done|]. unfold map_delete. simpl.
  case_bool_decide; simpl; [done|]. rewrite bool_decide_false by done. exact IH.
Qed.

Lemma map_get_delete_ne key key' m :
  key <> key' -> map_get key (map_delete key' m) = map_get key m.
Proof.
  intros Hne. induction m as [|[k e] m IH]; [done|]. unfold map_delete. simpl.
  destruct (decide (k = key')) as [->|Hk].
  - rewrite bool_decide_true by done. simpl. rewrite bool_decide_false by done. exact IH.
  - rewrite bool_decide_false by done. simpl. case_bool_decide; [done|]. exact IH.
Qed.

Lemma map_get_delete_Some key key' m e :
  map_get key (map_delete key' m) = Some e -> map_get key m = Some e /\ key <> key'.
Proof.
  destruct (decide (key = key')) as [->|Hne].
  - by rewrite map_get_delete_eq.
  - rewrite map_get_delete_ne by done. done.
Qed.

Lemma map_get_set key key' e m :
  map_get key (map_set key' e m) = if decide (key = key') then Some e else map_get key m.
Proof.
  induction m as [|[k e'] m IH]; simpl.
  - case_decide; subst; [by rewrite bool_decide_true|]. by rewrite bool_decide_false.
  - destruct (decide (k = key')) as [->|Hk].
    + rewrite bool_decide_true by done. simpl. repeat case_bool_decide; case_decide; congruence.
    + rewrite (bool_decide_false (k = key')) by done. simpl. rewrite IH.
      repeat case_bool_decide; case_decide; congruence.
Qed.

Lemma map_get_foldl_delete key l m e :
  map_get key (foldl (fun m (kv : string * CacheEntry) => map_delete kv.1 m) m l) = Some e ->
  map_get key m = Some e.
Proof.
  revert m. induction l as [|kv l IH]; intros m H; simpl in *; [done|].
  apply IH in H. by apply map_get_delete_Some in H as [? _].
Qed.

Lemma evict_get key m e : map_get key (evictToCapacity m) = Some e -> map_get key m = Some e.
Proof. unfold evictToCapacity. case_match; [done|]. apply map_get_foldl_delete. Qed.
