(* ===== verification/Prisma.v ===== *)
(** * The database

    The calls the repositories make on [PrismaService], as atomic actions on
    the tables of [Db], with the constraints of [prisma/schema.prisma]: unique
    keys ([P2002]), foreign keys ([P2003]), a missing row on [update] or
    [delete] ([P2025]), the range of [Decimal(18, 8)] ([P2020]), and the
    [@updatedAt] columns.  A conditional [updateMany] is one atom: its
    condition and its write are one SQL statement. *)
From S2P Require Import Prelude Records Text Tables Effects.

(** ** Escrow *)

Definition escrow_rows (d : Db) : list PrismaEscrow := (map_to_list (db_escrows d)).*2.

Definition escrow_findUnique (id : string) : Action (option PrismaEscrow) :=
  db_call (fun _ _ d => (Ok (db_escrows d !! id), d)).

(** [findMany({ where, orderBy, skip, take })]. *)
Definition escrow_select (P : PrismaEscrow -> bool) (le : PrismaEscrow -> PrismaEscrow -> bool)
    (d : Db) : list PrismaEscrow := sort_by le (List.filter P (escrow_rows d)).

Definition escrow_findMany (P : PrismaEscrow -> bool) (le : PrismaEscrow -> PrismaEscrow -> bool)
    (window : list PrismaEscrow -> list PrismaEscrow) : Action (list PrismaEscrow) :=
  db_call (fun _ _ d => (Ok (window (escrow_select P le d)), d)).

Definition escrow_count (P : PrismaEscrow -> bool) : Action Z :=
  db_call (fun _ _ d => (Ok (Z.of_nat (length (List.filter P (escrow_rows d)))), d)).

(** [update({ where: { id }, data })]: [f now] is the [data] object. *)
Definition escrow_update (id : string) (f : Z -> PrismaEscrow -> PrismaEscrow) : Action PrismaEscrow :=
  db_call (fun now _ d =>
    match db_escrows d !! id with
    | None => (Throw (PrismaError "P2025"), d)
    | Some row =>
        let row' := set_updatedAt now (f now row) in
        (Ok row', set_escrows (<[id := row']> (db_escrows d)) d)
    end).

(** [updateMany({ where: { id, ...P }, data })]: the number of rows changed. *)
Definition escrow_updateMany (id : string) (P : PrismaEscrow -> bool)
    (f : Z -> PrismaEscrow -> PrismaEscrow) : Action Z :=
  db_call (fun now _ d =>
    match db_escrows d !! id with
    | Some row =>
        if P row
        then (Ok 1%Z, set_escrows (<[id := set_updatedAt now (f now row)]> (db_escrows d)) d)
        else (Ok 0%Z, d)
    | None => (Ok 0%Z, d)
    end).

(** [create({ data })]: [mk now id] is the new row. *)
Definition escrow_create (mk : Z -> string -> PrismaEscrow) : Action PrismaEscrow :=
  db_call (fun now uuid d =>
    let row := mk now uuid in
    if (10 ^ 18 <=? Z.abs (e_amount row))%Z then (Throw (PrismaError "P2020"), d)
    else if bool_decide (is_Some (db_escrows d !! e_id row)) then (Throw (PrismaError "P2002"), d)
    else if existsb (fun r => bool_decide (e_vendorAddress r = e_vendorAddress row) &&
                              bool_decide (e_itemRef r = e_itemRef row)) (escrow_rows d)
    then (Throw (PrismaError "P2002"), d)
    else if bool_decide (is_Some (db_vendors d !! e_vendorAddress row))
    then (Ok row, set_escrows (<[e_id row := row]> (db_escrows d)) d)
    else (Throw (PrismaError "P2003"), d)).

(** ** Vendor profile *)

(** [upsert({ where: { address }, create, update: {} })]: an existing profile
    is left untouched. *)
Definition vendor_upsert (address : string) (mk : Z -> VendorProfileRecord) : Action VendorProfileRecord :=
  db_call (fun now _ d =>
    match db_vendors d !! address with
    | Some v => (Ok v, d)
    | None => (Ok (mk now), set_vendors (<[address := mk now]> (db_vendors d)) d)
    end).

(** ** Dispute *)

Definition dispute_rows (d : Db) : list DisputeRecord := (map_to_list (db_disputes d)).*2.

Definition dispute_findUnique (id : string) : Action (option DisputeRecord) :=
  db_call (fun _ _ d => (Ok (db_disputes d !! id), d)).

Definition dispute_findFirst (P : DisputeRecord -> bool) : Action (option DisputeRecord) :=
  db_call (fun _ _ d => (Ok (List.find P (dispute_rows d)), d)).

Definition dispute_findMany (P : DisputeRecord -> bool) (le : DisputeRecord -> DisputeRecord -> bool)
    (skip limit : Z) : Action (list DisputeRecord) :=
  db_call (fun _ _ d => (Ok (page_of skip limit (sort_by le (List.filter P (dispute_rows d)))), d)).

Definition dispute_count (P : DisputeRecord -> bool) : Action Z :=
  db_call (fun _ _ d => (Ok (Z.of_nat (length (List.filter P (dispute_rows d)))), d)).

(** [escrowId] is unique and references an escrow. *)
Definition dispute_create (mk : Z -> string -> DisputeRecord) : Action DisputeRecord :=
  db_call (fun now uuid d =>
    let row := mk now uuid in
    if bool_decide (is_Some (db_disputes d !! d_id row)) then (Throw (PrismaError "P2002"), d)
    else if existsb (fun r => bool_decide (d_escrowId r = d_escrowId row)) (dispute_rows d)
    then (Throw (PrismaError "P2002"), d)
    else if bool_decide (is_Some (db_escrows d !! d_escrowId row))
    then (Ok row, set_disputes (<[d_id row := row]> (db_disputes d)) d)
    else (Throw (PrismaError "P2003"), d)).

Definition dispute_update (id : string) (f : Z -> DisputeRecord -> DisputeRecord) : Action DisputeRecord :=
  db_call (fun now _ d =>
    match db_disputes d !! id with
    | None => (Throw (PrismaError "P2025"), d)
    | Some row => (Ok (f now row), set_disputes (<[id := f now row]> (db_disputes d)) d)
    end).

(** ** Failed transactions *)

Definition failed_rows (d : Db) : list FailedTransactionRecord := (map_to_list (db_failed d)).*2.

Definition failed_findUnique (id : string) : Action (option FailedTransactionRecord) :=
  db_call (fun _ _ d => (Ok (db_failed d !! id), d)).

Definition failed_findMany (P : FailedTransactionRecord -> bool)
    (le : FailedTransactionRecord -> FailedTransactionRecord -> bool) (skip limit : Z)
    : Action (list FailedTransactionRecord) :=
  db_call (fun _ _ d => (Ok (page_of skip limit (sort_by le (List.filter P (failed_rows d)))), d)).

Definition failed_count (P : FailedTransactionRecord -> bool) : Action Z :=
  db_call (fun _ _ d => (Ok (Z.of_nat (length (List.filter P (failed_rows d)))), d)).

Definition failed_create (mk : Z -> string -> FailedTransactionRecord) : Action FailedTransactionRecord :=
  db_call (fun now uuid d =>
    let row := mk now uuid in
    if bool_decide (is_Some (db_failed d !! f_id row)) then (Throw (PrismaError "P2002"), d)
    else (Ok row, set_failed (<[f_id row := row]> (db_failed d)) d)).

Definition failed_update (id : string) (f : Z -> FailedTransactionRecord -> FailedTransactionRecord)
    : Action FailedTransactionRecord :=
  db_call (fun now _ d =>
    match db_failed d !! id with
    | None => (Throw (PrismaError "P2025"), d)
    | Some row => (Ok (f now row), set_failed (<[id := f now row]> (db_failed d)) d)
    end).

Definition failed_updateMany (id : string) (P : FailedTransactionRecord -> bool)
    (f : Z -> FailedTransactionRecord -> FailedTransactionRecord) : Action Z :=
  db_call (fun now _ d =>
    match db_failed d !! id with
    | Some row =>
        if P row then (Ok 1%Z, set_failed (<[id := f now row]> (db_failed d)) d) else (Ok 0%Z, d)
    | None => (Ok 0%Z, d)
    end).

(** ** Processed webhook events and cursors *)

Definition webhook_findUnique (operationId : string) : Action (option Z) :=
  db_call (fun _ _ d => (Ok (db_webhooks d !! operationId), d)).

Definition webhook_create (operationId : string) : Action unit :=
  db_call (fun now _ d =>
    match db_webhooks d !! operationId with
    | Some _ => (Throw (PrismaError "P2002"), d)
    | None => (Ok tt, set_webhooks (<[operationId := now]> (db_webhooks d)) d)
    end).

Definition webhook_delete (operationId : string) : Action unit :=
  db_call (fun _ _ d =>
    match db_webhooks d !! operationId with
    | Some _ => (Ok tt, set_webhooks (delete operationId (db_webhooks d)) d)
    | None => (Throw (PrismaError "P2025"), d)
    end).

(** [deleteMany({ where: { processedAt: { lt: before } } })]. *)
Definition webhook_deleteMany (before : Z) : Action Z :=
  db_call (fun _ _ d =>
    let kept := filter (fun kv : string * Z => before <= kv.2)%Z (db_webhooks d) in
    (Ok (Z.of_nat (size (db_webhooks d)) - Z.of_nat (size kept))%Z, set_webhooks kept d)).

Definition cursor_findUnique (id : string) : Action (option string) :=
  db_call (fun _ _ d => (Ok (db_cursors d !! id), d)).

Definition cursor_upsert (id value : string) : Action unit :=
  db_call (fun _ _ d => (Ok tt, set_cursors (<[id := value]> (db_cursors d)) d)).

(** ** Audit log *)

Definition audit_create (mk : Z -> string -> AuditLogEntry) : Action AuditLogEntry :=
  db_call (fun now cuid d =>
    let row := mk now cuid in (Ok row, set_audit (db_audit d ++ [row]) d)).

Definition audit_findMany (P : AuditLogEntry -> bool) (skip limit : Z) : Action (list AuditLogEntry) :=
  db_call (fun _ _ d =>
    (Ok (page_of skip limit (sort_by (desc al_occurredAt) (List.filter P (db_audit d)))), d)).

Definition audit_count (P : AuditLogEntry -> bool) : Action Z :=
  db_call (fun _ _ d => (Ok (Z.of_nat (length (List.filter P (db_audit d)))), d)).

(** ** Inversion of a database call *)

Lemma db_call_cases {X} (f : Z -> string -> Db -> outcome X * Db) env w :
  (exists e, ~ db_reliable env /\ db_call f env w = (Throw e, tick w)) \/
  (db_call f env w =
     ((f (env_now env (w_tick w)) (env_uuid env (w_tick w)) (w_db w)).1,
      set_db (f (env_now env (w_tick w)) (env_uuid env (w_tick w)) (w_db w)).2 (tick w))).
Proof.
  unfold db_call. destruct (env_db env (w_tick w)) as [e|] eqn:He; [left|right].
  - exists e. split; [|done]. intros Hr. by rewrite Hr in He.
  - by destruct (f _ _ _).
Qed.

Lemma db_call_reliable {X} (f : Z -> string -> Db -> outcome X * Db) env w :
  db_reliable env ->
  db_call f env w =
    ((f (env_now env (w_tick w)) (env_uuid env (w_tick w)) (w_db w)).1,
     set_db (f (env_now env (w_tick w)) (env_uuid env (w_tick w)) (w_db w)).2 (tick w)).
Proof. intros H. unfold db_call. rewrite H. by destruct (f _ _ _). Qed.
