(* ===== verification/EscrowRepo.v ===== *)
(** * EscrowRepository

    [src/escrow/escrow.repository.ts], one definition per method: reads go
    through the cache, writes go to the database and then drop the cached
    entry. *)
From S2P Require Import Prelude Records Dates Text Tables Effects Cache Prisma.
Local Open Scope prog_scope.

(** ** Cache keys *)

Definition cacheKey (id : string) : string := "escrow:" +:+ id.

Definition invalidate (id : string) : Prog unit := cache_del (cacheKey id).

Definition invalidateCache (id : string) : Prog unit := invalidate id.

(** ** Creation and reads *)

Record CreateEscrowDto : Type := mkCreateEscrowDto {
  dto_itemName : string;
  dto_itemRef : string;
  dto_amount : number;
  dto_currency : string;
  dto_buyerAddress : string
}.

(** The row [create] inserts: the fields of the DTO, [state: 'CREATED'], every
    nullable column null, both timestamps the time of the insert. *)
Definition new_escrow_row (dto : CreateEscrowDto) (vendorAddress : string) (amount : Z)
    (now : Z) (uuid : string) : PrismaEscrow :=
  mkEscrow uuid None (dto_itemName dto) (dto_itemRef dto) amount (dto_currency dto)
    (dto_buyerAddress dto) vendorAddress CREATED None None None None None None None None None
    None None now now.

Definition create (dto : CreateEscrowDto) (vendorAddress : string) : Prog EscrowRecord :=
  let* row := await (fun env => escrow_create
    (new_escrow_row dto vendorAddress (env_decimal env (dto_amount dto))) env) in
  Ret (toEscrowRecord row).

Definition findByVendorAndItem (vendorAddress itemRef : string) : Prog (option EscrowRecord) :=
  let* rows := await (escrow_findMany
    (fun r => bool_decide (e_vendorAddress r = vendorAddress) && bool_decide (e_itemRef r = itemRef))
    (asc e_createdAt) (take 1)) in
  Ret (toEscrowRecord <$> head rows).

(** [findById] on a cache miss. *)
Definition findById_miss (id : string) : Prog (option EscrowRecord) :=
  let* row := await (escrow_findUnique id) in
  match row with
  | None => Ret None
  | Some row =>
      let record := toEscrowRecord row in
      cache_set (cacheKey id) (CEscrow record) ESCROW_CACHE_TTL_SECONDS ;;;
      Ret (Some record)
  end.

Definition findById (id : string) : Prog (option EscrowRecord) :=
  let* cached := cache_get (cacheKey id) in
  match cached with
  | Some v =>
      match reviveCachedEscrow v with
      | Some r => Ret (Some r)
      | None => Raise (JsError "Cannot convert the cached value")
      end
  | None => findById_miss id
  end.

(** [{ cursor: { id }, skip: 1 }]: the rows after the cursor; an unknown
    cursor yields no row. *)
Fixpoint after_cursor (cursor : string) (rows : list PrismaEscrow) : list PrismaEscrow :=
  match rows with
  | [] => []
  | r :: rows => if bool_decide (e_id r = cursor) then rows else after_cursor cursor rows
  end.

Definition cursor_window (cursor : option string) (limit : nat) (rows : list PrismaEscrow)
    : list PrismaEscrow :=
  take limit (if truthy cursor then after_cursor (coalesce cursor "") rows else rows).

Definition findByVendor (vendorAddress : string) (cursor : option string) (limit : nat)
    : Prog (list EscrowRecord) :=
  let* rows := await (escrow_findMany (fun r => bool_decide (e_vendorAddress r = vendorAddress))
    (desc e_createdAt) (cursor_window cursor limit)) in
  Ret (toEscrowRecord <$> rows).

Definition findByBuyer (buyerAddress : string) (cursor : option string) (limit : nat)
    : Prog (list EscrowRecord) :=
  let* rows := await (escrow_findMany (fun r => bool_decide (e_buyerAddress r = buyerAddress))
    (desc e_createdAt) (cursor_window cursor limit)) in
  Ret (toEscrowRecord <$> rows).

Inductive SortField : Type := sort_date | sort_amount.
Inductive SortOrder : Type := order_asc | order_desc.

Definition vendor_where (vendorAddress : string) (state : option EscrowState) (r : PrismaEscrow) : bool :=
  bool_decide (e_vendorAddress r = vendorAddress) &&
  match state with Some s => bool_decide (e_state r = s) | None => true end.

Definition vendor_orderBy (sort : SortField) (order : SortOrder) : PrismaEscrow -> PrismaEscrow -> bool :=
  let key : PrismaEscrow -> Z := match sort with sort_amount => e_amount | sort_date => e_createdAt end in
  match order with order_asc => asc key | order_desc => desc key end.

(** Prisma refuses a negative [skip]. *)
Definition findVendorEscrows (vendorAddress : string) (state : option EscrowState)
    (sort : SortField) (order : SortOrder) (page limit : Z) : Prog (list EscrowRecord * Z) :=
  let skip := ((page - 1) * limit)%Z in
  if (skip <? 0)%Z then Raise (JsError "Invalid value for skip argument")
  else
    let* data := await (escrow_findMany (vendor_where vendorAddress state)
      (vendor_orderBy sort order) (page_of skip limit)) in
    let* total := await (escrow_count (vendor_where vendorAddress state)) in
    Ret (toEscrowRecord <$> data, total).

Definition findContractEscrowId (id : string) : Prog (option Z) :=
  let* row := await (escrow_findUnique id) in
  Ret (row ≫= e_contractEscrowId).

Definition findIdByContractEscrowId (contractEscrowId : Z) : Prog (option string) :=
  let* rows := await (escrow_findMany
    (fun r => bool_decide (e_contractEscrowId r = Some contractEscrowId)) (asc e_createdAt) (take 1)) in
  Ret (e_id <$> head rows).

(** [vendor: { NOT: { trackingSettings: { enableTracking: false } } }]. *)
Definition shipped_with_tracking (d : Db) (r : PrismaEscrow) : bool :=
  bool_decide (e_state r = SHIPPED) &&
  bool_decide (is_Some (e_trackingId r)) &&
  bool_decide (is_Some (e_contractEscrowId r)) &&
  negb (bool_decide (ts_enableTracking <$> ac_settings (db_accounts d) !! e_vendorAddress r = Some false)).

Definition findShippedWithTracking (limit : nat) : Prog (list EscrowRecord) :=
  let* rows := await (db_call (fun _ _ d =>
    (Ok (take limit (escrow_select (shipped_with_tracking d)
      (then_by (asc_nulls_first e_trackingCheckedAt) (asc e_createdAt)) d)), d))) in
  Ret (toEscrowRecord <$> rows).

Definition auto_release_eligible (cutoff : Z) (r : PrismaEscrow) : bool :=
  bool_decide (e_state r = DELIVERED) &&
  match e_deliveredAt r with Some t => (t <=? cutoff)%Z | None => false end &&
  bool_decide (e_disputeId r = None) &&
  bool_decide (e_autoReleaseTxHash r = None) &&
  bool_decide (e_autoReleaseSubmittedAt r = None).

Definition findAutoReleaseEligible (referenceTime : Z) : Prog (list EscrowRecord) :=
  let cutoff := (referenceTime - AUTO_RELEASE_WINDOW_HOURS * MILLISECONDS_PER_HOUR)%Z in
  let* rows := await (escrow_findMany (auto_release_eligible cutoff)
    (then_by (asc_nulls_last e_deliveredAt) (asc_str e_id)) id) in
  Ret (toEscrowRecord <$> rows).

Record EscrowEventEntry : Type := mkEventEntry {
  ee_event : string; ee_occurredAt : Z; ee_fromState : option string; ee_toState : string }.

Definition findEvents (escrowId : string) : Prog (list EscrowEventEntry) :=
  let* rows := await (db_call (fun _ _ d =>
    (Ok (sort_by (then_by (asc ev_createdAt) (asc_str ev_id))
      (List.filter (fun e => bool_decide (ev_escrowId e = escrowId)) (db_events d))), d))) in
  Ret ((fun e => mkEventEntry (ev_toState e) (ev_createdAt e) (ev_fromState e) (ev_toState e)) <$> rows).

(** ** Writes *)

(** The shape every writer shares: update the row, drop the cached entry,
    return the fresh record. *)
Definition write_through (id : string) (f : Z -> PrismaEscrow -> PrismaEscrow) : Prog EscrowRecord :=
  let* result := await (escrow_update id f) in
  invalidate id ;;;
  Ret (toEscrowRecord result).

Definition updateState (id : string) (state : EscrowState) : Prog EscrowRecord :=
  write_through id (fun _ => set_state state).

Definition updateTracking (id trackingId : string) : Prog EscrowRecord :=
  write_through id (fun _ => set_trackingId (Some trackingId)).

Definition markShipped (id trackingId : string) : Prog EscrowRecord :=
  write_through id (fun now r =>
    set_shippedAt (Some now) (set_trackingId (Some trackingId) (set_state SHIPPED r))).

Definition markTrackingChecked (id : string) (checkedAt : option Z) : Prog EscrowRecord :=
  write_through id (fun now => set_trackingCheckedAt (Some (coalesce checkedAt now))).

Definition markCompleted (id : string) : Prog EscrowRecord :=
  write_through id (fun _ => set_state COMPLETED).

Definition markRefunded (id : string) : Prog EscrowRecord :=
  write_through id (fun _ => set_state REFUNDED).

Definition markDelivered (id : string) (deliveredAt : option Z) : Prog EscrowRecord :=
  write_through id (fun now r =>
    let t := Some (coalesce deliveredAt now) in
    set_deliveryRecordedAt t (set_deliveredAt t (set_state DELIVERED r))).

Definition recordAutoReleaseSubmission (id txHash : string) (submittedAt : option Z) : Prog EscrowRecord :=
  write_through id (fun now r =>
    set_autoReleaseTxHash (Some txHash)
      (set_autoReleaseSubmittedAt (Some (coalesce submittedAt now)) r)).

Definition markCancelled (id : string) : Prog EscrowRecord :=
  write_through id (fun now r => set_cancelledAt (Some now) (set_state CANCELLED r)).

Definition clearAutoReleaseSubmitting (id : string) : Prog EscrowRecord :=
  write_through id (fun _ => set_autoReleaseSubmittedAt None).

Definition markAutoReleased (id txHash : string) : Prog EscrowRecord :=
  write_through id (fun _ r => set_autoReleaseTxHash (Some txHash) (set_state RELEASED r)).

Definition clearDeliveryClaim (id : string) : Prog EscrowRecord :=
  write_through id (fun _ => set_deliveryRecordedAt None).

Definition saveBuyerContact (id : string) (encryptedEmail encryptedPhone : option string)
    : Prog EscrowRecord :=
  write_through id (fun _ r =>
    set_buyerContactPhone encryptedPhone (set_buyerContactEmail encryptedEmail r)).

(** ** Claims *)

Definition markAutoReleaseSubmitting (id : string) : Prog (option EscrowRecord) :=
  let* count := await (escrow_updateMany id
    (fun r => bool_decide (e_autoReleaseSubmittedAt r = None))
    (fun now => set_autoReleaseSubmittedAt (Some now))) in
  if (count =? 0)%Z then Ret None
  else
    let* result := findById id in
    invalidate id ;;;
    Ret result.

Definition claimDelivery (id : string) : Prog (option EscrowRecord) :=
  let* escrow := await (escrow_findUnique id) in
  match escrow with
  | None => Ret None
  | Some escrow =>
      if negb (bool_decide (e_state escrow = SHIPPED)) ||
         negb (bool_decide (e_deliveryRecordedAt escrow = None))
      then Ret None
      else
        let* result := write_through id (fun now => set_deliveryRecordedAt (Some now)) in
        Ret (Some result)
  end.
