(* ===== verification/Coherence.v ===== *)
(** * Cache coherence and the specifications of the repository

    The invariant of the escrow store: rows are filed under their id, their
    dates survive a JSON round trip, and every cached escrow revives to the
    record of the row in the database.  Each repository method is specified
    against it in weakest-precondition style, under any database fault
    schedule; the services are proved from these specifications alone. *)
From S2P Require Import Prelude Records Dates Text Tables Effects Cache Prisma EscrowRepo.
Local Open Scope prog_scope.

(** The clock stays within the years a four-digit ISO date can name, and a
    configured Redis answers.  Without the latter a lost [del] leaves a stale
    entry until its TTL lapses, as the comment of [CacheService.del] says. *)
Record good_env (env : Env) : Prop := {
  clock_ok : forall t, in_iso_range (env_now env t);
  redis_up : env_redis env = true -> forall t, env_redis_down env t = false
}.

Abbreviation escrow_of w id := (db_escrows (w_db w) !! id).

Record Inv (env : Env) (w : World) : Prop := {
  inv_ids : forall id row, escrow_of w id = Some row -> e_id row = id;
  inv_dates : forall id row, escrow_of w id = Some row -> dates_ok row;
  inv_cache : forall id v, cached env w (cacheKey id) = Some v ->
    exists row, escrow_of w id = Some row /\ reviveCachedEscrow v = Some (toEscrowRecord row)
}.

(** Everything but the database, the cache and the tick is unchanged. *)
Record same_aux (w w' : World) : Prop := {
  aux_chain : w_chain w' = w_chain w;
  aux_outbox : w_outbox w' = w_outbox w;
  aux_auto : w_autoRunning w' = w_autoRunning w;
  aux_track : w_trackRunning w' = w_trackRunning w;
  aux_poll : w_polling w' = w_polling w;
  aux_retry : w_syncRetry w' = w_syncRetry w
}.

#[export] Instance same_aux_preorder : PreOrder same_aux.
Proof.
  split; [by intros w; split|]. intros w1 w2 w3 [] []. split; congruence.
Qed.

(** Closes [same_aux] from the ones at hand. *)
Ltac aux :=
  repeat match goal with H : same_aux _ _ |- _ => destruct H end;
  split; simpl in *; congruence.

Lemma cacheKey_inj id id' : cacheKey id = cacheKey id' -> id = id'.
Proof. apply string_app_inj_l. Qed.

Lemma dates_ok_record row : dates_ok row -> dates_ok (toEscrowRecord row).
Proof. done. Qed.

(** ** Cache operations against the invariant *)

(** Other writes leave the invariant alone as long as the escrow table is the
    same and no escrow entry appears in the cache. *)
Lemma inv_frame env w w' :
  Inv env w -> db_escrows (w_db w') = db_escrows (w_db w) ->
  (forall id v, cached env w' (cacheKey id) = Some v -> cached env w (cacheKey id) = Some v) ->
  Inv env w'.
Proof.
  intros [Hid Hd Hc] Hdb Hsub. split; setoid_rewrite Hdb; [done|done|]. eauto.
Qed.

(** What [get] does: it answers with the entry of the active backend, or
    with nothing when there is none (an expired one is dropped). *)
Lemma wp_cache_get env w key (Q : outcome (option cval) -> World -> Prop) :
  good_env env ->
  (forall o w', w_db w' = w_db w -> same_aux w w' ->
     (forall k v, cached env w' k = Some v -> cached env w k = Some v) ->
     match o with Some v => cached env w key = Some v | None => cached env w' key = None end ->
     Q (Ok o) w') ->
  wp (cache_get key) env w Q.
Proof.
  intros [_ Hup] HQ. apply wp_await. unfold cache_get_action, cached in *.
  destruct (env_cache env) eqn:Ec; [|by apply HQ].
  destruct (env_redis env) eqn:Er; simpl in *.
  - rewrite Hup by done. destruct (w_redis w !! key) as [en|] eqn:Eg; simpl.
    + destruct (ce_expiresAt en <=? _)%Z; simpl; apply HQ; try done; simpl.
      * intros k v H. apply fmap_Some in H as (e & He & ->).
        apply lookup_delete_Some in He as [_ He]. by rewrite He.
      * by rewrite lookup_delete_eq.
    + apply HQ; try done. simpl. by rewrite Eg.
  - destruct (map_get key (w_memory w)) as [en|] eqn:Eg; simpl.
    + destruct (ce_expiresAt en <? _)%Z; simpl; apply HQ; try done; simpl.
      * intros k v H. apply fmap_Some in H as (e & He & ->).
        apply map_get_delete_Some in He as [He _]. by rewrite He.
      * by rewrite map_get_delete_eq.
    + apply HQ; try done. simpl. by rewrite Eg.
Qed.

Lemma wp_cache_del env w key (Q : outcome unit -> World -> Prop) :
  good_env env ->
  (forall w', w_db w' = w_db w -> same_aux w w' ->
     (forall k v, cached env w' k = Some v -> cached env w k = Some v /\ k <> key) ->
     Q (Ok tt) w') ->
  wp (cache_del key) env w Q.
Proof.
  intros [_ Hup] HQ. apply wp_await. unfold cache_del_action, cached in *.
  destruct (env_cache env) eqn:Ec; [|by apply HQ].
  destruct (env_redis env) eqn:Er; simpl in *.
  - rewrite Hup by done. apply HQ; try done. intros k v H. simpl in H.
    apply fmap_Some in H as (e & He & ->). apply lookup_delete_Some in He as [Hne He].
    by rewrite He.
  - apply HQ; try done. intros k v H. simpl in H.
    apply fmap_Some in H as (e & He & ->). apply map_get_delete_Some in He as [He Hne].
    by rewrite He.
Qed.

Lemma wp_cache_set env w key value ttl (Q : outcome unit -> World -> Prop) :
  (forall w', w_db w' = w_db w -> same_aux w w' ->
     (forall k v, cached env w' k = Some v ->
        cached env w k = Some v \/ (k = key /\ (v = value \/ v = json_image value))) ->
     Q (Ok tt) w') ->
  wp (cache_set key value ttl) env w Q.
Proof.
  intros HQ. apply wp_await. unfold cache_set_action, cached in *.
  destruct (env_cache env) eqn:Ec; [|by apply HQ; auto].
  destruct (env_redis env) eqn:Er; simpl in *.
  - destruct (env_redis_down env (w_tick w)); [by apply HQ; auto|].
    apply HQ; try done. intros k v H. simpl in H. apply fmap_Some in H as (e & He & ->).
    apply lookup_insert_Some in He as [[-> <-]|[_ He]]; [by auto|]. left. by rewrite He.
  - apply HQ; try done. intros k v H. simpl in H. apply fmap_Some in H as (e & He & ->).
    apply evict_get in He. rewrite map_get_set in He. case_decide; simplify_eq/=; [by auto|].
    left. by rewrite He.
Qed.

(** ** Reads *)

(** What a read of one escrow establishes. *)
Definition found (env : Env) (w : World) (id : string) (r : outcome (option EscrowRecord)) : Prop :=
  match r with
  | Ok (Some rec) => exists row, escrow_of w id = Some row /\ rec = toEscrowRecord row
  | Ok None => escrow_of w id = None
  | Throw _ => ~ db_reliable env
  end.

Lemma wp_findById_miss env w id (Q : outcome (option EscrowRecord) -> World -> Prop) :
  Inv env w ->
  (forall r w', Inv env w' -> w_db w' = w_db w -> same_aux w w' -> found env w id r -> Q r w') ->
  wp (findById_miss id) env w Q.
Proof.
  intros HI HQ. apply wp_bind, wp_await. unfold escrow_findUnique.
  destruct (db_call_cases (fun _ _ d => (Ok (db_escrows d !! id), d)) env w)
    as [(e & Hr & He)|He]; rewrite He; simpl.
  { apply HQ; [by eapply inv_frame|done|done|done]. }
  destruct (escrow_of w id) as [row|] eqn:Hrow; cycle 1.
  { apply wp_ret, HQ; [by eapply inv_frame|done|done|done]. }
  apply wp_bind, wp_cache_set. intros w2 Hdb2 Haux2 Hsub2. simpl in Hdb2.
  apply wp_ret, HQ; [|done|aux|by exists row].
  destruct HI as [Hid Hd Hc]. split; rewrite Hdb2; [done|done|].
  intros id' v' Hv'. destruct (Hsub2 _ _ Hv') as [Hold|[Hk Hv]]; [by apply Hc|].
  apply cacheKey_inj in Hk as ->. exists row. split; [done|].
  destruct Hv as [->| ->]; [done|]. apply revive_json_image, dates_ok_record. eauto.
Qed.

Lemma wp_findById env w id (Q : outcome (option EscrowRecord) -> World -> Prop) :
  good_env env -> Inv env w ->
  (forall r w', Inv env w' -> w_db w' = w_db w -> same_aux w w' -> found env w id r -> Q r w') ->
  wp (findById id) env w Q.
Proof.
  intros HE HI HQ. apply wp_bind, wp_cache_get; [done|]. intros o w1 Hdb Haux Hsub Ho.
  assert (HI1 : Inv env w1) by (eapply inv_frame; eauto; by rewrite Hdb).
  destruct o as [v|].
  - destruct (inv_cache _ _ HI id v Ho) as (row & Hrow & Hv). rewrite Hv.
    apply wp_ret, HQ; try done. by exists row.
  - apply wp_findById_miss; [done|]. intros r w' HI' Hdb' Haux' Hf.
    apply HQ; [done|congruence|by etrans|]. unfold found in *. by rewrite <- Hdb.
Qed.

(** A call that leaves the escrow table alone keeps the invariant. *)
Lemma wp_db_frame {X} (f : Z -> string -> Db -> outcome X * Db) env w
    (Q : outcome X -> World -> Prop) :
  good_env env -> Inv env w -> (forall now u d, db_escrows (f now u d).2 = db_escrows d) ->
  (forall e w', Inv env w' -> w_db w' = w_db w -> same_aux w w' -> ~ db_reliable env -> Q (Throw e) w') ->
  (forall now u w', in_iso_range now -> Inv env w' -> same_aux w w' ->
     w_db w' = (f now u (w_db w)).2 -> Q (f now u (w_db w)).1 w') ->
  wp (await (db_call f)) env w Q.
Proof.
  intros HE HI Hf Herr Hok. apply wp_await.
  destruct (db_call_cases f env w) as [(e & Hr & He)|He]; rewrite He; simpl.
  - apply Herr; [by eapply inv_frame|done|done|done].
  - apply Hok; [apply clock_ok; done| |done|done]. eapply inv_frame; [exact HI|apply Hf|done].
Qed.

(** ** Writes *)

(** An update object keeps the identity of a row and writes dates in range. *)
Definition good_update (f : Z -> PrismaEscrow -> PrismaEscrow) : Prop :=
  forall now row, in_iso_range now -> dates_ok row ->
    dates_ok (f now row) /\ same_identity row (f now row).

Lemma set_updatedAt_good now (row row' : PrismaEscrow) :
  in_iso_range now -> dates_ok row' -> same_identity row row' ->
  dates_ok (set_updatedAt now row') /\ same_identity row (set_updatedAt now row').
Proof. by intros ? (? & ? & ? & ? & ? & ? & ? & ?) ?. Qed.

(** One row replaced and its cache entry dropped: the invariant again. *)
Lemma inv_replace env w w' id row row' :
  Inv env w -> escrow_of w id = Some row -> dates_ok row' -> same_identity row row' ->
  db_escrows (w_db w') = <[id := row']> (db_escrows (w_db w)) ->
  (forall k v, cached env w' k = Some v -> cached env w k = Some v /\ k <> cacheKey id) ->
  Inv env w'.
Proof.
  intros [Hid Hd Hc] Hrow Hok Hsame Hdb Hsub.
  assert (Hlook : forall id0 row0, escrow_of w' id0 = Some row0 ->
    (id0 = id /\ row0 = row') \/ (id0 <> id /\ escrow_of w id0 = Some row0)).
  { intros id0 row0. rewrite Hdb, lookup_insert_Some. intuition. }
  split.
  - intros id0 row0 [[-> ->]|[_ H]]%Hlook; [|by eapply Hid].
    destruct Hsame as [<- _]. by apply Hid.
  - intros id0 row0 [[-> ->]|[_ H]]%Hlook; [done|]. by eapply Hd.
  - intros id0 v [Hv Hne]%Hsub. destruct (Hc _ _ Hv) as (row0 & Hrow0 & Hr).
    exists row0. split; [|done]. rewrite Hdb, lookup_insert_ne; [done|]. congruence.
Qed.

Lemma wp_invalidate_after env w w1 id row row' (Q : outcome unit -> World -> Prop) :
  good_env env -> Inv env w -> escrow_of w id = Some row -> dates_ok row' -> same_identity row row' ->
  db_escrows (w_db w1) = <[id := row']> (db_escrows (w_db w)) -> same_aux w w1 ->
  (forall k, cached env w1 k = cached env w k) ->
  (forall w', Inv env w' -> w_db w' = w_db w1 -> same_aux w w' -> Q (Ok tt) w') ->
  wp (invalidate id) env w1 Q.
Proof.
  intros HE HI Hrow Hok Hsame Hdb Haux Hc HQ. apply wp_cache_del; [done|].
  intros w' Hdb' Haux' Hsub. apply HQ; [|done|by etrans].
  eapply inv_replace; eauto; [by rewrite Hdb'|]. by setoid_rewrite <- Hc.
Qed.

Lemma wp_write_through env w id f (Q : outcome EscrowRecord -> World -> Prop) :
  good_env env -> Inv env w -> good_update f ->
  (forall e w', Inv env w' -> w_db w' = w_db w -> same_aux w w' ->
     (db_reliable env -> escrow_of w id = None /\ e = PrismaError "P2025") -> Q (Throw e) w') ->
  (forall now row w', in_iso_range now -> escrow_of w id = Some row -> Inv env w' -> same_aux w w' ->
     let row' := set_updatedAt now (f now row) in
     w_db w' = set_escrows (<[id := row']> (db_escrows (w_db w))) (w_db w) ->
     Q (Ok (toEscrowRecord row')) w') ->
  wp (write_through id f) env w Q.
Proof.
  intros HE HI Hf Herr Hok. apply wp_bind, wp_await. unfold escrow_update.
  match goal with |- context [db_call ?g] => destruct (db_call_cases g env w) as [(e & Hr & He)|He] end;
    rewrite He; simpl.
  { apply Herr; [by eapply inv_frame|done|done|done]. }
  destruct (escrow_of w id) as [row|] eqn:Hrow; simpl; cycle 1.
  { apply Herr; [by eapply inv_frame|by destruct w as [[]]|done|done]. }
  assert (Hnow := clock_ok _ HE (w_tick w)).
  destruct (Hf _ row Hnow (inv_dates _ _ HI _ _ Hrow)) as [Hd Hs].
  destruct (set_updatedAt_good _ _ _ Hnow Hd Hs) as [Hd' Hs'].
  apply wp_bind. eapply wp_invalidate_after; eauto; try done.
  intros w' HI' Hdb' Haux'. apply wp_ret. by apply Hok.
Qed.

(** Closes [good_update] for the [data] objects of the repository. *)
Ltac solve_update :=
  let H := fresh in
  intros ? ? ? H; unfold dates_ok, same_identity, opt_iso in *; simpl; intuition.

Lemma markDelivered_good o :
  opt_iso o -> good_update (fun now r =>
    let t := Some (coalesce o now) in
    set_deliveryRecordedAt t (set_deliveredAt t (set_state DELIVERED r))).
Proof. destruct o; solve_update. Qed.

(** ** Creation and claims *)

Lemma new_escrow_dates dto vendor amount now uuid :
  in_iso_range now -> dates_ok (new_escrow_row dto vendor amount now uuid).
Proof. unfold dates_ok. simpl. tauto. Qed.

Lemma wp_create env w dto vendor (Q : outcome EscrowRecord -> World -> Prop) :
  good_env env -> Inv env w ->
  (forall e w', Inv env w' -> w_db w' = w_db w -> same_aux w w' ->
     (db_reliable env -> (forall t, escrow_of w (env_uuid env t) = None) ->
      is_Some (db_vendors (w_db w) !! vendor) ->
      (Z.abs (env_decimal env (dto_amount dto)) < 10 ^ 18)%Z ->
      exists id r, escrow_of w id = Some r /\ e_vendorAddress r = vendor /\ e_itemRef r = dto_itemRef dto) ->
     Q (Throw e) w') ->
  (forall now uuid w', in_iso_range now ->
     let row := new_escrow_row dto vendor (env_decimal env (dto_amount dto)) now uuid in
     escrow_of w uuid = None ->
     (forall id r, escrow_of w id = Some r ->
        ~ (e_vendorAddress r = vendor /\ e_itemRef r = dto_itemRef dto)) ->
     is_Some (db_vendors (w_db w) !! vendor) ->
     Inv env w' -> same_aux w w' ->
     w_db w' = set_escrows (<[uuid := row]> (db_escrows (w_db w))) (w_db w) ->
     Q (Ok (toEscrowRecord row)) w') ->
  wp (create dto vendor) env w Q.
Proof.
  intros HE HI Herr Hok. apply wp_bind, wp_await. unfold escrow_create.
  match goal with |- context [db_call ?g] => destruct (db_call_cases g env w) as [(e & Hr & He)|He] end;
    rewrite He; simpl.
  { apply Herr; [by eapply inv_frame|done|done|done]. }
  clear He. set (row := new_escrow_row _ _ _ _ _).
  assert (Hsame : Inv env (set_db (w_db w) (tick w))) by (by eapply inv_frame).
  destruct (10 ^ 18 <=? _)%Z eqn:Hbig; simpl; [apply Herr; try done; b2p; lia|].
  case_bool_decide as Hnew; simpl.
  { apply Herr; try done. intros _ Hfresh. rewrite Hfresh in Hnew. by destruct Hnew. }
  destruct (existsb _ _) eqn:Hdup; simpl.
  { apply Herr; try done. intros _ _ _ _. apply existsb_exists in Hdup as (r & Hr & Hb). b2p.
    rewrite <- list_elem_of_In in Hr. apply list_elem_of_fmap in Hr as ([id r'] & -> & Hr).
    apply elem_of_map_to_list in Hr. eauto. }
  case_bool_decide as Hv; simpl; [|apply Herr; by try done].
  rewrite <- eq_None_not_Some in Hnew.
  apply wp_ret, Hok; [by apply clock_ok|done| |done| |done|done].
  - intros id r Hr [Hva Hit]. apply not_true_iff_false in Hdup. apply Hdup.
    apply existsb_exists. exists r. rewrite <- list_elem_of_In. split.
    + apply list_elem_of_fmap. exists (id, r). by rewrite elem_of_map_to_list.
    + rewrite Hva, Hit. by rewrite !bool_decide_true.
  - destruct HI as [Hid Hd Hc]. split; simpl.
    + intros id r [[<- <-]|[_ H]]%lookup_insert_Some; [done|]. by apply Hid.
    + intros id r [[<- <-]|[_ H]]%lookup_insert_Some; [|by eapply Hd].
      by apply new_escrow_dates, clock_ok.
    + intros id v Hcv. destruct (Hc id v Hcv) as (r & Hr & Hrev).
      exists r. split; [|done]. rewrite lookup_insert_ne; [done|]. simpl in *. congruence.
Qed.

(** The conditional claim: it succeeds exactly when the column was null, and
    then the returned record is the row before or after the claim (a cached
    copy of the former may still be served). *)
Lemma wp_markAutoReleaseSubmitting env w id (Q : outcome (option EscrowRecord) -> World -> Prop) :
  good_env env -> Inv env w ->
  (forall r w', Inv env w' -> same_aux w w' -> w_db w' = w_db w ->
     match r with
     | Ok None => forall row, escrow_of w id = Some row -> e_autoReleaseSubmittedAt row <> None
     | Ok (Some _) => False
     | Throw _ => ~ db_reliable env
     end -> Q r w') ->
  (forall now row r w', in_iso_range now -> escrow_of w id = Some row ->
     e_autoReleaseSubmittedAt row = None -> Inv env w' -> same_aux w w' ->
     let row' := set_updatedAt now (set_autoReleaseSubmittedAt (Some now) row) in
     w_db w' = set_escrows (<[id := row']> (db_escrows (w_db w))) (w_db w) ->
     match r with
     | Ok (Some rec) => rec = toEscrowRecord row \/ rec = toEscrowRecord row'
     | Ok None => False
     | Throw _ => ~ db_reliable env
     end -> Q r w') ->
  wp (markAutoReleaseSubmitting id) env w Q.
Proof.
  intros HE HI Hno Hyes. apply wp_bind, wp_await. unfold escrow_updateMany.
  match goal with |- context [db_call ?g] => destruct (db_call_cases g env w) as [(e & Hr & He)|He] end;
    rewrite He; simpl; clear He.
  { apply Hno; [by eapply inv_frame|done|done|done]. }
  destruct (escrow_of w id) as [row|] eqn:Hrow; simpl; cycle 1.
  { apply wp_ret, Hno; [by eapply inv_frame|done|done|done]. }
  case_bool_decide as Hnull; simpl; cycle 1.
  { apply wp_ret, Hno; [by eapply inv_frame|done|done|]. by intros ? [= <-]. }
  set (now := env_now env (w_tick w)). set (row' := set_updatedAt _ _).
  set (w1 := set_db _ _).
  assert (Hnow : in_iso_range now) by (by apply clock_ok).
  assert (Hd : dates_ok row' /\ same_identity row row').
  { apply set_updatedAt_good; [done| |]; pose proof (inv_dates _ _ HI _ _ Hrow);
      unfold dates_ok, same_identity in *; simpl; intuition. }
  destruct Hd as [Hd Hs].
  apply wp_bind, wp_bind, wp_cache_get; [done|]. intros o w2 Hdb2 Haux2 Hsub2 Ho.
  assert (Haux : same_aux w w2) by aux.
  destruct o as [v|].
  - destruct (inv_cache _ _ HI id v Ho) as (row0 & Hrow0 & Hv). rewrite Hv. simplify_eq.
    apply wp_ret, wp_bind, wp_cache_del; [done|]. intros w' Hdb' Haux' Hsub'.
    apply wp_ret. eapply (Hyes now row); eauto; [|by etrans|by rewrite Hdb', Hdb2].
    eapply (inv_replace env w _ id row row'); eauto.
    + by rewrite Hdb', Hdb2.
    + intros k v' Hk. destruct (Hsub' _ _ Hk) as [Hk' ?]. split; [|done]. by apply Hsub2 in Hk'.
  - assert (HI2 : Inv env w2).
    { eapply (inv_replace env w _ id row row'); eauto; [by rewrite Hdb2|].
      intros k v Hk. split; [by apply Hsub2 in Hk|]. congruence. }
    apply wp_findById_miss; [done|]. intros r w3 HI3 Hdb3 Haux3 Hf.
    unfold found in Hf. rewrite Hdb2 in Hf. simpl in Hf. rewrite lookup_insert_eq in Hf.
    destruct r as [[rec|]|e]; [|done|].
    + destruct Hf as (row0 & [= <-] & ->).
      apply wp_bind, wp_cache_del; [done|]. intros w' Hdb' Haux' Hsub'.
      apply wp_ret. apply (Hyes now row); eauto; [|aux|by rewrite Hdb', Hdb3, Hdb2].
      eapply inv_frame; [exact HI3|by rewrite Hdb'|]. intros. by eapply Hsub'.
    + apply (Hyes now row); eauto; [by etrans|by rewrite Hdb3, Hdb2].
Qed.
