(* ===== verification/Demo.v ===== *)
(** * A concrete instance

    An environment and small worlds the theorems are instantiated on: a fixed
    clock, the in-memory cache, a database without faults, and one escrow. *)
From Stdlib Require Import Ascii.
From S2P Require Import Prelude Records Dates Text Tables Crypto Effects Cache Prisma EscrowRepo Coherence.

(** 2025-01-01T00:00:00Z. *)
Definition demo_now : Z := 1735689600000.

Definition demo_config (key : string) : option string :=
  if bool_decide (key = "ADMIN_ADDRESS") then Some "GADMIN"
  else if bool_decide (key = "AUTO_RELEASE_SOURCE_ADDRESS") then Some "GSOURCE"
  else if bool_decide (key = "CONTRACT_ID") then Some "CCONTRACT"
  else if bool_decide (key = "SYSTEM_SIGNER_SECRET") then Some "SSECRET"
  else if bool_decide (key = "STELLAR_WEBHOOK_SECRET") then Some "whsec"
  else if bool_decide (key = "CREDENTIAL_ENCRYPTION_KEY")
  then Some "000102030405060708090a0b0c0d0e0f101112131415161718191a1b1c1d1e1f"
  else None.

(** An RPC server on which every transaction is accepted and confirmed. *)
Definition demo_server : StellarServer := mkServer None
  (Some (fun _ _ => Ok (AccountInstance "1")))
  (Some (fun _ _ => Ok (mkSim None)))
  (Some (fun _ tx => Ok tx))
  (Some (fun _ _ => Ok (mkSend "PENDING" None (Some "hash"))))
  (Some (fun _ _ => Ok (mkTx "SUCCESS" None)))
  None None.

Definition demo_sdk : StellarSdk := mkSdk (fun _ => Some "GSIGNER") (fun _ => Ok tt) (fun _ => Ok tt) (fun _ _ => Ok tt)
  (fun tx _ => Ok tx) (fun s => Ok (NString s)).

Definition demo_uuid (t : nat) : string := String (ascii_of_nat (65 + t)) "".

Definition demo_webauth : WebAuth := mkWebAuth
  (fun t account _ => Ok (String (ascii_of_nat (65 + t)) account))
  (fun tx => match tx with String _ account => Ok account | _ => Throw (JsError "bad challenge") end)
  (fun tx => Ok tx) (fun _ _ => Ok tt).

(** Mail is accepted, SMS is not configured, every shipment is delivered, encryption prefixes the text with
    the key and the tag is empty but for its length. *)
Definition demo_providers : Providers := mkProviders
  (fun s => String.prefix "G" s) true (fun _ => None)
  (Some (fun _ _ => inl (SgArray (mkSgHead None (Some 202%Z))))) None
  (fun _ => Ok tt) None (fun _ => 0%Z) (fun t => String (ascii_of_nat (65 + t)) "")
  (fun _ => repeat 0%nat 12)
  (fun _ _ text => (repeat 0%nat 16, nat_of_ascii <$> String.list_ascii_of_string text))
  (fun _ _ _ ct => Some (String.string_of_list_ascii (ascii_of_nat <$> ct)))
  demo_webauth
  (Some (fun _ _ _ => GiglData (Some (mkGiglBody (Some (JStr "TRK1")) (Some (JStr "DELIVERED")) (Some (JStr "GIGL"))
    (Some JNull) (Some [])))))
  (fun _ => 0%Z).

(** The environment, given the fault schedule of the database and the server. *)
Definition demo_env_with (faults : nat -> option exn) (server : option StellarServer) : Env :=
  mkEnv (fun _ => demo_now) faults demo_uuid true false (fun _ => false) true
    true demo_config (fun _ => 25000000000%Z)
    server demo_sdk (fun s => s) (fun _ m => m) (fun _ => "0")
    (fun _ _ => Ok []) (fun _ => Ok 100%Z) (fun _ _ => Ok []) 30 None (fun _ => true) demo_providers.

Definition demo_env : Env := demo_env_with (fun _ => None) (Some demo_server).

(** The same with Redis as the cache. *)
Definition demo_redis_env : Env :=
  mkEnv (fun _ => demo_now) (fun _ => None) demo_uuid true true (fun _ => false) true
    false demo_config (fun _ => 25000000000%Z) None demo_sdk (fun s => s) (fun _ m => m)
    (fun _ => "2500") (fun _ _ => Ok []) (fun _ => Ok 100%Z) (fun _ _ => Ok []) 30 None (fun _ => true) demo_providers.

Definition demo_row (id : string) (state : EscrowState) : PrismaEscrow :=
  mkEscrow id (Some 7%Z) "Camera" ("SKU-" +:+ id) 25000000000%Z "USDC" "GBUYER" "GVENDOR" state None
    None None None None None None None None None None demo_now demo_now.

Definition demo_db (rows : list PrismaEscrow) : Db :=
  mkDb (list_to_map ((fun r => (e_id r, r)) <$> rows)) ∅ ∅ empty_accounts ∅ ∅ ∅ [] [].

(** The logistics key ["k"] is loaded. *)
Definition demo_side : Side :=
  set_apiKey (Some (seal_text demo_providers (seq 0 32) 0 "k")) empty_side.

Definition world_of (d : Db) : World :=
  mkWorld d [] ∅ 0 [] [] false false false ∅ 0 [] demo_side.

Definition demo_world (rows : list PrismaEscrow) : World := world_of (demo_db rows).

Lemma demo_now_ok : in_iso_range demo_now.
Proof. unfold in_iso_range, demo_now. lia. Qed.

Lemma demo_good faults server : good_env (demo_env_with faults server).
Proof. split; [intros; apply demo_now_ok|done]. Qed.

Lemma demo_reliable server : db_reliable (demo_env_with (fun _ => None) server).
Proof. done. Qed.

(** Nothing is cached, so the invariant is about the rows alone. *)
Lemma world_of_inv env d :
  map_Forall (fun id row => e_id row = id /\ dates_ok row) (db_escrows d) -> Inv env (world_of d).
Proof.
  intros Hd. split.
  - intros id row H. by apply Hd in H as [? _].
  - intros id row H. by apply Hd in H as [_ ?].
  - intros id v. unfold cached. destruct (env_cache env); [|done]. by destruct (env_redis env).
Qed.

Lemma demo_row_dates id state : dates_ok (demo_row id state).
Proof. unfold dates_ok. pose proof demo_now_ok. simpl. tauto. Qed.

Lemma demo_inv env rows : Forall dates_ok rows -> Inv env (demo_world rows).
Proof.
  intros Hrows. apply world_of_inv. intros id row Hrow. simpl in Hrow.
  apply elem_of_list_to_map_2, list_elem_of_fmap in Hrow as (r & [= -> ->] & Hr).
  split; [done|]. by eapply Forall_forall in Hrows.
Qed.
