(* ===== verification/LogisticsSpec.v ===== *)
(** * Properties of the logistics service

    A rotated API key is the one the next tracking request carries, in this
    process and after a restart; what each answer of the provider becomes. *)
From S2P Require Import Prelude Records Dates Text Tables Crypto Effects Logistics Cache Prisma EscrowRepo Coherence Demo.
Local Open Scope prog_scope.

Section key.
Context (env : Env) (DB : db_reliable env) (HG : gcm_ok (env_providers env)).
Context (ck : string) (Hck : env_config env "CREDENTIAL_ENCRYPTION_KEY" = Some ck) (Hne : ck <> "").

Lemma seal_text_truthy k t p : truthy (Some (seal_text (env_providers env) k t p)) = true.
Proof using Type.
  unfold seal_text. destruct (pv_seal _ _ _ _) as [tag ct]. cbn [join truthy].
  destruct (hex_string (pv_iv (env_providers env) t)); by rewrite bool_decide_eq_false_2.
Qed.

(** A world whose memory holds [key] sealed. *)
Definition holds (w : World) (key : string) : Prop :=
  exists t s, sd_apiKey (w_side w) = Some s /\ encryptCredential (env_providers env) ck t key = Ok s.

Lemma holds_get w key : holds w key -> run (await Logistics.getApiKey) env w = (Ok (Some key), w).
Proof using HG Hck Hne.
  intros (t & s & Hs & He). rewrite run_await. unfold Logistics.getApiKey. rewrite Hs, Hck.
  assert (Ht : truthy (Some s) = true).
  { unfold encryptCredential in He. destruct (credential_key ck) as [k|]; [|done]. injection He as <-. apply seal_text_truthy. }
  rewrite Ht. cbn [negb truthy]. rewrite bool_decide_eq_false_2 by done. cbn [negb coalesce].
  by rewrite (credential_round_trip _ HG _ _ _ _ He).
Qed.

Lemma run_rotate w key w1 :
  run (Logistics.rotateApiKey key) env w = (Ok tt, w1) ->
  holds w1 key /\ ac_credentials (db_accounts (w_db w1)) !! LOGISTICS_CREDENTIAL_PROVIDER = sd_apiKey (w_side w1).
Proof using DB Hck Hne.
  unfold Logistics.rotateApiKey. rewrite run_bind, run_await. unfold Logistics.seal_key. rewrite Hck. cbn [truthy coalesce].
  rewrite bool_decide_eq_false_2 by done. cbn [negb].
  destruct (encryptCredential _ _ _ _) as [s|e] eqn:He; [|done]. rewrite run_bind, run_await. cbn.
  unfold ProviderCredential.upsert. rewrite run_await, db_call_reliable by done. intros [= <-]. split.
  - by exists (w_tick w), s.
  - simpl. by rewrite lookup_insert_eq.
Qed.

(** The answer to a tracking request sent with the token [key]. *)
Definition answered (http : nat -> string -> string -> GiglReply) (trackingId key : string) (w : World)
    : outcome TrackingDetails :=
  match GiglClient.settle_reply trackingId
          (http (w_tick w) ("/tracking/" +:+ encodeURIComponent trackingId) key) with
  | Ok raw => Ok (Logistics.mapTrackingResponse (pv_parseDate (env_providers env)) raw)
  | Throw e => Throw e
  end.

Lemma run_getStatus w key http trackingId :
  holds w key -> key <> "" -> pv_gigl (env_providers env) = Some http ->
  (run (Logistics.getStatus trackingId) env w).1 = answered http trackingId key w.
Proof using HG Hck Hne.
  intros Hh Hk Hg. unfold Logistics.getStatus, ask. rewrite run_bind, run_await. cbn. rewrite Hg.
  rewrite run_bind. unfold GiglClient.fetchTracking. rewrite run_bind, (holds_get _ _ Hh).
  cbn [truthy coalesce]. rewrite bool_decide_eq_false_2 by done. cbn [negb]. rewrite run_await.
  unfold ext_call, answered. destruct (GiglClient.settle_reply _ _); [|done]. by rewrite run_await.
Qed.

(** C25. A rotation that succeeds takes effect at once and survives a restart:
    the key that was submitted is what [getApiKey] returns next; a process that
    starts with empty memory over the same credentials table loads that same
    key, whatever [LOGISTICS_API_KEY] says; and the next tracking request is
    sent with it as its bearer token. *)
Theorem rotated_key_survives_restart w key w1 w2 http trackingId :
  run (Logistics.rotateApiKey key) env w = (Ok tt, w1) -> key <> "" ->
  db_accounts (w_db w2) = db_accounts (w_db w1) -> sd_apiKey (w_side w2) = None ->
  pv_gigl (env_providers env) = Some http ->
  let booted := (run Logistics.onModuleInit env w2).2 in
  (run (await Logistics.getApiKey) env w1).1 = Ok (Some key) /\
  (run Logistics.onModuleInit env w2).1 = Ok tt /\
  (run (await Logistics.getApiKey) env booted).1 = Ok (Some key) /\
  (run (Logistics.getStatus trackingId) env w1).1 = answered http trackingId key w1 /\
  (run (Logistics.getStatus trackingId) env booted).1 = answered http trackingId key booted.
Proof using DB HG Hck Hne.
  intros Hrot Hk Hdb Hmem Hg booted. destruct (run_rotate _ _ _ Hrot) as [H1 Hrow].
  rewrite (holds_get _ _ H1), (run_getStatus _ _ _ _ H1 Hk Hg).
  assert (Hboot : exists w3, run Logistics.onModuleInit env w2 = (Ok tt, w3) /\ holds w3 key).
  { destruct H1 as (t & s & Hs & He). rewrite Hs in Hrow.
    unfold Logistics.onModuleInit, Logistics.loadPersistedApiKey, ProviderCredential.findByProvider.
    rewrite run_bind, run_bind, run_attempt, run_await, db_call_reliable by done. cbn [fst snd].
    rewrite Hdb, Hrow, run_await. unfold Logistics.set_key, local. cbv beta iota.
    match goal with |- exists w3, run _ _ ?x = _ /\ _ => set (w4 := x) end.
    assert (H3 : holds w4 key) by (by exists t, s). exists w4. split; [|done].
    by rewrite run_bind, (holds_get _ _ H3). }
  destruct Hboot as (w3 & E3 & H3). subst booted. rewrite E3. cbn [fst snd].
  rewrite (holds_get _ _ H3), (run_getStatus _ _ _ _ H3 Hk Hg). done.
Qed.
End key.

(** ** What the answers become *)

(** Tracking fails with the error of its kind, by what the provider did;
    only a well-formed body is mapped, and to [DELIVERED] only when the
    provider said exactly that. *)
Theorem tracking_outcome parse number reply :
  match GiglClient.settle_reply number reply with
  | Throw e =>
      match reply with
      | GiglData _ => exists reason, e = GiglClient.GiglInvalidResponseError number reason
      | GiglStatus st => e = (if decide (st = 401)%Z then GiglClient.GiglUnauthorizedError number
                              else GiglClient.GiglProviderError number st)
      | GiglNoResponse _ _ => exists cause, e = GiglClient.GiglNetworkError number cause
      | GiglError e0 => e = e0
      end
  | Ok raw =>
      (exists b, reply = GiglData (Some b) /\ gb_current_status b = Some (JStr (gr_current_status raw)) /\
         gb_events b = Some (gr_events raw)) /\
      (td_status (Logistics.mapTrackingResponse parse raw) = LDelivered <-> gr_current_status raw = "DELIVERED") /\
      length (td_events (Logistics.mapTrackingResponse parse raw)) = length (gr_events raw)
  end.
Proof.
  destruct reply as [data|st|c m|e]; simpl.
  - destruct (GiglClient.isValidGiglResponse data) as [raw|] eqn:Hv; [|by eexists]. split; [|split].
    + unfold GiglClient.isValidGiglResponse in Hv. repeat case_match; simplify_eq/=; by eexists.
    + unfold Logistics.mapStatus. repeat case_bool_decide; simplify_eq/=; done.
    + by rewrite length_fmap.
  - destruct (st =? 401)%Z eqn:E; b2p; [by rewrite decide_True|by rewrite decide_False].
  - by eexists.
  - done.
Qed.

(** ** Instances *)

Lemma demo_gcm : gcm_ok demo_providers.
Proof.
  assert (Hz : forall n, Forall is_byte (repeat 0 n)).
  { intros n. induction n; constructor; [unfold is_byte; lia|done]. }
  split.
  - intros t. split; [done|apply Hz].
  - intros k iv s. split; [done|apply Hz].
  - intros k iv s. apply bytes_of_bytes.
  - intros k iv s. apply (f_equal Some), text_of_bytes.
Qed.

Lemma rotated_key_survives_restart_witness :
  exists w1, run (Logistics.rotateApiKey "new-key") demo_env (demo_world []) = (Ok tt, w1) /\
    (run (await Logistics.getApiKey) demo_env
       (run Logistics.onModuleInit demo_env (set_side empty_side w1)).2).1 = Ok (Some "new-key").
Proof.
  destruct (run (Logistics.rotateApiKey "new-key") demo_env (demo_world [])) as [[[]|e] w1] eqn:H.
  2: { apply (f_equal (fun x => is_ok x.1)) in H. vm_compute in H. discriminate. }
  exists w1. split; [done|].
  destruct (pv_gigl (env_providers demo_env)) as [http|] eqn:Hg; [|discriminate].
  destruct (rotated_key_survives_restart demo_env (demo_reliable _) demo_gcm _ eq_refl ltac:(discriminate)
    _ _ _ (set_side empty_side w1) _ "TRK1" H ltac:(discriminate) eq_refl eq_refl Hg) as (_ & _ & R & _).
  exact R.
Defined.
