(* ===== verification/CacheSpec.v ===== *)
(** * The cache and canonical request bodies

    The fallback map stays within its capacity and evicts what expires first;
    an escrow survives the JSON round trip through Redis; the canonical form
    of a request body does not depend on the order of its fields. *)
From S2P Require Import Prelude Records Dates Text Tables Effects Cache Prisma EscrowRepo Coherence Demo.
Local Open Scope prog_scope.

(** ** Eviction *)

Abbreviation keys m := (@fst string CacheEntry <$> m).

Lemma foldl_map_delete l (m : memory) :
  foldl (fun m kv => map_delete kv.1 m) m l =
    List.filter (fun kv => negb (bool_decide (kv.1 ∈ keys l))) m.
Proof.
  revert m. induction l as [|x l IH]; intros m; simpl.
  - induction m as [|kv m IH]; [done|]. simpl. by rewrite <- IH.
  - rewrite IH. unfold map_delete. induction m as [|kv m IHm]; [done|]. simpl.
    destruct (decide (kv.1 = x.1)) as [E|E].
    + rewrite (bool_decide_true (kv.1 = x.1)) by done.
      rewrite (bool_decide_true (kv.1 ∈ _)) by (rewrite E; left). exact IHm.
    + rewrite (bool_decide_false (kv.1 = x.1)) by done. simpl.
      destruct (decide (kv.1 ∈ keys l)) as [Hin|Hin].
      * rewrite !bool_decide_true by (done || by right). exact IHm.
      * rewrite !bool_decide_false by (done || by rewrite elem_of_cons; intros [?|?]). simpl. by rewrite IHm.
Qed.

Lemma filter_perm {A} (P : A -> bool) l l' : l ≡ₚ l' -> List.filter P l ≡ₚ List.filter P l'.
Proof.
  induction 1 as [|x l l' _ IH|x y l|l1 l2 l3 _ IH1 _ IH2]; simpl; [done| | |by etrans].
  - case_match; by rewrite IH.
  - repeat case_match; try done. apply Permutation_swap.
Qed.

Lemma filter_all_false {A} (P : A -> bool) l : Forall (fun x => P x = false) l -> List.filter P l = [].
Proof. induction 1 as [|x l Hx _ IH]; [done|]. simpl. by rewrite Hx. Qed.

Lemma filter_all_true {A} (P : A -> bool) l : Forall (fun x => P x = true) l -> List.filter P l = l.
Proof. induction 1 as [|x l Hx _ IH]; [done|]. simpl. by rewrite Hx, IH. Qed.

(** Deleting the first [n] entries of a reordering leaves the others. *)
Lemma filter_out_prefix (m s : memory) n :
  NoDup (keys m) -> s ≡ₚ m ->
  List.filter (fun kv => negb (bool_decide (kv.1 ∈ keys (take n s)))) m ≡ₚ drop n s.
Proof.
  intros Hnd Hp. rewrite <- (filter_perm _ _ _ Hp). rewrite <- Hp in Hnd.
  set (P := fun kv : string * CacheEntry => _).
  transitivity (List.filter P (take n s ++ drop n s)); [by rewrite take_drop|]. rewrite List.filter_app.
  rewrite <- (take_drop n s), fmap_app, NoDup_app in Hnd. destruct Hnd as (_ & Hdis & _). unfold P.
  rewrite filter_all_false, filter_all_true; [done| |].
  - apply Forall_forall. intros kv Hkv. rewrite bool_decide_false; [done|]. intros Hin.
    apply (Hdis _ Hin). by apply list_elem_of_fmap_2.
  - apply Forall_forall. intros kv Hkv. rewrite bool_decide_true; [done|]. by apply list_elem_of_fmap_2.
Qed.

Lemma sort_by_expiry_sorted m :
  StronglySorted (fun a b : string * CacheEntry => (ce_expiresAt a.2 <= ce_expiresAt b.2)%Z) (sort_by_expiry m).
Proof.
  assert (H : StronglySorted (fun a b => asc (fun kv : string * CacheEntry => ce_expiresAt kv.2) a b = true)
    (sort_by_expiry m)).
  { apply sort_by_sorted; intros a b; unfold asc; [|intros c]; rewrite !Z.leb_le; lia. }
  induction H as [|x l _ IH Hx]; constructor; [done|].
  eapply Forall_impl; [exact Hx|]. intros b Hb. by apply Z.leb_le.
Qed.

(** The entries eviction drops, soonest to expire first, and those it keeps. *)
Definition overflow (m : memory) : nat := length m - 1000.

Lemma evict_perm m :
  NoDup (keys m) -> evictToCapacity m ≡ₚ drop (overflow m) (sort_by_expiry m).
Proof.
  intros Hnd. unfold evictToCapacity, overflow, MAX_MEMORY_ENTRIES.
  destruct (Z.leb_spec (Z.of_nat (length m)) 1000) as [Hle|Hgt].
  - replace (length m - 1000)%nat with 0%nat by lia. rewrite drop_0.
    symmetry. apply sort_by_perm.
  - rewrite foldl_map_delete. replace (Z.to_nat _) with (length m - 1000)%nat by lia.
    apply filter_out_prefix; [done|apply sort_by_perm].
Qed.

(** Eviction leaves exactly
    [min(size, 1000)] entries of the fallback map, all of them entries it had,
    and every entry it drops expires no later than every entry it keeps. *)
Theorem eviction_keeps_the_latest m :
  NoDup (keys m) ->
  let m' := evictToCapacity m in
  length m' = Nat.min (length m) 1000 /\ m' ⊆ m /\
  forall kv kv', kv ∈ m -> kv ∉ m' -> kv' ∈ m' -> (ce_expiresAt kv.2 <= ce_expiresAt kv'.2)%Z.
Proof.
  intros Hnd m'. pose proof (evict_perm m Hnd) as Hp. fold m' in Hp.
  pose proof (sort_by_perm (asc (fun kv : string * CacheEntry => ce_expiresAt kv.2)) m) as Hs.
  fold (sort_by_expiry m) in Hs. split_and!.
  - rewrite (Permutation_length Hp), length_drop, (Permutation_length Hs). unfold overflow. lia.
  - intros kv Hkv. rewrite Hp in Hkv. rewrite <- Hs. by eapply subseteq_drop.
  - intros kv kv' Hkv Hnot Hkv'. rewrite Hp in Hnot, Hkv'. rewrite <- Hs in Hkv.
    rewrite <- (take_drop (overflow m)) in Hkv. apply elem_of_app in Hkv as [Hkv|Hkv]; [|done].
    pose proof (sort_by_expiry_sorted m) as Hsort. rewrite <- (take_drop (overflow m)) in Hsort.
    by eapply StronglySorted_app_1_elem_of in Hsort.
Qed.

Definition full_memory : memory :=
  (fun i => (bigint_toString (Z.of_nat i), mkEntry (CTracking (mkTracking LDelivered None None [])) (Z.of_nat i)))
    <$> seq 0 1001.

Lemma eviction_keeps_the_latest_witness :
  NoDup (keys full_memory) /\ length (evictToCapacity full_memory) = 1000.
Proof.
  assert (Hnd : NoDup (keys full_memory)) by (apply (bool_decide_unpack _); vm_compute; exact I).
  split; [exact Hnd|]. exact (proj1 (eviction_keeps_the_latest full_memory Hnd)).
Defined.

(** ** The capacity invariant *)

Definition memory_ok (w : World) : Prop := NoDup (keys (w_memory w)) /\ length (w_memory w) <= 1000.

Lemma filter_submseteq {A} (P : A -> bool) l : List.filter P l ⊆+ l.
Proof.
  induction l as [|x l IH]; [done|]. simpl.
  destruct (P x); [by apply submseteq_skip|by apply submseteq_cons].
Qed.

Lemma keys_delete k m : keys (map_delete k m) ⊆+ keys m.
Proof.
  apply fmap_submseteq, filter_submseteq.
Qed.

Lemma length_delete k m : length (map_delete k m) <= length m.
Proof. pose proof (submseteq_length _ _ (keys_delete k m)) as H. by rewrite !length_fmap in H. Qed.

Lemma NoDup_submseteq {A} (l k : list A) : l ⊆+ k -> NoDup k -> NoDup l.
Proof. intros [k' ->]%submseteq_Permutation (Hl & _)%NoDup_app. done. Qed.

Lemma keys_set k e m :
  keys (map_set k e m) = keys m \/ ((k ∉ keys m) /\ keys (map_set k e m) = keys m ++ [k]).
Proof.
  induction m as [|[k' e'] m IH]; cbn [map_set].
  - right. split; [apply not_elem_of_nil|done].
  - case_bool_decide as E; rewrite !fmap_cons; [by left|].
    destruct IH as [->|[Hin ->]]; [by left|right]. split; [|done]. rewrite elem_of_cons. by intros [?|?].
Qed.

Lemma NoDup_keys_set k e m : NoDup (keys m) -> NoDup (keys (map_set k e m)).
Proof.
  intros H. destruct (keys_set k e m) as [->|[Hin ->]]; [done|].
  apply NoDup_app. split_and!; [done| |apply NoDup_singleton].
  intros x Hx ->%list_elem_of_singleton. done.
Qed.

Lemma evict_ok m : NoDup (keys m) -> NoDup (keys (evictToCapacity m)) /\ length (evictToCapacity m) <= 1000.
Proof.
  intros Hnd. pose proof (evict_perm m Hnd) as Hp.
  pose proof (sort_by_perm (asc (fun kv : string * CacheEntry => ce_expiresAt kv.2)) m) as Hs.
  fold (sort_by_expiry m) in Hs. split.
  - rewrite Hp. rewrite fmap_drop. rewrite <- Hs in Hnd.
    rewrite <- (take_drop (overflow m) (keys (sort_by_expiry m))) in Hnd. by apply NoDup_app in Hnd as (_ & _ & ?).
  - rewrite (Permutation_length Hp), length_drop, (Permutation_length Hs). unfold overflow. lia.
Qed.

(** The in-memory fallback never holds two entries
    under one key and never more than 1000 entries: every cache operation,
    including the periodic sweep, keeps it so, whatever the clock reads. *)
Theorem fallback_cache_bounded env w key value ttl now :
  memory_ok w ->
  memory_ok (run (cache_get key) env w).2 /\ memory_ok (run (cache_set key value ttl) env w).2 /\
  memory_ok (run (cache_del key) env w).2 /\ memory_ok (set_memory (sweep now (w_memory w)) w).
Proof.
  intros [Hnd Hlen].
  assert (Hdel : NoDup (keys (map_delete key (w_memory w))) /\ length (map_delete key (w_memory w)) <= 1000).
  { split; [by eapply NoDup_submseteq; [apply keys_delete|]|].
    pose proof (length_delete key (w_memory w)). lia. }
  assert (Hsweep : keys (sweep now (w_memory w)) ⊆+ keys (w_memory w)).
  { apply fmap_submseteq, filter_submseteq. }
  unfold cache_get, cache_set, cache_del. rewrite !run_await.
  unfold cache_get_action, cache_set_action, cache_del_action. split_and!.
  - repeat case_match; first [exact Hdel | exact (conj Hnd Hlen)].
  - repeat case_match; first [exact (conj Hnd Hlen) | apply evict_ok; by apply NoDup_keys_set].
  - repeat case_match; first [exact Hdel | exact (conj Hnd Hlen)].
  - split; [by eapply NoDup_submseteq|]. pose proof (submseteq_length _ _ Hsweep) as H.
    rewrite !length_fmap in H. simpl. lia.
Qed.

(** ** Round trip through Redis *)

(** With Redis up, an escrow written to the cache and read
    back before its expiry is revived to exactly the record that was written:
    its dates survive as instants and its contract id as an integer. *)
Theorem redis_round_trip env w key r ttl :
  env_cache env = true -> env_redis env = true -> (forall t, env_redis_down env t = false) ->
  dates_ok r -> (env_now env (S (w_tick w)) < env_now env (w_tick w) + ttl * 1000)%Z ->
  exists v, (run (cache_set key (CEscrow r) ttl ;;; cache_get key) env w).1 = Ok (Some v) /\
    reviveCachedEscrow v = Some r.
Proof.
  intros Hc Hr Hup Hd Hexp. exists (json_image (CEscrow r)). split; [|by apply revive_json_image].
  rewrite run_bind. unfold cache_set, cache_get. rewrite run_await. unfold cache_set_action.
  rewrite Hc, Hr, Hup. rewrite run_await. unfold cache_get_action. rewrite Hc, Hr, Hup.
  cbn [w_redis set_redis tick w_tick]. rewrite lookup_insert_eq. cbn [ce_expiresAt ce_value].
  by rewrite (proj2 (Z.leb_gt _ _)).
Qed.

(** ** Canonical request bodies *)

(** Two bodies with the same content: the fields of an object in any order,
    undefined fields ignored, at every depth. *)
Inductive same_json : json -> json -> Prop :=
| same_refl v : same_json v v
| same_arr l l' : same_items l l' -> same_json (JArr l) (JArr l')
| same_obj f g f' : NoDup f.*1 -> f ≡ₚ g -> same_fields g f' -> same_json (JObj f) (JObj f')
with same_items : list json -> list json -> Prop :=
| items_nil : same_items [] []
| items_cons v v' l l' : same_json v v' -> same_items l l' -> same_items (v :: l) (v' :: l')
with same_fields : list (string * option json) -> list (string * option json) -> Prop :=
| fields_nil : same_fields [] []
| fields_cons k v v' l l' :
    same_json v v' -> same_fields l l' -> same_fields ((k, Some v) :: l) ((k, Some v') :: l')
| fields_undefined_l k l l' : same_fields l l' -> same_fields ((k, None) :: l) l'
| fields_undefined_r k l l' : same_fields l l' -> same_fields l ((k, None) :: l').

Scheme same_json_rec := Induction for same_json Sort Prop
  with same_items_rec := Induction for same_items Sort Prop
  with same_fields_rec := Induction for same_fields Sort Prop.

Section canonical.
Context (nts : number -> string).

(** The fields that are serialized. *)
Definition defined (f : list (string * option json)) : list (string * string) :=
  omap (fun '(key, v) => match v with Some v => Some (key, stableStringify nts v) | None => None end) f.

Lemma keys_defined f : (defined f).*1 ⊆+ f.*1.
Proof.
  induction f as [|[k [v|]] f IH]; simpl; [done|by apply submseteq_skip|by apply submseteq_cons].
Qed.

(** C36. Two request bodies with the same content have
    the same canonical form, hence the same idempotency hash, whatever the
    order of their fields at any depth and whichever undefined fields they
    carry. *)
Theorem request_hash_canonical v v' : same_json v v' -> stableStringify nts v = stableStringify nts v'.
Proof.
  apply (same_json_rec (fun v v' _ => stableStringify nts v = stableStringify nts v')
    (fun l l' _ => stableStringify nts <$> l = stableStringify nts <$> l')
    (fun f f' _ => defined f = defined f')); try done.
  - intros l l' _ H. cbn [stableStringify]. do 3 f_equal. exact H.
  - intros f g f' Hnd Hp _ H. cbn [stableStringify]. fold (defined f) (defined f').
    rewrite <- H. erewrite (sort_by_key_unique (defined f) (defined g)); [done| |].
    + by eapply NoDup_submseteq; [apply keys_defined|].
    + unfold defined. by rewrite Hp.
  - intros v1 v2 l l' _ Hv _ Hl. by rewrite !fmap_cons, Hv, Hl.
  - intros k v1 v2 l l' _ Hv _ Hl. cbn. unfold defined in Hl. by rewrite Hv, Hl.
Qed.
End canonical.

Lemma request_hash_canonical_witness :
  stableStringify (fun _ => "0") (JObj [("b", Some JNull); ("a", Some (JStr "x"))]) =
  stableStringify (fun _ => "0") (JObj [("a", Some (JStr "x")); ("c", None); ("b", Some JNull)]).
Proof.
  apply request_hash_canonical. apply (same_obj _ [("a", Some (JStr "x")); ("b", Some JNull)]).
  - apply (bool_decide_unpack _). vm_compute. exact I.
  - apply Permutation_swap.
  - repeat constructor.
Defined.

Lemma fallback_cache_bounded_witness :
  memory_ok (run (cache_set "escrow:E" (CEscrow (toEscrowRecord (demo_row "E" FUNDED))) 60) demo_env (demo_world [])).2.
Proof.
  apply (fallback_cache_bounded demo_env (demo_world []) "escrow:E" _ 60 0).
  split; [apply NoDup_nil_2|simpl; lia].
Defined.

Lemma redis_round_trip_witness :
  exists v, (run (cache_set "escrow:E" (CEscrow (toEscrowRecord (demo_row "E" FUNDED))) 60 ;;;
                  cache_get "escrow:E") demo_redis_env (demo_world [])).1 = Ok (Some v) /\
    reviveCachedEscrow v = Some (toEscrowRecord (demo_row "E" FUNDED)).
Proof.
  apply (redis_round_trip demo_redis_env); try done.
Defined.
