(* ===== verification/QuerySpec.v ===== *)
(** * The queries of the escrow repository

    Which rows the queries of the workers and of the vendor dashboard return,
    in which order, and that paging through them misses and repeats nothing. *)
From S2P Require Import Prelude Records Dates Text Tables Effects Cache Prisma EscrowRepo Coherence Demo.
Local Open Scope prog_scope.

(** ** Orders *)

(** A boolean order as the sorts need it. *)
Record total_order {A} (le : A -> A -> bool) : Prop := {
  to_total : forall x y, le x y = true \/ le y x = true;
  to_trans : forall x y z, le x y = true -> le y z = true -> le x z = true
}.

Lemma asc_order {A} (key : A -> Z) : total_order (asc key).
Proof. split; unfold asc; intros; rewrite ?Z.leb_le in *; lia. Qed.

Lemma desc_order {A} (key : A -> Z) : total_order (desc key).
Proof. split; unfold desc; intros; rewrite ?Z.leb_le in *; lia. Qed.

Lemma asc_str_order {A} (key : A -> string) : total_order (asc_str key).
Proof. split; unfold asc_str; intros; [apply String.leb_total|eauto using leb_trans]. Qed.

Lemma asc_nulls_last_order {A} (key : A -> option Z) : total_order (asc_nulls_last key).
Proof.
  split; unfold asc_nulls_last; intros; repeat case_match; rewrite ?Z.leb_le in *; try done; try lia; auto.
Qed.

Lemma asc_nulls_first_order {A} (key : A -> option Z) : total_order (asc_nulls_first key).
Proof.
  split; unfold asc_nulls_first; intros; repeat case_match; rewrite ?Z.leb_le in *; try done; try lia; auto.
Qed.

Lemma then_by_order {A} (le1 le2 : A -> A -> bool) :
  total_order le1 -> total_order le2 -> total_order (then_by le1 le2).
Proof.
  intros [T1 R1] [T2 R2]. split; unfold then_by.
  - intros x y. destruct (le1 x y) eqn:E1, (le1 y x) eqn:E2; auto. destruct (T1 x y); congruence.
  - intros x y z. destruct (le1 x y) eqn:Exy, (le1 y z) eqn:Eyz; try done.
    intros Hxy Hyz. rewrite (R1 _ _ _ Exy Eyz). destruct (le1 z x) eqn:Ezx; [|done].
    rewrite (R1 _ _ _ Ezx Exy) in Hyz. rewrite (R1 _ _ _ Eyz Ezx) in Hxy. eauto.
Qed.

Lemma sort_by_ordered {A} (le : A -> A -> bool) l :
  total_order le -> StronglySorted (fun a b => le a b = true) (sort_by le l).
Proof. intros [T R]. by apply sort_by_sorted. Qed.

(** ** Selections *)

Lemma elem_select P le d row :
  row ∈ escrow_select P le d <-> P row = true /\ exists id, db_escrows d !! id = Some row.
Proof. unfold escrow_select, escrow_rows. rewrite sort_by_perm. apply elem_of_rows. Qed.

(** Rows are filed under their id, so a selection has no duplicates. *)
Lemma NoDup_select env w P le : Inv env w -> NoDup (escrow_select P le (w_db w)).
Proof.
  intros HI. unfold escrow_select. rewrite sort_by_perm. unfold escrow_rows.
  assert (Hnd : NoDup (map_to_list (db_escrows (w_db w))).*2).
  { apply NoDup_fmap_2_strong; [|apply NoDup_map_to_list]. intros [k1 r1] [k2 r2] H1 H2 Heq. simpl in Heq. subst r2.
    apply elem_of_map_to_list in H1, H2. apply (inv_ids _ _ HI) in H1, H2. congruence. }
  induction Hnd as [|x l Hx _ IH]; simpl; [apply NoDup_nil_2|].
  case_match; [|done]. constructor; [|done]. rewrite list_elem_of_In, filter_In, <- list_elem_of_In. by intros [? _].
Qed.

(** A read that the database answers. *)
Lemma run_findMany env w P le window :
  db_reliable env ->
  run (await (escrow_findMany P le window)) env w =
    (Ok (window (escrow_select P le (w_db w))), set_db (w_db w) (tick w)).
Proof. intros HR. rewrite run_await. unfold escrow_findMany. by rewrite db_call_reliable. Qed.

(** ** Auto-release candidates *)

Definition due (referenceTime : Z) (row : PrismaEscrow) : Prop :=
  e_state row = DELIVERED /\ e_disputeId row = None /\ e_autoReleaseTxHash row = None /\
  e_autoReleaseSubmittedAt row = None /\
  exists t, e_deliveredAt row = Some t /\ (t + 48 * 60 * 60 * 1000 <= referenceTime)%Z.

Lemma eligible_due t row :
  auto_release_eligible (t - AUTO_RELEASE_WINDOW_HOURS * MILLISECONDS_PER_HOUR) row = true <-> due t row.
Proof.
  replace (AUTO_RELEASE_WINDOW_HOURS * MILLISECONDS_PER_HOUR)%Z with 172800000%Z by reflexivity.
  unfold auto_release_eligible, due.
  rewrite !andb_true_iff, !bool_decide_eq_true. destruct (e_deliveredAt row) as [d|].
  - rewrite Z.leb_le. split; [intros ((((? & ?) & ?) & ?) & ?); split_and!; try done; exists d; split; [done|lia]|].
    intros (? & ? & ? & ? & d' & [= <-] & ?). split_and!; try done. lia.
  - split; [intros ((((? & ?) & ?) & ?) & ?); done|]. intros (? & ? & ? & ? & d' & ? & ?). done.
Qed.

(** C33. The auto-release worker is given exactly the
    escrows that are DELIVERED for at least 48 hours, have no dispute id, no
    release transaction and no submission in progress, each once, oldest
    delivery first. *)
Theorem auto_release_query_exact env w t :
  good_env env -> Inv env w -> db_reliable env ->
  exists rows w', run (findAutoReleaseEligible t) env w = (Ok (toEscrowRecord <$> rows), w') /\
    NoDup rows /\
    (forall row, row ∈ rows <-> due t row /\ escrow_of w (e_id row) = Some row) /\
    StronglySorted (fun a b => asc_nulls_last e_deliveredAt a b = true) rows.
Proof.
  intros HE HI HR. unfold findAutoReleaseEligible. rewrite run_bind, run_findMany by done.
  set (rows := id _). exists rows. eexists. split_and!; [done|by eapply NoDup_select| |].
  - intros row. unfold rows, id. rewrite elem_select, eligible_due. split; [|intros [? ?]; eauto].
    intros [Hd [k Hk]]. split; [done|]. by rewrite (inv_ids _ _ HI _ _ Hk).
  - assert (Hs : StronglySorted (fun a b => then_by (asc_nulls_last e_deliveredAt) (asc_str e_id) a b = true) rows).
    { apply sort_by_ordered, then_by_order; [apply asc_nulls_last_order|apply asc_str_order]. }
    induction Hs as [|x l _ IH Hx]; constructor; [done|]. eapply Forall_impl; [exact Hx|].
    intros b. unfold then_by. by destruct (asc_nulls_last _ x b).
Qed.

(** ** Paging *)

Lemma pages_cover {A} (limit : Z) (l : list A) n :
  (0 < limit)%Z ->
  concat ((fun k => page_of ((Z.of_nat k - 1) * limit) limit l) <$> seq 1 n) = take (n * Z.to_nat limit) l.
Proof.
  intros Hl. induction n as [|n IH]; [done|].
  rewrite seq_S, fmap_app, concat_app, IH. cbn [fmap list_fmap concat]. rewrite app_nil_r.
  unfold page_of. replace (Z.to_nat ((Z.of_nat (1 + n) - 1) * limit)) with (n * Z.to_nat limit)%nat by nia.
  rewrite take_take_drop. f_equal. lia.
Qed.

Lemma concat_fmap {A B} (f : A -> B) (l : list (list A)) : concat ((fun x => f <$> x : list B) <$> l) = f <$> concat l.
Proof. induction l as [|x l IH]; [done|]. simpl. by rewrite fmap_app, <- IH. Qed.

Definition vendor_page (env : Env) (w : World) (vendor : string) (state : option EscrowState) (sort : SortField)
    (order : SortOrder) (limit : Z) (k : nat) : outcome (list EscrowRecord * Z) :=
  (run (findVendorEscrows vendor state sort order (Z.of_nat k) limit) env w).1.

Definition page_data (r : outcome (list EscrowRecord * Z)) : list EscrowRecord :=
  match r with Ok (data, _) => data | Throw _ => [] end.

Lemma vendor_page_run env w vendor state sort order limit k :
  db_reliable env -> (0 < limit)%Z -> (1 <= k)%nat ->
  vendor_page env w vendor state sort order limit k =
    Ok (toEscrowRecord <$> page_of ((Z.of_nat k - 1) * limit) limit
          (escrow_select (vendor_where vendor state) (vendor_orderBy sort order) (w_db w)),
        Z.of_nat (length (escrow_select (vendor_where vendor state) (vendor_orderBy sort order) (w_db w)))).
Proof.
  intros HR Hl Hk. unfold vendor_page, findVendorEscrows.
  destruct (Z.ltb_spec ((Z.of_nat k - 1) * limit) 0) as [|_]; [nia|].
  rewrite run_bind, run_findMany by done. rewrite run_bind, run_await. unfold escrow_count.
  rewrite db_call_reliable by done. simpl. do 3 f_equal. unfold escrow_select. by rewrite sort_by_perm.
Qed.

(** Walking the pages of a vendor's dashboard over
    an unchanged table yields, in order, exactly the escrows of that vendor in
    the requested state: none missing, none twice, and every page reports
    their number as the total. *)
Theorem vendor_pages_partition env w vendor state sort order limit :
  Inv env w -> db_reliable env -> (0 < limit)%Z ->
  exists rows, NoDup rows /\
    (forall row, row ∈ rows <-> vendor_where vendor state row = true /\ escrow_of w (e_id row) = Some row) /\
    StronglySorted (fun a b => vendor_orderBy sort order a b = true) rows /\
    (forall n, (length rows <= n * Z.to_nat limit)%nat ->
       concat ((fun k => page_data (vendor_page env w vendor state sort order limit k)) <$> seq 1 n)
         = toEscrowRecord <$> rows) /\
    (forall k, (1 <= k)%nat -> exists data,
       vendor_page env w vendor state sort order limit k = Ok (data, Z.of_nat (length rows))).
Proof.
  intros HI HR Hl. set (rows := escrow_select (vendor_where vendor state) (vendor_orderBy sort order) (w_db w)).
  exists rows. split_and!.
  - by eapply NoDup_select.
  - intros row. unfold rows. rewrite elem_select. split; [|intros [? ?]; eauto].
    intros [Hw [k Hk]]. split; [done|]. by rewrite (inv_ids _ _ HI _ _ Hk).
  - apply sort_by_ordered. unfold vendor_orderBy. destruct order; [apply asc_order|apply desc_order].
  - intros n Hn. rewrite <- (take_ge rows (n * Z.to_nat limit)) by done.
    rewrite <- pages_cover by done. rewrite <- concat_fmap. f_equal. rewrite <- list_fmap_compose.
    apply list_fmap_ext. intros i k [Hk _]%lookup_seq. simpl. rewrite vendor_page_run by (done || lia). done.
  - intros k Hk. eexists. by rewrite vendor_page_run.
Qed.

(** Delivered three days before the demo clock. *)
Definition delivered_row (id : string) : PrismaEscrow :=
  set_deliveredAt (Some (demo_now - 3 * 24 * 60 * 60 * 1000)%Z) (demo_row id DELIVERED).

Lemma delivered_row_dates id : dates_ok (delivered_row id).
Proof. unfold dates_ok, opt_iso, in_iso_range, demo_now. simpl. unfold demo_now. lia. Qed.

Lemma auto_release_query_exact_witness :
  exists rows w', run (findAutoReleaseEligible demo_now) demo_env (demo_world [delivered_row "E"; demo_row "F" SHIPPED])
      = (Ok (toEscrowRecord <$> rows), w') /\ delivered_row "E" ∈ rows.
Proof.
  destruct (auto_release_query_exact demo_env (demo_world [delivered_row "E"; demo_row "F" SHIPPED]) demo_now)
    as (rows & w' & Hrun & _ & Hin & _).
  - apply demo_good.
  - apply (demo_inv _ [delivered_row "E"; demo_row "F" SHIPPED]). apply Forall_cons; split; [apply delivered_row_dates|apply Forall_singleton, demo_row_dates].
  - apply demo_reliable.
  - exists rows, w'. split; [exact Hrun|]. apply Hin. split; [|done].
    split_and!; try done. eexists. split; [done|]. simpl. lia.
Defined.

Lemma vendor_pages_partition_witness :
  exists rows, length rows = 2 /\
    page_data (vendor_page demo_env (demo_world [demo_row "E" FUNDED; demo_row "F" SHIPPED]) "GVENDOR" None
                 sort_date order_asc 1 1) ++
    page_data (vendor_page demo_env (demo_world [demo_row "E" FUNDED; demo_row "F" SHIPPED]) "GVENDOR" None
                 sort_date order_asc 1 2) = toEscrowRecord <$> rows.
Proof.
  destruct (vendor_pages_partition demo_env (demo_world [demo_row "E" FUNDED; demo_row "F" SHIPPED]) "GVENDOR" None
    sort_date order_asc 1) as (rows & _ & _ & _ & Hpages & Htotal).
  - apply (demo_inv _ [demo_row "E" FUNDED; demo_row "F" SHIPPED]). apply Forall_cons; split; [apply demo_row_dates|apply Forall_singleton, demo_row_dates].
  - apply demo_reliable.
  - done.
  - assert (Hlen : length rows = 2).
    { destruct (Htotal 1%nat ltac:(lia)) as [data Hd].
      apply (f_equal (fun r => match r with Ok (_, n) => n | Throw _ => (-1)%Z end)) in Hd.
      assert (H2 : (2 = Z.of_nat (length rows))%Z) by (rewrite <- Hd; vm_compute; reflexivity). lia. }
    exists rows. split; [exact Hlen|]. rewrite <- (Hpages 2%nat) by (rewrite Hlen; simpl; lia).
    simpl. by rewrite app_nil_r.
Defined.
