(* ===== verification/Contract.v ===== *)
(** * ContractService

    [src/stellar/contract.service.ts]: the life cycle of a contract call
    (account, build, simulate, prepare, sign, submit, confirm), the retry of
    an auto-release on sequence errors, and the read of an on-chain state.
    [ContractApi] is what the services rely on: five operations that never
    touch the database or the cache. *)
From S2P Require Import Prelude Records Dates Text Tables Effects.
Local Open Scope prog_scope.

(** ** Interface *)

Inductive Resolution : Type := RELEASE | REFUND.

#[export] Instance Resolution_eq_dec : EqDecision Resolution.
Proof. solve_decision. Defined.

Record ChainState : Type := mkChainState { cs_state : string; cs_exists : bool }.

(** Only the tick and the log of submitted transactions may change. *)
Record quiet_step (w w' : World) : Prop := {
  q_db : w_db w' = w_db w;
  q_memory : w_memory w' = w_memory w;
  q_redis : w_redis w' = w_redis w;
  q_outbox : w_outbox w' = w_outbox w;
  q_auto : w_autoRunning w' = w_autoRunning w;
  q_track : w_trackRunning w' = w_trackRunning w;
  q_poll : w_polling w' = w_polling w;
  q_retry : w_syncRetry w' = w_syncRetry w;
  q_index : w_index w' = w_index w;
  q_started : w_started w' = w_started w
}.

#[export] Instance quiet_step_preorder : PreOrder quiet_step.
Proof. split; [by intros w; split|]. intros w1 w2 w3 [] []. split; congruence. Qed.

Class ContractApi : Type := {
  getEscrowState : Z -> Prog ChainState;
  cancelEscrowOnChain : Z -> string -> Prog string;
  resolveDispute : Z -> Resolution -> string -> Prog string;
  submitAutoRelease : Z -> string -> Prog string;
  recordDelivery : Z -> string -> Prog string;
  getEscrowState_quiet : forall id, every quiet_step (getEscrowState id);
  cancelEscrowOnChain_quiet : forall id a, every quiet_step (cancelEscrowOnChain id a);
  resolveDispute_quiet : forall id r a, every quiet_step (resolveDispute id r a);
  submitAutoRelease_quiet : forall id a, every quiet_step (submitAutoRelease id a);
  recordDelivery_quiet : forall id a, every quiet_step (recordDelivery id a)
}.

(** ** Implementation *)

Module ContractService.

Definition DEFAULT_AUTO_RELEASE_MAX_RETRIES : nat := 2.
Definition TX_CONFIRM_TIMEOUT_MS : Z := 30000.
Definition TX_CONFIRM_POLL_INTERVAL_MS : Z := 250.

Definition DEFAULT_FAILURE : exn := ContractCallFailedException "Soroban contract call failed".
Definition NOT_CONFIGURED : exn := ContractCallFailedException "Stellar server is not configured".

Definition toResolutionType (resolution : Resolution) : ScArg :=
  ScVecSymbol (match resolution with RELEASE => "Release" | REFUND => "Refund" end).

Definition isPendingStatus (status : string) : bool :=
  bool_decide (status = "NOT_FOUND") || bool_decide (status = "PENDING").

(** [rpc.Api.isSimulationError] is ['error' in sim]. *)
Definition isSimulationError (s : SimResponse) : bool :=
  bool_decide (is_Some (sim_error s)) || truthy (sim_error s).

Definition decodeSimulationError (s : SimResponse) : string :=
  if isSimulationError s then or_str (sim_error s) "Unknown simulation error"
  else "Unknown simulation error".

Definition decodeTransactionError (t : TxResponse) : string :=
  coalesce (tx_resultXdr t) "Transaction failed on chain".

Definition isSequenceError (message : string) : bool :=
  let lower := toLowerCase message in
  includes "sequence" lower || includes "tx_bad_seq" lower || includes "bad_seq" lower.

Definition getContractId : Prog string :=
  let* id := ask (fun env => env_config env "CONTRACT_ID") in
  if truthy id then Ret (coalesce id "")
  else Raise (ContractCallFailedException "CONTRACT_ID is not configured; cannot invoke contract.").

(** [new Account(publicKey, seq)]; its sequence number stands for it. *)
Definition newAccount (publicKey seq : string) : Prog string :=
  let* sdk := ask env_sdk in
  settle (sdk_account sdk publicKey seq) ;;;
  Ret seq.

Definition fetchAccount (server : StellarServer) (publicKey : string) : Prog string :=
  match sv_getAccount server with
  | Some getAccount =>
      let* rawAcc := await (ext_call (fun t => getAccount t publicKey)) in
      match rawAcc with
      | AccountInstance seq => Ret seq
      | RawSequence seq => newAccount publicKey (coalesce seq "0")
      end
  | None =>
      match sv_loadAccount server with
      | Some loadAccount =>
          let* seq := await (ext_call (fun t => loadAccount t publicKey)) in
          newAccount publicKey seq
      | None => newAccount publicKey "0"
      end
  end.

Definition simulateTransaction (server : StellarServer) (tx : ContractTx) : Prog SimResponse :=
  match sv_simulateTransaction server with
  | Some simulate => await (ext_call (fun t => simulate t tx))
  | None => Raise (ContractCallFailedException "simulateTransaction is not supported")
  end.

Definition prepareTransaction (server : StellarServer) (tx : ContractTx) (sim : SimResponse)
    : Prog ContractTx :=
  match sv_prepareTransaction server with
  | Some prepare => await (ext_call (fun t => prepare t tx))
  | None => let* sdk := ask env_sdk in settle (sdk_assemble sdk tx sim)
  end.

Definition signTransaction (tx : ContractTx) : ContractTx :=
  mkCall (ct_function tx) (ct_args tx) (ct_source tx) true.

(** Handing a transaction to the network is what [w_chain] records. *)
Definition submitTransaction (server : StellarServer) (tx : ContractTx) : Prog SendResponse :=
  match sv_sendTransaction server with
  | Some send => await (fun _ w => (send (w_tick w) tx, log_chain tx (tick w)))
  | None => Raise (ContractCallFailedException "sendTransaction is not supported")
  end.

(** The polling loop, one unit of [fuel] per poll. *)
Fixpoint poll_loop (fuel : nat) (hash : string) (getTransaction : nat -> string -> outcome TxResponse)
    (deadline : Z) (response : TxResponse) : Prog TxResponse :=
  if isPendingStatus (tx_status response) then
    match fuel with
    | O => Raise (JsError "out of fuel")
    | S fuel =>
        let* t := await now in
        if (deadline <=? t)%Z then
          Raise (ContractCallFailedException
            ("Transaction " +:+ hash +:+ " was not confirmed within 30000ms"))
        else
          await sleep ;;;
          let* response := await (ext_call (fun t => getTransaction t hash)) in
          poll_loop fuel hash getTransaction deadline response
    end
  else Ret response.

(** Polls before the deadline must have passed, plus one. *)
Definition POLL_FUEL : nat := Z.to_nat (TX_CONFIRM_TIMEOUT_MS / TX_CONFIRM_POLL_INTERVAL_MS + 1).

Definition pollWithGetTransaction (hash : string)
    (getTransaction : nat -> string -> outcome TxResponse) : Prog TxResponse :=
  let* t := await now in
  let deadline := (t + TX_CONFIRM_TIMEOUT_MS)%Z in
  let* response := await (ext_call (fun t => getTransaction t hash)) in
  poll_loop POLL_FUEL hash getTransaction deadline response.

Definition pollTransactionStatus (server : StellarServer) (hash : string) : Prog TxResponse :=
  match sv_pollTransaction server with
  | Some poll => await (ext_call (fun t => poll t hash))
  | None =>
      match sv_getTransaction server with
      | Some getTransaction => pollWithGetTransaction hash getTransaction
      | None => Raise (ContractCallFailedException
          "Unable to confirm transaction: the Stellar server exposes neither pollTransaction nor getTransaction")
      end
  end.

Definition legacyOperation (functionName : string) : string :=
  if bool_decide (functionName = "resolve_dispute") then "resolveDispute"
  else if bool_decide (functionName = "auto_release") then "autoRelease"
  else if bool_decide (functionName = "cancel_escrow") then "cancelEscrow"
  else if bool_decide (functionName = "record_delivery") then "recordDelivery"
  else functionName.

(** The branch for a server that only has [submitTransaction]. *)
Definition invokeLegacy (server : StellarServer) (submit : nat -> string -> Z -> outcome LegacyResponse)
    (functionName : string) (args : list ScArg) (contractEscrowId : Z) (sourceAddress : option string)
    : Prog string :=
  (match sourceAddress, sv_loadAccount server with
   | Some source, Some loadAccount =>
       if bool_decide (functionName = "auto_release")
       then await (ext_call (fun t => loadAccount t source)) ;;; Ret tt
       else Ret tt
   | _, _ => Ret tt
   end) ;;;
  let* result := await (fun _ w =>
    (submit (w_tick w) (legacyOperation functionName) contractEscrowId,
     log_chain (mkCall functionName args (coalesce sourceAddress "") false) (tick w))) in
  if bool_decide (lr_status result = Some "ERROR") || bool_decide (lr_resultXdr result = Some "TxFailed")
  then Raise DEFAULT_FAILURE
  else if truthy (lr_hash result) then Ret (coalesce (lr_hash result) "")
  else Raise (ContractCallFailedException "Missing transaction hash").

(** Simulate, prepare, sign: the transaction that will be submitted. *)
Definition prepareCall (server : StellarServer) (tx : ContractTx) (signer : option string)
    : Prog ContractTx :=
  let* sim := simulateTransaction server tx in
  if isSimulationError sim
  then Raise (ContractCallFailedException ("Simulation failed: " +:+ decodeSimulationError sim))
  else
    let* prepared := catch (prepareTransaction server tx sim) (fun err =>
      match err with
      | ContractCallFailedException _ => Raise err
      | _ => Raise (ContractCallFailedException
               ("Transaction preparation failed: " +:+ exn_message err))
      end) in
    Ret (match signer with Some _ => signTransaction prepared | None => prepared end).

(** Submit and confirm. *)
Definition sendAndConfirm (server : StellarServer) (tx : ContractTx) : Prog string :=
  let* sent := submitTransaction server tx in
  if bool_decide (send_status sent = "ERROR") then
    let errorMsg := coalesce (send_errorResult sent) "Transaction submission returned ERROR status" in
    if isSequenceError errorMsg then Raise (JsError ("sequence error: " +:+ errorMsg))
    else Raise (ContractCallFailedException ("Submission failed: " +:+ errorMsg))
  else if truthy (send_hash sent) then
    let txHash := coalesce (send_hash sent) "" in
    let* final := pollTransactionStatus server txHash in
    if bool_decide (tx_status final = "FAILED")
    then Raise (ContractCallFailedException
           ("Contract execution failed: " +:+ decodeTransactionError final))
    else Ret txHash
  else Raise (ContractCallFailedException "Missing transaction hash").

(** The life cycle on an RPC server: account, build, simulate, prepare, sign,
    submit, confirm. *)
Definition invokeRpc (server : StellarServer) (functionName : string) (args : list ScArg)
    (sourceAddress : option string) : Prog string :=
  let* contractId := getContractId in
  let* secret := ask (fun env => env_config env "SYSTEM_SIGNER_SECRET") in
  let* sdk := ask env_sdk in
  let signer := if truthy secret then secret ≫= sdk_keypair sdk else None in
  let sourcePublic := if truthy sourceAddress then sourceAddress else signer in
  if truthy sourcePublic then
    let source := coalesce sourcePublic "" in
    fetchAccount server source ;;;
    match sdk_contract sdk contractId with
    | Throw err => Raise (ContractCallFailedException ("Invalid contract ID: " +:+ exn_message err))
    | Ok _ =>
        let* tx := prepareCall server (mkCall functionName args source false) signer in
        sendAndConfirm server tx
    end
  else Raise (ContractCallFailedException
    "No source address available: SYSTEM_SIGNER_SECRET is missing or invalid and no sourceAddress was provided").

Definition invokeContract (functionName : string) (args : list ScArg) (contractEscrowId : Z)
    (sourceAddress : option string) : Prog string :=
  let* server := ask env_server in
  match server with
  | None => Raise NOT_CONFIGURED
  | Some server =>
      match sv_submitTransaction server, sv_simulateTransaction server with
      | Some submit, None =>
          invokeLegacy server submit functionName args contractEscrowId sourceAddress
      | _, _ => invokeRpc server functionName args sourceAddress
      end
  end.

(** [new Address(a).toScVal()]. *)
Definition toAddress (a : string) : Prog ScArg :=
  let* sdk := ask env_sdk in
  settle (sdk_address sdk a) ;;;
  Ret (ScAddress a).

Definition resolveDispute (contractEscrowId : Z) (resolution : Resolution) (callerAddress : string)
    : Prog string :=
  let* caller := toAddress callerAddress in
  invokeContract "resolve_dispute" [caller; ScU64 contractEscrowId; toResolutionType resolution]
    contractEscrowId None.

Definition cancelEscrowOnChain (contractEscrowId : Z) (callerAddress : string) : Prog string :=
  let* caller := toAddress callerAddress in
  invokeContract "cancel_escrow" [caller; ScU64 contractEscrowId] contractEscrowId None.

Definition recordDelivery (contractEscrowId : Z) (callerAddress : string) : Prog string :=
  let* caller := toAddress callerAddress in
  invokeContract "record_delivery" [caller; ScU64 contractEscrowId] contractEscrowId None.

(** The [while (attempt <= maxRetries)] loop: [retries] attempts are left
    after this one. *)
Fixpoint auto_release_loop (retries : nat) (contractEscrowId : Z) (sourceAddress : string) : Prog string :=
  catch (invokeContract "auto_release" [ScU64 contractEscrowId] contractEscrowId (Some sourceAddress))
    (fun error =>
       match error with
       | ContractCallFailedException _ => Raise error
       | _ =>
           if isSequenceError (exn_message error) then
             match retries with
             | S retries => auto_release_loop retries contractEscrowId sourceAddress
             | O => Raise (ContractCallFailedException "Max retries exceeded")
             end
           else Raise (ContractCallFailedException (exn_message error))
       end).

Definition submitAutoRelease (contractEscrowId : Z) (sourceAddress : string) (maxRetries : nat)
    : Prog string :=
  let* server := ask env_server in
  match server with
  | None => Raise NOT_CONFIGURED
  | Some _ => auto_release_loop maxRetries contractEscrowId sourceAddress
  end.

Definition UNKNOWN_STATE : ChainState := mkChainState "UNKNOWN" false.
Definition DUMMY_ACCOUNT : string := "GBBD47IF6LWK7P7MDEVSCWR7DPUWV3NY3DTQEVFL4NAT4AQH3ZLLFLA5".

(** Note the argument of [get_escrow]: [nativeToScVal(escrowId)] on a string. *)
Definition getEscrowState (contractEscrowId : Z) : Prog ChainState :=
  let* server := ask env_server in
  match server with
  | None => Ret UNKNOWN_STATE
  | Some server =>
      match sv_submitTransaction server, sv_simulateTransaction server with
      | Some submit, None =>
          catch
            (let* result := await (ext_call (fun t => submit t "getEscrowState" contractEscrowId)) in
             if bool_decide (lr_status result = Some "ERROR") then Ret UNKNOWN_STATE
             else Ret (mkChainState (coalesce (lr_resultXdr result) "CREATED") true))
            (fun _ => Ret UNKNOWN_STATE)
      | _, _ =>
          catch
            (let* contractId := getContractId in
             let* sdk := ask env_sdk in
             settle (sdk_contract sdk contractId) ;;;
             let* sim := simulateTransaction server
               (mkCall "get_escrow" [ScString (bigint_toString contractEscrowId)] DUMMY_ACCOUNT false) in
             if isSimulationError sim then Ret UNKNOWN_STATE
             else Ret (mkChainState "CREATED" true))
            (fun _ => Ret UNKNOWN_STATE)
      end
  end.

(** ** The implementation meets the interface *)

(** An atom that answers without touching the tables. *)
Ltac quiet_atom := apply every_await; intros; split; done.

Lemma poll_loop_quiet fuel hash get deadline response :
  every quiet_step (poll_loop fuel hash get deadline response).
Proof.
  revert response. induction fuel as [|fuel IH]; intros response; simpl; [by case_match|].
  walk_every ltac:(idtac; first [apply IH | quiet_atom]).
Qed.

Lemma invokeContract_quiet fn args id source : every quiet_step (invokeContract fn args id source).
Proof.
  unfold invokeContract, invokeLegacy, invokeRpc, getContractId, fetchAccount, newAccount, prepareCall, sendAndConfirm,
    simulateTransaction, prepareTransaction, submitTransaction, pollTransactionStatus,
    pollWithGetTransaction.
  walk_every ltac:(idtac; first [apply poll_loop_quiet | quiet_atom]).
Qed.

Lemma auto_release_quiet n id source : every quiet_step (auto_release_loop n id source).
Proof.
  induction n as [|n IH]; simpl;
    walk_every ltac:(idtac; first [apply invokeContract_quiet | apply IH | quiet_atom]).

Qed.

(** Every operation is quiet. *)
Ltac quiet_op :=
  intros; unfold getEscrowState, cancelEscrowOnChain, resolveDispute, submitAutoRelease,
    recordDelivery, toAddress, getContractId, simulateTransaction;
  walk_every ltac:(idtac; first [apply invokeContract_quiet | apply auto_release_quiet | quiet_atom]).

Definition contractService : ContractApi.
Proof.
  refine (Build_ContractApi getEscrowState cancelEscrowOnChain resolveDispute
    (fun id source => submitAutoRelease id source DEFAULT_AUTO_RELEASE_MAX_RETRIES)
    recordDelivery _ _ _ _ _); abstract quiet_op.
Defined.

End ContractService.

#[export] Existing Instance ContractService.contractService.
