(* ===== verification/Lifecycle.v ===== *)
(** * The life cycle of an escrow

    The abstract state machine the services implement ([docs/state-machine.md],
    with the transitions the event handlers of the code also allow), and what
    it means for the tables to evolve along it. *)
From S2P Require Import Prelude Records Dates Text Tables Effects Cache Prisma EscrowRepo Coherence Contract.

(** ** The machine *)

(** Which state may follow which. *)
Definition allowed (s s' : EscrowState) : bool :=
  match s' with
  | CREATED => false
  | FUNDED => bool_decide (s = CREATED)
  | SHIPPED => bool_decide (s = CREATED) || bool_decide (s = FUNDED)
  | DELIVERED => bool_decide (s = SHIPPED)
  | DISPUTED => negb (TERMINAL_STATES s) && negb (bool_decide (s = DISPUTED))
  | COMPLETED | RELEASED | REFUNDED | CANCELLED => negb (TERMINAL_STATES s)
  end.

Definition transition (s s' : EscrowState) : Prop := allowed s s' = true.

(** How far along the life cycle a state is. *)
Definition stage (s : EscrowState) : nat :=
  match s with
  | CREATED => 0 | FUNDED => 1 | SHIPPED => 2 | DELIVERED => 3 | DISPUTED => 4
  | COMPLETED | RELEASED | REFUNDED | CANCELLED => 5
  end.

Lemma transition_stage s s' : transition s s' -> stage s < stage s'.
Proof. destruct s, s'; simpl; try done; lia. Qed.

Lemma reach_stage s s' : rtc transition s s' -> stage s <= stage s'.
Proof. induction 1 as [|? ? ? ?%transition_stage]; lia. Qed.

Lemma terminal_absorbing s s' : TERMINAL_STATES s = true -> rtc transition s s' -> s' = s.
Proof. intros Hs. inversion 1 as [|? s1 ? H1]; [done|]. by destruct s, s1. Qed.

(** ** Evolution of the tables *)

Definition row_evolves (row row' : PrismaEscrow) : Prop :=
  same_identity row row' /\ rtc transition (e_state row) (e_state row').

(** What creation guarantees of a row. *)
Definition fresh (row : PrismaEscrow) : Prop :=
  e_state row = CREATED /\ e_contractEscrowId row = None /\ e_disputeId row = None /\
  e_buyerAddress row <> e_vendorAddress row.

(** A vendor has at most one escrow per item reference. *)
Definition items_unique (w : World) : Prop :=
  forall id1 id2 r1 r2, escrow_of w id1 = Some r1 -> escrow_of w id2 = Some r2 ->
    e_vendorAddress r1 = e_vendorAddress r2 -> e_itemRef r1 = e_itemRef r2 -> id1 = id2.

(** No escrow disappears, identities are kept, every state change is a path
    of the machine, a new escrow started as a fresh row, and item references
    stay unique. *)
Record evolves (w w' : World) : Prop := {
  ev_old : forall id row, escrow_of w id = Some row ->
    exists row', escrow_of w' id = Some row' /\ row_evolves row row';
  ev_new : forall id row', escrow_of w' id = Some row' -> escrow_of w id = None ->
    exists row, fresh row /\ row_evolves row row';
  ev_items : items_unique w -> items_unique w'
}.

#[export] Instance row_evolves_preorder : PreOrder row_evolves.
Proof.
  split.
  - intros row. split; [apply same_identity_refl|done].
  - intros r1 r2 r3 [? ?] [? ?]. split; [by eapply same_identity_trans|by etrans].
Qed.

#[export] Instance evolves_preorder : PreOrder evolves.
Proof.
  split.
  - intros w. split; [|by intros id row' -> ?|done]. intros id row Hrow. by exists row.
  - intros w1 w2 w3 [Ho Hn Hi] [Ho' Hn' Hi']. split; [| |by auto].
    + intros id row (row2 & H2 & E2)%Ho. destruct (Ho' _ _ H2) as (row3 & H3 & E3).
      exists row3. split; [done|by etrans].
    + intros id row3 H3 H1. destruct (escrow_of w2 id) as [row2|] eqn:H2; [|by eapply Hn'].
      destruct (Ho' _ _ H2) as (row3' & H3' & E3). simplify_eq.
      destruct (Hn _ _ H2 H1) as (row & Hf & E). exists row. split; [done|by etrans].
Qed.

Lemma evolves_same w w' : db_escrows (w_db w') = db_escrows (w_db w) -> evolves w w'.
Proof.
  intros H. split; unfold items_unique; rewrite H; [|by intros ? ? ->|done].
  intros id row Hrow. by exists row.
Qed.

Lemma evolves_replace w w' id row row' :
  escrow_of w id = Some row -> row_evolves row row' ->
  db_escrows (w_db w') = <[id := row']> (db_escrows (w_db w)) -> evolves w w'.
Proof.
  intros Hrow Hev Hdb. split.
  - intros id0 row0 H0. rewrite Hdb. destruct (decide (id0 = id)) as [->|Hne].
    + exists row'. rewrite lookup_insert_eq. by simplify_eq.
    + exists row0. by rewrite lookup_insert_ne.
  - intros id0 row0. rewrite Hdb. intros [[<- <-]|[_ H0]]%lookup_insert_Some; congruence.
  - intros Hu.
    assert (Hold : forall id0 r0, escrow_of w' id0 = Some r0 -> exists r, escrow_of w id0 = Some r /\
      e_vendorAddress r = e_vendorAddress r0 /\ e_itemRef r = e_itemRef r0).
    { intros id0 r0. rewrite Hdb. intros [[<- <-]|[_ H0]]%lookup_insert_Some; [|by eauto].
      exists row. unfold row_evolves, same_identity in Hev. intuition. }
    intros id1 id2 r1 r2 (r1' & H1 & V1 & I1)%Hold (r2' & H2 & V2 & I2)%Hold Hv Hi.
    eapply Hu; eauto; congruence.
Qed.

Lemma evolves_create w w' id row :
  escrow_of w id = None -> fresh row ->
  (forall id0 r, escrow_of w id0 = Some r ->
     ~ (e_vendorAddress r = e_vendorAddress row /\ e_itemRef r = e_itemRef row)) ->
  db_escrows (w_db w') = <[id := row]> (db_escrows (w_db w)) -> evolves w w'.
Proof.
  intros Hnone Hf Hdup Hdb. split; unfold items_unique; rewrite Hdb.
  - intros id0 row0 H0. exists row0. rewrite lookup_insert_ne; [done|congruence].
  - intros id0 row0 [[<- <-]|[_ H0]]%lookup_insert_Some; [by exists row|congruence].
  - intros Hu id1 id2 r1 r2 [[<- <-]|[_ H1]]%lookup_insert_Some
      [[<- <-]|[_ H2]]%lookup_insert_Some Hv Hi; [done| | |by eapply Hu]; exfalso.
    + by apply (Hdup _ _ H2).
    + by apply (Hdup _ _ H1).
Qed.

(** ** Sound programs

    A program that keeps the store invariant and moves escrows along the
    machine, whatever faults the database injects. *)
Definition sound {A} (m : Prog A) : Prop :=
  forall env w, good_env env -> Inv env w ->
    wp m env w (fun _ w' => Inv env w' /\ evolves w w').

Lemma sound_ret {A} (a : A) : sound (Ret a).
Proof. by intros env w ? ?; apply wp_ret. Qed.

Lemma sound_raise {A} e : sound (Raise (A:=A) e).
Proof. by intros env w ? ?; apply wp_raise. Qed.

Lemma sound_bind {A B} (m : Prog A) (f : A -> Prog B) :
  sound m -> (forall a, sound (f a)) -> sound (bind m f).
Proof.
  intros Hm Hf env w HE HI. apply wp_bind. eapply wp_mono; [by apply Hm|].
  intros [a|e] w1 [HI1 H1]; [|done]. eapply wp_mono; [by apply Hf|].
  intros r w2 [HI2 H2]. split; [done|by etrans].
Qed.

Lemma sound_catch {A} (m : Prog A) h : sound m -> (forall e, sound (h e)) -> sound (catch m h).
Proof.
  intros Hm Hh env w HE HI. apply wp_catch. eapply wp_mono; [by apply Hm|].
  intros [a|e] w1 [HI1 H1]; [done|]. eapply wp_mono; [by apply Hh|].
  intros r w2 [HI2 H2]. split; [done|by etrans].
Qed.

Lemma sound_attempt {A} (m : Prog A) : sound m -> sound (attempt m).
Proof. intros Hm. apply sound_catch; [apply sound_bind; [done|]|]; intros; apply sound_ret. Qed.

Lemma sound_finally {A} (m : Prog A) fin : sound m -> sound fin -> sound (finally m fin).
Proof.
  intros Hm Hf. apply sound_bind; [by apply sound_attempt|]. intros r.
  apply sound_bind; [done|]. intros _. destruct r; [apply sound_ret|apply sound_raise].
Qed.

Lemma sound_forEach {A} (xs : list A) (f : A -> Prog unit) :
  (forall x, sound (f x)) -> sound (forEach xs f).
Proof. intros Hf. induction xs; [apply sound_ret|]. by apply sound_bind. Qed.

(** A step that touches neither the escrow table nor the escrow cache. *)
Definition off_escrow (w w' : World) : Prop :=
  db_escrows (w_db w') = db_escrows (w_db w) /\ w_memory w' = w_memory w /\ w_redis w' = w_redis w.

#[export] Instance off_escrow_preorder : PreOrder off_escrow.
Proof. unfold off_escrow. split; [done|]. intros ? ? ? (? & ? & ?) (? & ? & ?). split_and!; congruence. Qed.

Lemma off_escrow_cached env w w' key : off_escrow w w' -> cached env w' key = cached env w key.
Proof. intros (_ & Hm & Hr). unfold cached. by rewrite Hm, Hr. Qed.

Lemma off_escrow_inv env w w' : off_escrow w w' -> Inv env w -> Inv env w' /\ evolves w w'.
Proof.
  intros Hoff HI. split; [|by apply evolves_same, Hoff].
  eapply inv_frame; [exact HI|apply Hoff|]. intros id v. by rewrite (off_escrow_cached env w w').
Qed.

Lemma quiet_off_escrow w w' : quiet_step w w' -> off_escrow w w'.
Proof. intros []. split_and!; congruence. Qed.

Lemma sound_off_escrow {A} (m : Prog A) : every off_escrow m -> sound m.
Proof.
  intros Hm env w HE HI. unfold wp. apply off_escrow_inv; [|done].
  by apply every_run; [apply _|].
Qed.

Lemma sound_quiet {A} (m : Prog A) : every quiet_step m -> sound m.
Proof. intros Hm. apply sound_off_escrow. eapply every_mono; [|exact Hm]. apply quiet_off_escrow. Qed.

(** ** Sound on a known row

    The same, starting from a world where the row of [id], if there is one,
    satisfies [P]: what a guard on a freshly read record establishes. *)
Definition sound_when {A} (id : string) (P : PrismaEscrow -> Prop) (m : Prog A) : Prop :=
  forall env w, good_env env -> Inv env w ->
    (forall row, escrow_of w id = Some row -> P row) ->
    wp m env w (fun _ w' => Inv env w' /\ evolves w w').

Lemma sound_when_sound {A} id P (m : Prog A) : sound m -> sound_when id P m.
Proof. intros Hm env w HE HI _. by apply Hm. Qed.

Lemma sound_when_off {A B} id P (m : Prog A) (f : A -> Prog B) :
  every off_escrow m -> (forall a, sound_when id P (f a)) -> sound_when id P (bind m f).
Proof.
  intros Hm Hf env w HE HI HP. apply wp_bind. unfold wp at 1.
  pose proof (every_run _ m env w Hm) as Hoff.
  destruct (off_escrow_inv env _ _ Hoff HI) as [HI1 Hev].
  destruct (run m env w) as [[a|e] w1]; simpl in *; [|done].
  eapply wp_mono; [apply Hf; [done|done|]|].
  - destruct Hoff as [-> _]. done.
  - intros r w2 [? ?]. split; [done|by etrans].
Qed.

(** A row update along the machine, then a continuation that may rely on [P']. *)
Lemma sound_when_write {B} id (P P' : PrismaEscrow -> Prop) f (k : EscrowRecord -> Prog B) :
  good_update f ->
  (forall now row, P row -> rtc transition (e_state row) (e_state (f now row)) /\
     P' (set_updatedAt now (f now row))) ->
  (forall rec, sound_when id P' (k rec)) ->
  sound_when id P (bind (write_through id f) k).
Proof.
  intros Hf HPP Hk env w HE HI HP. apply wp_bind, wp_write_through; try done.
  - intros e w' HI' Hdb _ _. split; [done|]. apply evolves_same. by rewrite Hdb.
  - intros now row w' Hnow Hrow HI' _ row' Hdb. destruct (HPP now row (HP _ Hrow)) as [Ht HP'].
    destruct (Hf now row Hnow (inv_dates _ _ HI _ _ Hrow)) as [_ Hs].
    assert (Hev : evolves w w').
    { eapply evolves_replace; [exact Hrow| |by rewrite Hdb]. by split. }
    eapply wp_mono; [apply Hk; [done|done|]|].
    + intros row0. rewrite Hdb. simpl. rewrite lookup_insert_eq. by intros [= <-].
    + intros r w2 [? ?]. split; [done|by etrans].
Qed.

Lemma sound_when_write_ret id (P : PrismaEscrow -> Prop) f :
  good_update f -> (forall now row, P row -> rtc transition (e_state row) (e_state (f now row))) ->
  sound_when id P (write_through id f).
Proof.
  intros Hf HP env w HE HI HPw. apply wp_write_through; try done.
  - intros e w' HI' Hdb _ _. split; [done|]. apply evolves_same. by rewrite Hdb.
  - intros now row w' Hnow Hrow HI' _ row' Hdb. split; [done|].
    destruct (Hf now row Hnow (inv_dates _ _ HI _ _ Hrow)) as [_ Hs].
    eapply evolves_replace; [exact Hrow| |by rewrite Hdb]. split; [done|]. by apply HP, HPw.
Qed.

(** An update that keeps the state needs no guard. *)
Lemma sound_write f id :
  good_update f -> (forall now row, e_state (f now row) = e_state row) -> sound (write_through id f).
Proof.
  intros Hf Hst env w HE HI. apply (sound_when_write_ret id (fun _ => True)); try done.
  intros now row _. by rewrite Hst.
Qed.

(** Reading an escrow, then acting on the record. *)
Lemma sound_findById {B} id (k : option EscrowRecord -> Prog B) :
  (forall row, sound_when id (fun r => r = row) (k (Some (toEscrowRecord row)))) ->
  sound_when id (fun _ => False) (k None) ->
  sound (bind (findById id) k).
Proof.
  intros Hsome Hnone env w HE HI. apply wp_bind, wp_findById; [done|done|].
  intros r w1 HI1 Hdb _ Hf.
  assert (Hev : evolves w w1) by (apply evolves_same; by rewrite Hdb).
  destruct r as [[rec|]|e]; [| |done].
  - destruct Hf as (row & Hrow & ->). eapply wp_mono; [apply Hsome; [done|done|]|].
    + rewrite Hdb. congruence.
    + intros r w2 [? ?]. split; [done|by etrans].
  - eapply wp_mono; [apply Hnone; [done|done|]|].
    + rewrite Hdb. congruence.
    + intros r w2 [? ?]. split; [done|by etrans].
Qed.

(** Cache writes under keys other than those of escrows. *)
Lemma sound_cache_get key : sound (cache_get key).
Proof.
  intros env w HE HI. apply wp_cache_get; [done|]. intros o w' Hdb _ Hsub _.
  split; [|apply evolves_same; by rewrite Hdb].
  eapply inv_frame; [done|by rewrite Hdb|]. eauto.
Qed.

Lemma sound_cache_del key : sound (cache_del key).
Proof.
  intros env w HE HI. apply wp_cache_del; [done|]. intros w' Hdb _ Hsub.
  split; [|apply evolves_same; by rewrite Hdb].
  eapply inv_frame; [done|by rewrite Hdb|]. intros. by eapply Hsub.
Qed.

Lemma sound_cache_set key v ttl :
  (forall id, key <> cacheKey id) -> sound (cache_set key v ttl).
Proof.
  intros Hkey env w HE HI. apply wp_cache_set. intros w' Hdb _ Hsub.
  split; [|apply evolves_same; by rewrite Hdb].
  eapply inv_frame; [done|by rewrite Hdb|]. intros id v' Hv.
  destruct (Hsub _ _ Hv) as [?|[Hk _]]; [done|]. by destruct (Hkey id).
Qed.

(** ** Atoms off the escrow table *)

Lemma off_db_call {X} (f : Z -> string -> Db -> outcome X * Db) :
  (forall now u d, db_escrows (f now u d).2 = db_escrows d) ->
  every off_escrow (await (db_call f)).
Proof.
  intros Hf. apply every_await. intros env w.
  destruct (db_call_cases f env w) as [(e & _ & He)|He]; rewrite He; [done|].
  split; [apply Hf|done].
Qed.

Ltac off_atom :=
  first [ apply off_db_call; intros; simpl; repeat case_match; done
        | apply every_await; intros; done ].

(** A program of such atoms. *)
Ltac off_walk := walk_every ltac:(idtac; off_atom).
