(* ===== verification/EscrowSvc.v ===== *)
(** * EscrowService

    [src/escrow/escrow.service.ts], one definition per operation, over the
    repository, the cache, the notifications and a [ContractApi].  The
    [traced] wrappers of the code run their argument and are not repeated. *)
From S2P Require Import Prelude Records Dates Text Tables Crypto Effects Logistics Cache Prisma EscrowRepo Coherence Contract Lifecycle.
Local Open Scope prog_scope.

Module EscrowService.
Section operations.
Context {C : ContractApi}.

(** ** Reads *)

Definition findById (id : string) : Prog EscrowRecord :=
  catch
    (let* escrow := EscrowRepo.findById id in
     match escrow with
     | None => Raise (NotFoundException ("Escrow with ID " +:+ id +:+ " not found"))
     | Some escrow => Ret escrow
     end)
    (fun error =>
       match error with
       | NotFoundException _ => Raise error
       | _ => Raise (InternalServerErrorException "Failed to retrieve escrow")
       end).

Definition getEvents (id : string) : Prog (list EscrowEventEntry) := findEvents id.

Definition getTracking (id : string) : Prog cval :=
  let* escrow := findById id in
  match e_trackingId escrow with
  | None => Raise (NotFoundException "Tracking information not available")
  | Some trackingId =>
      if bool_decide (trackingId = "") then Raise (NotFoundException "Tracking information not available")
      else
        let key := "tracking:" +:+ trackingId in
        let* logistics := ask env_logistics in
        match logistics with
        | false => Raise (NotFoundException "Tracking service not available")
        | true =>
            let* cached := cache_get key in
            match cached with
            | Some v => Ret v
            | None =>
                catch
                  (let* details := Logistics.getStatus trackingId in
                   cache_set key (CTracking details) 60 ;;;
                   Ret (CTracking details))
                  (fun err => Raise (NotFoundException
                     ("Unable to fetch tracking details: " +:+ exn_message err)))
            end
        end
  end.

Record EscrowResponseDto : Type := mkPublic {
  pe_id : string; pe_itemName : string; pe_itemRef : string; pe_amount : number;
  pe_currency : string; pe_state : EscrowState; pe_trackingId : option string;
  pe_shippedAt : option Z; pe_createdAt : Z; pe_updatedAt : Z }.

Definition toPublicEscrow (escrow : EscrowRecord) : EscrowResponseDto :=
  mkPublic (e_id escrow) (e_itemName escrow) (e_itemRef escrow) (e_amount escrow)
    (e_currency escrow) (e_state escrow) (e_trackingId escrow) (e_shippedAt escrow)
    (e_createdAt escrow) (e_updatedAt escrow).

Record EscrowSummaryDto : Type := mkSummary {
  su_id : string; su_itemName : string; su_itemRef : string; su_amount : number;
  su_currency : string; su_state : EscrowState; su_trackingId : option string;
  su_createdAt : Z; su_updatedAt : Z }.

Definition toSummary (escrow : EscrowRecord) : EscrowSummaryDto :=
  mkSummary (e_id escrow) (e_itemName escrow) (e_itemRef escrow) (e_amount escrow)
    (e_currency escrow) (e_state escrow) (e_trackingId escrow) (e_createdAt escrow)
    (e_updatedAt escrow).

Definition getPublicEscrow (id : string) : Prog EscrowResponseDto :=
  let* escrow := findById id in
  Ret (toPublicEscrow escrow).

Record Viewer : Type := mkViewer { isBuyer : bool; isVendor : bool }.

Definition getEscrowForViewer (id : string) (callerAddress : option string)
    : Prog (EscrowResponseDto * option Viewer) :=
  let* escrow := findById id in
  let base := toPublicEscrow escrow in
  if truthy callerAddress
  then Ret (base, Some (mkViewer (bool_decide (Some (e_buyerAddress escrow) = callerAddress))
                                 (bool_decide (Some (e_vendorAddress escrow) = callerAddress))))
  else Ret (base, None).

Record VendorQuery : Type := mkVendorQuery {
  vq_state : option EscrowState; vq_sort : option SortField; vq_order : option SortOrder;
  vq_page : option Z; vq_limit : option Z }.

Record VendorPage : Type := mkVendorPage {
  vp_data : list EscrowSummaryDto; vp_total : Z; vp_page : Z; vp_limit : Z }.

Definition findVendorEscrows (vendorAddress : string) (query : VendorQuery) : Prog VendorPage :=
  let sort := coalesce (vq_sort query) sort_date in
  let order := coalesce (vq_order query) order_desc in
  let page := coalesce (vq_page query) 1%Z in
  let limit := coalesce (vq_limit query) 20%Z in
  let* result := EscrowRepo.findVendorEscrows vendorAddress (vq_state query) sort order page limit in
  Ret (mkVendorPage (toSummary <$> result.1) result.2 page limit).

Definition findIdByContractEscrowId (contractEscrowId : Z) : Prog (option string) :=
  EscrowRepo.findIdByContractEscrowId contractEscrowId.

(** ** URLs *)

Definition buildPaymentUrl (env : Env) (id : string) : string :=
  let frontendUrl := coalesce (env_config env "FRONTEND_URL") "http://localhost:3000" in
  stripTrailingSlashes frontendUrl +:+ "/pay/" +:+ encodeURIComponent id.

Definition buildEvidencePublicUrl (env : Env) (objectKey : string) : string :=
  let baseUrl := coalesce (env_config env "EVIDENCE_STORAGE_BASE_URL") "http://localhost:9000" in
  stripTrailingSlashes baseUrl +:+ "/" +:+ objectKey.

Definition PRESIGN_TTL_MS : Z := MILLISECONDS_PER_HOUR.

(** [S3PresignService.presign] at the current time. *)
Definition presign (env : Env) (now : Z) (url : string) : string :=
  let expiresAt := bigint_toString (now + PRESIGN_TTL_MS) in
  let sig := String.substring 0 16
    (env_hmac env (coalesce (env_config env "PRESIGN_SECRET") "") (url +:+ ":" +:+ expiresAt)) in
  url +:+ "?X-Expires=" +:+ expiresAt +:+ "&X-Signature=" +:+ sig.

Definition EVIDENCE_FILE_EXTENSIONS : list string := ["jpg"; "jpeg"; "png"; "webp"; "gif"; "pdf"].

Record EvidenceUploadResponseDto : Type := mkEvidence {
  eu_uploadUrl : string; eu_publicUrl : string; eu_expiresAt : string;
  eu_expiresInSeconds : Z; eu_fileName : string; eu_storagePath : string }.

Definition evidence_ext (fileName : string) : string :=
  let candidate := toLowerCase (coalesce (extension fileName) "") in
  if bool_decide (candidate ∈ EVIDENCE_FILE_EXTENSIONS) then candidate else "bin".

Definition generateEvidenceUploadUrl (callerAddress fileName : string)
    : Prog EvidenceUploadResponseDto :=
  await (fun env w =>
    let now := env_now env (w_tick w) in
    let storagePath := "evidence/" +:+ callerAddress +:+ "/" in
    let objectKey := storagePath +:+ env_uuid env (w_tick w) +:+ "." +:+ evidence_ext fileName in
    let publicUrl := buildEvidencePublicUrl env objectKey in
    (Ok (mkEvidence (presign env now publicUrl) publicUrl
           (toISOString (now + ONE_HOUR_SECONDS * 1000)) ONE_HOUR_SECONDS fileName storagePath),
     tick w)).

(** ** Creation *)

Definition VENDOR_PROFILE_PLACEHOLDER_DESCRIPTION : string := "[placeholder]".

Definition ensureVendorProfile (vendorAddress : string) : Prog unit :=
  let* prisma := ask env_prisma in
  if prisma then
    await (vendor_upsert vendorAddress (fun now =>
      mkVendor vendorAddress vendorAddress None None
        (Some VENDOR_PROFILE_PLACEHOLDER_DESCRIPTION) now now)) ;;;
    Ret tt
  else Ret tt.

Definition createEscrow (dto : CreateEscrowDto) (vendorAddress : string)
    : Prog (WithPaymentUrl EscrowRecord) :=
  if number_le_0 (dto_amount dto) then Raise (BadRequestException "Amount must be positive")
  else if bool_decide (dto_buyerAddress dto = vendorAddress) then
    Raise (BadRequestException "buyerAddress must be different from the vendor address")
  else
    let* existing := findByVendorAndItem vendorAddress (dto_itemRef dto) in
    match existing with
    | Some _ => Raise (ConflictException "Duplicate escrow for this item reference")
    | None =>
        ensureVendorProfile vendorAddress ;;;
        let* escrow := create dto vendorAddress in
        let* url := ask (fun env => buildPaymentUrl env (e_id escrow)) in
        Ret (mkWithUrl escrow url)
    end.

(** The DTO as the JSON value that is hashed. *)
Definition dto_json (dto : CreateEscrowDto) : json :=
  JObj [("itemName", Some (JStr (dto_itemName dto))); ("itemRef", Some (JStr (dto_itemRef dto)));
        ("amount", Some (JNum (dto_amount dto))); ("currency", Some (JStr (dto_currency dto)));
        ("buyerAddress", Some (JStr (dto_buyerAddress dto)))].

Definition hashRequestBody (env : Env) (dto : CreateEscrowDto) : string :=
  env_sha256 env (stableStringify (env_numberToString env) (dto_json dto)).

Definition idempotencyKey (vendorAddress key : string) : string :=
  "idempotency:" +:+ vendorAddress +:+ ":" +:+ key.

Definition KEY_REUSED : exn := UnprocessableEntityException
  "Idempotency-Key has already been used with a different request body".

(** The cached result is returned as it is: after a Redis round trip its
    dates and contract id are strings. *)
Definition createIdempotent (key : string) (dto : CreateEscrowDto) (vendorAddress : string)
    : Prog (WithPaymentUrl EscrowRecord + WithPaymentUrl EscrowJson) :=
  let cacheKey := idempotencyKey vendorAddress key in
  let* requestHash := ask (fun env => hashRequestBody env dto) in
  let create_and_store :=
    let* result := createEscrow dto vendorAddress in
    cache_set cacheKey (CIdempotent requestHash result) SECONDS_PER_DAY ;;;
    Ret (inl result) in
  let reuse {E} (hash : string) (result : E) : Prog E :=
    if bool_decide (hash = requestHash) then Ret result
    else Raise KEY_REUSED in
  let* cached := cache_get cacheKey in
  match cached with
  | Some (CIdempotent hash result) => reuse hash (inl result)
  | Some (CIdempotentJson hash result) => reuse hash (inr result)
  | Some _ => Raise KEY_REUSED
  | None => create_and_store
  end.

(** ** Cancellation *)

Definition may_cancel (isAdmin : bool) (escrow : EscrowRecord) (callerAddress : string) : bool :=
  isAdmin || bool_decide (e_vendorAddress escrow = callerAddress) ||
  bool_decide (e_buyerAddress escrow = callerAddress).

Definition CANCEL_FORBIDDEN : exn :=
  ForbiddenException "Only the vendor, buyer, or admin can cancel this escrow".

Definition cancelEscrow (escrowId callerAddress : string) (isAdmin : bool) : Prog EscrowRecord :=
  let* escrow := findById escrowId in
  if negb (may_cancel isAdmin escrow callerAddress) then Raise CANCEL_FORBIDDEN
  else if negb (bool_decide (e_state escrow = FUNDED)) then
    Raise (ConflictException ("Cannot cancel escrow in " +:+ EscrowState_str (e_state escrow) +:+
      " state. Only FUNDED escrows can be cancelled."))
  else markCancelled escrowId.

Definition cancelPendingEscrow (escrowId callerAddress : string) (isAdmin : bool) : Prog EscrowRecord :=
  let* escrow := findById escrowId in
  if negb (may_cancel isAdmin escrow callerAddress) then Raise CANCEL_FORBIDDEN
  else if negb (bool_decide (e_state escrow = CREATED)) then
    Raise (ConflictException ("Cannot cancel escrow in " +:+ EscrowState_str (e_state escrow) +:+
      " state. Only CREATED (pending) escrows can be cancelled."))
  else
    match e_contractEscrowId escrow with
    | None => markCancelled escrowId
    | Some contractEscrowId =>
        let* chainState := getEscrowState contractEscrowId in
        if cs_exists chainState && bool_decide (cs_state chainState = "FUNDED") then
          cancelEscrowOnChain contractEscrowId callerAddress ;;;
          markCancelled escrowId
        else if cs_exists chainState && negb (bool_decide (cs_state chainState = "CREATED")) then
          Raise (ConflictException ("On-chain escrow is in " +:+ cs_state chainState +:+
            " state and cannot be cancelled."))
        else markCancelled escrowId
    end.

(** ** Shipment and buyer contact *)

(** The [catch] of the code logs and rethrows. *)
Definition handleShipment (escrowId vendorAddress trackingId : string) (isAdmin : bool)
    : Prog EscrowRecord :=
  if bool_decide (trim trackingId = "") then
    Raise (BadRequestException "Tracking ID is required and cannot be empty")
  else if Nat.ltb (js_length (trim trackingId)) 3 then
    Raise (BadRequestException "Tracking ID must be at least 3 characters long")
  else
    let* escrow := findById escrowId in
    if negb isAdmin && negb (bool_decide (e_vendorAddress escrow = vendorAddress)) then
      Raise (ForbiddenException "Only the escrow vendor or admin can ship this order")
    else if negb (bool_decide (e_state escrow = FUNDED)) then
      Raise (ConflictException ("Cannot ship escrow in " +:+ EscrowState_str (e_state escrow) +:+
        " state. Escrow must be in FUNDED state."))
    else if truthy (e_trackingId escrow) then
      Raise (ConflictException ("Escrow already shipped with tracking ID: " +:+
        coalesce (e_trackingId escrow) ""))
    else
      let* shipped := markShipped (e_id escrow) (trim trackingId) in
      cache_del ("tracking:" +:+ trim trackingId) ;;;
      notify NShipped shipped ;;;
      Ret shipped.

Definition isContactEncryptionConfigured (env : Env) : bool :=
  truthy (env_config env "CONTACT_ENCRYPTION_KEY") &&
  Nat.eqb (length (hex_bytes (coalesce (env_config env "CONTACT_ENCRYPTION_KEY") ""))) 32.

Record UpdateBuyerContactDto : Type := mkContactDto {
  bc_email : option string; bc_phone : option string }.

(** [value ? encryptContact(value) : null]. *)
Definition encrypt_opt (o : option string) : Prog (option string) :=
  if truthy o then
    await (fun env w =>
      (match encryptContact (env_providers env) (env_config env "CONTACT_ENCRYPTION_KEY") (w_tick w) (coalesce o "") with
       | Ok s => Ok (Some s)
       | Throw e => Throw e
       end, tick w))
  else Ret None.

Definition updateBuyerContact (escrowId : string) (dto : UpdateBuyerContactDto) : Prog string :=
  let* escrow := findById escrowId in
  if TERMINAL_STATES (e_state escrow) then
    Raise (ConflictException ("Cannot update buyer contact for an escrow in " +:+
      EscrowState_str (e_state escrow) +:+ " state."))
  else
    let* configured := ask isContactEncryptionConfigured in
    if negb configured then
      Raise (ServiceUnavailableException "Buyer contact encryption is not configured.")
    else
      let* encryptedEmail := encrypt_opt (bc_email dto) in
      let* encryptedPhone := encrypt_opt (bc_phone dto) in
      saveBuyerContact escrowId encryptedEmail encryptedPhone ;;;
      Ret "Buyer contact information saved.".

(** ** On-chain events *)

Inductive EventKind : Type :=
| EscrowFunded | EscrowShipped | EscrowCompleted | EscrowCancelled | DisputeRaised
| DisputeResolved | AutoReleased | EscrowAutoCancelled | EscrowExpired | RefundApproved.

#[global] Instance EventKind_eq_dec : EqDecision EventKind.
Proof. solve_decision. Defined.

(** The labels of the [switch]; two of them share a branch. *)
Definition event_kind (eventType : string) : option EventKind :=
  if bool_decide (eventType = "EscrowFunded") then Some EscrowFunded
  else if bool_decide (eventType = "EscrowShipped") then Some EscrowShipped
  else if bool_decide (eventType = "EscrowCompleted") then Some EscrowCompleted
  else if bool_decide (eventType = "EscrowCancelled") || bool_decide (eventType = "EscrowCanceled")
  then Some EscrowCancelled
  else if bool_decide (eventType = "DisputeRaised") then Some DisputeRaised
  else if bool_decide (eventType = "DisputeResolved") then Some DisputeResolved
  else if bool_decide (eventType = "AutoReleased") then Some AutoReleased
  else if bool_decide (eventType = "EscrowAutoCancelled") then Some EscrowAutoCancelled
  else if bool_decide (eventType = "EscrowExpired") then Some EscrowExpired
  else if bool_decide (eventType = "RefundApproved") then Some RefundApproved
  else None.

Record SorobanChainEvent : Type := mkChainEvent {
  ce_eventType : string; ce_escrowId : string; ce_trackingId : option string;
  ce_txHash : option string; ce_reason : option string; ce_resolution : option Resolution }.

Record SyncResult : Type := mkSync { sr_skipped : bool; sr_reason : option string }.

Definition skip (reason : string) : Prog SyncResult := Ret (mkSync true (Some reason)).
Definition done_ : Prog SyncResult := Ret (mkSync false None).

Definition sync_dispute_raised (escrowId reason : string) : Prog unit :=
  let* prisma := ask env_prisma in
  if prisma then
    await (dispute_create (fun now uuid =>
      mkDispute uuid escrowId reason "" [] OPEN None now now)) ;;;
    Ret tt
  else Ret tt.

Definition resolve_row (now : Z) (d : DisputeRecord) : DisputeRecord :=
  mkDispute (d_id d) (d_escrowId d) (d_reason d) (d_description d) (d_evidenceUrls d)
    RESOLVED (Some now) (d_createdAt d) now.

(** [true] when the dispute row already was [RESOLVED]. *)
Definition sync_dispute_resolved (escrowId : string) : Prog bool :=
  let* prisma := ask env_prisma in
  if prisma then
    let* dispute := await (dispute_findFirst (fun d => bool_decide (d_escrowId d = escrowId))) in
    match dispute with
    | None => Ret false
    | Some dispute =>
        if bool_decide (d_status dispute = RESOLVED) then Ret true
        else await (dispute_update (d_id dispute) resolve_row) ;;; Ret false
    end
  else Ret false.

Definition sync_escrow (event : SorobanChainEvent) (kind : EventKind) (escrow : EscrowRecord)
    : Prog SyncResult :=
  let escrowId := ce_escrowId event in
  let state := e_state escrow in
  match kind with
  | EscrowFunded =>
      if negb (bool_decide (state = CREATED)) then skip "already_funded_or_terminal"
      else
        let* funded := updateState escrowId FUNDED in
        notify NFunded funded ;;; done_
  | EscrowShipped =>
      if negb (bool_decide (state = CREATED)) && negb (bool_decide (state = FUNDED))
      then skip "already_shipped_or_terminal"
      else
        let trackingId := coalesce (ce_trackingId event) (coalesce (e_trackingId escrow) "") in
        let* shipped := markShipped escrowId trackingId in
        notify NShipped shipped ;;; done_
  | EscrowCompleted =>
      if bool_decide (state = COMPLETED) || TERMINAL_STATES state
      then skip "already_completed_or_terminal"
      else
        let* completed := markCompleted escrowId in
        notify NCompleted completed ;;; done_
  | EscrowCancelled | EscrowAutoCancelled =>
      if bool_decide (state = CANCELLED) || TERMINAL_STATES state
      then skip "already_cancelled_or_terminal"
      else markCancelled escrowId ;;; done_
  | DisputeRaised =>
      if bool_decide (state = DISPUTED) then skip "already_disputed"
      else if TERMINAL_STATES state then skip "terminal_state"
      else
        sync_dispute_raised escrowId (coalesce (ce_reason event) "on-chain dispute") ;;;
        let* disputed := updateState escrowId DISPUTED in
        notify NDisputed disputed ;;; done_
  | DisputeResolved =>
      if TERMINAL_STATES state then skip "terminal_state"
      else
        let* already := sync_dispute_resolved escrowId in
        if already then skip "dispute_already_resolved"
        else if bool_decide (ce_resolution event = Some REFUND) then
          let* refunded := markRefunded escrowId in
          notify NRefunded refunded ;;; done_
        else
          let* resolved := markCompleted escrowId in
          notify NCompleted resolved ;;; done_
  | AutoReleased =>
      if bool_decide (state = RELEASED) then skip "already_released"
      else if TERMINAL_STATES state then skip "terminal_state"
      else
        let txHash := or_str (ce_txHash event) (or_str (e_autoReleaseTxHash escrow) "") in
        let* released := markAutoReleased escrowId txHash in
        notify NCompleted released ;;; done_
  | EscrowExpired | RefundApproved =>
      if bool_decide (state = REFUNDED) || TERMINAL_STATES state
      then skip "already_refunded_or_terminal"
      else
        let* refunded := markRefunded escrowId in
        notify NRefunded refunded ;;; done_
  end.

Definition syncStateFromChain (event : SorobanChainEvent) : Prog SyncResult :=
  let* escrow := EscrowRepo.findById (ce_escrowId event) in
  match escrow with
  | None => skip "escrow_not_found"
  | Some escrow =>
      match event_kind (ce_eventType event) with
      | None => skip "unknown_event_type"
      | Some kind => sync_escrow event kind escrow
      end
  end.

End operations.
End EscrowService.
