(* ===== verification/Vendor.v ===== *)
(** * Vendors

    [src/src/vendor]: vendor profiles, notification preferences and account
    details, with their repositories.  A field of a partial update is
    [Undefined] when the request leaves it out and [Null] when it is [null];
    Prisma refuses [null] for a required column before it runs the query. *)
From Stdlib Require Import Ascii.
From S2P Require Import Prelude Records Dates Text Tables Crypto Effects Cache Prisma EscrowRepo Coherence Contract Lifecycle EscrowSvc.
Local Open Scope prog_scope.

Inductive field (A : Type) : Type := Undefined | Null | Val (a : A).
Arguments Undefined {A}. Arguments Null {A}. Arguments Val {A} a.

Definition is_null {A} (f : field A) : bool := match f with Null => true | _ => false end.
Definition is_undefined {A} (f : field A) : bool := match f with Undefined => true | _ => false end.

(** [f ?? d]. *)
Definition or_default {A} (f : field A) (d : A) : A := match f with Val a => a | _ => d end.
Definition or_null {A} (f : field A) : option A := match f with Val a => Some a | _ => None end.

(** The value of a column after an update with the field. *)
Definition set_req {A} (f : field A) (old : A) : A := match f with Val a => a | _ => old end.
Definition set_null {A} (f : field A) (old : option A) : option A :=
  match f with Val a => Some a | Null => None | Undefined => old end.

Definition INVALID_NULL : exn := JsError "Argument must not be null".

(** ** Database calls *)

Definition vendor_findUnique (address : string) : Action (option VendorProfileRecord) :=
  db_call (fun _ _ d => (Ok (db_vendors d !! address), d)).

Definition vendor_create (mk : Z -> VendorProfileRecord) : Action VendorProfileRecord :=
  db_call (fun now _ d =>
    let row := mk now in
    if bool_decide (is_Some (db_vendors d !! v_address row)) then (Throw (PrismaError "P2002"), d)
    else (Ok row, set_vendors (<[v_address row := row]> (db_vendors d)) d)).

Definition vendor_save (address : string) (mk : Z -> VendorProfileRecord)
    (f : Z -> VendorProfileRecord -> VendorProfileRecord) : Action VendorProfileRecord :=
  db_call (fun now _ d =>
    let row := match db_vendors d !! address with Some v => f now v | None => mk now end in
    (Ok row, set_vendors (<[address := row]> (db_vendors d)) d)).

Definition vendor_update (address : string) (f : Z -> VendorProfileRecord -> VendorProfileRecord)
    : Action VendorProfileRecord :=
  db_call (fun now _ d =>
    match db_vendors d !! address with
    | None => (Throw (PrismaError "P2025"), d)
    | Some v => (Ok (f now v), set_vendors (<[address := f now v]> (db_vendors d)) d)
    end).

Definition set_account_settings m (d : Db) : Db := set_accounts (set_settings m (db_accounts d)) d.
Definition set_account_details m (d : Db) : Db := set_accounts (set_details m (db_accounts d)) d.

Definition settings_findUnique (vendor : string) : Action (option VendorTrackingSettingsRecord) :=
  db_call (fun _ _ d => (Ok (ac_settings (db_accounts d) !! vendor), d)).

(** [upsert]: a new row references a vendor profile. *)
Definition settings_upsert (vendor : string) (mk : Z -> string -> VendorTrackingSettingsRecord)
    (f : Z -> VendorTrackingSettingsRecord -> VendorTrackingSettingsRecord) : Action VendorTrackingSettingsRecord :=
  db_call (fun now cuid d =>
    let m := ac_settings (db_accounts d) in
    match m !! vendor with
    | Some s => (Ok (f now s), set_account_settings (<[vendor := f now s]> m) d)
    | None =>
        if bool_decide (is_Some (db_vendors d !! vendor))
        then (Ok (mk now cuid), set_account_settings (<[vendor := mk now cuid]> m) d)
        else (Throw (PrismaError "P2003"), d)
    end).

Definition details_findUnique (vendor : string) : Action (option VendorAccountDetailsRecord) :=
  db_call (fun _ _ d => (Ok (ac_details (db_accounts d) !! vendor), d)).

Definition details_upsert (vendor : string) (mk : Z -> string -> VendorAccountDetailsRecord)
    (f : Z -> VendorAccountDetailsRecord -> VendorAccountDetailsRecord) : Action VendorAccountDetailsRecord :=
  db_call (fun now cuid d =>
    let m := ac_details (db_accounts d) in
    match m !! vendor with
    | Some r => (Ok (f now r), set_account_details (<[vendor := f now r]> m) d)
    | None =>
        if bool_decide (is_Some (db_vendors d !! vendor))
        then (Ok (mk now cuid), set_account_details (<[vendor := mk now cuid]> m) d)
        else (Throw (PrismaError "P2003"), d)
    end).

(** ** Profiles *)

Definition DEFAULT_NOTIFICATION_CHANNELS : list string := ["EMAIL"].

Record CreateVendorProfileDto : Type := mkProfileDto {
  vp_businessName : string;
  vp_email : option string;
  vp_phone : option string;
  vp_description : option string
}.

Record UpdateVendorProfileDto : Type := mkProfilePatch {
  vu_businessName : field string;
  vu_email : field string;
  vu_phone : field string;
  vu_description : field string
}.

Record UpdateNotificationPreferencesDto : Type := mkPreferencesDto {
  up_notifyOnDelivery : field bool;
  up_notifyOnDelay : field bool;
  up_notifyOnException : field bool;
  up_notificationChannels : field (list string);
  up_webhookUrl : field string;
  up_webhookSecret : field string
}.

Record NotificationPreferences : Type := mkPreferences {
  np_notifyOnDelivery : bool;
  np_notifyOnDelay : bool;
  np_notifyOnException : bool;
  np_notificationChannels : list string;
  np_webhookUrl : option string;
  np_enableTracking : bool;
  np_delayThresholdHours : Z;
  np_deliveryConfirmation : bool;
  np_trackingHistoryRetentionDays : Z
}.

Module VendorProfileRepository.

Definition new_profile (address : string) (dto : CreateVendorProfileDto) (now : Z) : VendorProfileRecord :=
  mkVendor address (vp_businessName dto) (vp_email dto) (vp_phone dto) (vp_description dto) now now.

Definition create (address : string) (dto : CreateVendorProfileDto) : Prog VendorProfileRecord :=
  await (vendor_create (new_profile address dto)).

Definition findByAddress (address : string) : Prog (option VendorProfileRecord) :=
  await (vendor_findUnique address).

Definition upsert (address : string) (dto : CreateVendorProfileDto) : Prog VendorProfileRecord :=
  await (vendor_save address (new_profile address dto)
    (fun now v => mkVendor (v_address v) (vp_businessName dto) (vp_email dto) (vp_phone dto)
      (vp_description dto) (v_createdAt v) now)).

Definition patch_profile (dto : UpdateVendorProfileDto) (now : Z) (v : VendorProfileRecord) : VendorProfileRecord :=
  mkVendor (v_address v) (set_req (vu_businessName dto) (v_businessName v)) (set_null (vu_email dto) (v_email v))
    (set_null (vu_phone dto) (v_phone v)) (set_null (vu_description dto) (v_description v)) (v_createdAt v) now.

Definition update (address : string) (dto : UpdateVendorProfileDto) : Prog VendorProfileRecord :=
  if is_null (vu_businessName dto) then Raise INVALID_NULL
  else await (vendor_update address (patch_profile dto)).

(** The columns the [create] branch leaves out take the defaults of the schema. *)
Definition new_settings (address : string) (dto : UpdateNotificationPreferencesDto) (now : Z) (cuid : string)
    : VendorTrackingSettingsRecord :=
  mkSettings cuid address true None None false 3600 (or_default (up_notifyOnDelivery dto) true)
    (or_default (up_notifyOnDelay dto) true) (or_default (up_notifyOnException dto) true) 24 true false false
    None None (or_null (up_webhookUrl dto)) (or_null (up_webhookSecret dto))
    (or_default (up_notificationChannels dto) DEFAULT_NOTIFICATION_CHANNELS) 90 now now.

Definition patch_settings (dto : UpdateNotificationPreferencesDto) (now : Z) (s : VendorTrackingSettingsRecord)
    : VendorTrackingSettingsRecord :=
  mkSettings (ts_id s) (ts_vendorAddress s) (ts_enableTracking s) (ts_trackingProvider s) (ts_trackingApiKey s)
    (ts_autoUpdateTracking s) (ts_trackingUpdateInterval s)
    (set_req (up_notifyOnDelivery dto) (ts_notifyOnDelivery s)) (set_req (up_notifyOnDelay dto) (ts_notifyOnDelay s))
    (set_req (up_notifyOnException dto) (ts_notifyOnException s)) (ts_delayThresholdHours s)
    (ts_deliveryConfirmation s) (ts_requireSignature s) (ts_insuranceRequired s) (ts_insuranceValue s)
    (ts_customTrackingRules s) (set_null (up_webhookUrl dto) (ts_webhookUrl s))
    (set_null (up_webhookSecret dto) (ts_webhookSecret s))
    (set_req (up_notificationChannels dto) (ts_notificationChannels s)) (ts_trackingHistoryRetentionDays s)
    (ts_createdAt s) now.

Definition preferences_invalid (dto : UpdateNotificationPreferencesDto) : bool :=
  is_null (up_notifyOnDelivery dto) || is_null (up_notifyOnDelay dto) ||
  is_null (up_notifyOnException dto) || is_null (up_notificationChannels dto).

Definition updateNotificationPreferences (address : string) (dto : UpdateNotificationPreferencesDto)
    : Prog VendorTrackingSettingsRecord :=
  if preferences_invalid dto then Raise INVALID_NULL
  else await (settings_upsert address (new_settings address dto) (patch_settings dto)).

Definition preferences_of (s : option VendorTrackingSettingsRecord) : NotificationPreferences :=
  mkPreferences (coalesce (ts_notifyOnDelivery <$> s) true) (coalesce (ts_notifyOnDelay <$> s) true)
    (coalesce (ts_notifyOnException <$> s) true)
    (coalesce (ts_notificationChannels <$> s) DEFAULT_NOTIFICATION_CHANNELS)
    (s ≫= ts_webhookUrl) (coalesce (ts_enableTracking <$> s) true) (coalesce (ts_delayThresholdHours <$> s) 24%Z)
    (coalesce (ts_deliveryConfirmation <$> s) true) (coalesce (ts_trackingHistoryRetentionDays <$> s) 90%Z).

Definition findNotificationPreferences (address : string) : Prog NotificationPreferences :=
  let* settings := await (settings_findUnique address) in
  Ret (preferences_of settings).

End VendorProfileRepository.

Module VendorProfileService.
Import VendorProfileRepository.

Definition PLACEHOLDER : string := EscrowService.VENDOR_PROFILE_PLACEHOLDER_DESCRIPTION.

Definition is_placeholder (address : string) (v : VendorProfileRecord) : bool :=
  bool_decide (v_description v = Some PLACEHOLDER) ||
  (bool_decide (v_businessName v = address) && bool_decide (v_description v = None)).

Definition createProfile (address : string) (dto : CreateVendorProfileDto) : Prog VendorProfileRecord :=
  let* existing := findByAddress address in
  match existing with
  | Some v =>
      if is_placeholder address v then upsert address dto
      else Raise (ConflictException "Vendor profile already exists")
  | None => create address dto
  end.

Definition upsertProfile (address : string) (dto : CreateVendorProfileDto) : Prog VendorProfileRecord :=
  upsert address dto.

Definition hide_placeholder (v : VendorProfileRecord) : VendorProfileRecord :=
  if bool_decide (v_description v = Some PLACEHOLDER)
  then mkVendor (v_address v) (v_businessName v) (v_email v) (v_phone v) None (v_createdAt v) (v_updatedAt v)
  else v.

Definition getProfile (address : string) : Prog VendorProfileRecord :=
  let* profile := findByAddress address in
  match profile with
  | None => Raise (NotFoundException "Vendor profile not found")
  | Some v => Ret (hide_placeholder v)
  end.

Definition updateProfile (address : string) (dto : UpdateVendorProfileDto) : Prog VendorProfileRecord :=
  if is_undefined (vu_businessName dto) && is_undefined (vu_email dto) && is_undefined (vu_phone dto) &&
     is_undefined (vu_description dto)
  then Raise (BadRequestException "No update fields provided")
  else
    let* existing := findByAddress address in
    match existing with
    | None => Raise (NotFoundException "Vendor profile not found")
    | Some _ => update address dto
    end.

Definition preferences_empty (dto : UpdateNotificationPreferencesDto) : bool :=
  is_undefined (up_notifyOnDelivery dto) && is_undefined (up_notifyOnDelay dto) &&
  is_undefined (up_notifyOnException dto) && is_undefined (up_notificationChannels dto) &&
  is_undefined (up_webhookUrl dto) && is_undefined (up_webhookSecret dto).

Definition updateNotificationPreferences (address : string) (dto : UpdateNotificationPreferencesDto)
    : Prog VendorTrackingSettingsRecord :=
  if preferences_empty dto then Raise (BadRequestException "No notification preference fields provided")
  else
    let* existing := findByAddress address in
    match existing with
    | None => Raise (NotFoundException "Vendor profile not found")
    | Some _ => VendorProfileRepository.updateNotificationPreferences address dto
    end.

Definition getNotificationPreferences (address : string) : Prog NotificationPreferences :=
  findNotificationPreferences address.

End VendorProfileService.

(** ** Account details *)

(** The columns a request may set; [customFields] only from other callers of
    the repository. *)
Record AccountDetailsPatch : Type := mkDetailsPatch {
  ap_businessLicense : field string;
  ap_taxId : field string;
  ap_bankAccountNumber : field string;
  ap_bankRoutingNumber : field string;
  ap_paymentMethods : field (list string);
  ap_preferredCurrency : field string;
  ap_billingAddress : field string;
  ap_billingCity : field string;
  ap_billingState : field string;
  ap_billingCountry : field string;
  ap_billingPostalCode : field string;
  ap_shippingAddress : field string;
  ap_shippingCity : field string;
  ap_shippingState : field string;
  ap_shippingCountry : field string;
  ap_shippingPostalCode : field string;
  ap_websiteUrl : field string;
  ap_socialMediaLinks : field (list string);
  ap_businessHours : field string;
  ap_timezone : field string;
  ap_language : field string;
  ap_complianceNotes : field string;
  ap_customFields : field json
}.

Definition patch_details (p : AccountDetailsPatch) (now : Z) (r : VendorAccountDetailsRecord) : VendorAccountDetailsRecord :=
  mkDetails (ad_id r) (ad_vendorAddress r)
    (set_null (ap_businessLicense p) (ad_businessLicense r)) (set_null (ap_taxId p) (ad_taxId r))
    (set_null (ap_bankAccountNumber p) (ad_bankAccountNumber r))
    (set_null (ap_bankRoutingNumber p) (ad_bankRoutingNumber r))
    (set_req (ap_paymentMethods p) (ad_paymentMethods r))
    (set_req (ap_preferredCurrency p) (ad_preferredCurrency r))
    (set_null (ap_billingAddress p) (ad_billingAddress r)) (set_null (ap_billingCity p) (ad_billingCity r))
    (set_null (ap_billingState p) (ad_billingState r)) (set_null (ap_billingCountry p) (ad_billingCountry r))
    (set_null (ap_billingPostalCode p) (ad_billingPostalCode r))
    (set_null (ap_shippingAddress p) (ad_shippingAddress r))
    (set_null (ap_shippingCity p) (ad_shippingCity r)) (set_null (ap_shippingState p) (ad_shippingState r))
    (set_null (ap_shippingCountry p) (ad_shippingCountry r))
    (set_null (ap_shippingPostalCode p) (ad_shippingPostalCode r))
    (set_null (ap_websiteUrl p) (ad_websiteUrl r)) (set_req (ap_socialMediaLinks p) (ad_socialMediaLinks r))
    (set_null (ap_businessHours p) (ad_businessHours r)) (set_req (ap_timezone p) (ad_timezone r))
    (set_req (ap_language p) (ad_language r))
    (ad_verificationStatus r) (ad_verifiedAt r) (ad_kycStatus r) (ad_kycCompletedAt r) (ad_riskScore r)
    (set_null (ap_complianceNotes p) (ad_complianceNotes r)) (set_null (ap_customFields p) (ad_customFields r))
    (ad_createdAt r) now.

Definition details_invalid (p : AccountDetailsPatch) : bool :=
  is_null (ap_paymentMethods p) ||
  is_null (ap_preferredCurrency p) ||
  is_null (ap_socialMediaLinks p) ||
  is_null (ap_timezone p) ||
  is_null (ap_language p).

Module VendorAccountDetails.

(** A new row: the defaults of the schema, then the given columns. *)
Definition new_details (vendorAddress : string) (p : AccountDetailsPatch) (now : Z) (cuid : string)
    : VendorAccountDetailsRecord :=
  patch_details p now (mkDetails cuid vendorAddress None None None None [] "USD" None None None None None None
    None None None None None [] None "UTC" "en" "PENDING" None "NOT_STARTED" None 0 None None now now).

Definition findByVendorAddress (vendorAddress : string) : Prog (option VendorAccountDetailsRecord) :=
  await (details_findUnique vendorAddress).

Definition upsert (vendorAddress : string) (p : AccountDetailsPatch) : Prog VendorAccountDetailsRecord :=
  if details_invalid p then Raise INVALID_NULL
  else await (details_upsert vendorAddress (new_details vendorAddress p) (patch_details p)).

Definition getDetails (vendorAddress : string) : Prog (option VendorAccountDetailsRecord) :=
  findByVendorAddress vendorAddress.

Definition getDetailsOrThrow (vendorAddress : string) : Prog VendorAccountDetailsRecord :=
  let* details := findByVendorAddress vendorAddress in
  match details with
  | None => Raise (NotFoundException "Vendor account details not found")
  | Some r => Ret r
  end.

Definition upsertDetails (vendorAddress : string) (dto : AccountDetailsPatch) : Prog VendorAccountDetailsRecord :=
  upsert vendorAddress dto.

(** [maskSensitiveField]. *)
Fixpoint stars (n : nat) : string := match n with O => "" | S n => String "*" (stars n) end.

Definition last_chars (n : nat) (s : string) : string :=
  String.substring (String.length s - n) n s.

Definition maskSensitiveField (value : option string) : option string :=
  match value with
  | Some s =>
      if bool_decide (s = "") then None
      else if Nat.leb (String.length s) 4 then Some "****"
      else Some (stars (String.length s - 4) +:+ last_chars 4 s)
  | None => None
  end.

(** The masked view of a record. *)
Definition fromRecord (r : VendorAccountDetailsRecord) : VendorAccountDetailsRecord :=
  mkDetails (ad_id r) (ad_vendorAddress r) (ad_businessLicense r) (maskSensitiveField (ad_taxId r))
    (maskSensitiveField (ad_bankAccountNumber r)) (ad_bankRoutingNumber r) (ad_paymentMethods r)
    (ad_preferredCurrency r) (ad_billingAddress r) (ad_billingCity r) (ad_billingState r) (ad_billingCountry r)
    (ad_billingPostalCode r) (ad_shippingAddress r) (ad_shippingCity r) (ad_shippingState r)
    (ad_shippingCountry r) (ad_shippingPostalCode r) (ad_websiteUrl r) (ad_socialMediaLinks r)
    (ad_businessHours r) (ad_timezone r) (ad_language r) (ad_verificationStatus r) (ad_verifiedAt r)
    (ad_kycStatus r) (ad_kycCompletedAt r) (ad_riskScore r) (ad_complianceNotes r) (ad_customFields r)
    (ad_createdAt r) (ad_updatedAt r).

(** The two endpoints of the controller. *)
Definition get (address : string) : Prog (option VendorAccountDetailsRecord) :=
  let* details := getDetails address in
  Ret (fromRecord <$> details).

Definition update (address : string) (dto : AccountDetailsPatch) : Prog VendorAccountDetailsRecord :=
  let* details := upsertDetails address dto in
  Ret (fromRecord details).

End VendorAccountDetails.
