(* ===== verification/Notify.v ===== *)
(** * Notifications

    [src/src/notifications/notifications.service.ts] and
    [notification.repository.ts]: who is notified over which channel, the
    retry loop around a provider call, and the row that records it.  SendGrid
    and Twilio are parameters; every request handed to one is logged in
    [sd_calls], every wait between attempts in [sd_sleeps].  [ConfigService] is
    injected; the writer is [NotificationRepository]. *)
From S2P Require Import Prelude Records Dates Text Tables Crypto Effects Cache Prisma EscrowRepo Coherence Contract Lifecycle EscrowSvc Vendor.
Local Open Scope prog_scope.

Definition type_str (t : NotificationType) : string :=
  match t with
  | NFunded => "FUNDED" | NShipped => "SHIPPED" | NDelivered => "DELIVERED"
  | NDisputed => "DISPUTED" | NCompleted => "COMPLETED" | NRefunded => "REFUNDED"
  end.

Definition set_account_notifications m (d : Db) : Db := set_accounts (set_notifications m (db_accounts d)) d.

(** ** Repository *)

Module NotificationRepository.

(** A row refers to an escrow; [status] and [retryCount] take their defaults. *)
Definition new_notification (input : NotificationInput) (now : Z) (uuid : string) : NotificationRow :=
  mkNotification uuid input NPending 0 None None None now now.

Definition create (input : NotificationInput) : Prog NotificationRow :=
  await (db_call (fun now uuid d =>
    let m := ac_notifications (db_accounts d) in
    if bool_decide (is_Some (m !! uuid)) then (Throw (PrismaError "P2002"), d)
    else if bool_decide (is_Some (db_escrows d !! ni_escrowId input))
    then (Ok (new_notification input now uuid), set_account_notifications (<[uuid := new_notification input now uuid]> m) d)
    else (Throw (PrismaError "P2003"), d))).

Definition update (id : string) (f : Z -> NotificationRow -> NotificationRow) : Prog NotificationRow :=
  await (db_call (fun now _ d =>
    let m := ac_notifications (db_accounts d) in
    match m !! id with
    | None => (Throw (PrismaError "P2025"), d)
    | Some row => (Ok (f now row), set_account_notifications (<[id := f now row]> m) d)
    end)).

Definition sent (retryCount : Z) (now : Z) (r : NotificationRow) : NotificationRow :=
  mkNotification (nt_id r) (nt_input r) NSent retryCount (Some now) (nt_failedAt r) (nt_lastError r) (nt_createdAt r) now.

Definition attempt_failed (retryCount : Z) (lastError : string) (now : Z) (r : NotificationRow) : NotificationRow :=
  mkNotification (nt_id r) (nt_input r) (nt_status r) retryCount (nt_sentAt r) (Some now) (Some lastError)
    (nt_createdAt r) now.

Definition failed (now : Z) (r : NotificationRow) : NotificationRow :=
  mkNotification (nt_id r) (nt_input r) NFailed (nt_retryCount r) (nt_sentAt r) (nt_failedAt r) (nt_lastError r)
    (nt_createdAt r) now.

Definition markSent (id : string) (retryCount : Z) : Prog NotificationRow := update id (sent retryCount).
Definition markAttemptFailed (id : string) (retryCount : Z) (lastError : string) : Prog NotificationRow :=
  update id (attempt_failed retryCount lastError).
Definition markFailed (id : string) : Prog NotificationRow := update id failed.

End NotificationRepository.

(** ** Service *)

Module Notifications.

Definition MAX_ATTEMPTS : nat := 3.

Definition TEMPLATE_ID_CONFIG_KEYS (t : NotificationType) : string := "SENDGRID_TEMPLATE_" +:+ type_str t.

Definition templateIdFor (env : Env) (t : NotificationType) : option string :=
  match env_config env (TEMPLATE_ID_CONFIG_KEYS t) with
  | Some value => let trimmed := trim value in if bool_decide (trimmed = "") then None else Some trimmed
  | None => None
  end.

(** [4xx] other than 408 and 429 is not retried; an unknown status is. *)
Definition isRetryableProviderError (statusCode : option Z) : bool :=
  match statusCode with
  | None => true
  | Some c =>
      if (c =? 408)%Z || (c =? 429)%Z then true
      else negb ((400 <=? c)%Z && (c <? 500)%Z)
  end.

Definition extractProviderId (response : SgResponse) : option string :=
  match response with
  | SgArray head => match sh_headers head with Some h => h !! "x-message-id" | None => None end
  | SgOther => None
  end.

Definition extractSuccessCode (response : SgResponse) : option Z :=
  match response with SgArray head => sh_statusCode head | SgOther => None end.

Definition extractResponseCode (e : ProviderError) : option Z :=
  match pe_code e, pe_status e, pe_response e with
  | Some c, _, _ => Some c
  | None, Some c, _ => Some c
  | None, None, Some (Some c, _) => Some c
  | None, None, Some (None, c) => c
  | None, None, None => None
  end.

(** [crypto.randomUUID()]. *)
Definition randomUUID : Prog string := await (fun env w => (Ok (env_uuid env (w_tick w)), tick w)).

(** [await this.sleep(ms)]. *)
Definition pause (ms : Z) : Action unit := fun _ w => (Ok tt, set_side (add_sleep ms (w_side w)) (tick w)).

Definition send_email (m : EmailMessage) : Action (SgResponse + ProviderError) := fun env w =>
  match pv_sendgrid (env_providers env) with
  | None => (Ok (inl SgOther), tick w)
  | Some f => (Ok (f (w_tick w) m), set_side (add_call (SendGridSend m) (w_side w)) (tick w))
  end.

Definition send_sms (m : SmsMessage) : Action (option string + ProviderError) := fun env w =>
  match pv_twilio (env_providers env) with
  | None => (Ok (inl None), tick w)
  | Some f => (Ok (f (w_tick w) m), set_side (add_call (TwilioCreate m) (w_side w)) (tick w))
  end.

(** The [while (attemptCount < MAX_ATTEMPTS)] loop of the two dispatchers, which
    differ in the call and in what a success leaves in [providerMessageId] and
    [lastResponseCode]; [budget] attempts are left after [attemptCount]. *)
Record Delivery : Type := mkDelivery {
  dv_providerMessageId : option string; dv_attemptCount : nat; dv_lastResponseCode : option Z }.

Fixpoint attempt_loop {R} (send : Action (R + ProviderError)) (id_of : R -> option string)
    (code_of : R -> option Z -> option Z) (budget attemptCount : nat) (last : option Z) : Prog Delivery :=
  match budget with
  | O => Ret (mkDelivery None attemptCount last)
  | S budget =>
      let attemptCount := S attemptCount in
      let* reply := await send in
      match reply with
      | inl response => Ret (mkDelivery (id_of response) attemptCount (code_of response last))
      | inr error =>
          let code := extractResponseCode error in
          if negb (isRetryableProviderError code) then Ret (mkDelivery None attemptCount code)
          else
            (match budget with
             | O => Ret tt
             | S _ => await (pause (1000 * 2 ^ (Z.of_nat attemptCount - 1)))
             end) ;;;
            attempt_loop send id_of code_of budget attemptCount code
      end
  end.

Definition message_of (t : NotificationType) (escrow : EscrowRecord) : string :=
  type_str t +:+ ": " +:+ e_itemName escrow.

(** [recordUndeliverable] and [recordUndeliverableEmail]: a row with no attempt. *)
Definition recordUndeliverable (t : NotificationType) (escrow : EscrowRecord) (channel : NotificationChannel)
    (recipientAddress : string) : Prog unit :=
  NotificationRepository.create (mkNotificationInput (e_id escrow) t channel recipientAddress
    (message_of t escrow) None 0 None) ;;;
  Ret tt.

Definition record_delivery (t : NotificationType) (escrow : EscrowRecord) (channel : NotificationChannel)
    (recipientAddress : string) (d : Delivery) : Prog unit :=
  NotificationRepository.create (mkNotificationInput (e_id escrow) t channel recipientAddress
    (message_of t escrow) (dv_providerMessageId d) (Z.of_nat (dv_attemptCount d)) (dv_lastResponseCode d)) ;;;
  Ret tt.

Definition email_of (fromEmail templateId : option string) (escrow : EscrowRecord)
    (recipientAddress requestId : string) : EmailMessage :=
  mkEmail recipientAddress fromEmail (coalesce templateId "") (e_id escrow) (e_itemName escrow) requestId.

Definition dispatchEmail (t : NotificationType) (escrow : EscrowRecord) (recipientAddress : string) : Prog unit :=
  let* requestId := randomUUID in
  let* isKey := ask (fun env => pv_strkey (env_providers env) recipientAddress) in
  if isKey then recordUndeliverable t escrow EMAIL recipientAddress
  else
    let* fromEmail := ask (fun env => env_config env "SENDGRID_FROM_EMAIL") in
    let* templateId := ask (fun env => templateIdFor env t) in
    let* unconfigured := ask (fun env => match pv_sendgrid (env_providers env) with None => true | Some _ => false end) in
    if negb unconfigured && (negb (truthy fromEmail) || bool_decide (templateId = None))
    then recordUndeliverable t escrow EMAIL recipientAddress
    else
      let* d := attempt_loop (send_email (email_of fromEmail templateId escrow recipientAddress requestId))
        extractProviderId (fun response _ => extractSuccessCode response) MAX_ATTEMPTS 0 None in
      record_delivery t escrow EMAIL recipientAddress d.

Definition sms_of (t : NotificationType) (fromNumber : option string) (escrow : EscrowRecord)
    (recipientAddress : string) : SmsMessage :=
  mkSms recipientAddress (message_of t escrow) (if truthy fromNumber then fromNumber else None).

Definition dispatchSms (t : NotificationType) (escrow : EscrowRecord) (recipientAddress : string) : Prog unit :=
  let* _ := randomUUID in
  let* isKey := ask (fun env => pv_strkey (env_providers env) recipientAddress) in
  if isKey then recordUndeliverable t escrow SMS recipientAddress
  else
    let* fromNumber := ask (fun env => env_config env "TWILIO_FROM_NUMBER") in
    let* d := attempt_loop (send_sms (sms_of t fromNumber escrow recipientAddress))
      (fun sid => sid) (fun _ last => last) MAX_ATTEMPTS 0 None in
    record_delivery t escrow SMS recipientAddress d.

(** A contact that cannot be decrypted counts as absent. *)
Definition tryDecrypt (env : Env) (stored : option string) : option string :=
  if truthy stored then
    match decryptContact (env_providers env) (env_config env "CONTACT_ENCRYPTION_KEY") (coalesce stored "") with
    | Ok text => Some text
    | Throw _ => None
    end
  else None.

Definition dispatchToBuyer (t : NotificationType) (escrow : EscrowRecord) : Prog unit :=
  let* resolvedEmail := ask (fun env => tryDecrypt env (e_buyerContactEmail escrow)) in
  let* resolvedPhone := ask (fun env => tryDecrypt env (e_buyerContactPhone escrow)) in
  (if truthy resolvedEmail then dispatchEmail t escrow (coalesce resolvedEmail "") else Ret tt) ;;;
  (if truthy resolvedPhone then dispatchSms t escrow (coalesce resolvedPhone "") else Ret tt) ;;;
  if negb (truthy resolvedEmail) && negb (truthy resolvedPhone) then
    recordUndeliverable t escrow EMAIL (e_buyerAddress escrow) ;;;
    recordUndeliverable t escrow SMS (e_buyerAddress escrow)
  else Ret tt.

(** [profile?.email?.trim() || null]. *)
Definition contact_of (o : option string) : option string :=
  match o with
  | Some s => if bool_decide (trim s = "") then None else Some (trim s)
  | None => None
  end.

(** The two reads of [Promise.all] are independent; a failure to read the
    preferences is caught, a failure to read the profile is raised. *)
Definition dispatchToVendor (t : NotificationType) (escrow : EscrowRecord) : Prog unit :=
  let* available := ask (fun env => pv_vendorProfiles (env_providers env)) in
  if negb available then recordUndeliverable t escrow EMAIL (e_vendorAddress escrow)
  else
    let* found := attempt (VendorProfileRepository.findByAddress (e_vendorAddress escrow)) in
    let* prefs := attempt (VendorProfileRepository.findNotificationPreferences (e_vendorAddress escrow)) in
    let* profile := settle found in
    let channels := match prefs with Ok p => np_notificationChannels p | Throw _ => DEFAULT_NOTIFICATION_CHANNELS end in
    (if bool_decide ("EMAIL" ∈ channels) then
       match contact_of (profile ≫= v_email) with
       | Some email => dispatchEmail t escrow email
       | None => Ret tt
       end
     else Ret tt) ;;;
    (if bool_decide ("SMS" ∈ channels) then
       match contact_of (profile ≫= v_phone) with
       | Some phone => dispatchSms t escrow phone
       | None => Ret tt
       end
     else Ret tt).

Definition notifyFunded (escrow : EscrowRecord) : Prog unit := dispatchToVendor NFunded escrow.
Definition notifyShipped (escrow : EscrowRecord) : Prog unit := dispatchToBuyer NShipped escrow.
Definition notifyDelivered (escrow : EscrowRecord) : Prog unit := dispatchToBuyer NDelivered escrow.
Definition notifyDisputed (escrow : EscrowRecord) : Prog unit := dispatchToVendor NDisputed escrow.
Definition notifyCompleted (escrow : EscrowRecord) : Prog unit := dispatchToBuyer NCompleted escrow.
Definition notifyRefunded (escrow : EscrowRecord) : Prog unit := dispatchToBuyer NRefunded escrow.

Definition notifyDisputedAdmin (escrow : EscrowRecord) : Prog unit :=
  let* adminEmail := ask (fun env => env_config env "ADMIN_NOTIFICATION_EMAIL") in
  if negb (truthy adminEmail) then Ret tt
  else dispatchEmail NDisputed escrow (coalesce adminEmail "").

(** The notification types no template is configured for, which
    [onModuleInit] reports once a SendGrid key is set. *)
Definition missing_templates (env : Env) : list NotificationType :=
  if truthy (env_config env "SENDGRID_API_KEY") then
    List.filter (fun t => bool_decide (templateIdFor env t = None))
      [NFunded; NShipped; NDelivered; NDisputed; NCompleted; NRefunded]
  else [].

(** The program a started notice runs. *)
Definition deliver (n : Notice) : Prog unit :=
  match n with
  | mkNotice NFunded escrow => notifyFunded escrow
  | mkNotice NShipped escrow => notifyShipped escrow
  | mkNotice NDelivered escrow => notifyDelivered escrow
  | mkNotice NDisputed escrow => notifyDisputed escrow
  | mkNotice NCompleted escrow => notifyCompleted escrow
  | mkNotice NRefunded escrow => notifyRefunded escrow
  | mkAdminNotice escrow => notifyDisputedAdmin escrow
  end.

End Notifications.
