(* ===== verification/RetryQueue.v ===== *)
(** * The notification retry queue

    [src/src/notifications/notification-retry-queue.service.ts] and
    [notification-retry-queue.types.ts]: jobs go to BullMQ when Redis is
    connected and through the in-process runner otherwise.  The channel
    dispatchers, the dead-letter sink, [Math.random] and BullMQ are
    parameters; jobs handed to a dispatcher are logged in [sd_dispatches],
    waits in [sd_sleeps].  What is added to a BullMQ queue is its JSON image:
    dates and big integers of the escrow become text ([job_image],
    [entry_image]).  Delays are computed in IEEE doubles, as in the
    code. *)
From S2P Require Import Prelude Records Dates Text Tables Crypto Effects Cache Prisma EscrowRepo Coherence Contract Lifecycle EscrowSvc Vendor Notify.
Local Open Scope prog_scope.

(** ** Doubles *)

(** [x + y] for an integer [x]. *)
Definition add_number (x : Z) (y : number) : number :=
  match y with
  | NaN => NaN
  | Finite m e =>
      ratio_to_number (x * 2 ^ Z.max 0 (- e) + m * 2 ^ Z.max 0 e) (2 ^ Z.max 0 (- e))
  end.

(** [Math.round]: the nearest integer, ties towards positive infinity. *)
Definition Math_round (x : number) : option Z :=
  match x with
  | NaN => None
  | Finite m e => Some ((2 * (m * 2 ^ Z.max 0 e) + 2 ^ Z.max 0 (- e)) / (2 * 2 ^ Z.max 0 (- e)))%Z
  end.

Record NotificationRetryBackoff : Type := mkBackoff {
  bo_attempts : Z; bo_delay : Z; bo_maxDelayMs : option Z }.

Definition DEFAULT_BACKOFF : NotificationRetryBackoff := mkBackoff 5 1000 (Some (5 * 60 * 1000)%Z).

(** [backoff.delay * 2 ** (n - 2)], at most [maxDelayMs]. *)
Definition capped_delay (attemptNumber : Z) (backoff : NotificationRetryBackoff) : Z :=
  let raw := (bo_delay backoff * 2 ^ (attemptNumber - 2))%Z in
  match bo_maxDelayMs backoff with Some m => Z.min raw m | None => raw end.

(** [random] is [Math.random()] in units of [2^-53]; [Math.random() * 2 - 1]
    and [capped * 0.25] are exact, their product and the sum are rounded. *)
Definition computeBackoffDelay (random attemptNumber : Z) (backoff : NotificationRetryBackoff) : Z :=
  if (attemptNumber <=? 1)%Z then 0%Z
  else
    let capped := capped_delay attemptNumber backoff in
    let jitter := ratio_to_number (capped * (random - 2 ^ 52)) (2 ^ 54) in
    Z.max 0 (coalesce (Math_round (add_number capped jitter)) 0%Z).

(** ** The service *)

Module RetryQueue.
Section service.
Context (backoff : NotificationRetryBackoff).

Definition registerDispatcher (channel : NotificationChannel) (f : nat -> RetryJob -> outcome unit) : Prog unit :=
  await (local (fun w => set_side (set_dispatcher channel f (w_side w)) w)).

(** One call of the dispatcher. *)
Definition dispatch (f : nat -> RetryJob -> outcome unit) (job : RetryJob) : Action unit := fun _ w =>
  (f (length (sd_dispatches (w_side w))) job, set_side (add_dispatch job (w_side w)) (tick w)).

(** [await this.notifications.m(...).catch(log)], when the job has a row. *)
Definition mark (job : RetryJob) (m : string -> Prog NotificationRow) : Prog unit :=
  if truthy (rj_notificationId job)
  then catch (m (coalesce (rj_notificationId job) "") ;;; Ret tt) (fun _ => Ret tt)
  else Ret tt.

Definition dead_letter (job : RetryJob) (attemptsExhausted : Z) (lastError : option exn) (now : Z) : DeadLetterRecord :=
  mkDeadLetter (rj_channel job) (rj_type job) (job_escrow_id (rj_escrow job)) (rj_recipientAddress job)
    attemptsExhausted (match lastError with Some e => exn_message e | None => "unknown error" end)
    now (rj_requestId job).

(** What BullMQ stores of a job's data and hands to the processor, and of a
    dead letter: [JSON.parse(JSON.stringify(data))], where dates and the
    contract id become strings and absent ids stay absent. *)
Definition job_image (job : RetryJob) : RetryJob :=
  mkJob (rj_channel job) (rj_type job)
    (match rj_escrow job with LiveEscrow r => StoredEscrow (escrow_json r) | StoredEscrow j => StoredEscrow j end)
    (rj_recipientAddress job) (rj_requestId job) (rj_notificationId job).

Definition entry_image (entry : DeadLetterRecord) : DeadLetterJson :=
  mkDeadLetter (dl_channel entry) (dl_type entry) (dl_escrowId entry) (dl_recipientAddress entry)
    (dl_attemptsExhausted entry) (dl_lastError entry) (toISOString (dl_failedAt entry)) (dl_requestId entry).

(** [bullDlq.add], which may be rejected. *)
Definition bullDlq_add (entry : DeadLetterRecord) : Action unit := fun env w =>
  match pv_bull (env_providers env) (w_tick w) with
  | Ok _ => (Ok tt, set_side (add_bullDlq (entry_image entry) (w_side w)) (tick w))
  | Throw e => (Throw e, tick w)
  end.

Definition sink_record (entry : DeadLetterRecord) : Action unit := fun env w =>
  match pv_sink (env_providers env) with
  | None => (Ok tt, w)
  | Some f => (f (w_tick w) entry, set_side (add_sink entry (w_side w)) (tick w))
  end.

Definition recordDeadLetter (job : RetryJob) (attemptsExhausted : Z) (lastError : option exn) : Prog unit :=
  let* failedAt := await now in
  let entry := dead_letter job attemptsExhausted lastError failedAt in
  let* connected := await (fun _ w => (Ok (sd_bullUp (w_side w)), w)) in
  (if connected : bool then await (bullDlq_add entry) else Ret tt) ;;;
  await (sink_record entry).

(** The [for (attempt = 1; attempt <= attempts; attempt++)] loop: [budget]
    attempts are left; [None] when one succeeded, else the last error. *)
Fixpoint attempts_loop (f : nat -> RetryJob -> outcome unit) (job : RetryJob) (budget : nat) (attempt_no : Z)
    (lastError : option exn) : Prog (option (option exn)) :=
  match budget with
  | O => Ret (Some lastError)
  | S budget =>
      let* r := attempt (await (dispatch f job)) in
      match r with
      | Ok _ => mark job (fun id => NotificationRepository.markSent id (attempt_no - 1)) ;;; Ret None
      | Throw err =>
          mark job (fun id => NotificationRepository.markAttemptFailed id attempt_no (exn_message err)) ;;;
          if (bo_attempts backoff <=? attempt_no)%Z then Ret (Some (Some err))
          else
            let* random := await (fun env w => (Ok (pv_random (env_providers env) (w_tick w)), w)) in
            await (Notifications.pause (computeBackoffDelay random (attempt_no + 1) backoff)) ;;;
            attempts_loop f job budget (attempt_no + 1) (Some err)
      end
  end.

Definition processInProcess (job : RetryJob) : Prog unit :=
  let* dispatcher := await (fun _ w => (Ok (sd_dispatchers (w_side w) (rj_channel job)), w)) in
  match dispatcher with
  | None => Ret tt
  | Some f =>
      let* r := attempts_loop f job (Z.to_nat (bo_attempts backoff)) 1 None in
      match r with
      | None => Ret tt
      | Some lastError =>
          mark job NotificationRepository.markFailed ;;;
          recordDeadLetter job (bo_attempts backoff) lastError
      end
  end.

(** [bullQueue.add]; the options carry [attempts] and the initial delay. *)
Definition bull_add (job : RetryJob) : Action unit := fun env w =>
  match pv_bull (env_providers env) (w_tick w) with
  | Ok _ => (Ok tt, set_side (add_bull (job_image job) (w_side w)) (tick w))
  | Throw e => (Throw e, tick w)
  end.

Definition enrich (job : RetryJob) (requestId : string) : RetryJob :=
  mkJob (rj_channel job) (rj_type job) (rj_escrow job) (rj_recipientAddress job) (Some requestId) (rj_notificationId job).

Definition enqueue (job : RetryJob) : Prog unit :=
  let* requestId := (match rj_requestId job with Some r => Ret r | None => Notifications.randomUUID end) in
  let enriched := enrich job requestId in
  let* queued := await (fun _ w => (Ok (sd_bullUp (w_side w)), w)) in
  if queued : bool then await (bull_add enriched) else processInProcess enriched.

(** The processor of the BullMQ worker; [attemptsMade] counts the attempts
    that failed before this one. *)
Definition process (job : RetryJob) (attemptsMade : Z) : Prog unit :=
  let* dispatcher := await (fun _ w => (Ok (sd_dispatchers (w_side w) (rj_channel job)), w)) in
  match dispatcher with
  | None => Raise (JsError ("No dispatcher registered for channel " +:+ channel_str (rj_channel job)))
  | Some f =>
      catch (await (dispatch f job) ;;;
             mark job (fun id => NotificationRepository.markSent id attemptsMade))
        (fun err =>
           mark job (fun id => NotificationRepository.markAttemptFailed id (attemptsMade + 1) (exn_message err)) ;;;
           Raise err)
  end.

(** The worker's ['failed'] listener, with the attempts the job was added
    with; its own rejections are not observed by anyone. *)
Definition on_failed (job : RetryJob) (attemptsMade : Z) (error : exn) : Prog unit :=
  if (attemptsMade <? bo_attempts backoff)%Z then Ret tt
  else
    attempt (mark job NotificationRepository.markFailed ;;; recordDeadLetter job attemptsMade (Some error)) ;;;
    Ret tt.

(** [onModuleInit]: without [REDIS_URL], or when BullMQ cannot be reached, the
    in-process runner stays in charge. *)
Definition onModuleInit : Prog unit :=
  let* url := ask (fun env => env_config env "REDIS_URL") in
  if negb (truthy url) then Ret tt
  else
    catch (await (fun env w => (pv_bull (env_providers env) (w_tick w), tick w)) ;;;
           await (local (fun w => set_side (set_bullUp true (w_side w)) w)))
      (fun _ => await (local (fun w => set_side (set_bullUp false (w_side w)) w))).

End service.
End RetryQueue.

(** ** What the service relies on of BullMQ

    A worker runs a job's processor with the number of failures so far; when
    it rejects, the ['failed'] listener is told and the job is run again after
    a delay, until it succeeds or has been attempted [attempts] times. *)
Class BullMQ : Type := {
  bull_work : (Z -> Prog unit) -> (Z -> exn -> Prog unit) -> nat -> Z -> Prog unit;
  bull_exhausted processor failed made : bull_work processor failed 0 made = Ret tt;
  bull_retries processor failed left_over made :
    bull_work processor failed (S left_over) made =
      (let* r := attempt (processor made) in
       match r with
       | Ok _ => Ret tt
       | Throw e => failed (made + 1)%Z e ;;; await sleep ;;; bull_work processor failed left_over (made + 1)
       end)
}.
