(* ===== verification/Analytics.v ===== *)
(** * Vendor analytics and the admin dashboard

    [src/src/vendor/analytics] ([analytics.service.ts],
    [analytics.repository.ts], [analytics.controller.ts]) and
    [src/src/admin/stats]: aggregates the database computes over the escrows.
    The arithmetic of [Prisma.Decimal] and the offsets of the IANA time zones
    are parameters.  [setDate] moves by whole calendar days of the server's
    zone, taken as one without daylight saving, like the UTC of the container. *)
From S2P Require Import Prelude Records Doubles Dates Text Tables Crypto Effects Cache Prisma EscrowRepo Coherence Contract Lifecycle EscrowSvc Vendor Notify.
Local Open Scope prog_scope.

(** ** Parameters *)

(** [Prisma.Decimal], on values with eight decimals, in units of 1e-8; the
    quotient by an integer is only used through [toNumber]. *)
Class DecimalOps := {
  decimal_plus : Z -> Z -> Z;
  decimal_div_toNumber : Z -> Z -> number
}.

(** A sum is rounded to the library's twenty significant digits, so one that
    has at most twenty is exact. *)
Class DecimalExact {D : DecimalOps} : Prop := {
  decimal_plus_exact a b : (Z.abs (a + b) < 10 ^ 20)%Z -> decimal_plus a b = (a + b)%Z
}.

(** Milliseconds to add to an instant to read the local clock of a zone. *)
Class TimeZones := { zone_offset : string -> Z -> Z }.

(** ** Aggregates of the database *)

Record AnalyticsEscrowStateGroup : Type := mkGroup {
  sg_state : EscrowState; sg_count : Z; sg_sum : option Z }.

Definition ALL_STATES : list EscrowState :=
  [CREATED; FUNDED; SHIPPED; DELIVERED; COMPLETED; RELEASED; DISPUTED; REFUNDED; CANCELLED].

Definition total (rows : list PrismaEscrow) : Z := foldr Z.add 0%Z (e_amount <$> rows).

Definition count_where (P : PrismaEscrow -> bool) (rows : list PrismaEscrow) : Z := Z.of_nat (length (List.filter P rows)).

Definition in_state (s : EscrowState) (row : PrismaEscrow) : bool := bool_decide (e_state row = s).

(** [groupBy]: one row for each state that occurs. *)
Definition group_of (rows : list PrismaEscrow) (s : EscrowState) : option AnalyticsEscrowStateGroup :=
  match List.filter (in_state s) rows with
  | [] => None
  | l => Some (mkGroup s (Z.of_nat (length l)) (Some (total l)))
  end.

Definition groupBy_state (rows : list PrismaEscrow) : list AnalyticsEscrowStateGroup := omap (group_of rows) ALL_STATES.

Definition of_vendor (vendor : string) (row : PrismaEscrow) : bool := bool_decide (e_vendorAddress row = vendor).

(** ** Keys of days *)

(** [toISOString().slice(0, 10)]. *)
Definition date_part (ms : Z) : string := String.substring 0 10 (toISOString ms).

Definition day_key (day : Z) : string := date_part (day * MS_PER_DAY).

(** The calendar day an instant falls on in a zone. *)
Definition local_day {TZ : TimeZones} (timezone : string) (t : Z) : Z := ((t + zone_offset timezone t) / MS_PER_DAY)%Z.

Module AnalyticsRepository.
Section repository.
Context {TZ : TimeZones}.

(** One row of the raw query; the driver returns the [date] column as the
    midnight of that day in UTC. *)
Record DailyVolumeAggRow : Type := mkAgg {
  ag_date : Z; ag_totalVolume : Z; ag_transactionCount : Z; ag_completedCount : Z; ag_disputedCount : Z }.

Definition is_completed (row : PrismaEscrow) : bool := in_state COMPLETED row || in_state RELEASED row.

Definition daily_row (rows : list PrismaEscrow) (day : Z) : DailyVolumeAggRow :=
  mkAgg (day * MS_PER_DAY) (total rows) (Z.of_nat (length rows)) (count_where is_completed rows)
    (count_where (in_state DISPUTED) rows).

Definition in_window (vendor : string) (startDate endDate : Z) (row : PrismaEscrow) : bool :=
  of_vendor vendor row && (startDate <=? e_createdAt row)%Z && (e_createdAt row <=? endDate)%Z.

Definition on_day (timezone : string) (day : Z) (row : PrismaEscrow) : bool :=
  (local_day timezone (e_createdAt row) =? day)%Z.

Definition aggregate (timezone : string) (rows : list PrismaEscrow) : list DailyVolumeAggRow :=
  (fun day => daily_row (List.filter (on_day timezone day) rows) day)
    <$> sort_by Z.leb (remove_dups ((fun r => local_day timezone (e_createdAt r)) <$> rows)).

Definition aggregateDailyVolume (vendor : string) (startDate endDate : Z) (timezone : string) : Prog (list DailyVolumeAggRow) :=
  await (db_call (fun _ _ d =>
    (Ok (aggregate timezone (List.filter (in_window vendor startDate endDate) (escrow_rows d))), d))).

Definition getEscrowStateGroups (vendor : string) : Prog (list AnalyticsEscrowStateGroup) :=
  await (db_call (fun _ _ d => (Ok (groupBy_state (List.filter (of_vendor vendor) (escrow_rows d))), d))).

Definition findNotificationChannels (vendor : string) : Prog (option (list string)) :=
  let* settings := await (settings_findUnique vendor) in
  Ret (ts_notificationChannels <$> settings).

End repository.
End AnalyticsRepository.

Module AnalyticsService.
Import AnalyticsRepository.
Section service.
Context {D : DecimalOps} {TZ : TimeZones}.

(** *** The daily chart *)

Record DailyVolumeDataDto : Type := mkDaily {
  dd_date : string;
  dd_totalVolume : number;
  dd_transactionCount : Z;
  dd_completedCount : Z;
  dd_disputedCount : Z;
  dd_averageTransactionValue : number
}.

Record ChartDataResponse : Type := mkChart {
  cd_data : list DailyVolumeDataDto;
  cd_startDate : string;
  cd_endDate : string;
  cd_totalVolume : number;
  cd_totalTransactions : Z;
  cd_averageDaily : number
}.

Definition toDateKey (date : Z) : string := date_part date.

Definition formatDate (date : Z) : string := date_part date.

(** [toLocaleDateString('en-CA', { timeZone })]. *)
Definition formatDateInTimezone (date : Z) (timezone : string) : string := day_key (local_day timezone date).

Definition to_daily (row : DailyVolumeAggRow) : DailyVolumeDataDto :=
  let totalVolume := ratio_to_number (ag_totalVolume row) DECIMAL_SCALE in
  mkDaily (toDateKey (ag_date row)) totalVolume (ag_transactionCount row) (ag_completedCount row)
    (ag_disputedCount row)
    (if (0 <? ag_transactionCount row)%Z then number_div totalVolume (ag_transactionCount row) else zero).

Definition daily_map (rows : list DailyVolumeAggRow) : gmap string DailyVolumeDataDto :=
  foldl (fun m row => <[toDateKey (ag_date row) := to_daily row]> m) ∅ rows.

Definition empty_day (key : string) : DailyVolumeDataDto := mkDaily key zero 0 0 0 zero.

(** The loop of [fillDateGaps], a day at a time; [fuel] bounds its rounds. *)
Fixpoint fill (fuel : nat) (m : gmap string DailyVolumeDataDto) (currentDate endDate : Z) (timezone : string)
    : list DailyVolumeDataDto :=
  match fuel with
  | O => []
  | S fuel =>
      if (currentDate <=? endDate)%Z then
        let dateKey := formatDateInTimezone currentDate timezone in
        coalesce (m !! dateKey) (empty_day dateKey) :: fill fuel m (currentDate + MS_PER_DAY) endDate timezone
      else []
  end.

Definition fillDateGaps (m : gmap string DailyVolumeDataDto) (startDate endDate : Z) (timezone : string)
    : list DailyVolumeDataDto :=
  fill (Z.to_nat ((endDate - startDate) / MS_PER_DAY + 1)) m startDate endDate timezone.

(** [setDate(getDate() - days + 1)], then [setUTCHours(0, 0, 0, 0)]. *)
Definition chart_start (now days : Z) : Z := ((now - (days - 1) * MS_PER_DAY) / MS_PER_DAY * MS_PER_DAY)%Z.

Definition chart_of (rows : list DailyVolumeAggRow) (startDate endDate : Z) (timezone : string) : ChartDataResponse :=
  let sortedData := sort_by (asc_str dd_date) (fillDateGaps (daily_map rows) startDate endDate timezone) in
  let totalVolume := foldl (fun s d => number_add s (dd_totalVolume d)) zero sortedData in
  let totalTransactions := foldl (fun s d => (s + dd_transactionCount d)%Z) 0%Z sortedData in
  mkChart sortedData (formatDate startDate) (formatDate endDate) totalVolume totalTransactions
    (if Nat.ltb 0 (length sortedData) then number_div totalVolume (Z.of_nat (length sortedData)) else zero).

Definition getDailyVolumeChart (vendor : string) (days : Z) (timezone : string) : Prog ChartDataResponse :=
  let* endDate := await now in
  let startDate := chart_start endDate days in
  let* rows := aggregateDailyVolume vendor startDate endDate timezone in
  Ret (chart_of rows startDate endDate timezone).

(** *** The statistics *)

Record TransactionStatsDto : Type := mkStats {
  st_totalVolume : number;
  st_activeVolume : number;
  st_totalTransactions : Z;
  st_activeTransactions : Z;
  st_completedTransactions : Z;
  st_completionRate : number;
  st_disputedTransactions : Z;
  st_disputeRate : number;
  st_averageTransactionValue : number;
  st_cancelledTransactions : Z
}.

Record AnalyticsStatsResponse : Type := mkStatsResponse {
  sr_stats : TransactionStatsDto;
  sr_email : bool;
  sr_sms : bool;
  sr_lastUpdated : string
}.

Definition decimalAdd (total : Z) (value : option Z) : Z :=
  match value with None => total | Some v => decimal_plus total v end.

Definition decimalToNumber (value : Z) : number := ratio_to_number value DECIMAL_SCALE.

Definition activeStates (s : EscrowState) : bool :=
  match s with CREATED | FUNDED | SHIPPED | DELIVERED => true | _ => false end.

(** The accumulators of the loop over the groups. *)
Record Totals : Type := mkTotals {
  tt_volume : Z; tt_activeVolume : Z; tt_transactions : Z; tt_active : Z;
  tt_completed : Z; tt_disputed : Z; tt_cancelled : Z }.

Definition add_group (t : Totals) (g : AnalyticsEscrowStateGroup) : Totals :=
  let '(mkGroup state count sum) := g in
  mkTotals (decimalAdd (tt_volume t) sum)
    (if activeStates state then decimalAdd (tt_activeVolume t) sum else tt_activeVolume t)
    (tt_transactions t + count)
    (if activeStates state then tt_active t + count else tt_active t)
    (if bool_decide (state = COMPLETED) || bool_decide (state = RELEASED) then tt_completed t + count else tt_completed t)
    (if bool_decide (state = DISPUTED) then tt_disputed t + count else tt_disputed t)
    (if bool_decide (state = CANCELLED) then tt_cancelled t + count else tt_cancelled t).

(** [(part / whole) * 100]. *)
Definition rate (part whole : Z) : number := number_mul (ratio_to_number part whole) 100.

Definition stats_of (t : Totals) : TransactionStatsDto :=
  let some := (0 <? tt_transactions t)%Z in
  mkStats (decimalToNumber (tt_volume t)) (decimalToNumber (tt_activeVolume t)) (tt_transactions t) (tt_active t)
    (tt_completed t) (if some then rate (tt_completed t) (tt_transactions t) else zero)
    (tt_disputed t) (if some then rate (tt_disputed t) (tt_transactions t) else zero)
    (if some then decimal_div_toNumber (tt_volume t) (tt_transactions t) else zero) (tt_cancelled t).

Definition getTransactionStats (vendor : string) : Prog AnalyticsStatsResponse :=
  let* groups := getEscrowStateGroups vendor in
  let totals := foldl add_group (mkTotals 0 0 0 0 0 0 0) groups in
  let* found := findNotificationChannels vendor in
  let channels := coalesce found DEFAULT_NOTIFICATION_CHANNELS in
  let* t := await now in
  Ret (mkStatsResponse (stats_of totals) (bool_decide ("EMAIL" ∈ channels)) (bool_decide ("SMS" ∈ channels)) (toISOString t)).

End service.
End AnalyticsService.

(** ** The admin dashboard *)

Module AdminStats.

Record AdminStatsTotals : Type := mkAdminTotals {
  at_totalVolume : number; at_stateGroups : list (EscrowState * Z); at_uniqueVendors : Z; at_uniqueBuyers : Z }.

Record AdminStatsDto : Type := mkAdminStats {
  as_totalEscrows : Z;
  as_totalVolume : number;
  as_escrowsByState : gmap string Z;
  as_uniqueVendors : Z;
  as_uniqueBuyers : Z;
  as_totalDisputes : Z;
  as_openDisputes : Z;
  as_averageEscrowAmount : number
}.

(** [COUNT(DISTINCT column)]. *)
Definition count_distinct (column : PrismaEscrow -> string) (rows : list PrismaEscrow) : Z :=
  Z.of_nat (length (remove_dups (column <$> rows))).

Definition escrow_query {X} (f : list PrismaEscrow -> X) : Action X := db_call (fun _ _ d => (Ok (f (escrow_rows d)), d)).

(** The four queries of the [Promise.all] only read. *)
Definition collectTotals : Prog AdminStatsTotals :=
  let* sum := await (escrow_query total) in
  let* groups := await (escrow_query groupBy_state) in
  let* vendors := await (escrow_query (count_distinct e_vendorAddress)) in
  let* buyers := await (escrow_query (count_distinct e_buyerAddress)) in
  Ret (mkAdminTotals (ratio_to_number sum DECIMAL_SCALE) ((fun g => (sg_state g, sg_count g)) <$> groups) vendors buyers).

Definition countDisputes : Prog Z := await (dispute_count (fun _ => true)).

Definition OPEN_DISPUTE_STATUSES (s : DisputeState) : bool :=
  match s with OPEN | UNDER_REVIEW => true | _ => false end.

Definition countOpenDisputes : Prog Z := await (dispute_count (fun d => OPEN_DISPUTE_STATUSES (d_status d))).

Definition getStats : Prog AdminStatsDto :=
  let* totals := collectTotals in
  let* totalDisputes := countDisputes in
  let* openDisputes := countOpenDisputes in
  let totalEscrows := foldl (fun s g => (s + g.2)%Z) 0%Z (at_stateGroups totals) in
  let byState := foldl (fun m g => <[EscrowState_str g.1 := g.2]> m) ∅ (at_stateGroups totals) in
  Ret (mkAdminStats totalEscrows (at_totalVolume totals) byState (at_uniqueVendors totals) (at_uniqueBuyers totals)
    totalDisputes openDisputes
    (if (0 <? totalEscrows)%Z then number_div (at_totalVolume totals) totalEscrows else zero)).

End AdminStats.
