(* ===== verification/Auth.v ===== *)
(** * SEP-10 authentication and the guards

    [src/src/auth/sep10/] ([sep10.service.ts], [sep10.controller.ts], the
    nonce and refresh-token repositories and their cleanup jobs),
    [src/src/auth/guards/jwt.guard.ts] and
    [src/src/admin/guards/admin.guard.ts].  HMAC-SHA256 and the [WebAuth]
    functions of the Stellar SDK are parameters; challenges, tokens, their
    JSON payloads and their encoding are modelled. *)
From Stdlib Require Import Ascii.
From S2P Require Import Prelude Records Dates Text Tables Crypto Json Effects.
Local Open Scope prog_scope.

Record AuthUser : Type := mkAuthUser { au_address : string; au_role : option string }.

(** ** Guards *)

(** A request header: absent, one value, or several. *)
Inductive HeaderValue : Type := HNone | HOne (s : string) | HMany (l : list string).

Definition first_header (h : HeaderValue) : option string :=
  match h with HNone => None | HOne s => Some s | HMany l => head l end.

Definition AUTH_REQUIRED : exn := UnauthorizedException "Authentication required".

(** The bytes of [createHmac('sha256', key).update(msg).digest()]. *)
Definition hmac_bytes (env : Env) (key msg : string) : list nat := hex_bytes (env_hmac env key msg).

Module JwtGuard.

Definition user_of_payload (now : Z) (payload : json) : option AuthUser :=
  match json_get "exp" payload with
  | Some (JNum exp) =>
      if number_le exp (now / 1000) then None
      else
        match json_get "sub" payload with
        | Some (JStr sub) =>
            if bool_decide (sub = "") then None
            else Some (mkAuthUser sub (match json_get "role" payload with Some (JStr r) => Some r | _ => None end))
        | _ => None
        end
  | _ => None
  end.

Definition extractUser (env : Env) (now : Z) (token : string) : option AuthUser :=
  match split_on "." token with
  | [header; body; signature] =>
      let secret := env_config env "SEP10_JWT_SECRET" in
      if negb (truthy secret) then None
      else
        let expected := base64url (hmac_bytes env (coalesce secret "") (header +:+ "." +:+ body)) in
        if bool_decide (base64url_bytes signature = base64url_bytes expected) then
          match JSON_parse (text_of (base64url_bytes body)) with
          | Some payload => user_of_payload now payload
          | None => None
          end
        else None
  | _ => None
  end.

(** [header.slice('Bearer '.length)]. *)
Definition bearer (header : string) : option string := after_prefix "Bearer " header.

Definition canActivate (env : Env) (now : Z) (authorization : HeaderValue) : outcome AuthUser :=
  match first_header authorization ≫= bearer with
  | None => Throw AUTH_REQUIRED
  | Some rest =>
      let token := trim rest in
      if bool_decide (token = "") then Throw AUTH_REQUIRED
      else match extractUser env now token with
           | Some user => Ok user
           | None => Throw AUTH_REQUIRED
           end
  end.

End JwtGuard.

Module AdminGuard.

Definition canActivate (env : Env) (user : option AuthUser) : outcome unit :=
  let adminAddress := env_config env "ADMIN_ADDRESS" in
  match user with
  | Some u =>
      if truthy adminAddress && bool_decide (Some (au_address u) = adminAddress) then Ok tt
      else Throw (ForbiddenException "Admin access required")
  | None => Throw (ForbiddenException "Admin access required")
  end.

End AdminGuard.

(** ** Tables *)

(** [findUnique] on a unique column. *)
Definition find_row {V} (P : V -> bool) (m : gmap string V) : option V := head (List.filter P (map_to_list m).*2).

Definition set_account_nonces m (d : Db) : Db := set_accounts (set_nonces m (db_accounts d)) d.
Definition set_account_tokens m (d : Db) : Db := set_accounts (set_tokens m (db_accounts d)) d.
Definition db_nonces (d : Db) : gmap string NonceRow := ac_nonces (db_accounts d).
Definition db_tokens (d : Db) : gmap string RefreshTokenRow := ac_tokens (db_accounts d).

Definition has_nonce (h : string) (r : NonceRow) : bool := bool_decide (no_nonce r = h).
Definition has_hash (h : string) (r : RefreshTokenRow) : bool := bool_decide (tk_tokenHash r = h).

Definition nonce_findUnique (h : string) : Prog (option NonceRow) :=
  await (db_call (fun _ _ d => (Ok (find_row (has_nonce h) (db_nonces d)), d))).

Definition nonce_create (nonce walletAddress challenge : string) (expiresAt : Z) : Prog unit :=
  await (db_call (fun now uuid d =>
    let m := db_nonces d in
    if bool_decide (is_Some (m !! uuid)) || bool_decide (is_Some (find_row (has_nonce nonce) m))
    then (Throw (PrismaError "P2002"), d)
    else (Ok tt, set_account_nonces
      (<[uuid := mkNonce uuid nonce walletAddress challenge false expiresAt now]> m) d))).

Definition use_nonce (r : NonceRow) : NonceRow :=
  mkNonce (no_id r) (no_nonce r) (no_walletAddress r) (no_challenge r) true (no_expiresAt r) (no_createdAt r).

Definition nonce_setUsed (id : string) : Prog unit :=
  await (db_call (fun _ _ d =>
    match db_nonces d !! id with
    | None => (Throw (PrismaError "P2025"), d)
    | Some r => (Ok tt, set_account_nonces (<[id := use_nonce r]> (db_nonces d)) d)
    end)).

Definition token_findByHash (h : string) : Prog (option RefreshTokenRow) :=
  await (db_call (fun _ _ d => (Ok (find_row (has_hash h) (db_tokens d)), d))).

Definition token_findById (id : string) : Prog (option RefreshTokenRow) :=
  await (db_call (fun _ _ d => (Ok (db_tokens d !! id), d))).

Definition revoke (r : RefreshTokenRow) : RefreshTokenRow :=
  mkToken (tk_id r) (tk_userId r) (tk_tokenHash r) (tk_parentTokenId r) true (tk_expiresAt r) (tk_createdAt r).

Definition token_revoke (id : string) : Prog unit :=
  await (db_call (fun _ _ d =>
    match db_tokens d !! id with
    | None => (Throw (PrismaError "P2025"), d)
    | Some r => (Ok tt, set_account_tokens (<[id := revoke r]> (db_tokens d)) d)
    end)).

Definition revoke_user (user : string) (r : RefreshTokenRow) : RefreshTokenRow :=
  if bool_decide (tk_userId r = user) then revoke r else r.

Definition token_revokeUser (user : string) : Prog unit :=
  await (db_call (fun _ _ d => (Ok tt, set_account_tokens (revoke_user user <$> db_tokens d) d))).

Definition token_create (userId tokenHash : string) (parent : option string) (expiresAt : Z) : Prog unit :=
  await (db_call (fun now uuid d =>
    let m := db_tokens d in
    if bool_decide (is_Some (m !! uuid)) || bool_decide (is_Some (find_row (has_hash tokenHash) m))
    then (Throw (PrismaError "P2002"), d)
    else (Ok tt, set_account_tokens
      (<[uuid := mkToken uuid userId tokenHash parent false expiresAt now]> m) d))).

Module NonceRepository.
Definition deleteExpired (before : Z) : Prog unit :=
  await (db_call (fun _ _ d => (Ok tt, set_account_nonces
    (filter (fun kv => ~ (no_expiresAt kv.2 < before)%Z) (db_nonces d)) d))).
End NonceRepository.

Module RefreshTokenRepository.
Definition deleteExpired (before : Z) : Prog unit :=
  await (db_call (fun _ _ d => (Ok tt, set_account_tokens
    (filter (fun kv => ~ (tk_expiresAt kv.2 < before)%Z) (db_tokens d)) d))).
End RefreshTokenRepository.

Definition cleanupExpiredNonces : Prog unit :=
  let* t := await now in NonceRepository.deleteExpired t.

Definition GRACE_PERIOD_MS : Z := 30 * 24 * 60 * 60 * 1000.

Definition cleanupExpiredRefreshTokens : Prog unit :=
  let* t := await now in RefreshTokenRepository.deleteExpired (t - GRACE_PERIOD_MS).

(** ** The service *)

Definition CHALLENGE_TIMEOUT_SECONDS : Z := 5 * 60.
Definition MAX_CHALLENGE_TRANSACTION_LENGTH : nat := Z.to_nat 10000.
Definition MAX_REFRESH_TOKEN_LENGTH : nat := 256.
Definition REFRESH_TOKEN_TTL_DEFAULT : Z := 7 * SECONDS_PER_DAY.

Record AuthTokens : Type := mkTokens { tok_token : string; tok_refreshToken : string }.

Module Sep10.

(** The secret of the key challenges are signed with; never generated. *)
Definition loadServerKeypair (env : Env) : outcome string :=
  let secret := or_str (env_config env "SEP10_SIGNING_SECRET") (or_str (env_config env "SYSTEM_SIGNER_SECRET") "") in
  if bool_decide (secret = "") then
    Throw (JsError ("No SEP-10 signing key configured. Set SEP10_SIGNING_SECRET, or " +:+
      "SYSTEM_SIGNER_SECRET as a fallback. Refusing to generate an " +:+
      "ephemeral key, which would invalidate every challenge on restart."))
  else match sdk_keypair (env_sdk env) secret with
       | Some publicKey => Ok publicKey
       | None => Throw (JsError "The configured SEP-10 signing secret is not a valid Stellar secret key.")
       end.

Definition getNetworkPassphrase (env : Env) : string :=
  if bool_decide (env_config env "STELLAR_NETWORK" = Some "MAINNET")
  then "Public Global Stellar Network ; September 2015" else "Test SDF Network ; September 2015".

Definition jwtSecret (env : Env) : outcome string :=
  let secret := env_config env "SEP10_JWT_SECRET" in
  if truthy secret then Ok (coalesce secret "")
  else Throw (JsError "SEP10_JWT_SECRET is not configured. Refusing to sign or hash tokens.").

Definition hashToken (env : Env) (token : string) : outcome string :=
  match jwtSecret env with Ok secret => Ok (env_hmac env secret token) | Throw e => Throw e end.

Definition JWT_HEADER : string :=
  "{" +:+ quote "alg" +:+ ":" +:+ quote "HS256" +:+ "," +:+ quote "typ" +:+ ":" +:+ quote "JWT" +:+ "}".

(** [JSON.stringify({ sub, iat, exp, role? })]. *)
Definition payload_text (sub : string) (iat exp : Z) (admin : bool) : string :=
  "{" +:+ quote "sub" +:+ ":" +:+ quote sub +:+ "," +:+ quote "iat" +:+ ":" +:+ bigint_toString iat +:+
  "," +:+ quote "exp" +:+ ":" +:+ bigint_toString exp +:+
  (if admin then "," +:+ quote "role" +:+ ":" +:+ quote "admin" else "") +:+ "}".

Definition is_admin (env : Env) (sub : string) : bool :=
  truthy (env_config env "ADMIN_ADDRESS") && bool_decide (Some sub = env_config env "ADMIN_ADDRESS").

Definition access_ttl (env : Env) : Z := coalesce (pv_configNumber (env_providers env) "ACCESS_TOKEN_TTL") 3600%Z.

Definition issueJwt (env : Env) (now : Z) (sub : string) : outcome string :=
  let iat := (now / MILLISECONDS_PER_SECOND)%Z in
  let header := base64url (bytes_of JWT_HEADER) in
  let body := base64url (bytes_of (payload_text sub iat (iat + access_ttl env) (is_admin env sub))) in
  match jwtSecret env with
  | Throw e => Throw e
  | Ok secret =>
      Ok (header +:+ "." +:+ body +:+ "." +:+ base64url (hmac_bytes env secret (header +:+ "." +:+ body)))
  end.

(** [get('REFRESH_TOKEN_TTL') || REFRESH_TOKEN_TTL_DEFAULT]. *)
Definition refresh_ttl (env : Env) : Z :=
  match pv_configNumber (env_providers env) "REFRESH_TOKEN_TTL" with
  | Some n => if (n =? 0)%Z then REFRESH_TOKEN_TTL_DEFAULT else n
  | None => REFRESH_TOKEN_TTL_DEFAULT
  end.

(** A computation on the configuration and the clock that may throw. *)
Definition sync {X} (f : Env -> Z -> outcome X) : Prog X :=
  await (fun env w => (f env (env_now env (w_tick w)), w)).

Definition generateAuthTokens (userId : string) (parentTokenId : option string) : Prog AuthTokens :=
  let* token := sync (fun env now => issueJwt env now userId) in
  let* refreshToken := await (fun env w => (Ok (pv_randomHex (env_providers env) (w_tick w)), w)) in
  let* tokenHash := sync (fun env _ => hashToken env refreshToken) in
  let* expiresAt := sync (fun env now => Ok (now + refresh_ttl env * MILLISECONDS_PER_SECOND)%Z) in
  token_create userId tokenHash parentTokenId expiresAt ;;;
  Ret (mkTokens token refreshToken).

Definition buildChallenge (accountId : string) (timeout : Z) : Prog string :=
  let* challengeTx := await (fun env w =>
    (wa_build (pv_webauth (env_providers env)) (w_tick w) accountId timeout, w)) in
  let* txHash := sync (fun env _ => wa_hash (pv_webauth (env_providers env)) challengeTx) in
  let* expiresAt := sync (fun _ now => Ok (now + timeout * MILLISECONDS_PER_SECOND)%Z) in
  nonce_create txHash accountId challengeTx expiresAt ;;;
  Ret challengeTx.

Definition unauthorized {X} (r : outcome X) : outcome X :=
  match r with Ok x => Ok x | Throw e => Throw (UnauthorizedException (exn_message e)) end.

(** The client account and the hash of a challenge. *)
Definition read_challenge (env : Env) (challengeTx : string) : outcome (string * string) :=
  let wa := pv_webauth (env_providers env) in
  unauthorized (match wa_read wa challengeTx with
                | Throw e => Throw e
                | Ok client => match wa_hash wa challengeTx with Ok h => Ok (client, h) | Throw e => Throw e end
                end).

Definition verifyAndIssueToken (challengeTx : string) : Prog AuthTokens :=
  let* read := sync (fun env _ => read_challenge env challengeTx) in
  let* nonceRecord := nonce_findUnique read.2 in
  match nonceRecord with
  | None => Raise (UnauthorizedException "Challenge not found")
  | Some row =>
      if no_used row then Raise (UnauthorizedException "Challenge has already been used")
      else
        let* t := await now in
        if (no_expiresAt row <? t)%Z then Raise (UnauthorizedException "Challenge expired")
        else
          sync (fun env _ => unauthorized (wa_verify (pv_webauth (env_providers env)) challengeTx read.1)) ;;;
          nonce_setUsed (no_id row) ;;;
          generateAuthTokens read.1 None
  end.

Definition revokeTokenFamily (tokenId : string) : Prog unit :=
  let* token := token_findById tokenId in
  match token with
  | Some r => token_revokeUser (tk_userId r)
  | None => Ret tt
  end.

Definition REUSED : exn := UnauthorizedException "Refresh token reuse detected. All sessions revoked.".

Definition rotateRefreshToken (oldToken : string) : Prog AuthTokens :=
  let* tokenHash := sync (fun env _ => hashToken env oldToken) in
  let* storedToken := token_findByHash tokenHash in
  match storedToken with
  | None => Raise (UnauthorizedException "Invalid refresh token")
  | Some r =>
      if tk_revoked r then revokeTokenFamily (tk_id r) ;;; Raise REUSED
      else
        let* t := await now in
        if (tk_expiresAt r <? t)%Z then Raise (UnauthorizedException "Refresh token expired")
        else
          token_revoke (tk_id r) ;;;
          generateAuthTokens (tk_userId r) (Some (tk_id r))
  end.

End Sep10.

(** ** The endpoints, after validation of their bodies *)

Module Sep10Controller.

(** [IsStellarAddress]: a non-empty string that the SDK accepts as a key. *)
Definition IsStellarAddress (env : Env) (address : string) : bool :=
  negb (bool_decide (address = "")) && pv_strkey (env_providers env) address.

Definition validated {X} (valid : Env -> bool) (m : Prog X) : Prog X :=
  let* ok := ask valid in if ok : bool then m else Raise (BadRequestException "Bad Request").

Definition challengeGet (account : string) : Prog string :=
  validated (fun env => IsStellarAddress env account) (Sep10.buildChallenge account CHALLENGE_TIMEOUT_SECONDS).

Definition challengePost (publicKey : string) : Prog (string * string) :=
  validated (fun env => IsStellarAddress env publicKey)
    (let* transaction := Sep10.buildChallenge publicKey CHALLENGE_TIMEOUT_SECONDS in
     let* network_passphrase := ask Sep10.getNetworkPassphrase in
     Ret (transaction, network_passphrase)).

Definition length_within (lo hi : nat) (s : string) : bool :=
  Nat.leb lo (String.length s) && Nat.leb (String.length s) hi.

Definition verify (transaction : string) : Prog AuthTokens :=
  validated (fun _ => length_within 1 MAX_CHALLENGE_TRANSACTION_LENGTH transaction)
    (Sep10.verifyAndIssueToken transaction).

Definition refresh (refreshToken : string) : Prog AuthTokens :=
  validated (fun _ => length_within 1 MAX_REFRESH_TOKEN_LENGTH refreshToken)
    (Sep10.rotateRefreshToken refreshToken).

End Sep10Controller.
