(* ===== verification/Http.v ===== *)
(** * The HTTP edge

    What surrounds every handler: input sanitisation
    ([src/src/common/sanitization/sanitize.util.ts], [common/pipes/]), the
    validators, the exception filter, request ids, log levels, CORS, CSP and
    proxy trust ([common/filters/], [common/middleware/], [common/logger/],
    [common/security/], [main.ts]).  The URL parser is a parameter. *)
From Stdlib Require Import Ascii.
From S2P Require Import Prelude Records Dates Text Tables Crypto Json Effects Auth.
Local Open Scope char_scope.

(** ** Sanitisation *)

(** A control character other than tab, newline and carriage return. *)
Definition is_control (c : ascii) : bool :=
  let code := nat_of_ascii c in
  (Nat.leb code 31 && negb (Nat.eqb code 9) && negb (Nat.eqb code 10) && negb (Nat.eqb code 13)) || Nat.eqb code 127.

Fixpoint filter_string (P : ascii -> bool) (s : string) : string :=
  match s with
  | EmptyString => EmptyString
  | String c s => if P c then String c (filter_string P s) else filter_string P s
  end.

Definition stripControlChars (value : string) : string := filter_string (fun c => negb (is_control c)) value.

(** [value.replace(/<[^>]*>/g, '')]: [pending] is the text since a ['<'] that
    no ['>'] has closed yet. *)
Fixpoint strip_tags (pending : option string) (s : string) : string :=
  match s with
  | EmptyString => coalesce pending EmptyString
  | String c s =>
      match pending with
      | None => if bool_decide (c = "<") then strip_tags (Some (String c EmptyString)) s else String c (strip_tags None s)
      | Some text => if bool_decide (c = ">") then strip_tags None s else strip_tags (Some (text +:+ String c EmptyString)) s
      end
  end.

Definition is_angle (c : ascii) : bool := bool_decide (c = "<") || bool_decide (c = ">").

Definition sanitizeString (value : string) : string :=
  filter_string (fun c => negb (is_angle c)) (strip_tags None (stripControlChars value)).

(** The values of a parsed body; the keys of its objects are not touched. *)
Fixpoint sanitizeDeep (value : json) : json :=
  match value with
  | JStr s => JStr (sanitizeString s)
  | JArr items => JArr (sanitizeDeep <$> items)
  | JObj fields => JObj ((fun kv => (kv.1, match kv.2 with Some v => Some (sanitizeDeep v) | None => None end)) <$> fields)
  | v => v
  end.

(** [createGlobalPipes]: sanitisation first, then the [ValidationPipe]. *)
Definition global_pipes (validate : json -> outcome json) (body : json) : outcome json := validate (sanitizeDeep body).

(** ** Validators *)

Definition read_digits (s : string) : option (nat * string) :=
  match read_uint 10 0 0 s with (_, S n, rest) => Some (S n, rest) | _ => None end.

(** [/^(\d+)(?:\.(\d+))?(?:e([+-]\d+))?$/] on the text of a number: the length
    of the fraction and the exponent. *)
Definition number_text (text : string) : option (nat * Z) :=
  match read_digits text with
  | None => None
  | Some (_, rest) =>
      let '(fraction, rest) :=
        match rest with
        | String "." s => match read_digits s with Some (n, r) => (n, r) | None => (0, rest) end
        | _ => (0, rest)
        end in
      match rest with
      | EmptyString => Some (fraction, 0%Z)
      | String "e" (String sign s) =>
          match read_uint 10 0 0 s with
          | (v, S _, EmptyString) =>
              if bool_decide (sign = "+") then Some (fraction, v)
              else if bool_decide (sign = "-") then Some (fraction, (- v)%Z) else None
          | _ => None
          end
      | _ => None
      end
  end.

(** [None] is infinity. *)
Definition countDecimalPlaces (abs_text : string) : option Z :=
  match number_text abs_text with
  | None => None
  | Some (fraction, exponent) => Some (Z.max 0 (Z.of_nat fraction - exponent))
  end.

Definition MaxDecimalPlaces_validate (env : Env) (maxPlaces : Z) (value : number) : bool :=
  match value with
  | NaN => false
  | Finite m e =>
      match countDecimalPlaces (env_numberToString env (Finite (Z.abs m) e)) with
      | Some places => (places <=? maxPlaces)%Z
      | None => false
      end
  end.

(** ** Proxy trust *)

Definition all_digits (s : string) : bool :=
  match s with EmptyString => false | _ => forallb (char_in 48 57) (String.list_ascii_of_string s) end.

(** A decimal octet without a leading zero. *)
Definition is_octet (s : string) : bool :=
  match read_uint 10 0 0 s with
  | (v, S n, EmptyString) =>
      (v <=? 255)%Z && (Nat.eqb n 0 || match s with String "0" _ => false | _ => true end)
  | _ => false
  end.

Definition isIPv4 (s : string) : bool :=
  let parts := split_on "." s in Nat.eqb (length parts) 4 && forallb is_octet parts.

Definition is_hextet (s : string) : bool :=
  Nat.leb 1 (String.length s) && Nat.leb (String.length s) 4 &&
  forallb (fun c => match hex_val c with Some _ => true | None => false end) (String.list_ascii_of_string s).

Definition segments (s : string) : list string := match s with EmptyString => [] | _ => split_on ":" s end.

(** The 16-bit units of a sequence of segments that may end in an IPv4
    address, [None] when a segment is malformed. *)
Fixpoint units (l : list string) : option nat :=
  match l with
  | [] => Some 0
  | [last] => if is_hextet last then Some 1 else if isIPv4 last then Some 2 else None
  | s :: l => if is_hextet s then match units l with Some n => Some (S n) | None => None end else None
  end.

(** The text before and after the first ["::"]. *)
Fixpoint split_gap (s : string) : option (string * string) :=
  match s with
  | EmptyString => None
  | String c s' =>
      match s' with
      | String d rest =>
          if bool_decide (c = ":") && bool_decide (d = ":") then Some (EmptyString, rest)
          else match split_gap s' with Some (a, b) => Some (String c a, b) | None => None end
      | EmptyString => None
      end
  end.

Definition is_zone_char (c : ascii) : bool :=
  char_in 48 57 c || char_in 65 90 c || char_in 97 122 c || bool_decide (c ∈ ["-"; "."; ":"]).

(** Eight units, or at most seven around one gap; then an optional zone. *)
Definition isIPv6 (s : string) : bool :=
  let '(address, zone_ok) :=
    match split_on "%" s with
    | [a] => (a, true)
    | [a; zone] => (a, negb (bool_decide (zone = EmptyString)) && forallb is_zone_char (String.list_ascii_of_string zone))
    | _ => (s, false)
    end in
  zone_ok &&
  match split_gap address with
  | None => bool_decide (units (segments address) = Some 8)
  | Some (before, after) =>
      forallb is_hextet (segments before) &&
      match units (segments after) with
      | Some n => Nat.leb (length (segments before) + n) 7
      | None => false
      end
  end.

Definition isIP (s : string) : Z := if isIPv4 s then 4 else if isIPv6 s then 6 else 0.

Inductive TrustProxySetting : Type := Hops (n : Z) | Entries (l : list string).

Definition TRUST_PROXY_PRESETS : list string := ["loopback"; "linklocal"; "uniquelocal"]%string.

Definition isTrustedProxyEntry (entry : string) : bool :=
  bool_decide (entry ∈ TRUST_PROXY_PRESETS) || negb (isIP entry =? 0)%Z ||
  match split_on "/" entry with
  | [address; prefix] =>
      negb (bool_decide (address = EmptyString)) && all_digits prefix &&
      (let maxPrefix := (if isIP address =? 4 then 32 else if isIP address =? 6 then 128 else -1)%Z in
       (0 <=? maxPrefix)%Z && (let '(v, _, _) := read_uint 10 0 0 prefix in v <=? maxPrefix)%Z)
  | _ => false
  end.

Definition parseTrustProxy (raw : string) : option TrustProxySetting :=
  let value := trim raw in
  if all_digits value then
    let '(hops, _, _) := read_uint 10 0 0 value in
    if (1 <=? hops)%Z then Some (Hops hops) else None
  else
    let entries := trim <$> split_on "," value in
    if forallb isTrustedProxyEntry entries then Some (Entries entries) else None.

(** ** Throttling *)

(** The integer a double is, if it is one. *)
Definition integer_of (x : number) : option Z :=
  match x with
  | NaN => None
  | Finite m e =>
      let p := (2 ^ Z.max 0 (- e))%Z in
      if (m mod p =? 0)%Z then Some (m / p * 2 ^ Z.max 0 e)%Z else None
  end.

(** [Number(undefined)] is [NaN]. *)
Definition toPositiveInt (raw : option string) (fallback : Z) : Z :=
  match raw with
  | None => fallback
  | Some s => match integer_of (Number_of_string s) with Some n => if (0 <? n)%Z then n else fallback | None => fallback end
  end.

Definition THROTTLE_WINDOW_MS : Z := 60000.

Definition EVIDENCE_UPLOAD_THROTTLE (process_env : string -> option string) : Z * Z :=
  (toPositiveInt (process_env "EVIDENCE_UPLOAD_TTL"%string) 60000, toPositiveInt (process_env "EVIDENCE_UPLOAD_LIMIT"%string) 10).
Definition AUTH_CHALLENGE_THROTTLE (process_env : string -> option string) : Z * Z :=
  (toPositiveInt (process_env "AUTH_CHALLENGE_WINDOW"%string) 60000, toPositiveInt (process_env "AUTH_CHALLENGE_LIMIT"%string) 10).

(** ** Request ids *)

(** [/^[A-Za-z0-9._-]{1,128}$/]. *)
Definition REQUEST_ID_PATTERN (s : string) : bool :=
  Nat.leb 1 (String.length s) && Nat.leb (String.length s) 128 &&
  forallb (fun c => char_in 48 57 c || char_in 65 90 c || char_in 97 122 c || bool_decide (c ∈ ["."; "_"; "-"]))
    (String.list_ascii_of_string s).

Definition requestId (incoming : HeaderValue) (uuid : string) : string :=
  match first_header incoming with
  | Some h => if REQUEST_ID_PATTERN (trim h) then trim h else uuid
  | None => uuid
  end.

(** ** Logging *)

Local Open Scope string_scope.

Definition LEVEL_PRIORITY (level : string) : option nat :=
  if bool_decide (level = "trace") then Some 0
  else if bool_decide (level = "debug") then Some 1
  else if bool_decide (level = "info") then Some 2
  else if bool_decide (level = "log") then Some 2
  else if bool_decide (level = "warn") then Some 3
  else if bool_decide (level = "error") then Some 4
  else if bool_decide (level = "fatal") then Some 5
  else None.

Definition shouldLog (log_level : option string) (level : string) : bool :=
  let min := coalesce (LEVEL_PRIORITY (toLowerCase (coalesce log_level "info"))) 2 in
  let cur := coalesce (LEVEL_PRIORITY (toLowerCase level)) 2 in
  Nat.leb min cur.

(** [/^\/health(?:\/live|\/ready)?\/?$/]. *)
Definition HEALTH_PROBE_PATH (path : string) : bool :=
  bool_decide (path ∈ ["/health"; "/health/"; "/health/live"; "/health/live/"; "/health/ready"; "/health/ready/"]).

Definition request_level (statusCode : Z) (originalUrl : string) : string :=
  if (500 <=? statusCode)%Z then "error"
  else if (400 <=? statusCode)%Z then "warn"
  else if HEALTH_PROBE_PATH (match split_on "?" originalUrl with p :: _ => p | [] => "" end) then "debug"
  else "info".

(** ** The exception filter *)

Inductive NodeEnv : Type := Development | Production | TestEnv.

#[export] Instance NodeEnv_eq_dec : EqDecision NodeEnv.
Proof. solve_decision. Defined.

(** What an [HttpException] answers with. *)
Inductive ExceptionResponse : Type := ResponseText (s : string) | ResponseObject (o : json).

(** What a handler may throw: an [HttpException]; another [Error], with the
    properties the filter looks at; or any other value. *)
Inductive Exception : Type :=
| ThrownHttp (status : Z) (name message : string) (response : ExceptionResponse)
| ThrownError (name message : string) (code : option string) (details : option json) (stack : option string)
| ThrownValue (v : json).

(** A message is a text, or the list of a failed validation. *)
Inductive Message : Type := OneMessage (s : string) | Messages (l : list string).

Record StandardErrorResponse : Type := mkErrorResponse {
  er_statusCode : Z;
  er_message : Message;
  er_error : string;
  er_timestamp : Z;
  er_path : string;
  er_requestId : string;
  er_details : option json
}.

(** What the filter reads of the request. *)
Record FilteredRequest : Type := mkFilteredRequest {
  fr_method : string;
  fr_url : string;
  fr_ip : option string;
  fr_userAgent : option string;
  fr_requestId : option string
}.

(** [asHttpExceptionBody(response).message], when it is truthy. *)
Definition body_message (o : json) : option Message :=
  match get_field "message" o with
  | Some (JStr s) => if bool_decide (s = "") then None else Some (OneMessage s)
  | Some (JArr l) => Some (Messages (omap (fun v => match v with JStr s => Some s | _ => None end) l))
  | _ => None
  end.

(** [exception.code], when it is a string. *)
Definition thrown_code (t : Exception) : option string :=
  match t with
  | ThrownHttp _ _ _ _ => None
  | ThrownError _ _ code _ _ => code
  | ThrownValue v => field_str "code" v
  end.

(** The code of an error of Prisma's. *)
Definition isPrismaError (t : Exception) : option string :=
  match thrown_code t with Some code => if String.prefix "P" code then Some code else None | None => None end.

Definition isValidationError (t : Exception) : bool :=
  match t with ThrownError name _ _ _ _ => bool_decide (name = "ValidationError") | _ => false end.

(** [exception.message ?? 'Database error']. *)
Definition database_message (t : Exception) : json :=
  match t with
  | ThrownHttp _ _ message _ | ThrownError _ message _ _ _ => JStr message
  | ThrownValue v => match get_field "message" v with None | Some JNull => JStr "Database error" | Some m => m end
  end.

(** [exception?.message || 'Unknown error']. *)
Definition thrown_message (t : Exception) : Message :=
  match t with
  | ThrownHttp _ _ message _ | ThrownError _ message _ _ _ => OneMessage (or_str (Some message) "Unknown error")
  | ThrownValue v => coalesce (body_message v) (OneMessage "Unknown error")
  end.

Definition when_development (node_env : NodeEnv) (details : option json) : option json :=
  if bool_decide (node_env = Development) then details else None.

Definition handlePrismaError (node_env : NodeEnv) (t : Exception) (code : string) (now : Z) (path requestId : string)
    : StandardErrorResponse :=
  if bool_decide (code = "P2002") then
    mkErrorResponse 409 (OneMessage "A record with this data already exists") "ConflictError" now path requestId None
  else if bool_decide (code = "P2025") then
    mkErrorResponse 404 (OneMessage "Record not found") "NotFoundError" now path requestId None
  else
    mkErrorResponse 500 (OneMessage "Database error") "DatabaseError" now path requestId
      (when_development node_env (Some (JObj [("code", Some (JStr code)); ("message", Some (database_message t))]))).

(** An error that is neither an [HttpException] nor Prisma's. *)
Definition otherError (node_env : NodeEnv) (t : Exception) (now : Z) (path requestId : string) : StandardErrorResponse :=
  if isValidationError t then
    mkErrorResponse 400 (OneMessage "Validation failed") "ValidationError" now path requestId
      (when_development node_env match t with ThrownError _ _ _ details _ => details | _ => None end)
  else
    mkErrorResponse 500
      (if bool_decide (node_env = Production) then OneMessage "Internal server error" else thrown_message t)
      "InternalServerError" now path requestId
      (when_development node_env
         match t with ThrownValue v => Some v | ThrownError _ _ _ _ stack => JStr <$> stack | _ => None end).

Definition buildErrorResponse (node_env : NodeEnv) (t : Exception) (now : Z) (req : FilteredRequest) : StandardErrorResponse :=
  let path := fr_url req in
  let requestId := coalesce (fr_requestId req) "unknown" in
  match t with
  | ThrownHttp status name message response =>
      mkErrorResponse status
        match response with
        | ResponseText s => OneMessage s
        | ResponseObject o => coalesce (body_message o) (OneMessage message)
        end name now path requestId
        (when_development node_env match response with ResponseText _ => None | ResponseObject o => Some o end)
  | _ =>
      match isPrismaError t with
      | Some code => handlePrismaError node_env t code now path requestId
      | None => otherError node_env t now path requestId
      end
  end.

Fixpoint join_with (sep : string) (l : list string) : string :=
  match l with
  | [] => ""
  | [s] => s
  | s :: l => s +:+ sep +:+ join_with sep l
  end.

Definition formatMessage (m : Message) : string :=
  match m with OneMessage s => s | Messages l => join_with "; " l end.

(** A call of the logger. *)
Record FilterLog : Type := mkFilterLog {
  fl_level : string;
  fl_message : string;
  fl_context : list (string * option string)
}.

Definition logError (req : FilteredRequest) (r : StandardErrorResponse) : FilterLog :=
  let status := bigint_toString (er_statusCode r) in
  mkFilterLog
    (if (500 <=? er_statusCode r)%Z then "error" else "warn")
    (fr_method req +:+ " " +:+ fr_url req +:+ " - " +:+ status +:+ " - " +:+ formatMessage (er_message r))
    [("method", Some (fr_method req)); ("url", Some (fr_url req)); ("ip", fr_ip req);
     ("userAgent", Some (or_str (fr_userAgent req) "")); ("requestId", Some (er_requestId r));
     ("statusCode", Some status); ("timestamp", Some (toISOString (er_timestamp r)))].

(** [GlobalExceptionFilter.catch]: what is sent, with its status, and logged. *)
Definition filter_catch (node_env : NodeEnv) (t : Exception) (now : Z) (req : FilteredRequest)
    : StandardErrorResponse * FilterLog :=
  let r := buildErrorResponse node_env t now req in (r, logError req r).

(** *** The exceptions of the program *)

(** [exception.name]. *)
Definition exn_name (e : exn) : string :=
  match e with
  | BadRequestException _ => "BadRequestException"
  | UnauthorizedException _ => "UnauthorizedException"
  | ForbiddenException _ => "ForbiddenException"
  | NotFoundException _ => "NotFoundException"
  | ConflictException _ => "ConflictException"
  | UnprocessableEntityException _ => "UnprocessableEntityException"
  | InternalServerErrorException _ => "InternalServerErrorException"
  | ServiceUnavailableException _ => "ServiceUnavailableException"
  | ContractCallFailedException _ => "ContractCallFailedException"
  | AutoReleaseSourceNotConfiguredError => "AutoReleaseSourceNotConfiguredError"
  | PrismaError _ => "PrismaClientKnownRequestError"
  | JsError _ => "Error"
  end.

(** An exception of the handlers as the filter sees it.  The response of an
    [HttpException] carries its message; of an error of another class the
    filter sees the code Prisma gives it and a stack. *)
Definition thrown_of (stack : option string) (e : exn) : Exception :=
  match exn_status e with
  | Some status => ThrownHttp status (exn_name e) (exn_message e) (ResponseObject (JObj [("message", Some (JStr (exn_message e)))]))
  | None => ThrownError (exn_name e) (exn_message e) (match e with PrismaError code => Some code | _ => None end) None stack
  end.

(** [SentryInterceptor] reports these. *)
Definition isServerError (e : exn) : bool :=
  match exn_status e with Some status => (500 <=? status)%Z | None => true end.

(** ** CORS, CSP and cache headers *)

Definition getAllowedOrigins (raw : option string) : list string :=
  match raw with
  | None => []
  | Some s => List.filter (fun o => negb (bool_decide (o = ""))) ((fun o => stripTrailingSlashes (trim o)) <$> split_on "," s)
  end.

(** The decision of [app.enableCors] for a request's [Origin]. *)
Definition cors_allows (allowedOrigins : list string) (node_env : NodeEnv) (origin : option string) : bool :=
  match allowedOrigins with
  | [] => negb (bool_decide (node_env = Production))
  | _ =>
      match origin with
      | None => true
      | Some o => if bool_decide (o = "") then true else bool_decide (o ∈ allowedOrigins)
      end
  end.

(** What the log line says of it. *)
Inductive OriginsLog : Type := LogOrigins (l : list string) | LogNone | LogAll.

Definition getAllowedOriginsLogValue (allowedOrigins : list string) (node_env : NodeEnv) : OriginsLog :=
  match allowedOrigins with
  | _ :: _ => LogOrigins allowedOrigins
  | [] => if bool_decide (node_env = Production) then LogNone else LogAll
  end.

Section csp.
(** [new URL(raw)]: its protocol and origin, [None] when it throws. *)
Context (URL : string -> option (string * string)).

Definition SELF : string := "'self'".

Definition add_source (sources : list string) (s : string) : list string :=
  if bool_decide (s ∈ sources) then sources else sources ++ [s].

Definition addOrigin (sources : list string) (rawUrl : option string) : list string :=
  match rawUrl with
  | None => sources
  | Some raw =>
      if bool_decide (raw = "") then sources
      else match URL raw with
           | Some (protocol, origin) =>
               if bool_decide (protocol = "https:") || bool_decide (protocol = "http:")
               then add_source sources origin else sources
           | None => sources
           end
  end.

Definition parseCsv (raw : option string) : list string :=
  match raw with
  | None => []
  | Some s => List.filter (fun v => negb (bool_decide (v = ""))) (trim <$> split_on "," s)
  end.

Definition HORIZON_URL (mainnet : bool) : string :=
  if mainnet then "https://horizon.stellar.org" else "https://horizon-testnet.stellar.org".

Record CspConnectSourceConfig : Type := mkCsp {
  cs_mainnet : bool; cs_stellarHorizonUrl : option string; cs_sentryDsn : option string;
  cs_otelExporterOtlpEndpoint : option string; cs_logisticsApiBaseUrl : option string; cs_extraConnectSrc : option string }.

Definition add_extra (sources : list string) (raw : string) : list string :=
  if bool_decide (raw = SELF) then add_source sources raw else addOrigin sources (Some raw).

Definition buildCspConnectSrc (c : CspConnectSourceConfig) : list string :=
  let s1 := addOrigin [SELF] (Some (coalesce (cs_stellarHorizonUrl c) (HORIZON_URL (cs_mainnet c)))) in
  let s2 := addOrigin s1 (cs_sentryDsn c) in
  let s3 := addOrigin s2 (cs_otelExporterOtlpEndpoint c) in
  let s4 := addOrigin s3 (cs_logisticsApiBaseUrl c) in
  foldl add_extra s4 (parseCsv (cs_extraConnectSrc c)).
End csp.

(** [SecurityMiddleware]: responses to authorised requests are not cached. *)
Definition security_headers (authorization : HeaderValue) : list (string * string) :=
  if truthy (first_header authorization)
  then [("Cache-Control", "no-store"); ("Pragma", "no-cache")] else [].
