(* ===== verification/Logging.v ===== *)
(** * Log lines

    [JsonLoggerService] ([common/logger/json-logger.service.ts]), which writes
    one JSON object per line, and [LoggerMiddleware]
    ([common/middleware/logger.middleware.ts]), which logs every finished
    request.  What a call writes to standard output is its value, [None] when
    the level is below the threshold.  Messages are strings; no key of an entry
    looks like an integer, so keys keep the order of their insertion. *)
From S2P Require Import Prelude Records Doubles Dates Text Tables Crypto Json Stringify Effects Auth Http.
Local Open Scope string_scope.

(** What the process is. *)
Record Process : Type := mkProcess { ps_pid : Z; ps_env : string -> option string; ps_nts : number -> string }.

Definition LF : string := String (Ascii.ascii_of_nat 10) EmptyString.

Definition entry_of := list (string * option json).

(** [o[key] = value]. *)
Fixpoint assign (o : entry_of) (key : string) (value : option json) : entry_of :=
  match o with
  | [] => [(key, value)]
  | (k, v) :: o => if bool_decide (k = key) then (k, value) :: o else (k, v) :: assign o key value
  end.

(** [{ ...o, ...fields }]. *)
Definition spread (o fields : entry_of) : entry_of := foldl (fun o kv => assign o kv.1 kv.2) o fields.

Definition write_line (p : Process) (entry : entry_of) : string := JSON_stringify (ps_nts p) (JObj entry) +:+ LF.

Definition base_entry (p : Process) (level context msg : string) (now : Z) : entry_of :=
  [("level", Some (JStr level)); ("time", Some (JStr (toISOString now))); ("pid", Some (JNum (of_Z (ps_pid p))));
   ("env", Some (JStr (coalesce (ps_env p "NODE_ENV") "development"))); ("context", Some (JStr context));
   ("msg", Some (JStr msg))].

Definition emit (p : Process) (level message : string) (context stack : option string) (now : Z) : option string :=
  if negb (shouldLog (ps_env p "LOG_LEVEL") level) then None
  else
    let entry := base_entry p level (coalesce context "App") message now in
    Some (write_line p (if truthy stack then assign entry "stack" (JStr <$> stack) else entry)).

Module JsonLoggerService.
Section service.
(** [this.context], and the time of the call. *)
Context (p : Process) (this_context : option string) (now : Z).

(** [context ?? this.context]. *)
Definition context_of (context : option string) : option string :=
  match context with Some c => Some c | None => this_context end.

Definition log (message : string) (context : option string) := emit p "info" message (context_of context) None now.
Definition error (message : string) (stack context : option string) := emit p "error" message (context_of context) stack now.
Definition warn (message : string) (context : option string) := emit p "warn" message (context_of context) None now.
Definition debug (message : string) (context : option string) := emit p "debug" message (context_of context) None now.
Definition verbose (message : string) (context : option string) := emit p "trace" message (context_of context) None now.

Definition structured (level msg : string) (fields : entry_of) (context : option string) : option string :=
  if negb (shouldLog (ps_env p "LOG_LEVEL") level) then None
  else
    let shown := if bool_decide (level = "log") then "info" else level in
    Some (write_line p (spread (base_entry p shown (coalesce (context_of context) "App") msg now) fields)).

End service.
End JsonLoggerService.

Module LoggerMiddleware.

(** The part of a request the middleware reads. *)
Record Req : Type := mkReq {
  rq_method : string; rq_originalUrl : string; rq_ip : option string; rq_userAgent : option string;
  rq_requestId : option string }.

(** [Number(res.get('Content-Length') ?? 0)]. *)
Definition contentLength_of (header : option string) : number :=
  match header with Some h => Number_of_string h | None => of_Z 0 end.

Definition request_fields (req : Req) (statusCode : Z) (contentLength : option string) (responseTime : Z) : entry_of :=
  [("requestId", JStr <$> rq_requestId req); ("method", Some (JStr (rq_method req)));
   ("url", Some (JStr (rq_originalUrl req))); ("statusCode", Some (JNum (of_Z statusCode)));
   ("responseTime", Some (JNum (of_Z responseTime))); ("contentLength", Some (JNum (contentLength_of contentLength)));
   ("ip", JStr <$> rq_ip req); ("userAgent", Some (JStr (coalesce (rq_userAgent req) "")))].

(** The listener of [finish]: [startTime] when the request came in, [endTime]
    when the answer was sent, [now] when the line is written. *)
Definition on_finish (p : Process) (req : Req) (startTime endTime now : Z) (statusCode : Z) (contentLength : option string)
    : option string :=
  JsonLoggerService.structured p None now (request_level statusCode (rq_originalUrl req))
    (rq_method req +:+ " " +:+ rq_originalUrl req +:+ " " +:+ bigint_toString statusCode)
    (request_fields req statusCode contentLength (endTime - startTime)) (Some "HTTP").

End LoggerMiddleware.
