(* ===== verification/Health.v ===== *)
(** * Health probes and outbound requests

    [app.controller.ts], [soroban-health.service.ts], [horizon.service.ts],
    [CacheService.ping], the JSON-RPC requests of [soroban-poller.service.ts]
    and [queue-dashboard.service.ts].  A request of the outside world is
    answered after a number of milliseconds with an outcome; what is raced
    against a timer only counts if it comes first.  The probes of one
    [Promise.all] only read, so they are run one after the other. *)
From S2P Require Import Prelude Records Doubles Dates Text Tables Crypto Json Effects Cache Prisma Coherence RetryQueue Analytics Auth Http.
Local Open Scope prog_scope.

Class Probes := {
  pb_get : nat -> string -> Z * outcome Z;                  (* [fetch] of a URL: the status of the answer *)
  pb_getHealth : option (nat -> Z * outcome (option string)); (* [getHealth] of the server, if it has one *)
  pb_sorobanHealth : bool;                                  (* [SorobanHealthService] is injected *)
  pb_ping : nat -> string;                                  (* the reply of Redis to [PING] *)
  pb_aborted : string;                                      (* the message of an aborted [fetch] *)
  pb_transaction : nat -> string -> outcome (Z * option number); (* [axios.get] of a transaction *)
  pb_identity : option (string * string)                    (* name and version of [package.json] *)
}.

Definition ms_text (n : Z) : string := bigint_toString n.

(** ** Components *)

Inductive ComponentStatus : Type := STATUS_ok | STATUS_down.

#[export] Instance ComponentStatus_eq_dec : EqDecision ComponentStatus.
Proof. solve_decision. Defined.

Inductive OptionalComponentStatus : Type := Required (s : ComponentStatus) | STATUS_disabled.

Record ComponentHealth : Type := mkHealth { ch_status : ComponentStatus; ch_error : option string }.

Definition healthy : ComponentHealth := mkHealth STATUS_ok None.
Definition down (error : string) : ComponentHealth := mkHealth STATUS_down (Some error).

(** What a promise raced against a timer of [limit] milliseconds yields. *)
Definition in_time {A} (limit : Z) (reply : Z * outcome A) : option (outcome A) :=
  if (reply.1 <? limit)%Z then Some reply.2 else None.

(** ** Horizon *)

Module Horizon.
Section service.
Context {P : Probes}.

Definition HEALTH_CHECK_TIMEOUT_MS : Z := 150.
Definition pollIntervalMs : Z := 100.

Definition horizonUrl (env : Env) : string :=
  or_str (env_config env "STELLAR_HORIZON_URL")
    (HORIZON_URL (bool_decide (env_config env "STELLAR_NETWORK" = Some "MAINNET"))).

(** [response.ok]. *)
Definition response_ok (status : Z) : bool := (200 <=? status)%Z && (status <? 300)%Z.

(** [fetch] with the signal of a controller that aborts after the limit. *)
Definition fetch (url : string) : Action Z := fun _ w =>
  (coalesce (in_time HEALTH_CHECK_TIMEOUT_MS (pb_get (w_tick w) url)) (Throw (JsError pb_aborted)), tick w).

Definition checkHealth : Prog ComponentHealth :=
  catch
    (let* url := ask horizonUrl in
     let* status := await (fetch url) in
     if response_ok status then Ret healthy
     else Ret (down ("Horizon returned status " +:+ ms_text status)))
    (fun err => Ret (down (exn_message err))).

(** [Number(response.data?.confirmations ?? 0) >= target]. *)
Definition number_ge (x : number) (n : Z) : bool :=
  match x with NaN => false | Finite m e => (n * number_den e <=? number_num m e)%Z end.

Record Confirmation : Type := mkConfirmation { cf_confirmations : number; cf_hash : string }.

(** The rounds of the loop; [fuel] bounds them. *)
Fixpoint poll_rounds (fuel : nat) (transactionHash : string) (targetConfirmations timeoutMs start : Z)
    : Prog Confirmation :=
  let timed_out := Raise (JsError "Horizon confirmation timed out") in
  match fuel with
  | O => Raise (JsError "out of fuel")
  | S fuel =>
      let* t := await now in
      if (t - start <? timeoutMs)%Z then
        let* url := ask horizonUrl in
        let path := (url +:+ "/transactions/" +:+ encodeURIComponent transactionHash)%string in
        let again := await sleep ;;; poll_rounds fuel transactionHash targetConfirmations timeoutMs start in
        let* response := attempt (await (ext_call (fun t => pb_transaction t path))) in
        let failed := (let* t := await now in if (timeoutMs <=? t - start)%Z then timed_out else again) in
        match response with
        | Ok (status, data) =>
            if negb (status =? 200)%Z then failed
            else
              let confirmations := coalesce data zero in
              if number_ge confirmations targetConfirmations
              then Ret (mkConfirmation confirmations transactionHash) else again
        | Throw _ => failed
        end
      else timed_out
  end.

Definition CONFIRM_FUEL (timeoutMs : Z) : nat := Z.to_nat (timeoutMs / pollIntervalMs + 2).

Definition pollConfirmation (transactionHash : string) (targetConfirmations timeoutMs : Z) : Prog Confirmation :=
  let* start := await now in
  poll_rounds (CONFIRM_FUEL timeoutMs) transactionHash targetConfirmations timeoutMs start.

End service.
End Horizon.

(** ** Soroban RPC *)

Module SorobanHealth.
Section service.
Context {P : Probes}.

Definition SOROBAN_HEALTH_TIMEOUT_MS : Z := 150.

Definition HEALTHY_STATUSES (status : string) : bool := bool_decide (status = "pass").

(** [Promise.race] of the call and the timer; [None] is ['timeout']. *)
Definition race (getHealth : nat -> Z * outcome (option string)) : Action (option (option string)) := fun _ w =>
  (match in_time SOROBAN_HEALTH_TIMEOUT_MS (getHealth (w_tick w)) with
   | Some (Ok status) => Ok (Some status)
   | Some (Throw e) => Throw e
   | None => Ok None
   end, tick w).

Definition checkHealth : Prog ComponentHealth :=
  match pb_getHealth with
  | None => Ret healthy
  | Some getHealth =>
      catch
        (let* response := await (race getHealth) in
         match response with
         | None => Ret (down ("Soroban RPC did not respond within " +:+ ms_text SOROBAN_HEALTH_TIMEOUT_MS +:+ "ms"))
         | Some (Some status) =>
             if HEALTHY_STATUSES status then Ret healthy
             else if bool_decide (status = "") then Ret (down "Soroban RPC returned no health status")
             else Ret (down ("Soroban RPC reported status " +:+ status))
         | Some None => Ret (down "Soroban RPC returned no health status")
         end)
        (fun err => Ret (down (exn_message err)))
  end.

End service.
End SorobanHealth.

(** ** Redis *)

(** [CacheService.ping]: [ok], [down] or [disabled]; it never rejects. *)
Definition ping {P : Probes} : Action string := fun env w =>
  if negb (env_redis env) then (Ok "disabled", w)
  else if env_redis_down env (w_tick w) then (Ok "down", tick w)
  else (Ok (if bool_decide (pb_ping (w_tick w) = "PONG") then "ok" else "down"), tick w).

(** ** The probes *)

Module AppController.
Section controller.
Context {P : Probes}.

Definition checkDatabase : Prog ComponentHealth :=
  catch (await (escrow_findMany (fun _ => true) (fun _ _ => true) (take 1)) ;;; Ret healthy)
    (fun err => Ret (down (exn_message err))).

Definition checkHorizon : Prog ComponentHealth := Horizon.checkHealth.

Definition checkSoroban : Prog ComponentHealth :=
  if pb_sorobanHealth then SorobanHealth.checkHealth
  else Ret (down "Soroban RPC health service is not available").

(** With the [rawStatus] of the answer. *)
Definition checkRedis : Prog (ComponentHealth * option string) :=
  catch
    (let* result := await ping in
     if bool_decide (result = "ok") then Ret (healthy, None)
     else Ret (down (if bool_decide (result = "disabled") then "Redis not configured" else "Redis connection failed"),
            Some result))
    (fun err => Ret (down (exn_message err), Some "error")).

Record DependencyCheckResults : Type := mkChecks {
  dc_db : ComponentHealth; dc_horizon : ComponentHealth; dc_soroban : ComponentHealth;
  dc_redis : ComponentHealth * option string }.

Definition checkAllDependencies : Prog DependencyCheckResults :=
  let* db := checkDatabase in
  let* horizon := checkHorizon in
  let* soroban := checkSoroban in
  let* redis := checkRedis in
  Ret (mkChecks db horizon soroban redis).

Record ReadinessDetails : Type := mkDetails {
  rd_db : option ComponentHealth; rd_horizon : option ComponentHealth; rd_soroban : option ComponentHealth }.

Record ReadinessResponse : Type := mkReadiness {
  rr_httpStatus : Z;
  rr_status : ComponentStatus;
  rr_db : ComponentStatus;
  rr_horizon : ComponentStatus;
  rr_soroban : ComponentStatus;
  rr_redis : OptionalComponentStatus;
  rr_timestamp : string;
  rr_environment : option string;
  rr_version : string;
  rr_durationMs : Z;
  rr_details : option ReadinessDetails
}.

Definition FALLBACK_IDENTITY : string * string := ("trustlink-backend", "1.0.0").

Definition getAppName : string := (coalesce pb_identity FALLBACK_IDENTITY).1.
Definition getAppVersion : string := (coalesce pb_identity FALLBACK_IDENTITY).2.

Definition is_up (c : ComponentHealth) : bool := bool_decide (ch_status c = STATUS_ok).

(** The entry of [details] of a component. *)
Definition detail (c : ComponentHealth) : option ComponentHealth :=
  if bool_decide (ch_status c = STATUS_down) then Some (mkHealth STATUS_down (ch_error c)) else None.

Definition redis_status (r : ComponentHealth * option string) : OptionalComponentStatus :=
  if bool_decide (r.2 = Some "disabled") then STATUS_disabled
  else if is_up r.1 then Required STATUS_ok else Required STATUS_down.

Definition runReadinessCheck : Prog ReadinessResponse :=
  let* start := await now in
  let* checks := checkAllDependencies in
  let allOk := is_up (dc_db checks) && is_up (dc_horizon checks) && is_up (dc_soroban checks) in
  let* t := await now in
  let* environment := ask (fun env => env_config env "NODE_ENV") in
  Ret (mkReadiness (if allOk then 200 else 503) (if allOk then STATUS_ok else STATUS_down)
    (ch_status (dc_db checks)) (ch_status (dc_horizon checks)) (ch_status (dc_soroban checks))
    (redis_status (dc_redis checks)) (toISOString t) environment getAppVersion (t - start)
    (if allOk then None
     else Some (mkDetails (detail (dc_db checks)) (detail (dc_horizon checks)) (detail (dc_soroban checks))))).

Definition getReadiness : Prog ReadinessResponse := runReadinessCheck.
Definition getHealth : Prog ReadinessResponse := runReadinessCheck.

Record LivenessResponse : Type := mkLiveness {
  lv_timestamp : string; lv_environment : option string; lv_version : string }.

Definition getLiveness : Prog LivenessResponse :=
  let* t := await now in
  let* environment := ask (fun env => env_config env "NODE_ENV") in
  Ret (mkLiveness (toISOString t) environment getAppVersion).

Record VersionResponse : Type := mkVersion {
  vr_version : string; vr_name : string; vr_environment : option string; vr_commit : option string }.

Definition getVersion : Prog VersionResponse :=
  let* commit := ask (fun env => env_config env "GIT_SHA") in
  let* environment := ask (fun env => env_config env "NODE_ENV") in
  Ret (mkVersion getAppVersion getAppName environment (if truthy commit then commit else None)).

End controller.
End AppController.

(** ** The JSON-RPC requests of the event poller *)

Module SorobanRpc.

(** The body of an answer: the text of [error.message], or [result]. *)
Inductive RpcBody (A : Type) : Type :=
| RpcError (message : string)
| RpcResult (result : option A).
Arguments RpcError {A} message.
Arguments RpcResult {A} result.

Record RpcAnswer (A : Type) : Type := mkAnswer {
  ra_status : Z; ra_statusText : string; ra_body : outcome (RpcBody A) }.
Arguments mkAnswer {A}. Arguments ra_status {A}. Arguments ra_statusText {A}. Arguments ra_body {A}.

Definition is_newline (c : Ascii.ascii) : bool :=
  bool_decide (Ascii.nat_of_ascii c = 10) || bool_decide (Ascii.nat_of_ascii c = 13).

(** [start.?ledger] at the beginning of the (lower-case) text. *)
Definition start_ledger_here (s : string) : bool :=
  String.prefix "startledger" s ||
  (String.prefix "start" s &&
   match String.substring 5 (String.length s) s with
   | String c rest => negb (is_newline c) && String.prefix "ledger" rest
   | EmptyString => false
   end).

Fixpoint start_ledger (s : string) : bool :=
  start_ledger_here s || match s with String _ rest => start_ledger rest | EmptyString => false end.

(** The test for errors about the retention window, ignoring case. *)
Definition is_retention (message : string) : bool :=
  let m := toLowerCase message in
  start_ledger m || includes "ledger range" m || includes "retention" m.

Definition quoted (s : string) : string := DQ +:+ s +:+ DQ.

(** [rpcRequest]: [reply] is the answer of [fetch] and of reading its body,
    after so many milliseconds, to a request that is aborted at the limit. *)
Definition rpcRequest {A} (rpcTimeoutMs : Z) (method : string) (reply : Z * outcome (RpcAnswer A)) : outcome (option A) :=
  match in_time rpcTimeoutMs reply with
  | None => Throw (JsError ("Soroban RPC request " +:+ quoted method +:+ " timed out after " +:+ ms_text rpcTimeoutMs +:+ "ms"))
  | Some (Throw e) => Throw e
  | Some (Ok response) =>
      if negb (Horizon.response_ok (ra_status response)) then
        Throw (JsError ("Soroban RPC responded with HTTP " +:+ ms_text (ra_status response) +:+ ": " +:+ ra_statusText response))
      else
        match ra_body response with
        | Throw e => Throw e
        | Ok (RpcError message) =>
            Throw (JsError (if is_retention message
              then "Soroban RPC retention error — requested ledger is outside the node's retention window: " +:+ message
              else "Soroban RPC error: " +:+ message))
        | Ok (RpcResult result) => Ok result
        end
  end.

Section transport.
(** [fetch(this.rpcUrl, { method: 'POST', ... })] for the two methods. *)
Context (post_getEvents : nat -> EventsFrom -> Z * outcome (RpcAnswer (option (list SorobanRpcEvent)))).
Context (post_getLatestLedger : nat -> Z * outcome (RpcAnswer (option Z))).
Context (rpcTimeoutMs : Z).

Definition getEvents (t : nat) (from : EventsFrom) : outcome (list SorobanRpcEvent) :=
  match rpcRequest rpcTimeoutMs "getEvents" (post_getEvents t from) with
  | Ok (Some (Some events)) => Ok events
  | Ok _ => Ok []
  | Throw e => Throw e
  end.

(** A [sequence] that is not a number counts as none. *)
Definition getLatestLedger (t : nat) : outcome Z :=
  match rpcRequest rpcTimeoutMs "getLatestLedger" (post_getLatestLedger t) with
  | Ok (Some (Some sequence)) => Ok sequence
  | Ok _ => Throw (JsError "Soroban RPC getLatestLedger returned no ledger sequence")
  | Throw e => Throw e
  end.
End transport.

Definition RPC_URL (mainnet : bool) : string :=
  if mainnet then "https://mainnet.stellar.validationcloud.io/v1/soroban/rpc" else "https://soroban-testnet.stellar.org".

Definition resolveRpcUrl (env : Env) : outcome string :=
  let configured := env_config env "SOROBAN_RPC_URL" in
  if truthy configured then Ok (coalesce configured "")
  else if bool_decide (env_config env "NODE_ENV" = Some "production")
  then Throw (JsError "SOROBAN_RPC_URL is required in production — refusing to fall back to a default RPC endpoint")
  else Ok (RPC_URL (bool_decide (env_config env "STELLAR_NETWORK" = Some "MAINNET"))).

End SorobanRpc.

(** ** The queue dashboard *)

Module QueueDashboard.

Record QueueJobCounts : Type := mkCounts {
  qc_waiting : Z; qc_active : Z; qc_completed : Z; qc_failed : Z; qc_delayed : Z; qc_paused : Z }.

Record QueueStatsDto : Type := mkStats { qs_name : string; qs_counts : QueueJobCounts; qs_isPaused : bool }.

Record QueuesDashboardDto : Type := mkDashboard { qd_queues : list QueueStatsDto; qd_generatedAt : string }.

(** What [getJobCounts] reports: a count that is missing is absent. *)
Record RawCounts : Type := mkRaw {
  rc_waiting : option Z; rc_active : option Z; rc_completed : option Z;
  rc_failed : option Z; rc_delayed : option Z; rc_paused : option Z }.

(** The queues of BullMQ. *)
Class Queues := {
  bq_new : string -> outcome unit;                  (* [new Queue(name, { connection })] *)
  bq_getJobCounts : nat -> string -> outcome RawCounts;
  bq_isPaused : nat -> string -> outcome bool
}.

(** The fields of the service. *)
Record Service : Type := mkService { sv_queues : list string; sv_redisConnected : bool }.

Definition no_jobs : QueueJobCounts := mkCounts 0 0 0 0 0 0.

Definition queueNames : list string := ["auto-release"; "tracking-poll"; "notifications-retry"].

Definition getEmptyStats : list QueueStatsDto := (fun name => mkStats name no_jobs false) <$> queueNames.

Section service.
Context {Q : Queues}.

Definition open_queue (s : Service) (name : string) : Service :=
  match bq_new name with
  | Ok _ => mkService (sv_queues s ++ [name]) true
  | Throw _ => s
  end.

Definition onModuleInit (env : Env) : Service :=
  let idle := mkService [] false in
  if truthy (env_config env "REDIS_URL") then foldl open_queue idle queueNames else idle.

Definition queue_stats (name : string) : Prog QueueStatsDto :=
  catch
    (let* raw := await (ext_call (fun t => bq_getJobCounts t name)) in
     let counts := mkCounts (coalesce (rc_waiting raw) 0%Z) (coalesce (rc_active raw) 0%Z) (coalesce (rc_completed raw) 0%Z)
       (coalesce (rc_failed raw) 0%Z) (coalesce (rc_delayed raw) 0%Z) (coalesce (rc_paused raw) 0%Z) in
     let* isPaused := await (ext_call (fun t => bq_isPaused t name)) in
     Ret (mkStats name counts isPaused))
    (fun _ => Ret (mkStats name no_jobs false)).

(** [Promise.all(queues.map(...))]. *)
Fixpoint map_queues (names : list string) : Prog (list QueueStatsDto) :=
  match names with
  | [] => Ret []
  | name :: names =>
      let* s := queue_stats name in
      let* rest := map_queues names in
      Ret (s :: rest)
  end.

Definition getDashboard (s : Service) : Prog QueuesDashboardDto :=
  let* stats := (if negb (sv_redisConnected s) || Nat.eqb (length (sv_queues s)) 0 then Ret getEmptyStats
                 else map_queues (sv_queues s)) in
  let* t := await now in
  Ret (mkDashboard stats (toISOString t)).

End service.
End QueueDashboard.
