(* ===== verification/Config.v ===== *)
(** * Configuration

    [src/src/config]: the validation of the environment at start-up
    ([config.schema.ts]) and the reads of [config.service.ts].  The schema is
    modelled whole: which keys are required when, the defaults, the value
    lists, the ranges, the patterns and the custom validators.  What Joi takes
    for a URI, an e-mail address, a number or a boolean is a parameter, like
    the decoding of a Stellar key; its [string] refuses the empty string, its
    [hex().length(n)] counts hexadecimal digits, and a default is assigned
    without being checked. *)
From S2P Require Import Prelude Records Doubles Dates Text Tables Crypto Effects Auth Http Health.

Module ConfigSchema.

(** [process.env]. *)
Definition RawEnv : Type := string -> option string.

Definition is_production (raw : RawEnv) : bool := bool_decide (raw "NODE_ENV" = Some "production").
Definition is_mainnet (raw : RawEnv) : bool := bool_decide (raw "STELLAR_NETWORK" = Some "MAINNET").

(** *** Presence *)

Definition always_required : list string :=
  ["DATABASE_URL"; "SEP10_JWT_SECRET"; "PRESIGN_SECRET"; "SYSTEM_SIGNER_SECRET"; "CONTRACT_ID"; "ADMIN_ADDRESS"].

Definition required_in_production : list string :=
  ["FRONTEND_URL"; "EVIDENCE_STORAGE_BASE_URL"; "CONTACT_ENCRYPTION_KEY"; "CREDENTIAL_ENCRYPTION_KEY";
   "STELLAR_WEBHOOK_SECRET"; "SENTRY_DSN"; "SOROBAN_RPC_URL"].

Definition required_keys (raw : RawEnv) : list string :=
  always_required ++
  (if is_production raw then required_in_production else []) ++
  (if is_mainnet raw then ["SOROBAN_RPC_URL"] else []) ++
  (if truthy (raw "SENDGRID_API_KEY") then ["SENDGRID_FROM_EMAIL"] else []) ++
  match raw "TWILIO_ACCOUNT_SID" with Some _ => ["TWILIO_FROM_NUMBER"] | None => [] end.

(** The keys of type string without a value list; [SENTRY_DSN] is apart, since
    it may be empty outside production. *)
Definition string_keys : list string :=
  ["API_BASE_URL"; "FRONTEND_URL"; "EVIDENCE_STORAGE_BASE_URL"; "DATABASE_URL"; "CONTACT_ENCRYPTION_KEY";
   "CREDENTIAL_ENCRYPTION_KEY"; "SEP10_JWT_SECRET"; "PRESIGN_SECRET"; "SYSTEM_SIGNER_SECRET"; "SEP10_SIGNING_SECRET";
   "CONTRACT_ID"; "ADMIN_ADDRESS"; "ADMIN_NOTIFICATION_EMAIL"; "AUTO_RELEASE_SOURCE_ADDRESS"; "SENDGRID_API_KEY";
   "SENDGRID_FROM_EMAIL"; "TWILIO_ACCOUNT_SID"; "TWILIO_AUTH_TOKEN"; "TWILIO_FROM_NUMBER"; "ALLOWED_ORIGINS";
   "CSP_CONNECT_SRC"; "STELLAR_WEBHOOK_SECRET"; "REDIS_URL"; "OTEL_SERVICE_NAME"; "OTEL_SERVICE_VERSION";
   "OTEL_EXPORTER_OTLP_ENDPOINT"; "GIT_SHA"; "TRUST_PROXY"; "LOGISTICS_API_BASE_URL"; "LOGISTICS_API_KEY";
   "STELLAR_HORIZON_URL"; "SOROBAN_RPC_URL"].

Definition not_empty (raw : RawEnv) (key : string) : bool := negb (bool_decide (raw key = Some "")).

(** *** Validators: the reason a value is refused *)

(** [Keypair.fromPublicKey] and [Keypair.fromSecret] accept the key, and the
    types of Joi. *)
Class Joi := {
  fromPublicKey : string -> bool;
  fromSecret : string -> bool;
  joi_uri : string -> bool;
  joi_email : string -> bool;
  joi_number : string -> option number;   (* the number a text is converted to *)
  joi_boolean : string -> bool
}.

Section validators.
Context {J : Joi}.

Definition first_char (value : string) : string := String.substring 0 1 value.

Definition stellarPublicKey (value : string) : option string :=
  if negb (String.prefix "G" value) then
    Some ("must be a Stellar public key starting with G, got a value starting with '" +:+ first_char value +:+ "'")
  else if fromPublicKey value then None
  else Some "is an invalid Stellar public key — checksum verification failed. Check the value in your environment configuration.".

Definition stellarSecretKey (keyName value : string) : option string :=
  if negb (String.prefix "S" value) then
    Some (keyName +:+ " must be a Stellar secret key starting with S, got a value starting with '" +:+ first_char value +:+ "'")
  else if fromSecret value then None
  else Some (keyName +:+ " is an invalid Stellar secret key — checksum verification failed. Check the key value in your environment configuration.").

Definition sorobanRpcUrl (network value : string) : option string :=
  if bool_decide (network = "MAINNET") && includes "testnet" (toLowerCase value) then
    Some "Config validation error: SOROBAN_RPC_URL points at a testnet endpoint while STELLAR_NETWORK is MAINNET"
  else if bool_decide (network = "TESTNET") && includes "mainnet" (toLowerCase value) then
    Some "Config validation error: SOROBAN_RPC_URL points at a mainnet endpoint while STELLAR_NETWORK is TESTNET"
  else None.

Definition all_chars (f : Ascii.ascii -> bool) (s : string) : bool := forallb f (String.list_ascii_of_string s).

Definition is_hex (c : Ascii.ascii) : bool := match hex_val c with Some _ => true | None => false end.
Definition is_lower_hex (c : Ascii.ascii) : bool := char_in 48 57 c || char_in 97 102 c.
Definition is_digit (c : Ascii.ascii) : bool := char_in 48 57 c.

(** [/^d-[0-9a-f]{32}$/]. *)
Definition sendGridTemplateId (value : string) : bool :=
  match value with
  | String d (String h rest) =>
      String.prefix "d-" value && Nat.eqb (String.length rest) 32 && all_chars is_lower_hex rest
  | _ => false
  end.

(** [/^\+[1-9]\d{7,14}$/]. *)
Definition e164 (value : string) : bool :=
  match value with
  | String plus (String first rest) =>
      String.prefix "+" value && char_in 49 57 first && Nat.leb 7 (String.length rest) &&
      Nat.leb (String.length rest) 14 && all_chars is_digit rest
  | _ => false
  end.

(** [hex().length(64)]. *)
Definition hex64 (value : string) : bool := Nat.eqb (String.length value) 64 && all_chars is_hex value.

(** A check of a key that may be absent. *)
Definition check (raw : RawEnv) (key : string) (valid : string -> bool) : bool :=
  match raw key with Some value => valid value | None => true end.

Definition passes (reason : option string) : bool := match reason with None => true | Some _ => false end.

Definition one_of (values : list string) (value : string) : bool := bool_decide (value ∈ values).

Definition TEMPLATE_KEYS : list string :=
  ["SENDGRID_TEMPLATE_FUNDED"; "SENDGRID_TEMPLATE_SHIPPED"; "SENDGRID_TEMPLATE_DELIVERED";
   "SENDGRID_TEMPLATE_DISPUTED"; "SENDGRID_TEMPLATE_COMPLETED"; "SENDGRID_TEMPLATE_REFUNDED"].

Definition URI_KEYS : list string :=
  ["API_BASE_URL"; "FRONTEND_URL"; "EVIDENCE_STORAGE_BASE_URL"; "REDIS_URL"; "OTEL_EXPORTER_OTLP_ENDPOINT";
   "LOGISTICS_API_BASE_URL"; "STELLAR_HORIZON_URL"; "SOROBAN_RPC_URL"].

(** A key of type number. *)
Record NumberKey : Type := mkNumberKey {
  nk_name : string; nk_integer : bool; nk_min : option Z; nk_max : option Z; nk_default : option Z }.

Definition NUMBER_KEYS : list NumberKey := [
  mkNumberKey "PORT" false None None (Some 3000%Z);
  mkNumberKey "DB_POOL_CONNECTION_LIMIT" true (Some 1%Z) None (Some 10%Z);
  mkNumberKey "DB_POOL_TIMEOUT_MS" true (Some 0%Z) None (Some 10000%Z);
  mkNumberKey "AUTH_CHALLENGE_LIMIT" true (Some 1%Z) None (Some 10%Z);
  mkNumberKey "AUTH_CHALLENGE_WINDOW" true (Some 1000%Z) None (Some 60000%Z);
  mkNumberKey "PUBLIC_LIMIT" true (Some 1%Z) None (Some 60%Z);
  mkNumberKey "PUBLIC_WINDOW" true (Some 1000%Z) None (Some 60000%Z);
  mkNumberKey "EVIDENCE_UPLOAD_LIMIT" true (Some 1%Z) None (Some 10%Z);
  mkNumberKey "EVIDENCE_UPLOAD_TTL" true (Some 1000%Z) None (Some 60000%Z);
  mkNumberKey "REFRESH_TOKEN_TTL" true (Some 60%Z) None (Some 604800%Z);
  mkNumberKey "ACCESS_TOKEN_TTL" true (Some 1%Z) (Some 86400%Z) (Some 3600%Z);
  mkNumberKey "QUERY_TIMEOUT_MS" true (Some 1000%Z) None (Some 30000%Z);
  mkNumberKey "SLOW_QUERY_THRESHOLD_MS" true (Some 0%Z) None (Some 500%Z);
  mkNumberKey "SOROBAN_POLL_INTERVAL_MS" true (Some 1000%Z) None (Some 5000%Z);
  mkNumberKey "SOROBAN_RPC_TIMEOUT_MS" true (Some 100%Z) None (Some 4000%Z);
  mkNumberKey "SOROBAN_START_LEDGER" true (Some 1%Z) None None;
  mkNumberKey "WEBHOOK_EVENT_RETENTION_DAYS" true (Some 1%Z) None (Some 30%Z)].

Definition is_integer (x : number) : bool :=
  match x with NaN => false | Finite m e => (number_num m e mod number_den e =? 0)%Z end.

Definition within (lo hi : option Z) (x : number) : bool :=
  match lo with Some n => negb (number_ltb x (of_Z n)) | None => true end &&
  match hi with Some n => negb (number_ltb (of_Z n) x) | None => true end.

Definition check_number (raw : RawEnv) (k : NumberKey) : bool :=
  match raw (nk_name k) with
  | None => true
  | Some text =>
      match joi_number text with
      | Some x => (negb (nk_integer k) || is_integer x) && within (nk_min k) (nk_max k) x
      | None => false
      end
  end.

(** A number as the services read it. *)
Definition loaded_number (raw : RawEnv) (k : NumberKey) : option number :=
  match raw (nk_name k) with Some text => joi_number text | None => of_Z <$> nk_default k end.

Definition POLL_INTERVAL : NumberKey := mkNumberKey "SOROBAN_POLL_INTERVAL_MS" true (Some 1000%Z) None (Some 5000%Z).
Definition RPC_TIMEOUT : NumberKey := mkNumberKey "SOROBAN_RPC_TIMEOUT_MS" true (Some 100%Z) None (Some 4000%Z).

(** [.less(Joi.ref('SOROBAN_POLL_INTERVAL_MS'))], of a value that is given. *)
Definition less_than_interval (raw : RawEnv) : bool :=
  match raw "SOROBAN_RPC_TIMEOUT_MS", loaded_number raw RPC_TIMEOUT, loaded_number raw POLL_INTERVAL with
  | None, _, _ => true
  | Some _, Some timeout, Some interval => number_ltb timeout interval
  | Some _, _, _ => false
  end.

Definition configValidationSchema (raw : RawEnv) : bool :=
  forallb (fun key => match raw key with Some _ => true | None => false end) (required_keys raw) &&
  forallb (not_empty raw) string_keys &&
  check raw "SENTRY_DSN" (fun v => joi_uri v || (bool_decide (v = "") && negb (is_production raw))) &&
  check raw "NODE_ENV" (one_of ["development"; "production"; "test"]) &&
  check raw "STELLAR_NETWORK" (one_of ["TESTNET"; "MAINNET"]) &&
  check raw "LOG_LEVEL" (one_of ["trace"; "debug"; "info"; "warn"; "error"; "fatal"]) &&
  check raw "OTEL_ENABLED" (one_of ["true"; "false"]) &&
  check raw "CONTACT_ENCRYPTION_KEY" hex64 && check raw "CREDENTIAL_ENCRYPTION_KEY" hex64 &&
  check raw "SEP10_JWT_SECRET" (fun v => Nat.leb 32 (js_length v)) &&
  check raw "ADMIN_ADDRESS" (fun v => passes (stellarPublicKey v)) &&
  check raw "AUTO_RELEASE_SOURCE_ADDRESS" (fun v => passes (stellarPublicKey v)) &&
  check raw "SYSTEM_SIGNER_SECRET" (fun v => passes (stellarSecretKey "SYSTEM_SIGNER_SECRET" v)) &&
  check raw "SEP10_SIGNING_SECRET" (fun v => passes (stellarSecretKey "SEP10_SIGNING_SECRET" v)) &&
  check raw "ADMIN_NOTIFICATION_EMAIL" joi_email && check raw "SENDGRID_FROM_EMAIL" joi_email &&
  forallb (fun key => check raw key sendGridTemplateId) TEMPLATE_KEYS &&
  forallb (fun key => check raw key joi_uri) URI_KEYS &&
  check raw "TWILIO_FROM_NUMBER" e164 &&
  check raw "TRUST_PROXY" (fun v => match parseTrustProxy v with Some _ => true | None => false end) &&
  check raw "SOROBAN_RPC_URL" (fun v => passes (sorobanRpcUrl (coalesce (raw "STELLAR_NETWORK") "TESTNET") v)) &&
  check raw "SOROBAN_POLLER_ENABLED" joi_boolean &&
  forallb (check_number raw) NUMBER_KEYS && less_than_interval raw.

End validators.

(** *** Defaults *)

Definition default_of (raw : RawEnv) (key : string) : option string :=
  if bool_decide (key = "NODE_ENV") then Some "development"
  else if bool_decide (key = "STELLAR_NETWORK") then Some "TESTNET"
  else if bool_decide (key = "LOG_LEVEL") then Some "info"
  else if bool_decide (key = "API_BASE_URL") then Some "http://localhost:3000"
  else if bool_decide (key = "FRONTEND_URL") then if is_production raw then None else Some "http://localhost:3000"
  else if bool_decide (key = "EVIDENCE_STORAGE_BASE_URL") then if is_production raw then None else Some "http://localhost:9000"
  else if bool_decide (key = "OTEL_ENABLED") then Some "true"
  else if bool_decide (key = "OTEL_SERVICE_NAME") then Some "trustlink-backend"
  else if bool_decide (key = "OTEL_SERVICE_VERSION") then Some "1.0.0"
  else None.

(** What the services read. *)
Definition loaded (raw : RawEnv) (key : string) : option string :=
  match raw key with Some v => Some v | None => default_of raw key end.

End ConfigSchema.

Module ConfigService.

Definition isDevelopment (env : Env) : bool := bool_decide (env_config env "NODE_ENV" = Some "development").
Definition isProduction (env : Env) : bool := bool_decide (env_config env "NODE_ENV" = Some "production").
Definition isTest (env : Env) : bool := bool_decide (env_config env "NODE_ENV" = Some "test").

Definition getRedisUrl (env : Env) : string := coalesce (env_config env "REDIS_URL") "redis://localhost:6379".

Section url.
(** [url.searchParams.set(name, value)] on [new URL(base)], as text. *)
Context (searchParams_set : string -> string -> string -> string).

(** The pool settings are whole numbers; zero counts as unset. *)
Definition getDatabaseUrl (base : string) (limit timeoutMs : Z) : string :=
  if (limit =? 0)%Z && (timeoutMs =? 0)%Z then base
  else
    let url := if (limit =? 0)%Z then base else searchParams_set base "connection_limit" (bigint_toString limit) in
    if (timeoutMs =? 0)%Z then url
    else searchParams_set url "pool_timeout" (bigint_toString (- (- timeoutMs / 1000))).
End url.

End ConfigService.
