(* ===== verification/EscrowSound.v ===== *)
(** * The escrow service follows the life cycle

    Every operation of [EscrowService] keeps the store invariant and moves
    escrows along the machine, under any database fault schedule. *)
From S2P Require Import Prelude Records Dates Text Tables Effects Cache Prisma EscrowRepo Coherence Contract Lifecycle EscrowSvc.
Local Open Scope prog_scope.

Section sound.
Context {C : ContractApi}.

(** Reading through the service, then acting on the record. *)
Lemma sound_load {B} id (k : EscrowRecord -> Prog B) :
  (forall row, e_id row = id -> sound_when id (fun r => r = row) (k (toEscrowRecord row))) ->
  sound (bind (EscrowService.findById id) k).
Proof.
  intros Hk env w HE HI. apply wp_bind, wp_catch, wp_bind, wp_findById; [done|done|].
  intros r w1 HI1 Hdb _ Hf.
  assert (Hev : evolves w w1) by (apply evolves_same; by rewrite Hdb).
  destruct r as [[rec|]|e]; [|by apply wp_raise|by destruct e].
  destruct Hf as (row & Hrow & ->). apply wp_ret.
  eapply wp_mono; [apply Hk; [exact (inv_ids _ _ HI _ _ Hrow)|done|done|]|].
  - rewrite Hdb. congruence.
  - intros r w2 [? ?]. split; [done|by etrans].
Qed.

Lemma sound_service_findById id : sound (EscrowService.findById id).
Proof.
  apply sound_catch; [|by intros []; apply sound_raise].
  apply sound_findById; intros; apply sound_when_sound; [apply sound_ret|apply sound_raise].
Qed.

Ltac sound_end := apply sound_when_sound; first [apply sound_raise | apply sound_ret].
Ltac read_only := solve [apply sound_off_escrow; off_walk].

Lemma tracking_key_ne t id : "tracking:" +:+ t <> cacheKey id.
Proof. done. Qed.

Lemma idempotency_key_ne v k id : EscrowService.idempotencyKey v k <> cacheKey id.
Proof. done. Qed.

Lemma sound_create dto vendor : dto_buyerAddress dto <> vendor -> sound (create dto vendor).
Proof.
  intros Hne env w HE HI. apply wp_create; [done|done| |].
  - intros e w' HI' Hdb _ _. split; [done|]. apply evolves_same. by rewrite Hdb.
  - intros now uuid w' _ row Hnew Hdup _ HI' _ Hdb. split; [done|].
    eapply (evolves_create _ _ _ row); [exact Hnew|by split_and!|exact Hdup|by rewrite Hdb].
Qed.

Lemma sound_createEscrow dto vendor : sound (EscrowService.createEscrow dto vendor).
Proof.
  unfold EscrowService.createEscrow. case_match; [apply sound_raise|].
  destruct (bool_decide _) eqn:Hne; [apply sound_raise|]. b2p.
  apply sound_bind; [read_only|]. intros [r|]; [apply sound_raise|].
  apply sound_bind; [read_only|]. intros _. apply sound_bind; [by apply sound_create|]. intros r.
  read_only.
Qed.

Lemma sound_createIdempotent key dto vendor : sound (EscrowService.createIdempotent key dto vendor).
Proof.
  unfold EscrowService.createIdempotent. apply sound_bind; [read_only|]. intros h. apply sound_bind; [apply sound_cache_get|].
  intros [[]|]; try case_match; try apply sound_raise; try apply sound_ret.
  apply sound_bind; [apply sound_createEscrow|]. intros r.
  apply sound_bind; [apply sound_cache_set, idempotency_key_ne|]. intros. apply sound_ret.
Qed.

Lemma sound_getTracking id : sound (EscrowService.getTracking id).
Proof.
  unfold EscrowService.getTracking. apply sound_load. intros row Hid. apply sound_when_sound. simpl.
  case_match; [|apply sound_raise]. case_match; [apply sound_raise|].
  apply sound_bind; [read_only|]. intros []; [|apply sound_raise].
  apply sound_bind; [apply sound_cache_get|]. intros [v|]; [apply sound_ret|].
  apply sound_catch; [|intros; apply sound_raise]. apply sound_bind; [read_only|]. intros d.
  apply sound_bind; [apply sound_cache_set, tracking_key_ne|]. intros. apply sound_ret.
Qed.

(** Cancelling from a known, non-terminal row. *)
Lemma sound_markCancelled id (row : PrismaEscrow) :
  TERMINAL_STATES (e_state row) = false -> sound_when id (fun r => r = row) (markCancelled id).
Proof.
  intros Hst. apply sound_when_write_ret; [solve_update|]. intros now r ->.
  apply rtc_once. unfold transition. simpl. by rewrite Hst.
Qed.

Lemma sound_cancelEscrow id caller isAdmin : sound (EscrowService.cancelEscrow id caller isAdmin).
Proof.
  unfold EscrowService.cancelEscrow. apply sound_load. intros row Hid. case_match; [sound_end|]. simpl.
  case_bool_decide as Hst; simpl; [|sound_end]. apply sound_markCancelled. by rewrite Hst.
Qed.

Lemma sound_cancelPendingEscrow id caller isAdmin :
  sound (EscrowService.cancelPendingEscrow id caller isAdmin).
Proof.
  unfold EscrowService.cancelPendingEscrow. apply sound_load. intros row Hid. case_match; [sound_end|]. simpl.
  case_bool_decide as Hst; simpl; [|sound_end].
  assert (Hc : sound_when id (fun r => r = row) (markCancelled id)).
  { apply sound_markCancelled. by rewrite Hst. }
  destruct (e_contractEscrowId row) as [cid|]; [|done].
  apply sound_when_off; [eapply every_mono; [apply quiet_off_escrow|apply getEscrowState_quiet]|].
  intros cs. case_match.
  - apply sound_when_off; [|done].
    eapply every_mono; [apply quiet_off_escrow|apply cancelEscrowOnChain_quiet].
  - case_match; [sound_end|done].
Qed.

Lemma sound_notify t r : sound (notify t r).
Proof. read_only. Qed.

Lemma sound_handleShipment id vendor tracking isAdmin :
  sound (EscrowService.handleShipment id vendor tracking isAdmin).
Proof.
  unfold EscrowService.handleShipment. case_match; [apply sound_raise|].
  case_match; [apply sound_raise|]. apply sound_load. intros row Hid.
  destruct (negb isAdmin && _); [sound_end|].
  cbn [toEscrowRecord e_state]. destruct (bool_decide (e_state row = FUNDED)) eqn:Hst; simpl; [|sound_end]. b2p.
  case_match; [sound_end|]. simpl in *; rewrite Hid.
  apply (sound_when_write id _ (fun _ => True)); [solve_update| |].
  - intros now r ->. split; [|done]. apply rtc_once. unfold transition. simpl. by rewrite Hst.
  - intros rec. apply sound_when_sound. apply sound_bind; [apply sound_cache_del|]. intros _.
    apply sound_bind; [apply sound_notify|]. intros _. apply sound_ret.
Qed.

Lemma sound_updateBuyerContact id dto : sound (EscrowService.updateBuyerContact id dto).
Proof.
  unfold EscrowService.updateBuyerContact. apply sound_load. intros row Hid. apply sound_when_sound.
  case_match; [apply sound_raise|]. apply sound_bind; [read_only|]. intros b. destruct b; simpl; [|apply sound_raise].
  unfold EscrowService.encrypt_opt. apply sound_bind; [read_only|]. intros email.
  apply sound_bind; [read_only|]. intros phone.
  apply sound_bind; [apply sound_write; [solve_update|done]|]. intros. apply sound_ret.
Qed.

(** ** On-chain events *)

(** A guarded state change, its notification, and the result. *)
Lemma sound_move id (row : PrismaEscrow) f t :
  good_update f -> (forall now, transition (e_state row) (e_state (f now row))) ->
  sound_when id (fun r => r = row)
    (let* rec := write_through id f in notify t rec ;;; EscrowService.done_).
Proof.
  intros Hf Ht. apply (sound_when_write id _ (fun _ => True)); [done| |].
  - intros now r ->. split; [|done]. by apply rtc_once.
  - intros rec. apply sound_when_sound, sound_bind; [apply sound_notify|]. intros. apply sound_ret.
Qed.

(** The guard on the state of [row] allows the move. *)
Ltac by_guard row :=
  unfold transition; cbn [toEscrowRecord e_state] in *;
  repeat match goal with
    | H : _ = true |- _ => revert H
    | H : _ = false |- _ => revert H
    end;
  destruct (e_state row); vm_compute; congruence.

Lemma sound_cancel_done id (row : PrismaEscrow) :
  TERMINAL_STATES (e_state row) = false ->
  sound_when id (fun r => r = row) (markCancelled id ;;; EscrowService.done_).
Proof.
  intros Hst. apply (sound_when_write _ _ (fun _ => True)); [solve_update| |intros; sound_end].
  intros now r ->. split; [|done]. apply rtc_once. by_guard row.
Qed.

Lemma sound_sync_escrow event kind (row : PrismaEscrow) :
  sound_when (EscrowService.ce_escrowId event) (fun r => r = row)
    (EscrowService.sync_escrow event kind (toEscrowRecord row)).
Proof.
  destruct kind; cbn [EscrowService.sync_escrow]; repeat (case_match; [sound_end|]).
  all: try (apply sound_move; [solve_update|intros ?; by_guard row]).
  all: try (apply sound_cancel_done; by_guard row).
  - apply sound_when_off; [off_walk|]. intros _.
    apply sound_move; [solve_update|intros ?; by_guard row].
  - apply sound_when_off; [off_walk|]. intros already. case_match; [sound_end|].
    case_match; (apply sound_move; [solve_update|intros ?; by_guard row]).
Qed.

Lemma sound_syncStateFromChain event : sound (EscrowService.syncStateFromChain event).
Proof.
  unfold EscrowService.syncStateFromChain. apply sound_findById; [|sound_end]. intros row. case_match; [|sound_end].
  apply sound_sync_escrow.
Qed.

End sound.
