(* ===== verification/EscrowSpec.v ===== *)
(** * Functional behaviour of the escrow service

    What each operation answers and writes, on every branch, when the
    database answers: creation, cancellation, shipment, buyer contact, and the
    refinement of [syncStateFromChain] to an abstract transition function. *)
From S2P Require Import Prelude Records Dates Text Tables Effects Cache Prisma EscrowRepo Coherence Demo Contract Lifecycle EscrowSvc EscrowSound.
Local Open Scope prog_scope.

(** Nothing but the cache and the tick changed. *)
Definition unchanged (w w' : World) : Prop := w_db w' = w_db w /\ same_aux w w'.

(** The row of [id] replaced, everything else as before. *)
Definition rewritten (w w' : World) (id : string) (row' : PrismaEscrow) : Prop :=
  w_db w' = set_escrows (<[id := row']> (db_escrows (w_db w))) (w_db w).

Lemma wp_service_findById env w id (Q : outcome EscrowRecord -> World -> Prop) :
  good_env env -> Inv env w ->
  (forall row w', escrow_of w id = Some row -> Inv env w' -> unchanged w w' ->
     Q (Ok (toEscrowRecord row)) w') ->
  (forall e w', Inv env w' -> unchanged w w' ->
     (db_reliable env -> escrow_of w id = None /\
        e = NotFoundException ("Escrow with ID " +:+ id +:+ " not found")) ->
     Q (Throw e) w') ->
  wp (EscrowService.findById id) env w Q.
Proof.
  intros HE HI Hok Herr. apply wp_catch, wp_bind, wp_findById; [done|done|].
  intros [[rec|]|e] w' HI' Hdb Haux Hf; simpl in Hf.
  - destruct Hf as (row & Hrow & ->). by apply wp_ret, Hok.
  - apply wp_raise. simpl. apply wp_raise. by apply Herr.
  - destruct e; apply wp_raise; (apply Herr; [done|done|]); intros Hr; by destruct Hf.
Qed.

(** A contract call: only the log of submitted transactions moves. *)
Lemma wp_quiet {A} (m : Prog A) env w (Q : outcome A -> World -> Prop) :
  every quiet_step m -> Inv env w ->
  (forall w', Inv env w' -> quiet_step w w' -> Q (run m env w).1 w') -> wp m env w Q.
Proof.
  intros Hm HI HQ. unfold wp. pose proof (every_run _ m env w Hm) as Hq.
  apply HQ; [|done]. by eapply off_escrow_inv; [apply quiet_off_escrow|].
Qed.

(** The same, with the run of the call. *)
Lemma wp_called {A} (m : Prog A) env w (Q : outcome A -> World -> Prop) :
  every quiet_step m -> Inv env w ->
  (forall o w', run m env w = (o, w') -> Inv env w' -> quiet_step w w' -> Q o w') -> wp m env w Q.
Proof.
  intros Hm HI HQ. unfold wp. pose proof (every_run _ m env w Hm) as Hq.
  apply HQ; [by destruct (run m env w)| |done]. by eapply off_escrow_inv; [apply quiet_off_escrow|].
Qed.

(** A rejected request: the error and no effect. *)
Ltac refused := intros; try apply wp_raise; simpl; split; [by eexists|done].

Section spec.
Context {C : ContractApi} (env : Env) (w : World).
Context (HE : good_env env) (HI : Inv env w) (HR : db_reliable env).

(** Reads the escrow, rejecting the branch where the database fails. *)
Lemma wp_load id {B} (k : EscrowRecord -> Prog B) (Q : outcome B -> World -> Prop) :
  match escrow_of w id with
  | None => forall w', unchanged w w' ->
      Q (Throw (NotFoundException ("Escrow with ID " +:+ id +:+ " not found"))) w'
  | Some row => forall w', Inv env w' -> unchanged w w' -> wp (k (toEscrowRecord row)) env w' Q
  end -> wp (bind (EscrowService.findById id) k) env w Q.
Proof using HE HI HR.
  intros H. apply wp_bind, wp_service_findById; [done|done| |].
  - intros row w' Hrow HI' Hun. rewrite Hrow in H. by apply H.
  - intros e w' HI' Hun Hn. destruct (Hn HR) as [Hnone ->]. rewrite Hnone in H. by apply H.
Qed.

(** A row update on a row known to exist. *)
Lemma wp_write w1 id row f (Q : outcome EscrowRecord -> World -> Prop) :
  Inv env w1 -> unchanged w w1 -> escrow_of w id = Some row -> good_update f ->
  (forall now w', let row' := set_updatedAt now (f now row) in
     Inv env w' -> rewritten w w' id row' -> same_aux w w' -> Q (Ok (toEscrowRecord row')) w') ->
  wp (write_through id f) env w1 Q.
Proof using HE HR.
  intros HI1 [Hdb Haux] Hrow Hf HQ. apply wp_write_through; [done|done|done| |].
  - intros e w' _ _ _ Hn. destruct (Hn HR) as [Hnone _]. rewrite Hdb in Hnone. congruence.
  - intros now row0 w' Hnow Hrow0 HI' Haux' row' Hdb'. rewrite Hdb in Hrow0. simplify_eq.
    apply HQ; [done| |by etrans]. unfold rewritten. by rewrite Hdb', Hdb.
Qed.

(** ** Cancellation *)

Definition cancelled (now : Z) (row : PrismaEscrow) : PrismaEscrow :=
  set_updatedAt now (set_cancelledAt (Some now) (set_state CANCELLED row)).

(** Who may cancel: an admin, the vendor and the buyer. *)
Definition party (isAdmin : bool) (caller : string) (row : PrismaEscrow) : bool :=
  isAdmin || bool_decide (caller ∈ [e_vendorAddress row; e_buyerAddress row]).

Lemma party_may_cancel isAdmin caller row :
  EscrowService.may_cancel isAdmin (toEscrowRecord row) caller = party isAdmin caller row.
Proof.
  unfold EscrowService.may_cancel, party. cbn [toEscrowRecord e_vendorAddress e_buyerAddress].
  rewrite <- orb_assoc, <- bool_decide_or. f_equal. apply bool_decide_ext. rewrite !elem_of_cons, elem_of_nil. intuition congruence.
Qed.

(** C5. [cancelEscrow] answers 404 for an unknown
    escrow, 403 to anyone but the vendor, the buyer or an admin, 409 outside
    FUNDED, each without touching the database, and otherwise marks the escrow
    CANCELLED with its cancellation time; it never calls the chain. *)
Theorem cancel_escrow_correct id caller isAdmin :
  wp (EscrowService.cancelEscrow id caller isAdmin) env w (fun r w' =>
    same_aux w w' /\
    match escrow_of w id with
    | None => (exists m, r = Throw (NotFoundException m)) /\ w_db w' = w_db w
    | Some row =>
        if negb (party isAdmin caller row) then
          (exists m, r = Throw (ForbiddenException m)) /\ w_db w' = w_db w
        else if bool_decide (e_state row = FUNDED) then
          exists now, r = Ok (toEscrowRecord (cancelled now row)) /\ rewritten w w' id (cancelled now row)
        else (exists m, r = Throw (ConflictException m)) /\ w_db w' = w_db w
    end).
Proof using HE HI HR.
  apply wp_load. destruct (escrow_of w id) as [row|] eqn:Hrow; [|intros w' [? ?]; eauto].
  intros w1 HI1 Hun. rewrite party_may_cancel. destruct (party isAdmin caller row); [|destruct Hun; split; [done|split; [eexists; reflexivity|done]]]. cbn [negb]. cbn [toEscrowRecord e_state].
  destruct (bool_decide (e_state row = FUNDED)) eqn:Hst; simpl; [|destruct Hun; split; eauto].
  apply (wp_write w1 id row); [done|done|done|solve_update|]. intros now w' row' _ Hre Haux. split; [done|]. by exists now.
Qed.

(** C31. [cancelPendingEscrow] answers 404, 403 and 409
    like [cancelEscrow] (for CREATED escrows).  An unmapped escrow is cancelled
    without a chain call.  For a mapped one the chain is asked for its state:
    FUNDED demands the on-chain refund, made in the caller's name, and the row
    is marked CANCELLED only once that succeeded, while its failure is passed on
    with the database untouched; a state other than CREATED is refused with
    409; otherwise the row is cancelled and no refund is submitted. *)
Theorem cancel_pending_correct id caller isAdmin :
  wp (EscrowService.cancelPendingEscrow id caller isAdmin) env w (fun r w' =>
    match escrow_of w id with
    | None => (exists m, r = Throw (NotFoundException m)) /\ unchanged w w'
    | Some row =>
        let cancelled_after v := exists now, r = Ok (toEscrowRecord (cancelled now row)) /\
                                   rewritten w w' id (cancelled now row) /\ w_chain w' = w_chain v in
        if negb (party isAdmin caller row) then
          (exists m, r = Throw (ForbiddenException m)) /\ unchanged w w'
        else if negb (bool_decide (e_state row = CREATED)) then
          (exists m, r = Throw (ConflictException m)) /\ unchanged w w'
        else
          match e_contractEscrowId row with
          | None => cancelled_after w
          | Some cid =>
              exists w1 o w2, w_db w1 = w_db w /\ run (getEscrowState cid) env w1 = (o, w2) /\
              match o with
              | Throw e => r = Throw e /\ w_db w' = w_db w
              | Ok cs =>
                  if cs_exists cs && bool_decide (cs_state cs = "FUNDED") then
                    exists o' w3, run (cancelEscrowOnChain cid caller) env w2 = (o', w3) /\
                    match o' with
                    | Throw e => r = Throw e /\ w_db w' = w_db w
                    | Ok _ => cancelled_after w3
                    end
                  else if cs_exists cs && negb (bool_decide (cs_state cs = "CREATED")) then
                    (exists m, r = Throw (ConflictException m)) /\ w_db w' = w_db w /\ w_chain w' = w_chain w2
                  else cancelled_after w2
              end
          end
    end).
Proof using HE HI HR.
  apply wp_load. destruct (escrow_of w id) as [row|] eqn:Hrow; [|refused].
  intros w1 HI1 Hun. cbv zeta. rewrite party_may_cancel. destruct (party isAdmin caller row); [|refused]. cbn [negb].
  cbn [toEscrowRecord e_state e_contractEscrowId].
  destruct (negb (bool_decide (e_state row = CREATED))); [refused|].
  destruct (e_contractEscrowId row) as [cid|] eqn:Hcid; cycle 1.
  { apply (wp_write w1 id row); [done|done|done|solve_update|].
    intros now w' row' _ Hre Haux. exists now. split_and!; [done|done|apply Haux]. }
  assert (Hw : forall w3, Inv env w3 -> w_db w3 = w_db w ->
    wp (markCancelled id) env w3 (fun r w' => exists now, r = Ok (toEscrowRecord (cancelled now row)) /\
      rewritten w w' id (cancelled now row) /\ w_chain w' = w_chain w3)).
  { intros w3 HI3 Hdb3. apply wp_write_through; [done|done|solve_update| |].
    - intros e w' _ _ _ Hn. destruct (Hn HR) as [Hnone _]. rewrite Hdb3 in Hnone. congruence.
    - intros now row0 w' _ Hrow0 _ Haux row' Hdb'. rewrite Hdb3 in Hrow0. simplify_eq.
      exists now. split_and!; [done| |apply Haux]. unfold rewritten. by rewrite Hdb', Hdb3. }
  apply wp_bind, wp_called; [apply getEscrowState_quiet|done|]. intros o w2 Hrun HI2 Hq2.
  assert (Hdb2 : w_db w2 = w_db w) by (destruct Hun, Hq2; congruence).
  destruct o as [cs|e]; [|exists w1, (Throw e), w2; by destruct Hun].
  destruct (cs_exists cs && bool_decide (cs_state cs = "FUNDED")) eqn:Hfunded.
  - apply wp_bind, wp_called; [apply cancelEscrowOnChain_quiet|done|]. intros o' w3 Hrun' HI3 Hq3.
    assert (Hdb3 : w_db w3 = w_db w) by (destruct Hq3; congruence).
    destruct o' as [h|e].
    + eapply wp_mono; [by apply (Hw w3)|]. intros r w' Hr. exists w1, (Ok cs), w2. rewrite Hfunded.
      destruct Hun. split_and!; [done|done|]. by exists (Ok h), w3.
    + exists w1, (Ok cs), w2. rewrite Hfunded. destruct Hun. split_and!; [done|done|]. by exists (Throw e), w3.
  - destruct (cs_exists cs && negb _) eqn:Hother.
    + apply wp_raise. exists w1, (Ok cs), w2. rewrite Hfunded, Hother. destruct Hun. split_and!; try done. by eexists.
    + eapply wp_mono; [by apply (Hw w2)|]. intros r w' Hr. exists w1, (Ok cs), w2. rewrite Hfunded, Hother.
      by destruct Hun.
Qed.

(** ** Shipment *)

Definition shipped (now : Z) (trackingId : string) (row : PrismaEscrow) : PrismaEscrow :=
  set_updatedAt now (set_shippedAt (Some now) (set_trackingId (Some trackingId) (set_state SHIPPED row))).

(** C30. [handleShipment] rejects a tracking id shorter
    than three characters once trimmed (400), an unknown escrow (404), a
    caller other than the vendor or an admin (403), and an escrow that is not
    FUNDED or already has a tracking id (409), all without effect; otherwise
    the escrow becomes SHIPPED with the trimmed id and exactly one shipment
    notification about it is started. *)
Theorem handle_shipment_correct id vendor trackingId isAdmin :
  wp (EscrowService.handleShipment id vendor trackingId isAdmin) env w (fun r w' =>
    if Nat.ltb (js_length (trim trackingId)) 3 then
      (exists m, r = Throw (BadRequestException m)) /\ unchanged w w'
    else
      match escrow_of w id with
      | None => (exists m, r = Throw (NotFoundException m)) /\ unchanged w w'
      | Some row =>
          if negb isAdmin && negb (bool_decide (e_vendorAddress row = vendor)) then
            (exists m, r = Throw (ForbiddenException m)) /\ unchanged w w'
          else if negb (bool_decide (e_state row = FUNDED)) || truthy (e_trackingId row) then
            (exists m, r = Throw (ConflictException m)) /\ unchanged w w'
          else
            exists now, let row' := shipped now (trim trackingId) row in
              r = Ok (toEscrowRecord row') /\ rewritten w w' id row' /\
              w_outbox w' = w_outbox w ++ [mkNotice NShipped (toEscrowRecord row')] /\
              w_chain w' = w_chain w
      end).
Proof using HE HI HR.
  unfold EscrowService.handleShipment.
  destruct (bool_decide (trim trackingId = "")) eqn:Hemp.
  { b2p. rewrite Hemp. refused. }
  destruct (Nat.ltb _ 3); [refused|].
  apply wp_load. destruct (escrow_of w id) as [row|] eqn:Hrow; [|refused].
  intros w1 HI1 Hun. cbn [toEscrowRecord e_vendorAddress e_state e_trackingId e_id].
  destruct (negb isAdmin && _); [refused|].
  destruct (negb (bool_decide (e_state row = FUNDED))); [refused|].
  destruct (truthy (e_trackingId row)); [refused|].
  rewrite (inv_ids _ _ HI _ _ Hrow).
  apply wp_bind, (wp_write w1 id row); [done|done|done|solve_update|].
  intros now w2 row' HI2 Hre Haux. apply wp_bind, wp_cache_del; [done|].
  intros w3 Hdb3 Haux3 _. apply wp_bind, wp_await, wp_ret. simpl.
  exists now. split_and!; [done|by unfold rewritten; simpl; rewrite Hdb3| |].
  - simpl. by rewrite (aux_outbox _ _ Haux3), (aux_outbox _ _ Haux).
  - simpl. by rewrite (aux_chain _ _ Haux3), (aux_chain _ _ Haux).
Qed.

(** ** Creation *)

(** The item reference is taken. *)
Definition taken (vendor itemRef : string) : Prop :=
  exists id r, escrow_of w id = Some r /\ e_vendorAddress r = vendor /\ e_itemRef r = itemRef.

Lemma wp_findByVendorAndItem vendor itemRef (Q : outcome (option EscrowRecord) -> World -> Prop) :
  (forall o w', Inv env w' -> unchanged w w' ->
     (is_Some o <-> taken vendor itemRef) -> Q (Ok o) w') ->
  wp (findByVendorAndItem vendor itemRef) env w Q.
Proof using HE HI HR.
  intros HQ. apply wp_bind, wp_db_frame; [done|done|done|by intros|].
  intros now u w' _ HI' Haux Hdb. simpl in *. apply wp_ret, HQ; [done|by split|].
  set (P := fun r : PrismaEscrow => _). set (rows := escrow_select P _ (w_db w)).
  assert (Hin : forall r, r ∈ rows <-> P r = true /\ exists k, escrow_of w k = Some r).
  { intros r. unfold rows, escrow_select, escrow_rows. rewrite sort_by_perm. apply elem_of_rows. }
  split.
  - intros Hs. destruct rows as [|r rows']; simpl in Hs; [by destruct Hs|].
    destruct (proj1 (Hin r)) as [HP [k Hk]]; [by left|]. unfold P in HP. b2p. by exists k, r.
  - intros (k & r & Hk & Hv & Hi). destruct rows as [|r' rows']; [|by eexists].
    exfalso. assert (Hr : r ∈ @nil PrismaEscrow); [|by apply elem_of_nil in Hr].
    apply Hin. split; [|by exists k]. unfold P. by rewrite !bool_decide_true.
Qed.

Definition vendor_profile (vendor : string) (now : Z) : VendorProfileRecord :=
  mkVendor vendor vendor None None (Some EscrowService.VENDOR_PROFILE_PLACEHOLDER_DESCRIPTION) now now.

(** The vendor table with a profile for [vendor]. *)
Definition with_profile (vendor : string) (t : Z) : gmap string VendorProfileRecord :=
  match db_vendors (w_db w) !! vendor with
  | Some _ => db_vendors (w_db w)
  | None => <[vendor := vendor_profile vendor t]> (db_vendors (w_db w))
  end.

Lemma with_profile_some vendor t : is_Some (with_profile vendor t !! vendor).
Proof.
  unfold with_profile. destruct (db_vendors (w_db w) !! vendor) eqn:E; [by rewrite E|].
  rewrite lookup_insert_eq. by eexists.
Qed.

Lemma wp_ensureVendorProfile w1 vendor (Q : outcome unit -> World -> Prop) :
  env_prisma env = true -> Inv env w1 -> w_db w1 = w_db w ->
  (forall t w', Inv env w' -> db_escrows (w_db w') = db_escrows (w_db w) ->
     db_vendors (w_db w') = with_profile vendor t -> Q (Ok tt) w') ->
  wp (EscrowService.ensureVendorProfile vendor) env w1 Q.
Proof using HE HR.
  intros Hpr HI1 Hdb1 HQ. apply wp_bind, wp_await. simpl. rewrite Hpr.
  apply wp_bind, wp_db_frame; [done|done|intros; simpl; by case_match|by intros|].
  intros t u w2 _ HI2 _ Hdb2. unfold with_profile in HQ. rewrite Hdb1 in *.
  destruct (db_vendors (w_db w) !! vendor); simpl in *; apply wp_ret, (HQ t); try done; by rewrite Hdb2.
Qed.

(** C6. [createEscrow] rejects a non-positive amount and
    a buyer equal to the vendor (400) and a vendor's second escrow for an item
    reference (409), without effect.  Otherwise, when the generated id is new
    and the amount fits the column, it inserts exactly one row, CREATED and
    unmapped, creates a placeholder profile for a first-time vendor and leaves
    an existing one alone, and returns the record with its payment URL. *)
Theorem create_escrow_correct dto vendor :
  env_prisma env = true -> (forall t, escrow_of w (env_uuid env t) = None) ->
  (Z.abs (env_decimal env (dto_amount dto)) < 10 ^ 18)%Z ->
  wp (EscrowService.createEscrow dto vendor) env w (fun r w' =>
    (number_le_0 (dto_amount dto) = true \/ dto_buyerAddress dto = vendor ->
       (exists m, r = Throw (BadRequestException m)) /\ unchanged w w') /\
    (number_le_0 (dto_amount dto) = false -> dto_buyerAddress dto <> vendor ->
       (taken vendor (dto_itemRef dto) ->
          (exists m, r = Throw (ConflictException m)) /\ unchanged w w') /\
       (~ taken vendor (dto_itemRef dto) ->
          exists now uuid t, let row := new_escrow_row dto vendor (env_decimal env (dto_amount dto)) now uuid in
            r = Ok (mkWithUrl (toEscrowRecord row) (EscrowService.buildPaymentUrl env uuid)) /\
            db_escrows (w_db w') = <[uuid := row]> (db_escrows (w_db w)) /\
            db_vendors (w_db w') = with_profile vendor t))).
Proof using HE HI HR.
  intros Hpr Hfresh Hamt. unfold EscrowService.createEscrow.
  destruct (number_le_0 (dto_amount dto)) eqn:Hle.
  { apply wp_raise. split; [|done]. intros _. split; [by eexists|done]. }
  destruct (bool_decide (dto_buyerAddress dto = vendor)) eqn:Hbv; b2p.
  { apply wp_raise. split; [|done]. intros _. split; [by eexists|done]. }
  apply wp_bind, wp_findByVendorAndItem. intros o w1 HI1 Hun Ho.
  destruct o as [rec|].
  { apply wp_raise. split; [by intros [?|?]|]. intros _ _. split; [intros _; split; [by eexists|done]|].
    intros Hnot. destruct Hnot. by apply Ho. }
  assert (Hfree : ~ taken vendor (dto_itemRef dto)) by (intros Ht%Ho; by destruct Ht).
  destruct Hun as [Hdb1 Haux1].
  apply wp_bind, wp_ensureVendorProfile; [done|done|done|]. intros t w2 HI2 He2 Hv2.
  apply wp_bind, wp_create; [done|done| |].
  - intros e w3 _ _ _ Hn. exfalso. apply Hfree. rewrite He2 in Hn. apply Hn; [done|done| |done].
    rewrite Hv2. apply with_profile_some.
  - intros now uuid w3 _ row Hnew _ _ HI3 _ Hdb3. apply wp_bind, wp_await, wp_ret.
    split; [by intros [?|?]|]. intros _ _. split; [done|]. intros _. exists now, uuid, t.
    split_and!; [done|simpl; by rewrite Hdb3; simpl; rewrite He2|simpl; by rewrite Hdb3].
Qed.

End spec.

(** ** Idempotent creation *)

Section idempotent.
Context (env : Env).
Context (Hcache : env_cache env = true) (Hredis : env_redis env = true).
Context (Hup : forall t, env_redis_down env t = false).
(** All the readings of the clock lie within one day. *)
Context (Hday : forall t t', (env_now env t' < env_now env t + SECONDS_PER_DAY * 1000)%Z).

Lemma run_cache_get key w :
  run (cache_get key) env w =
    match w_redis w !! key with
    | Some e =>
        if (ce_expiresAt e <=? env_now env (w_tick w))%Z
        then (Ok None, set_redis (delete key (w_redis w)) (tick w))
        else (Ok (Some (ce_value e)), tick w)
    | None => (Ok None, tick w)
    end.
Proof using Hcache Hredis Hup.
  unfold cache_get. rewrite run_await. unfold cache_get_action.
  rewrite Hcache, Hredis, Hup. by case_match.
Qed.

(** The entry an idempotent request is answered from. *)
Definition stored (w : World) (key hash : string) (res : WithPaymentUrl EscrowJson) : Prop :=
  exists e, w_redis w !! key = Some e /\ (forall t, env_now env t < ce_expiresAt e)%Z /\
    ce_value e = CIdempotentJson hash res.

(** The result as a JSON response carries it. *)
Definition as_json (r : WithPaymentUrl EscrowRecord + WithPaymentUrl EscrowJson) : WithPaymentUrl EscrowJson :=
  match r with
  | inl r => mkWithUrl (escrow_json (wu_escrow r)) (wu_paymentUrl r)
  | inr r => r
  end.

Lemma createIdempotent_hit w key dto vendor hash res :
  stored w (EscrowService.idempotencyKey vendor key) hash res ->
  run (EscrowService.createIdempotent key dto vendor) env w =
    (if bool_decide (hash = EscrowService.hashRequestBody env dto) then Ok (inr res)
     else Throw EscrowService.KEY_REUSED, tick w).
Proof using Hcache Hredis Hup.
  intros (e & He & Hexp & Hv). unfold EscrowService.createIdempotent.
  rewrite run_bind. unfold ask. rewrite run_await, run_bind, run_cache_get, He.
  rewrite (proj2 (Z.leb_gt _ _)) by apply Hexp. rewrite Hv. by case_bool_decide.
Qed.

(** A request that created an escrow leaves its result stored. *)
Lemma createIdempotent_stores w key dto vendor res w1 :
  run (EscrowService.createIdempotent key dto vendor) env w = (Ok (inl res), w1) ->
  (forall e, w_redis w !! EscrowService.idempotencyKey vendor key = Some e ->
     forall h r, ce_value e <> CIdempotent h r) ->
  stored w1 (EscrowService.idempotencyKey vendor key) (EscrowService.hashRequestBody env dto)
    (as_json (inl res)).
Proof using Hcache Hredis Hup Hday.
  intros Hrun Hjson. unfold EscrowService.createIdempotent in Hrun.
  rewrite run_bind in Hrun. unfold ask in Hrun. rewrite run_await, run_bind, run_cache_get in Hrun.
  set (k := EscrowService.idempotencyKey vendor key) in *.
  set (h := EscrowService.hashRequestBody env dto) in *.
  assert (Hmiss : forall w0 : World,
    run (let* result := EscrowService.createEscrow dto vendor in
         cache_set k (CIdempotent h result) SECONDS_PER_DAY ;;;
         Ret (inl (B:=WithPaymentUrl EscrowJson) result)) env w0 = (Ok (inl res), w1) ->
    stored w1 k h (as_json (inl res))).
  { intros w0 H0. rewrite run_bind in H0.
    destruct (run (EscrowService.createEscrow dto vendor) env w0) as [[result|ex] w2]; [|done].
    rewrite run_bind in H0. unfold cache_set in H0. rewrite run_await in H0.
    unfold cache_set_action in H0. rewrite Hcache, Hredis, Hup in H0.
    unfold run in H0. simplify_eq. eexists. simpl. rewrite lookup_insert_eq.
    split; [done|]. split; [intros t; apply Hday|done]. }
  destruct (w_redis w !! k) as [e|] eqn:He; [|by eapply Hmiss].
  destruct (ce_expiresAt e <=? _)%Z; [by eapply Hmiss|].
  specialize (Hjson e eq_refl). destruct (ce_value e) as [| | | |h' r'|h' r']; try done.
  - by destruct (Hjson h' r').
  - case_bool_decide; done.
Qed.

(** C29. With Redis as the cache and within the day the
    entry lives, a request that created an escrow under an idempotency key is
    answered again from the cache with the same escrow and payment URL, and
    reusing the key with a body that hashes differently is refused with 422;
    neither touches the database. *)
Theorem create_idempotent_once w key dto dto' vendor res w1 :
  run (EscrowService.createIdempotent key dto vendor) env w = (Ok (inl res), w1) ->
  (forall e, w_redis w !! EscrowService.idempotencyKey vendor key = Some e ->
     forall h r, ce_value e <> CIdempotent h r) ->
  let '(r2, w2) := run (EscrowService.createIdempotent key dto' vendor) env w1 in
  w_db w2 = w_db w1 /\
  r2 = if bool_decide (EscrowService.hashRequestBody env dto' = EscrowService.hashRequestBody env dto)
       then Ok (inr (as_json (inl res))) else Throw EscrowService.KEY_REUSED.
Proof using Hcache Hredis Hup Hday.
  intros Hrun Hjson. rewrite (createIdempotent_hit w1 key dto' vendor _ _
    (createIdempotent_stores _ _ _ _ _ _ Hrun Hjson)).
  split; [done|]. repeat case_bool_decide; congruence.
Qed.

End idempotent.

(** ** Instances *)

(** A chain on which every escrow is funded and every call succeeds. *)
Definition demo_chain : ContractApi.
Proof.
  refine {| getEscrowState _ := Ret (mkChainState "FUNDED" true);
            cancelEscrowOnChain _ _ := Ret "hash"; resolveDispute _ _ _ := Ret "hash";
            submitAutoRelease _ _ := Ret "hash"; recordDelivery _ _ := Ret "hash" |}; done.
Defined.

Lemma demo_world_inv rows :
  Forall (fun r => exists id st, r = demo_row id st) rows -> Inv demo_env (demo_world rows).
Proof.
  intros H. apply demo_inv. eapply Forall_impl; [exact H|]. intros r (id & st & ->). apply demo_row_dates.
Qed.

Ltac demo_rows := repeat constructor; by eexists _, _.

Lemma cancel_escrow_correct_witness :
  wp (EscrowService.cancelEscrow "E" "GBUYER" false) demo_env (demo_world [demo_row "E" FUNDED])
    (fun r w' => exists now, r = Ok (toEscrowRecord (cancelled now (demo_row "E" FUNDED))) /\
       rewritten (demo_world [demo_row "E" FUNDED]) w' "E" (cancelled now (demo_row "E" FUNDED))).
Proof.
  eapply wp_mono; [apply (cancel_escrow_correct demo_env (demo_world [demo_row "E" FUNDED])
    (demo_good _ _) (demo_world_inv [demo_row "E" FUNDED] ltac:(demo_rows)) (demo_reliable _) "E" "GBUYER" false)|].
  intros r w' [_ H]. exact H.
Defined.

Lemma cancel_pending_correct_witness :
  wp (EscrowService.cancelPendingEscrow (C := demo_chain) "E" "GBUYER" false) demo_env
    (demo_world [demo_row "E" CREATED])
    (fun r w' => exists now, r = Ok (toEscrowRecord (cancelled now (demo_row "E" CREATED))) /\
       rewritten (demo_world [demo_row "E" CREATED]) w' "E" (cancelled now (demo_row "E" CREATED))).
Proof.
  eapply wp_mono; [apply (cancel_pending_correct (C := demo_chain) demo_env (demo_world [demo_row "E" CREATED])
    (demo_good _ _) (demo_world_inv [demo_row "E" CREATED] ltac:(demo_rows)) (demo_reliable _) "E" "GBUYER" false)|].
  intros r w' H. cbn in H. destruct H as (w1 & o & w2 & _ & Ho & H). unfold run in Ho. injection Ho as <- <-.
  cbn in H. destruct H as (o' & w3 & Ho' & H). unfold run in Ho'. injection Ho' as <- <-.
  destruct H as (now & H1 & H2 & _). by exists now.
Defined.

Lemma handle_shipment_correct_witness :
  wp (EscrowService.handleShipment "E" "GVENDOR" " TRK1 " false) demo_env (demo_world [demo_row "E" FUNDED])
    (fun r w' => exists now, r = Ok (toEscrowRecord (shipped now "TRK1" (demo_row "E" FUNDED)))).
Proof.
  eapply wp_mono; [apply (handle_shipment_correct demo_env (demo_world [demo_row "E" FUNDED])
    (demo_good _ _) (demo_world_inv [demo_row "E" FUNDED] ltac:(demo_rows)) (demo_reliable _) "E" "GVENDOR" " TRK1 " false)|].
  intros r w' (now & H & _). by exists now.
Defined.

Definition demo_dto (itemRef : string) : CreateEscrowDto :=
  mkCreateEscrowDto "Camera" itemRef (ratio_to_number 2500 1) "USDC" "GBUYER".

Lemma create_escrow_correct_witness :
  wp (EscrowService.createEscrow (demo_dto "SKU") "GVENDOR") demo_env (demo_world [])
    (fun r w' => exists now uuid url, r = Ok (mkWithUrl
       (toEscrowRecord (new_escrow_row (demo_dto "SKU") "GVENDOR" 25000000000 now uuid)) url)).
Proof.
  eapply wp_mono; [apply (create_escrow_correct demo_env (demo_world [])
    (demo_good _ _) (demo_world_inv [] ltac:(demo_rows)) (demo_reliable _) (demo_dto "SKU") "GVENDOR"); done|].
  intros r w' [_ H]. destruct H as [_ H]; [done|done|].
  destruct H as (now & uuid & t & Hr & _); [|by eexists now, uuid, _].
  intros (id & row & Hrow & _). by destruct id.
Defined.

(** The second request has another item reference: the key is refused. *)
Lemma create_idempotent_once_witness :
  exists res w1, run (EscrowService.createIdempotent "k" (demo_dto "SKU") "GVENDOR") demo_redis_env (demo_world [])
      = (Ok (inl res), w1) /\
    (run (EscrowService.createIdempotent "k" (demo_dto "OTHER") "GVENDOR") demo_redis_env w1).1
      = Throw EscrowService.KEY_REUSED.
Proof.
  destruct (run (EscrowService.createIdempotent "k" (demo_dto "SKU") "GVENDOR") demo_redis_env (demo_world []))
    as [[[res|res]|e] w1] eqn:Hrun;
    [|apply (f_equal (fun x => match x.1 with Ok (inl _) => true | _ => false end)) in Hrun;
      vm_compute in Hrun; discriminate..].
  exists res, w1. split; [done|].
  pose proof (create_idempotent_once demo_redis_env eq_refl eq_refl (fun _ => eq_refl)
    ltac:(intros; vm_compute; done) (demo_world []) "k" (demo_dto "SKU") (demo_dto "OTHER") "GVENDOR" res w1 Hrun
    ltac:(intros e He; vm_compute in He; discriminate)) as H.
  destruct (run (EscrowService.createIdempotent "k" (demo_dto "OTHER") "GVENDOR") demo_redis_env w1) as [r2 w2].
  destruct H as [_ ->]. by rewrite bool_decide_false by (vm_compute; done).
Defined.
