(* ===== verification/ContractSpec.v ===== *)
(** * What a contract call guarantees

    The number of transactions a call can hand to the network, what must have
    happened when it reports a hash, the termination of the confirmation
    loop, and the reads of the on-chain state. *)
From S2P Require Import Prelude Records Dates Text Tables Effects Cache Prisma EscrowRepo Coherence Demo Contract Lifecycle EscrowSvc EscrowSound EscrowSpec.
Import ContractService.
Local Open Scope prog_scope.

(** ** Counting submissions *)

(** A run of [m] hands at most [n] transactions to the network. *)
Definition sends {A} (n : nat) (m : Prog A) : Prop :=
  forall env w, exists l, w_chain (run m env w).2 = w_chain w ++ l /\ length l <= n.

(** An atom that submits nothing. *)
Definition silent (w w' : World) : Prop := w_chain w' = w_chain w.

#[export] Instance silent_preorder : PreOrder silent.
Proof. unfold silent. split; [done|]. intros w1 w2 w3. congruence. Qed.

Ltac silent_atom := apply every_await; intros; done.
Ltac silent_walk := walk_every ltac:(idtac; silent_atom).

Lemma sends_silent {A} (m : Prog A) : every silent m -> sends 0 m.
Proof.
  intros Hm env w. exists []. rewrite app_nil_r. split; [|done]. exact (every_run silent m env w Hm).
Qed.

Lemma sends_weaken {A} n n' (m : Prog A) : n <= n' -> sends n m -> sends n' m.
Proof. intros Hn Hm env w. destruct (Hm env w) as (l & -> & Hl). exists l. split; [done|lia]. Qed.

Lemma sends_bind {A B} n1 n2 (m : Prog A) (k : A -> Prog B) :
  sends n1 m -> (forall a, sends n2 (k a)) -> sends (n1 + n2) (bind m k).
Proof.
  intros Hm Hk env w. rewrite run_bind. destruct (Hm env w) as (l1 & H1 & Hl1).
  destruct (run m env w) as [[a|e] w1]; simpl in H1.
  - destruct (Hk a env w1) as (l2 & H2 & Hl2). exists (l1 ++ l2).
    rewrite H2, H1, length_app, app_assoc. split; [done|lia].
  - exists l1. split; [done|lia].
Qed.

Lemma sends_then {A B} n (m : Prog A) (k : A -> Prog B) :
  every silent m -> (forall a, sends n (k a)) -> sends n (bind m k).
Proof. intros Hm Hk. apply (sends_bind 0 n); [by apply sends_silent|done]. Qed.

Lemma sends_catch {A} n1 n2 (m : Prog A) h :
  sends n1 m -> (forall e, sends n2 (h e)) -> sends (n1 + n2) (catch m h).
Proof.
  intros Hm Hh env w. rewrite run_catch. destruct (Hm env w) as (l1 & H1 & Hl1).
  destruct (run m env w) as [[a|e] w1]; simpl in H1.
  - exists l1. split; [done|lia].
  - destruct (Hh e env w1) as (l2 & H2 & Hl2). exists (l1 ++ l2).
    rewrite H2, H1, length_app, app_assoc. split; [done|lia].
Qed.

Lemma sends_raise {A} n e : sends n (Raise (A := A) e).
Proof. eapply sends_weaken; [apply Nat.le_0_l|]. by apply sends_silent. Qed.

Lemma sends_one {X} (f : Action X) :
  (forall env w, exists tx, w_chain (f env w).2 = w_chain w ++ [tx]) -> sends 1 (await f).
Proof. intros Hf env w. rewrite run_await. destruct (Hf env w) as [tx Htx]. by exists [tx]. Qed.

Lemma poll_loop_silent fuel hash get deadline response :
  every silent (poll_loop fuel hash get deadline response).
Proof.
  revert response. induction fuel as [|fuel IH]; intros response; simpl; [by case_match|].
  walk_every ltac:(idtac; first [apply IH | silent_atom]).
Qed.

Lemma poll_silent server hash : every silent (pollTransactionStatus server hash).
Proof.
  unfold pollTransactionStatus, pollWithGetTransaction.
  walk_every ltac:(idtac; first [apply poll_loop_silent | silent_atom]).
Qed.

Lemma sendAndConfirm_sends server tx : sends 1 (sendAndConfirm server tx).
Proof.
  unfold sendAndConfirm. apply (sends_bind 1 0).
  - unfold submitTransaction. case_match; [|apply sends_raise]. apply sends_one. intros env w. by eexists.
  - intros sent. apply sends_silent. walk_every ltac:(idtac; first [apply poll_silent | silent_atom]).
Qed.

Lemma prepareCall_silent server tx signer : every silent (prepareCall server tx signer).
Proof. unfold prepareCall, simulateTransaction, prepareTransaction. silent_walk. Qed.

Lemma fetchAccount_silent server a : every silent (fetchAccount server a).
Proof. unfold fetchAccount, newAccount. silent_walk. Qed.

Lemma invokeLegacy_sends server submit fn args id source :
  sends 1 (invokeLegacy server submit fn args id source).
Proof.
  unfold invokeLegacy. apply sends_then; [silent_walk|]. intros _. apply (sends_bind 1 0).
  - apply sends_one. intros env w. by eexists.
  - intros result. apply sends_silent. silent_walk.
Qed.

Lemma invokeRpc_sends server fn args source : sends 1 (invokeRpc server fn args source).
Proof.
  unfold invokeRpc. apply sends_then; [unfold getContractId; silent_walk|]. intros contractId.
  apply sends_then; [silent_walk|]. intros secret. apply sends_then; [silent_walk|]. intros sdk.
  cbv zeta. set (signer := if truthy secret then _ else _). set (src := if truthy source then _ else _).
  destruct (truthy src); [|apply sends_raise]. apply sends_then; [apply fetchAccount_silent|]. intros _.
  destruct (sdk_contract sdk contractId); [|apply sends_raise].
  apply sends_then; [apply prepareCall_silent|]. intros tx. apply sendAndConfirm_sends.
Qed.

Lemma invokeContract_sends fn args id source : sends 1 (invokeContract fn args id source).
Proof.
  unfold invokeContract. apply sends_then; [silent_walk|]. intros [server|]; [|apply sends_raise].
  repeat case_match; first [apply invokeRpc_sends | apply invokeLegacy_sends].
Qed.

(** ** Auto-release *)

Lemma auto_release_loop_sends n id source : sends (S n) (auto_release_loop n id source).
Proof.
  induction n as [|n IH]; simpl.
  - apply (sends_catch 1 0); [apply invokeContract_sends|]. intros e.
    destruct e; try apply sends_raise; case_match; apply sends_raise.
  - apply (sends_catch 1 (S n)); [apply invokeContract_sends|]. intros e.
    destruct e; try apply sends_raise; (case_match; [exact IH|apply sends_raise]).
Qed.

Lemma auto_release_loop_errors n id source env w e :
  (run (auto_release_loop n id source) env w).1 = Throw e -> exists m, e = ContractCallFailedException m.
Proof.
  revert w. induction n as [|n IH]; intros w; simpl; rewrite run_catch;
    destruct (run (invokeContract _ _ _ _) env w) as [[h|err] w1]; try done;
    (destruct err; try (intros [= <-]; by eexists);
     case_match; first [apply IH | intros [= <-]; by eexists]).
Qed.

(** C18. Whatever the RPC server answers, one auto-release
    hands at most [maxRetries + 1] transactions to the network, every failure
    it reports is a [ContractCallFailedException], and it writes neither the
    database nor the cache. *)
Theorem auto_release_bounded contractEscrowId source maxRetries env w :
  let '(r, w') := run (submitAutoRelease contractEscrowId source maxRetries) env w in
  (exists l, w_chain w' = w_chain w ++ l /\ length l <= S maxRetries) /\
  (forall e, r = Throw e -> exists m, e = ContractCallFailedException m) /\
  quiet_step w w'.
Proof.
  assert (Hs : sends (S maxRetries) (submitAutoRelease contractEscrowId source maxRetries)).
  { apply sends_then; [silent_walk|]. intros [s|]; [apply auto_release_loop_sends|apply sends_raise]. }
  assert (Hq : every quiet_step (submitAutoRelease contractEscrowId source maxRetries)) by quiet_op.
  assert (He : forall e, (run (submitAutoRelease contractEscrowId source maxRetries) env w).1 = Throw e ->
    exists m, e = ContractCallFailedException m).
  { intros e. unfold submitAutoRelease, ask. rewrite run_bind, run_await.
    destruct (env_server env); [apply auto_release_loop_errors|]. intros [= <-]. by eexists. }
  specialize (Hs env w). pose proof (every_run _ _ env w Hq) as Hq'.
  destruct (run _ env w) as [r w']. simpl in *. auto.
Qed.

(** ** The confirmation loop *)

Definition NOT_CONFIRMED (hash : string) : exn :=
  ContractCallFailedException ("Transaction " +:+ hash +:+ " was not confirmed within 30000ms").

Section confirm.
Context (env : Env) (hash : string) (getTransaction : nat -> string -> outcome TxResponse).

(** How polling may end: with a final status the server reported, with the
    timeout, or with a rejection of the server. *)
Definition poll_outcome (r : outcome TxResponse) : Prop :=
  match r with
  | Ok response => isPendingStatus (tx_status response) = false /\ exists t, getTransaction t hash = Ok response
  | Throw e => e = NOT_CONFIRMED hash \/ exists t, getTransaction t hash = Throw e
  end.

(** The clock does not go back, and each round sleeps for the poll interval,
    so it has advanced by it when the next round starts. *)
Context (Hmono : forall t, (env_now env t <= env_now env (S t))%Z).
Context (Hpace : forall t, (env_now env t + TX_CONFIRM_POLL_INTERVAL_MS <= env_now env (S (S t)))%Z).

Lemma poll_loop_outcome fuel deadline response w :
  (deadline <= env_now env (w_tick w) + Z.of_nat fuel * TX_CONFIRM_POLL_INTERVAL_MS)%Z ->
  (exists t, getTransaction t hash = Ok response) ->
  poll_outcome (run (poll_loop (S fuel) hash getTransaction deadline response) env w).1.
Proof using Hpace.
  revert response w. induction fuel as [|fuel IH]; intros response w Hfuel Hresp;
    cbn [poll_loop]; (destruct (isPendingStatus (tx_status response)) eqn:Hp; [|by split]);
    rewrite run_bind, run_await; cbn [now];
    destruct (Z.leb_spec deadline (env_now env (w_tick w))) as [Hle|Hgt]; try (by left).
  - lia.
  - rewrite run_bind, run_await. cbn [sleep]. rewrite run_bind, run_await. cbn [ext_call].
    destruct (getTransaction (w_tick (tick w)) hash) as [response'|e] eqn:Hget; [|right; by eexists].
    apply IH; [|by eexists]. specialize (Hpace (w_tick w)). simpl. lia.
Qed.

(** C19. Polling an RPC server for a transaction ends
    within its bound: with a status that is no longer pending, with the
    timeout error, or with the server's own rejection, never by running out of
    rounds. *)
Theorem confirmation_terminates w :
  poll_outcome (run (pollWithGetTransaction hash getTransaction) env w).1.
Proof using Hmono Hpace.
  unfold pollWithGetTransaction. rewrite run_bind, run_await. cbn [now].
  rewrite run_bind, run_await. cbn [ext_call].
  destruct (getTransaction (w_tick w) hash) as [response|e] eqn:Hget; [|right; by eexists].
  replace POLL_FUEL with (S 120) by reflexivity. apply poll_loop_outcome; [|by eexists].
  specialize (Hmono (w_tick w)). simpl. unfold TX_CONFIRM_TIMEOUT_MS, TX_CONFIRM_POLL_INTERVAL_MS. lia.
Qed.
End confirm.

(** A clock that advances by one interval per tick. *)
Definition ticking_env : Env :=
  mkEnv (fun t => demo_now + 250 * Z.of_nat t)%Z (fun _ => None) demo_uuid true false (fun _ => false) true
    false demo_config (fun _ => 25000000000%Z) (Some demo_server) demo_sdk (fun s => s)
    (fun _ m => m) (fun _ => "0") (fun _ _ => Ok []) (fun _ => Ok 100%Z) (fun _ _ => Ok []) 30 None (fun _ => true) demo_providers.

(** A transaction that never leaves PENDING ends in the timeout. *)
Lemma confirmation_terminates_witness :
  (run (pollWithGetTransaction "h" (fun _ _ => Ok (mkTx "PENDING" None))) ticking_env (demo_world [])).1
    = Throw (NOT_CONFIRMED "h").
Proof.
  pose proof (confirmation_terminates ticking_env "h" (fun _ _ => Ok (mkTx "PENDING" None))
    ltac:(intros t; cbn [ticking_env env_now]; lia)
    ltac:(intros t; cbn [ticking_env env_now]; unfold TX_CONFIRM_POLL_INTERVAL_MS; lia) (demo_world [])) as H.
  destruct (run _ _ _).1 as [r|e]; simpl in H.
  - destruct H as [Hp [t [= <-]]]. done.
  - by destruct H as [->|[t [=]]].
Defined.

(** ** What success means *)

Lemma run_bind_ok {A B} (m : Prog A) (k : A -> Prog B) env w b w' :
  run (bind m k) env w = (Ok b, w') ->
  exists a w1, run m env w = (Ok a, w1) /\ run (k a) env w1 = (Ok b, w').
Proof. rewrite run_bind. destruct (run m env w) as [[a|e] w1]; [|done]. intros H. by exists a, w1. Qed.

Lemma poll_loop_ok fuel hash get deadline response env w r w' :
  run (poll_loop fuel hash get deadline response) env w = (Ok r, w') ->
  (exists t, get t hash = Ok response) ->
  isPendingStatus (tx_status r) = false /\ exists t, get t hash = Ok r.
Proof.
  revert response w. induction fuel as [|fuel IH]; intros response w Hrun Hresp; cbn [poll_loop] in Hrun;
    (destruct (isPendingStatus (tx_status response)) eqn:Hp; [|by injection Hrun as <- <-]); [done|].
  apply run_bind_ok in Hrun as (t & w1 & _ & Hrun). destruct (deadline <=? t)%Z; [done|].
  apply run_bind_ok in Hrun as (u & w2 & _ & Hrun). apply run_bind_ok in Hrun as (r2 & w3 & Hget & Hrun).
  rewrite run_await in Hget. injection Hget as Hget _. apply (IH r2 w3 Hrun). by eexists.
Qed.

(** What the status query of a submitted transaction answered: whatever the
    server's own [pollTransaction] says, or the first status of [getTransaction]
    that is not pending. *)
Definition status_reported (server : StellarServer) (h : string) (final : TxResponse) : Prop :=
  match sv_pollTransaction server with
  | Some poll => exists t, poll t h = Ok final
  | None => exists get t, sv_getTransaction server = Some get /\ get t h = Ok final /\
              tx_status final <> "NOT_FOUND" /\ tx_status final <> "PENDING"
  end.

Lemma not_pending status : isPendingStatus status = false -> status <> "NOT_FOUND" /\ status <> "PENDING".
Proof. unfold isPendingStatus. intros H. b2p. done. Qed.

Lemma pollTransactionStatus_ok server hash env w final w' :
  run (pollTransactionStatus server hash) env w = (Ok final, w') -> status_reported server hash final.
Proof.
  unfold pollTransactionStatus, status_reported. destruct (sv_pollTransaction server) as [poll|].
  { rewrite run_await. intros [= H _]. by eexists. }
  destruct (sv_getTransaction server) as [get|]; [|done].
  intros (t0 & w1 & _ & Hrun)%run_bind_ok. apply run_bind_ok in Hrun as (resp & w2 & Hget & Hrun).
  rewrite run_await in Hget. injection Hget as Hget _.
  destruct (poll_loop_ok _ _ _ _ _ _ _ _ _ Hrun) as [Hp [t Ht]]; [by eexists|]. exists get, t.
  by apply not_pending in Hp.
Qed.

(** The network accepted the transaction under that hash, and the status
    reported for it is not FAILED. *)
Definition accepted (server : StellarServer) (tx : ContractTx) (h : string) : Prop :=
  exists send t sent final,
    sv_sendTransaction server = Some send /\ send t tx = Ok sent /\ send_status sent <> "ERROR" /\ send_hash sent = Some h /\
    status_reported server h final /\ tx_status final <> "FAILED".

Lemma sendAndConfirm_ok server tx env w h w' :
  run (sendAndConfirm server tx) env w = (Ok h, w') ->
  accepted server tx h /\ w_chain w' = w_chain w ++ [tx].
Proof.
  intros (sent & w1 & Hsend & Hrun)%run_bind_ok. unfold submitTransaction in Hsend.
  destruct (sv_sendTransaction server) as [send|] eqn:Hs; [|done].
  rewrite run_await in Hsend. injection Hsend as Hsend <-.
  cbv zeta in Hrun. destruct (bool_decide (send_status sent = "ERROR")) eqn:Herr; [by case_match|]. b2p.
  destruct (send_hash sent) as [hash|] eqn:Hh; [|done].
  destruct (truthy (Some hash)); [|done]. cbn [coalesce] in Hrun.
  apply run_bind_ok in Hrun as (final & w2 & Hpoll & Hrun).
  destruct (bool_decide (tx_status final = "FAILED")) eqn:Hf; [done|]. b2p.
  pose proof (every_run silent _ env (log_chain tx (tick w)) (poll_silent server hash)) as Hsil.
  rewrite Hpoll in Hsil. apply pollTransactionStatus_ok in Hpoll. injection Hrun as <- <-. split; [|exact Hsil].
  by exists send, (w_tick w), sent, final.
Qed.

(** What [prepareCall] returns: a simulated and prepared transaction, signed
    when there is a signer. *)
Lemma prepareCall_ok server tx signer env w tx' w' :
  run (prepareCall server tx signer) env w = (Ok tx', w') ->
  exists simulate t sim,
    sv_simulateTransaction server = Some simulate /\ simulate t tx = Ok sim /\ isSimulationError sim = false /\
    (is_Some signer -> ct_signed tx' = true).
Proof.
  intros (sim & w1 & Hsim & Hrun)%run_bind_ok. unfold simulateTransaction in Hsim.
  destruct (sv_simulateTransaction server) as [simulate|] eqn:Hs; [|done].
  rewrite run_await in Hsim. injection Hsim as Hsim <-.
  destruct (isSimulationError sim) eqn:He; [done|].
  apply run_bind_ok in Hrun as (prepared & w2 & _ & [= <- <-]).
  exists simulate, (w_tick w), sim. split_and!; try done. by intros [s ->].
Qed.

(** C17. When a contract call on an RPC server reports a
    transaction hash, the call was simulated without error with exactly the
    given function and arguments, one transaction was handed to the network,
    signed if a signing key is configured, the network accepted it under that
    hash, and the status then reported for it is not FAILED.  On a server
    without a [pollTransaction] of its own that status is neither NOT_FOUND nor
    PENDING either. *)
Theorem reported_hash_was_accepted env server fn args cid source w h w' :
  env_server env = Some server -> is_Some (sv_simulateTransaction server) ->
  run (invokeContract fn args cid source) env w = (Ok h, w') ->
  exists simulate t sim src tx,
    sv_simulateTransaction server = Some simulate /\ simulate t (mkCall fn args src false) = Ok sim /\
    sim_error sim = None /\ w_chain w' = w_chain w ++ [tx] /\ accepted server tx h /\
    (is_Some (env_config env "SYSTEM_SIGNER_SECRET" ≫= sdk_keypair (env_sdk env)) ->
     truthy (env_config env "SYSTEM_SIGNER_SECRET") = true -> ct_signed tx = true).
Proof.
  intros Hserver [simulate Hsim] Hrun. unfold invokeContract in Hrun.
  apply run_bind_ok in Hrun as (s & w1 & Hs & Hrun). unfold ask in Hs. rewrite run_await in Hs.
  injection Hs as <- <-. rewrite Hserver in Hrun.
  assert (Hrpc : run (invokeRpc server fn args source) env w = (Ok h, w')).
  { rewrite Hsim in Hrun. by destruct (sv_submitTransaction server). }
  clear Hrun. unfold invokeRpc in Hrpc.
  apply run_bind_ok in Hrpc as (contractId & w2 & H2 & Hrpc).
  pose proof (every_run silent getContractId env w ltac:(unfold getContractId; silent_walk)) as S2.
  rewrite H2 in S2. unfold ask in Hrpc.
  apply run_bind_ok in Hrpc as (secret & w3 & H3 & Hrpc). rewrite run_await in H3. injection H3 as <- <-.
  apply run_bind_ok in Hrpc as (sdk & w3 & H3 & Hrpc). rewrite run_await in H3. injection H3 as <- <-.
  cbv zeta in Hrpc. set (secret := env_config env "SYSTEM_SIGNER_SECRET") in *.
  set (signer := if truthy secret then _ else _) in *. set (src := if truthy source then _ else _) in *.
  destruct (truthy src); [|done].
  apply run_bind_ok in Hrpc as (seq & w3 & H3 & Hrpc).
  pose proof (every_run silent _ env w2 (fetchAccount_silent server (coalesce src ""))) as S3. rewrite H3 in S3.
  destruct (sdk_contract (env_sdk env) contractId); [|done].
  apply run_bind_ok in Hrpc as (tx & w4 & H4 & Hrpc).
  pose proof (every_run silent _ env w3
    (prepareCall_silent server (mkCall fn args (coalesce src "") false) signer)) as S4. rewrite H4 in S4.
  apply prepareCall_ok in H4 as (sim' & t & sim & Hsim' & Ht & Herr & Hsign).
  apply sendAndConfirm_ok in Hrpc as [Hconf Hch].
  exists sim', t, sim, (coalesce src ""), tx. split_and!; try done.
  - unfold isSimulationError in Herr. by destruct (sim_error sim).
  - unfold silent in S2, S3, S4. simpl in *. congruence.
  - intros Hk Ht'. apply Hsign. unfold signer. by rewrite Ht'.
Qed.

Lemma reported_hash_was_accepted_witness :
  exists h w' tx, run (invokeContract "record_delivery" [ScU64 7] 7 None) demo_env (demo_world []) = (Ok h, w') /\
    accepted demo_server tx h /\ ct_signed tx = true.
Proof.
  destruct (run (invokeContract "record_delivery" [ScU64 7] 7 None) demo_env (demo_world []))
    as [[h|e] w'] eqn:Hrun.
  - destruct (reported_hash_was_accepted demo_env demo_server "record_delivery" [ScU64 7] 7 None (demo_world []) h w'
      eq_refl ltac:(by eexists) Hrun) as (sim & t & s & src & tx & _ & _ & _ & _ & Hc & Hsign).
    exists h, w', tx. split_and!; [done|done|]. apply Hsign; [by eexists|done].
  - exfalso. apply (f_equal (fun x => match x.1 with Ok _ => true | _ => false end)) in Hrun.
    vm_compute in Hrun. discriminate.
Defined.

(** A server whose own [pollTransaction] gives up while the transaction is
    still unknown. *)
Definition lossy_server : StellarServer := mkServer None
  (sv_getAccount demo_server) (sv_simulateTransaction demo_server) (sv_prepareTransaction demo_server)
  (sv_sendTransaction demo_server) None (Some (fun _ _ => Ok (mkTx "NOT_FOUND" None))) None.

(** The guard against unconfirmed
    transactions covers the [getTransaction] path only: when the server's
    [pollTransaction] ends with NOT_FOUND, the call still reports success. *)
Theorem unconfirmed_poll_reported_as_success :
  (run (invokeContract "record_delivery" [ScU64 7] 7 None)
     (demo_env_with (fun _ => None) (Some lossy_server)) (demo_world [])).1 = Ok "hash".
Proof. vm_compute. reflexivity. Qed.

(** ** Reading the state of an escrow *)

Lemma getEscrowState_rpc env server cid w :
  env_server env = Some server -> is_Some (sv_simulateTransaction server) ->
  (run (getEscrowState cid) env w).1 = Ok UNKNOWN_STATE \/
  (run (getEscrowState cid) env w).1 = Ok (mkChainState "CREATED" true).
Proof.
  intros Hs [sim Hsim]. unfold getEscrowState, ask. rewrite run_bind, run_await, Hs, Hsim.
  assert (H : forall m : Prog ChainState, (forall r, (run m env w).1 = Ok r ->
      r = UNKNOWN_STATE \/ r = mkChainState "CREATED" true) ->
    (run (catch m (fun _ => Ret UNKNOWN_STATE)) env w).1 = Ok UNKNOWN_STATE \/
    (run (catch m (fun _ => Ret UNKNOWN_STATE)) env w).1 = Ok (mkChainState "CREATED" true)).
  { intros m Hm. rewrite run_catch. destruct (run m env w) as [[r|e] w1]; [|by left].
    destruct (Hm r eq_refl) as [->| ->]; auto. }
  destruct (sv_submitTransaction server); apply H; intros r Hr;
    destruct (run _ env w) as [oc w'] eqn:Hrun; simpl in Hr; subst oc;
    apply run_bind_ok in Hrun as (c & w1 & _ & Hrun); apply run_bind_ok in Hrun as (sdk & w2 & _ & Hrun);
    apply run_bind_ok in Hrun as ([] & w3 & _ & Hrun); apply run_bind_ok in Hrun as (s & w4 & _ & Hrun);
    destruct (isSimulationError s); injection Hrun as <- _; auto.
Qed.

Lemma silent_db_call {X} (f : Z -> string -> Db -> outcome X * Db) : every silent (await (db_call f)).
Proof. apply every_await. intros env w. by destruct (db_call_cases f env w) as [(e & _ & ->)| ->]. Qed.

Lemma service_findById_silent id : every silent (EscrowService.findById id).
Proof.
  unfold EscrowService.findById, EscrowRepo.findById, findById_miss, cache_get, cache_set.
  walk_every ltac:(idtac; first [apply silent_db_call | apply every_await; intros;
    unfold cache_get_action, cache_set_action; by repeat case_match]).
Qed.

Lemma markCancelled_silent id : every silent (markCancelled id).
Proof.
  unfold markCancelled, write_through, invalidate, cache_del.
  walk_every ltac:(idtac; first [apply silent_db_call | apply every_await; intros;
    unfold cache_del_action; by repeat case_match]).
Qed.

Lemma getEscrowState_silent id : every silent (getEscrowState id).
Proof. unfold getEscrowState, getContractId, simulateTransaction. silent_walk. Qed.

(** On an RPC server the state read answers
    UNKNOWN or CREATED, never FUNDED, so cancelling a pending escrow never
    submits the on-chain refund, whatever the contract really holds. *)
Theorem pending_cancel_never_refunds env server id caller isAdmin w :
  env_server env = Some server -> is_Some (sv_simulateTransaction server) ->
  w_chain (run (EscrowService.cancelPendingEscrow id caller isAdmin) env w).2 = w_chain w.
Proof.
  intros Hs Hsim. unfold EscrowService.cancelPendingEscrow. rewrite run_bind.
  pose proof (every_run silent _ env w (service_findById_silent id)) as H1.
  destruct (run (EscrowService.findById id) env w) as [[e|ex] w1]; [|exact H1]. simpl in H1.
  assert (Hm : forall w2, silent w w2 -> w_chain (run (markCancelled id) env w2).2 = w_chain w).
  { intros w2 H2. rewrite (every_run silent _ env w2 (markCancelled_silent id)). exact H2. }
  destruct (negb (EscrowService.may_cancel isAdmin e caller)); [exact H1|].
  destruct (negb (bool_decide (e_state e = CREATED))); [exact H1|].
  destruct (e_contractEscrowId e) as [cid|]; [|by apply Hm].
  cbn [Contract.getEscrowState contractService]. rewrite run_bind.
  pose proof (getEscrowState_rpc env server cid w1 Hs Hsim) as Hst.
  pose proof (every_run silent _ env w1 (getEscrowState_silent cid)) as H2.
  destruct (run (getEscrowState cid) env w1) as [o w2]. simpl in Hst, H2.
  assert (H12 : silent w w2) by (etrans; [exact H1|exact H2]).
  destruct Hst as [-> | ->]; by apply Hm.
Qed.

Lemma pending_cancel_never_refunds_witness :
  w_chain (run (EscrowService.cancelPendingEscrow "E" "GBUYER" false) demo_env
    (demo_world [demo_row "E" CREATED])).2 = [].
Proof.
  apply (pending_cancel_never_refunds demo_env demo_server "E" "GBUYER" false); [done|by eexists].
Defined.
