(* ===== verification/SyncSpec.v ===== *)
(** * On-chain events refine an abstract machine

    [syncStateFromChain] against the transition function a chain event
    denotes, with the exact notification of each transition; and two
    sequences of faults after which a redelivered dispute event can no longer
    be applied. *)
From S2P Require Import Prelude Records Dates Text Tables Effects Cache Prisma EscrowRepo Coherence Demo Contract Lifecycle EscrowSvc EscrowSound EscrowSpec.
Local Open Scope prog_scope.
Import EscrowService.

(** ** The abstract machine *)

(** The state an event moves an escrow to; [None] when it does not apply. *)
Definition chain_target (kind : EventKind) (resolution : option Resolution) (s : EscrowState)
    : option EscrowState :=
  match kind with
  | EscrowFunded => if bool_decide (s = CREATED) then Some FUNDED else None
  | EscrowShipped => if bool_decide (s = CREATED) || bool_decide (s = FUNDED) then Some SHIPPED else None
  | _ =>
      if TERMINAL_STATES s then None
      else
        match kind with
        | EscrowCompleted => Some COMPLETED
        | EscrowCancelled | EscrowAutoCancelled => Some CANCELLED
        | DisputeRaised => if bool_decide (s = DISPUTED) then None else Some DISPUTED
        | DisputeResolved => Some (if bool_decide (resolution = Some REFUND) then REFUNDED else COMPLETED)
        | AutoReleased => Some RELEASED
        | _ => Some REFUNDED
        end
  end.

(** The notification a transition starts: cancellations start none. *)
Definition chain_notice (s' : EscrowState) : option NotificationType :=
  match s' with
  | FUNDED => Some NFunded
  | SHIPPED => Some NShipped
  | DISPUTED => Some NDisputed
  | COMPLETED | RELEASED => Some NCompleted
  | REFUNDED => Some NRefunded
  | _ => None
  end.

(** The escrow moved to [s'] and the notification went out. *)
Definition synced (w w' : World) (id : string) (row : PrismaEscrow) (s' : EscrowState) : Prop :=
  exists row', db_escrows (w_db w') = <[id := row']> (db_escrows (w_db w)) /\
    e_state row' = s' /\ same_identity row row' /\
    w_outbox w' = w_outbox w ++
      (match chain_notice s' with Some t => [mkNotice t (toEscrowRecord row')] | None => [] end) /\
    w_chain w' = w_chain w.

(** The dispute table lets the event through: a raised dispute is the first
    one of its escrow, a resolved one is not resolved yet. *)
Definition disputes_ready (env : Env) (w : World) (id : string) (kind : EventKind) : Prop :=
  (forall k d, db_disputes (w_db w) !! k = Some d -> d_id d = k) /\
  match kind with
  | DisputeRaised =>
      (forall k d, db_disputes (w_db w) !! k = Some d -> d_escrowId d <> id) /\
      forall t, db_disputes (w_db w) !! env_uuid env t = None
  | DisputeResolved =>
      forall k d, db_disputes (w_db w) !! k = Some d -> d_escrowId d = id -> d_status d <> RESOLVED
  | _ => True
  end.

(** ** Steps *)

Section sync.
Context (env : Env) (w : World).
Context (HE : good_env env) (HI : Inv env w) (HR : db_reliable env).

(** A world that differs from [w] by the cache and the dispute table only. *)
Definition near (w1 : World) : Prop :=
  Inv env w1 /\ db_escrows (w_db w1) = db_escrows (w_db w) /\
  w_outbox w1 = w_outbox w /\ w_chain w1 = w_chain w.

Lemma near_unchanged w1 : Inv env w1 -> unchanged w w1 -> near w1.
Proof. intros ? [Hdb []]. split_and!; [done|by rewrite Hdb|done|done]. Qed.

Lemma wp_sync_write w1 id row f s' {B} (k : EscrowRecord -> Prog B) (Q : outcome B -> World -> Prop) :
  near w1 -> escrow_of w id = Some row -> good_update f -> (forall now, e_state (f now row) = s') ->
  (forall row' w2, db_escrows (w_db w2) = <[id := row']> (db_escrows (w_db w)) ->
     e_state row' = s' -> same_identity row row' -> w_outbox w2 = w_outbox w -> w_chain w2 = w_chain w ->
     wp (k (toEscrowRecord row')) env w2 Q) ->
  wp (bind (write_through id f) k) env w1 Q.
Proof using HE HI HR.
  intros (HI1 & Hdb1 & Hout & Hch) Hrow Hf Hst HQ.
  apply wp_bind, wp_write_through; [done|done|done| |].
  - intros e w' _ _ _ Hn. destruct (Hn HR) as [Hnone _]. rewrite Hdb1 in Hnone. congruence.
  - intros now row0 w2 Hnow Hrow0 HI2 Haux row' Hdb2. rewrite Hdb1 in Hrow0. simplify_eq.
    destruct (Hf now row Hnow (inv_dates _ _ HI _ _ Hrow)) as [_ Hs].
    apply HQ; [by rewrite Hdb2; simpl; rewrite Hdb1|apply Hst|exact Hs| |].
    + by rewrite (aux_outbox _ _ Haux).
    + by rewrite (aux_chain _ _ Haux).
Qed.

Lemma wp_move w1 id row f s' t :
  near w1 -> escrow_of w id = Some row -> good_update f -> (forall now, e_state (f now row) = s') ->
  chain_notice s' = Some t ->
  wp (let* rec := write_through id f in notify t rec ;;; done_) env w1
    (fun r w' => r = Ok (mkSync false None) /\ synced w w' id row s').
Proof using HE HI HR.
  intros Hn Hrow Hf Hst Ht. eapply wp_sync_write; eauto.
  intros row' w2 Hdb Hs Hid Hout Hch. apply wp_bind, wp_await, wp_ret. split; [done|].
  exists row'. rewrite Ht. simpl. split_and!; try done. by rewrite Hout.
Qed.

Lemma wp_cancel w1 id row :
  near w1 -> escrow_of w id = Some row ->
  wp (markCancelled id ;;; done_) env w1
    (fun r w' => r = Ok (mkSync false None) /\ synced w w' id row CANCELLED).
Proof using HE HI HR.
  intros Hn Hrow. apply (wp_sync_write w1 id row _ CANCELLED); [done|done|solve_update|done|].
  intros row' w2 Hdb Hs Hid Hout Hch. apply wp_ret. split; [done|].
  exists row'. simpl. rewrite app_nil_r. by split_and!.
Qed.

Lemma existsb_rows_false {V} (m : gmap string V) (P : V -> bool) :
  (forall k v, m !! k = Some v -> P v = false) -> existsb P (map_to_list m).*2 = false.
Proof.
  intros H. apply not_true_iff_false. rewrite existsb_exists. intros (v & Hv & HP).
  rewrite <- list_elem_of_In in Hv. apply list_elem_of_fmap in Hv as ([k v'] & -> & Hk).
  apply elem_of_map_to_list in Hk. simpl in HP. by rewrite (H _ _ Hk) in HP.
Qed.

Lemma wp_dispute_raised w1 id reason (Q : outcome unit -> World -> Prop) :
  Inv env w1 -> unchanged w w1 -> is_Some (escrow_of w id) -> disputes_ready env w id DisputeRaised ->
  (forall w2, near w2 -> Q (Ok tt) w2) -> wp (sync_dispute_raised id reason) env w1 Q.
Proof using HE HR.
  intros HI1 Hun Hex (_ & Hfree & Hnew) HQ. pose proof (near_unchanged _ HI1 Hun) as Hn.
  destruct Hun as [Hdb1 Haux1].
  apply wp_bind, wp_await. simpl. destruct (env_prisma env); [|by apply wp_ret, HQ].
  apply wp_bind, wp_await. unfold dispute_create, dispute_rows. rewrite db_call_reliable by done. simpl.
  rewrite Hdb1, Hnew, bool_decide_false by (by intros [? ?]).
  rewrite existsb_rows_false; [|intros k d Hd; apply bool_decide_false; by eapply Hfree].
  rewrite bool_decide_true by done. simpl. apply wp_ret, HQ.
  destruct Hn as (_ & He & Ho & Hc). split_and!; [|done|done|done].
  eapply inv_frame; [exact HI1|by rewrite Hdb1|done].
Qed.

Lemma find_rows_Some {V} (m : gmap string V) (P : V -> bool) v :
  List.find P (map_to_list m).*2 = Some v -> P v = true /\ exists k, m !! k = Some v.
Proof.
  intros [Hin HP]%find_some. split; [done|]. rewrite <- list_elem_of_In in Hin.
  apply list_elem_of_fmap in Hin as ([k v'] & -> & Hk). exists k. by apply elem_of_map_to_list.
Qed.

Lemma wp_dispute_resolved w1 id (Q : outcome bool -> World -> Prop) :
  Inv env w1 -> unchanged w w1 -> disputes_ready env w id DisputeResolved ->
  (forall w2, near w2 -> Q (Ok false) w2) -> wp (sync_dispute_resolved id) env w1 Q.
Proof using HE HR.
  intros HI1 Hun (Hids & Hopen) HQ. pose proof (near_unchanged _ HI1 Hun) as Hn.
  destruct Hun as [Hdb1 Haux1].
  apply wp_bind, wp_await. simpl. destruct (env_prisma env); [|by apply wp_ret, HQ].
  apply wp_bind, wp_await. unfold dispute_findFirst, dispute_rows. rewrite db_call_reliable by done. simpl. rewrite Hdb1.
  assert (Hn2 : forall dd, db_escrows dd = db_escrows (w_db w) -> forall n, near (set_db dd (Nat.iter n tick w1))).
  { intros dd Hdd n. destruct Hn as (_ & He & Ho & Hc).
    assert (Hk : w_memory (Nat.iter n tick w1) = w_memory w1 /\ w_redis (Nat.iter n tick w1) = w_redis w1 /\
      w_outbox (Nat.iter n tick w1) = w_outbox w1 /\ w_chain (Nat.iter n tick w1) = w_chain w1)
      by (induction n; simpl; [done|tauto]). destruct Hk as (K1 & K2 & K3 & K4).
    split_and!; simpl; [|done|congruence|congruence].
    eapply inv_frame; [exact HI1|by rewrite Hdb1|]. intros id' v. unfold cached. simpl. by rewrite K1, K2. }
  destruct (List.find _ _) as [d|] eqn:Hfind; simpl; [|apply wp_ret, HQ, (Hn2 _ eq_refl 1)].
  apply find_rows_Some in Hfind as [Hd [k Hk]]. b2p.
  rewrite bool_decide_false by (by eapply Hopen).
  apply wp_bind, wp_await. unfold dispute_update. rewrite db_call_reliable by done. simpl.
  rewrite (Hids _ _ Hk), Hk. simpl. apply wp_ret, HQ.
  by apply (Hn2 (set_disputes _ _) eq_refl 2).
Qed.

(** ** Refinement *)

Lemma wp_sync_escrow w1 event kind row :
  Inv env w1 -> unchanged w w1 -> escrow_of w (ce_escrowId event) = Some row ->
  disputes_ready env w (ce_escrowId event) kind ->
  wp (sync_escrow event kind (toEscrowRecord row)) env w1 (fun r w' =>
    match chain_target kind (ce_resolution event) (e_state row) with
    | None => (exists reason, r = Ok (mkSync true (Some reason))) /\ unchanged w w'
    | Some s' => r = Ok (mkSync false None) /\ synced w w' (ce_escrowId event) row s'
    end).
Proof using HE HI HR.
  intros HI1 Hun Hrow Hd. pose proof (near_unchanged _ HI1 Hun) as Hn.
  assert (Hskip : forall reason, (exists reason0, (run (skip reason) env w1).1 =
    Ok (mkSync true (Some reason0))) /\ unchanged w w1) by (intros; split; [by eexists|done]).
  destruct kind; unfold sync_escrow, chain_target; cbn [toEscrowRecord e_state e_trackingId e_autoReleaseTxHash].
  all: destruct (e_state row) eqn:Hst; simpl; try apply Hskip.
  all: try (apply wp_move; [done|done|solve_update|done|done]).
  all: try (apply wp_cancel; done).
  all: try (apply wp_bind, wp_dispute_raised; [done|done|by eexists|done|]; intros w2 Hn2;
    apply wp_move; [done|done|solve_update|done|done]).
  all: apply wp_bind, wp_dispute_resolved; [done|done|done|]; intros w2 Hn2;
    destruct (bool_decide _); simpl; (apply wp_move; [done|done|solve_update|done|done]).
Qed.

(** C3. When the database answers and the dispute
    table is ready for the event, [syncStateFromChain] does exactly what the
    abstract machine says: it skips an event for an unknown escrow, an unknown
    event type, or an event that does not apply, with no effect; otherwise it
    moves the one escrow to the machine's target state and starts the one
    notification of that transition. *)
Theorem sync_refines_chain_machine event :
  (forall kind, event_kind (ce_eventType event) = Some kind ->
     disputes_ready env w (ce_escrowId event) kind) ->
  wp (syncStateFromChain event) env w (fun r w' =>
    match escrow_of w (ce_escrowId event), event_kind (ce_eventType event) with
    | Some row, Some kind =>
        match chain_target kind (ce_resolution event) (e_state row) with
        | None => (exists reason, r = Ok (mkSync true (Some reason))) /\ unchanged w w'
        | Some s' => r = Ok (mkSync false None) /\ synced w w' (ce_escrowId event) row s'
        end
    | _, _ => (exists reason, r = Ok (mkSync true (Some reason))) /\ unchanged w w'
    end).
Proof using HE HI HR.
  intros Hd. apply wp_bind, wp_findById; [done|done|].
  intros [[rec|]|e] w1 HI1 Hdb Haux Hf; simpl in Hf; [| |by destruct Hf].
  - destruct Hf as (row & Hrow & ->). rewrite Hrow.
    destruct (event_kind (ce_eventType event)) as [kind|] eqn:Hk.
    + apply wp_sync_escrow; [done|by split|done|by apply Hd].
    + split; [by eexists|by split].
  - rewrite Hf. split; [by eexists|by split].
Qed.

End sync.

(** The abstract machine only takes steps of the life cycle. *)
Lemma chain_target_allowed kind res s s' : chain_target kind res s = Some s' -> transition s s'.
Proof. destruct kind, s; simpl; try done; try case_bool_decide; by intros [= <-]. Qed.

(** ** Instances *)

Definition demo_event (t : string) : SorobanChainEvent := mkChainEvent t "e1" None None None None.

Lemma sync_refines_chain_machine_witness :
  wp (syncStateFromChain (demo_event "DisputeRaised")) demo_env (demo_world [demo_row "e1" SHIPPED])
    (fun r w' => r = Ok (mkSync false None) /\
       synced (demo_world [demo_row "e1" SHIPPED]) w' "e1" (demo_row "e1" SHIPPED) DISPUTED).
Proof.
  apply (sync_refines_chain_machine demo_env (demo_world [demo_row "e1" SHIPPED]));
    [apply demo_good|apply demo_inv; repeat constructor; apply demo_row_dates|apply demo_reliable|].
  intros kind [= <-]. split_and!; by intros.
Defined.

(** ** Faults between the two writes of a dispute event *)

(** The database rejects the call at one tick. *)
Definition fault_at (n : nat) : nat -> option exn :=
  fun t => if Nat.eqb t n then Some (PrismaError "P1001") else None.

(** [m] run with a fault at tick [n], then [m'] without faults. *)
Definition after_fault {A B} (n : nat) (m : Prog A) (m' : Prog B) (w : World)
    : outcome A * outcome B * World :=
  let '(r1, w1) := run m (demo_env_with (fault_at n) (Some demo_server)) w in
  let '(r2, w2) := run m' demo_env w1 in
  (r1, r2, w2).

Definition state_of (w : World) (id : string) : option EscrowState := e_state <$> escrow_of w id.

(** The dispute row is written before the
    escrow is moved: when the second write fails, the poller redelivers the
    event, but its dispute row already exists, so every redelivery is rejected
    by the unique key and the escrow never becomes DISPUTED. *)
Theorem dispute_raised_redelivery_fails :
  let sync := syncStateFromChain (demo_event "DisputeRaised") in
  let '(r1, r2, w2) := after_fault 4 sync sync (demo_world [demo_row "e1" SHIPPED]) in
  r1 = Throw (PrismaError "P1001") /\ r2 = Throw (PrismaError "P2002") /\
  state_of w2 "e1" = Some SHIPPED.
Proof. vm_compute. done. Qed.

Definition demo_disputed : World :=
  world_of (set_disputes {["d1" := mkDispute "d1" "e1" "r" "" [] OPEN None demo_now demo_now]}
    (demo_db [demo_row "e1" DISPUTED])).

(** The dispute row is marked RESOLVED
    before the escrow is moved: when the second write fails, the redelivered
    event is skipped as already resolved and the escrow stays DISPUTED. *)
Theorem dispute_resolved_redelivery_skipped :
  let sync := syncStateFromChain (demo_event "DisputeResolved") in
  let '(r1, r2, w2) := after_fault 5 sync sync demo_disputed in
  r1 = Throw (PrismaError "P1001") /\
  r2 = Ok (mkSync true (Some "dispute_already_resolved")) /\
  state_of w2 "e1" = Some DISPUTED.
Proof. vm_compute. done. Qed.
