(* ===== verification/Disputes.v ===== *)
(** * Disputes

    [src/dispute/dispute.repository.ts], [src/escrow/buyer-dispute.service.ts]
    and [src/admin/dispute/dispute.service.ts]: opening a dispute as a
    participant, reading it, listing disputes and resolving one on chain. *)
From S2P Require Import Prelude Records Dates Text Tables Effects Cache Prisma EscrowRepo Coherence Contract Lifecycle EscrowSvc EscrowSound.
Local Open Scope prog_scope.

(** ** DisputeRepository *)

Module DisputeRepository.

(** Omitted columns take the defaults of the schema. *)
Definition create (escrowId reason : string) (description : option string)
    (evidenceUrls : option (list string)) (status : option DisputeState) : Prog DisputeRecord :=
  await (dispute_create (fun now cuid =>
    mkDispute cuid escrowId reason (coalesce description "") (coalesce evidenceUrls [])
      (coalesce status OPEN) None now now)).

Definition findById (id : string) : Prog (option DisputeRecord) := await (dispute_findUnique id).

Definition findByEscrow (escrowId : string) : Prog (option DisputeRecord) :=
  await (dispute_findFirst (fun d => bool_decide (d_escrowId d = escrowId))).

Definition findMany (where_ : DisputeRecord -> bool) (orderBy : DisputeRecord -> DisputeRecord -> bool)
    (skip limit : Z) : Prog (list DisputeRecord) := await (dispute_findMany where_ orderBy skip limit).

Definition count (where_ : DisputeRecord -> bool) : Prog Z := await (dispute_count where_).

Definition findFirst (where_ : DisputeRecord -> bool) : Prog (option DisputeRecord) :=
  await (dispute_findFirst where_).

Definition update (id : string) (data : Z -> DisputeRecord -> DisputeRecord) : Prog DisputeRecord :=
  await (dispute_update id data).

End DisputeRepository.

(** ** BuyerDisputeService *)

Module BuyerDispute.

Record OpenDisputeDto : Type := mkOpenDisputeDto {
  od_reason : string; od_description : option string; od_evidenceUrls : option (list string) }.

Record DisputeResponseDto : Type := mkDisputeResponse {
  dr_id : string; dr_escrowId : string; dr_reason : string; dr_description : string;
  dr_evidenceUrls : list string; dr_status : DisputeState; dr_resolvedAt : option Z;
  dr_createdAt : Z; dr_updatedAt : Z }.

Definition presignAll (env : Env) (now : Z) (urls : list string) : list string :=
  EscrowService.presign env now <$> urls.

Definition toResponse (dispute : DisputeRecord) : Prog DisputeResponseDto :=
  await (fun env w =>
    (Ok (mkDisputeResponse (d_id dispute) (d_escrowId dispute) (d_reason dispute)
           (d_description dispute) (presignAll env (env_now env (w_tick w)) (d_evidenceUrls dispute))
           (d_status dispute) (d_resolvedAt dispute) (d_createdAt dispute) (d_updatedAt dispute)), w)).

(** The caller is the buyer, the vendor or the configured admin. *)
Definition is_involved (adminAddress : option string) (callerAddress : string) (escrow : EscrowRecord)
    : bool :=
  bool_decide (Some callerAddress = adminAddress) ||
  bool_decide (callerAddress = e_buyerAddress escrow) ||
  bool_decide (callerAddress = e_vendorAddress escrow).

Definition openDispute (escrowId callerAddress : string) (dto : OpenDisputeDto)
    : Prog DisputeResponseDto :=
  let* escrow := findById escrowId in
  match escrow with
  | None => Raise (NotFoundException ("Escrow " +:+ escrowId +:+ " not found"))
  | Some escrow =>
      let* adminAddress := ask (fun env => env_config env "ADMIN_ADDRESS") in
      if negb (is_involved adminAddress callerAddress escrow) then
        Raise (ForbiddenException "You are not involved in this escrow")
      else if bool_decide (e_state escrow = DISPUTED) then
        Raise (ConflictException "A dispute is already open for this escrow")
      else if negb (DISPUTABLE_STATES (e_state escrow)) then
        Raise (ConflictException ("Cannot open a dispute on an escrow in " +:+
          EscrowState_str (e_state escrow) +:+ " state"))
      else
        let* dispute := DisputeRepository.create escrowId (od_reason dto) (od_description dto)
          (Some (coalesce (od_evidenceUrls dto) [])) None in
        let* disputedEscrow := updateState escrowId DISPUTED in
        notify NDisputed disputedEscrow ;;;
        notifyAdmin disputedEscrow ;;;
        toResponse dispute
  end.

Definition getDispute (escrowId callerAddress : string) : Prog DisputeResponseDto :=
  let* escrow := findById escrowId in
  match escrow with
  | None => Raise (NotFoundException ("Escrow " +:+ escrowId +:+ " not found"))
  | Some escrow =>
      let* adminAddress := ask (fun env => env_config env "ADMIN_ADDRESS") in
      if negb (is_involved adminAddress callerAddress escrow) then
        Raise (ForbiddenException "You are not involved in this escrow")
      else
        let* dispute := DisputeRepository.findByEscrow escrowId in
        match dispute with
        | None => Raise (NotFoundException ("No dispute found for escrow " +:+ escrowId))
        | Some dispute => toResponse dispute
        end
  end.

End BuyerDispute.

(** ** The admin's DisputeService *)

Module AdminDispute.
Section operations.
Context {C : ContractApi}.

Definition requireAdminAddress : Prog string :=
  let* address := ask (fun env => env_config env "ADMIN_ADDRESS") in
  if truthy address then Ret (coalesce address "")
  else Raise (ConflictException "ADMIN_ADDRESS is not configured; cannot resolve disputes on-chain.").

Record DisputePage : Type := mkDisputePage {
  dp_data : list DisputeRecord; dp_total : Z; dp_page : Z; dp_limit : Z }.

Definition getDisputes (status : option DisputeState) (page limit : option Z) : Prog DisputePage :=
  let page := Z.max 1 (coalesce page 1%Z) in
  let limit := Z.min 100 (Z.max 1 (coalesce limit 20%Z)) in
  let skip := ((page - 1) * limit)%Z in
  let where_ (d : DisputeRecord) :=
    match status with Some s => bool_decide (d_status d = s) | None => true end in
  let* data := DisputeRepository.findMany where_ (desc d_createdAt) skip limit in
  let* total := DisputeRepository.count where_ in
  Ret (mkDisputePage data total page limit).

Definition is_open (escrowId : string) (d : DisputeRecord) : bool :=
  bool_decide (d_escrowId d = escrowId) &&
  (bool_decide (d_status d = OPEN) || bool_decide (d_status d = UNDER_REVIEW)).

(** The notifications are awaited, with their failures swallowed
    ([notifySafely]). *)
Definition resolve (escrowId : string) (resolution : Resolution) : Prog EscrowRecord :=
  let* escrow := findById escrowId in
  match escrow with
  | None => Raise (NotFoundException "Escrow not found")
  | Some escrow =>
      if bool_decide (e_state escrow = COMPLETED) || bool_decide (e_state escrow = REFUNDED) then
        Raise (ConflictException "Dispute has already been resolved")
      else if negb (bool_decide (e_state escrow = DISPUTED)) then
        Raise (ConflictException "Escrow is not currently disputed")
      else
        match e_contractEscrowId escrow with
        | None => Raise (ConflictException
            "Escrow has no contractEscrowId, so the dispute cannot be resolved on-chain.")
        | Some contractEscrowId =>
            let* admin := requireAdminAddress in
            resolveDispute contractEscrowId resolution admin ;;;
            let* dispute := DisputeRepository.findFirst (is_open escrowId) in
            (match dispute with
             | Some dispute =>
                 DisputeRepository.update (d_id dispute) EscrowService.resolve_row ;;; Ret tt
             | None => Ret tt
             end) ;;;
            match resolution with
            | RELEASE =>
                let* result := markCompleted escrowId in
                notify NCompleted result ;;; Ret result
            | REFUND =>
                let* result := markRefunded escrowId in
                notify NRefunded result ;;; Ret result
            end
        end
  end.

End operations.
End AdminDispute.

(** ** Soundness *)

Ltac sound_end := apply sound_when_sound; first [apply sound_raise | apply sound_ret].

(** A guarded state change followed by steps off the escrow table. *)
Lemma sound_move_then {B} id (row : PrismaEscrow) f (k : EscrowRecord -> Prog B) :
  good_update f -> (forall now, transition (e_state row) (e_state (f now row))) ->
  (forall rec, every off_escrow (k rec)) ->
  sound_when id (fun r => r = row) (bind (write_through id f) k).
Proof.
  intros Hf Ht Hk. apply (sound_when_write id _ (fun _ => True)); [done| |].
  - intros now r ->. split; [|done]. by apply rtc_once.
  - intros rec. by apply sound_when_sound, sound_off_escrow.
Qed.

Lemma sound_openDispute id caller dto : sound (BuyerDispute.openDispute id caller dto).
Proof.
  unfold BuyerDispute.openDispute, DisputeRepository.create, BuyerDispute.toResponse. apply sound_findById; [|sound_end]. intros row.
  apply sound_when_off; [off_walk|]. intros admin. cbn [toEscrowRecord e_state].
  destruct (negb _); [sound_end|]. destruct (bool_decide _) eqn:?; [sound_end|].
  destruct (negb (DISPUTABLE_STATES _)) eqn:Hd; [sound_end|].
  apply sound_when_off; [off_walk|]. intros d.
  apply sound_move_then; [solve_update| |intros; off_walk].
  intros ?. unfold transition. simpl. by destruct (e_state row).
Qed.

Lemma sound_getDispute id caller : sound (BuyerDispute.getDispute id caller).
Proof.
  unfold BuyerDispute.getDispute, DisputeRepository.findByEscrow, BuyerDispute.toResponse. apply sound_findById; [|sound_end]. intros row.
  apply sound_when_sound, sound_off_escrow. off_walk.
Qed.

Lemma sound_resolve {C : ContractApi} id resolution : sound (AdminDispute.resolve id resolution).
Proof.
  unfold AdminDispute.resolve, DisputeRepository.findFirst, DisputeRepository.update. apply sound_findById; [|sound_end]. intros row.
  cbn [toEscrowRecord e_state e_contractEscrowId]. destruct (_ || _); [sound_end|].
  destruct (bool_decide (e_state row = DISPUTED)) eqn:Hst; simpl; [|sound_end]. b2p.
  destruct (e_contractEscrowId row) as [cid|]; [|sound_end].
  apply sound_when_off; [unfold AdminDispute.requireAdminAddress; off_walk|]. intros admin.
  apply sound_when_off; [eapply every_mono; [apply quiet_off_escrow|apply resolveDispute_quiet]|].
  intros _. apply sound_when_off; [off_walk|]. intros dispute.
  apply sound_when_off; [off_walk|]. intros _.
  destruct resolution; (apply sound_move_then;
    [solve_update|intros ?; unfold transition; simpl; by rewrite Hst|intros; off_walk]).
Qed.
