(* ===== verification/Workers.v ===== *)
(** * Workers

    [src/workers/auto-release.worker.ts] and
    [src/workers/tracking-poll.worker.ts]: the two periodic jobs, with their
    re-entrancy flags, the claim-call-record pattern and the bounded
    concurrency of the tracking poll. *)
From S2P Require Import Prelude Records Dates Text Tables Effects Logistics Cache Prisma EscrowRepo Coherence Contract Lifecycle EscrowSvc EscrowSound Disputes.
Local Open Scope prog_scope.

(** ** AutoReleaseWorker *)

Module AutoRelease.
Section worker.
Context {C : ContractApi}.

(** [ConfigService.requireAutoReleaseSourceAddress]. *)
Definition requireAutoReleaseSource : Prog string :=
  let* address := ask (fun env => env_config env "AUTO_RELEASE_SOURCE_ADDRESS") in
  if truthy address then Ret (coalesce address "") else Raise AutoReleaseSourceNotConfiguredError.

(** The claimed part: submit, record, and release the claim on any failure. *)
Definition submit_and_record (id : string) (contractEscrowId : Z) : Prog bool :=
  catch
    (let* source := requireAutoReleaseSource in
     let* txHash := submitAutoRelease contractEscrowId source in
     recordAutoReleaseSubmission id txHash None ;;;
     Ret true)
    (fun error => clearAutoReleaseSubmitting id ;;; Raise error).

Definition processEscrow (escrow : EscrowRecord) : Prog bool :=
  let* dispute := DisputeRepository.findByEscrow (e_id escrow) in
  match dispute with
  | Some _ => Ret false
  | None =>
      if TERMINAL_STATES (e_state escrow) || truthy (e_autoReleaseTxHash escrow) then Ret false
      else
        match e_contractEscrowId escrow with
        | None => Ret false
        | Some contractEscrowId =>
            let* claimed := markAutoReleaseSubmitting (e_id escrow) in
            match claimed with
            | None => Ret false
            | Some _ => submit_and_record (e_id escrow) contractEscrowId
            end
        end
  end.

(** The summary the cycle logs. *)
Record Summary : Type := mkSummary { s_success : nat; s_failures : list (string * string); s_total : nat }.

Fixpoint process_all (eligible : list EscrowRecord) : Prog (nat * list (string * string)) :=
  match eligible with
  | [] => Ret (0, [])
  | escrow :: rest =>
      let* r := attempt (processEscrow escrow) in
      let* acc := process_all rest in
      Ret (match r with
           | Ok true => (S acc.1, acc.2)
           | Ok false => acc
           | Throw error => (acc.1, (e_id escrow, exn_message error) :: acc.2)
           end)
  end.

Definition runCycle (referenceTime : Z) : Prog Summary :=
  catch
    (let* eligible := findAutoReleaseEligible referenceTime in
     let* acc := process_all eligible in
     Ret (mkSummary acc.1 acc.2 (length eligible)))
    (fun _ => Ret (mkSummary 0 [] 0)).

(** [None] when the tick is skipped. *)
Definition run (referenceTime : option Z) : Prog (option Summary) :=
  let* t := await now in
  let referenceTime := coalesce referenceTime t in
  let* running := await (fun _ w => (Ok (w_autoRunning w), set_autoRunning true w)) in
  if running then Ret None
  else
    let* s := finally (runCycle referenceTime) (await (local (set_autoRunning false))) in
    Ret (Some s).

End worker.
End AutoRelease.

(** ** TrackingPollWorker *)

Module TrackingPoll.
Section worker.
Context {C : ContractApi}.

Definition TRACKING_POLL_BATCH_SIZE : nat := 50.
Definition TRACKING_POLL_CONCURRENCY : nat := 5.

Definition requireAdminAddress : Prog string :=
  let* address := ask (fun env => env_config env "ADMIN_ADDRESS") in
  if truthy address then Ret (coalesce address "")
  else Raise (JsError "ADMIN_ADDRESS is not configured; refusing to record delivery on-chain.").

(** The claimed part: call the contract, mark delivered, notify, and release
    the claim on any failure. *)
Definition record_and_mark (id : string) (contractEscrowId : Z) : Prog unit :=
  catch
    (let* admin := requireAdminAddress in
     recordDelivery contractEscrowId admin ;;;
     let* t := await now in
     let* updated := markDelivered id (Some t) in
     notify NDelivered updated)
    (fun error => clearDeliveryClaim id ;;; Raise error).

Definition processShipment (escrow : EscrowRecord) : Prog unit :=
  finally
    (match e_trackingId escrow, e_contractEscrowId escrow with
     | Some trackingId, Some contractEscrowId =>
         if bool_decide (trackingId = "") then Ret tt
         else
           let* status := Logistics.getStatus trackingId in
           if negb (bool_decide (td_status status = LDelivered)) then Ret tt
           else
             let* claimed := claimDelivery (e_id escrow) in
             match claimed with
             | None => Ret tt
             | Some _ => record_and_mark (e_id escrow) contractEscrowId
             end
     | _, _ => Ret tt
     end)
    (markTrackingChecked (e_id escrow) None ;;; Ret tt).

(** [items[index++]]: the next item and the bumped index. *)
Definition take_next (items : list EscrowRecord) : Action (option EscrowRecord) := fun _ w =>
  match items !! w_index w with
  | None => (Ok None, w)
  | Some item => (Ok (Some item), set_index (S (w_index w)) (w_started w ++ [e_id item]) w)
  end.

(** One of the parallel loops; [fuel] bounds the items it can take. *)
Fixpoint next (fuel : nat) (items : list EscrowRecord) (worker : EscrowRecord -> Prog unit) : Prog unit :=
  match fuel with
  | O => Raise (JsError "out of fuel")
  | S fuel =>
      let* item := await (take_next items) in
      match item with
      | None => Ret tt
      | Some item => catch (worker item) (fun _ => Ret tt) ;;; next fuel items worker
      end
  end.

Definition runWithConcurrency (items : list EscrowRecord) (concurrency : nat)
    (worker : EscrowRecord -> Prog unit) : Prog unit :=
  await (local (set_index 0 [])) ;;;
  promiseAll (replicate (Nat.min concurrency (length items)) (next (S (length items)) items worker)).

Definition runCycle : Prog unit :=
  catch
    (let* shipments := findShippedWithTracking TRACKING_POLL_BATCH_SIZE in
     runWithConcurrency shipments TRACKING_POLL_CONCURRENCY processShipment)
    (fun _ => Ret tt).

(** [false] when the tick is skipped. *)
Definition run : Prog bool :=
  let* running := await (fun _ w => (Ok (w_trackRunning w), set_trackRunning true w)) in
  if running then Ret false
  else finally runCycle (await (local (set_trackRunning false))) ;;; Ret true.

End worker.
End TrackingPoll.
