(* ===== verification/Ownership.v ===== *)
(** * Parallel programs that own their rows

    A rely-guarantee logic for the loops of the tracking poll, which run side
    by side.  Every program owns a set of escrows: the ones it took off the
    shared queue.  It may change the rows of those only, and it may rely on
    nobody else changing them.  [guarded] says that a program keeps to this,
    whatever the others do between its atoms; [guarded_par] composes programs that
    own disjoint sets; [guarded_run] reads off what the composition does as a
    whole. *)
From S2P Require Import Prelude Records Text Tables Effects Cache Prisma EscrowRepo Coherence Contract Lifecycle.
Local Open Scope prog_scope.

Section ownership.
Context (env : Env) (items : list EscrowRecord).
Implicit Types (O : gset string).

(** ** The shared state *)

(** The escrows handed out so far. *)
Definition taken (w : World) : gset string := list_to_set (w_started w).

(** The cache agrees with the row. *)
Definition settled (w : World) (id : string) : Prop :=
  forall v, cached env w (cacheKey id) = Some v ->
    exists row, escrow_of w id = Some row /\ reviveCachedEscrow v = Some (toEscrowRecord row).

(** What always holds: the store invariant, except that an escrow somebody is
    working on may have a stale cache entry; and the queue hands out [items] in
    order. *)
Record valid (w : World) : Prop := {
  va_ids : forall id row, escrow_of w id = Some row -> e_id row = id;
  va_dates : forall id row, escrow_of w id = Some row -> dates_ok row;
  va_started : w_started w = take (w_index w) (e_id <$> items);
  va_bound : w_index w <= length items;
  va_rest : forall id, id ∉ taken w -> settled w id
}.

(** ** Steps *)

(** A step that changes at most the rows of [O]. *)
Record touches O (w w' : World) : Prop := {
  to_rows : forall id, id ∉ O -> escrow_of w' id = escrow_of w id;
  to_evolves : evolves w w';
  to_cache : forall k v, cached env w' k = Some v -> cached env w k = Some v;
  to_index : w_index w <= w_index w';
  to_taken : taken w ⊆ taken w';
  to_valid : valid w -> valid w'
}.

Lemma touches_mono O O' w w' : O ⊆ O' -> touches O w w' -> touches O' w w'.
Proof. intros Hsub []. split; auto. Qed.

Lemma touches_trans O w1 w2 w3 : touches O w1 w2 -> touches O w2 w3 -> touches O w1 w3.
Proof.
  intros [R1 E1 C1 I1 T1 V1] [R2 E2 C2 I2 T2 V2]. split; [|by etrans|by auto|lia|by etrans|by auto].
  intros id Hid. by rewrite R2, R1.
Qed.

Lemma settled_touches O w w' id : id ∉ O -> touches O w w' -> settled w id -> settled w' id.
Proof.
  intros Hid [Hr _ Hc _ _ _] Hs v Hv. destruct (Hs v) as (row & Hrow & Hrev); [by apply Hc|].
  exists row. by rewrite Hr.
Qed.

(** What the others do, for the owner of [O]. *)
Definition rely O (w w' : World) : Prop := exists O', O ## O' /\ touches O' w w'.

(** A step that changes no row, no cache entry and not the queue. *)
Definition idle (w w' : World) : Prop :=
  off_escrow w w' /\ w_index w' = w_index w /\ w_started w' = w_started w.

Lemma idle_touches O w w' : idle w w' -> touches O w w'.
Proof.
  intros (Hoff & Hi & Hs). pose proof Hoff as (Hdb & _).
  assert (Hc : forall k, cached env w' k = cached env w k) by (intros; by apply off_escrow_cached).
  assert (Ht : taken w' = taken w) by (unfold taken; by rewrite Hs).
  split; rewrite ?Ht; [by rewrite Hdb|by apply evolves_same|by intros ? ?; rewrite Hc|lia|done|].
  intros [V1 V2 V3 V4 V5]. split; unfold settled; rewrite ?Hdb, ?Hs, ?Hi, ?Ht; try done.
  intros id Hid v. rewrite Hc. by apply V5.
Qed.

Lemma tick_idle w : idle w (tick w).
Proof. done. Qed.

#[local] Instance rely_preorder O : PreOrder (rely O).
Proof.
  split.
  - intros w. exists ∅. split; [set_solver|]. by apply idle_touches.
  - intros w1 w2 w3 (O1 & D1 & T1) (O2 & D2 & T2). exists (O1 ∪ O2). split; [set_solver|].
    eapply touches_trans; (eapply touches_mono; [|eassumption]; set_solver).
Qed.

Lemma rely_mono O O' w w' : O ⊆ O' -> rely O' w w' -> rely O w w'.
Proof. intros Hsub (O1 & D & T). exists O1. split; [set_solver|done]. Qed.

(** What a program owns after a step: also what the queue just gave it. *)
Definition extend O (w w' : World) : gset string := O ∪ (taken w' ∖ taken w).

Lemma extend_same O w w' : taken w' = taken w -> extend O w w' = O.
Proof. unfold extend. intros ->. set_solver. Qed.

Lemma extend_trans O w1 w2 w3 :
  taken w1 ⊆ taken w2 -> taken w2 ⊆ taken w3 -> extend (extend O w1 w2) w2 w3 = extend O w1 w3.
Proof.
  unfold extend. intros H12 H23. apply set_eq. intros x.
  destruct (decide (x ∈ taken w2)); set_solver.
Qed.

(** ** Programs *)

Fixpoint guarded {A} O (Q : gset string -> outcome A -> World -> Prop) (m : Prog A) (w : World) : Prop :=
  match m with
  | Ret a => Q O (Ok a) w
  | Raise e => Q O (Throw e) w
  | Atom X f k => forall w1, rely O w w1 ->
      let r := f env w1 in
      touches (extend O w1 r.2) w1 r.2 /\ guarded (extend O w1 r.2) Q (k r.1) r.2
  end.

Definition stable {A} (Q : gset string -> outcome A -> World -> Prop) : Prop :=
  forall O r w w', Q O r w -> rely O w w' -> Q O r w'.

Lemma guarded_rely {A} O (Q : gset string -> outcome A -> World -> Prop) m w w' :
  stable Q -> guarded O Q m w -> rely O w w' -> guarded O Q m w'.
Proof.
  intros HQ. destruct m as [a|e|X f k]; simpl; [by intros; eapply HQ..|].
  intros H Hw w1 Hw1. apply H. by etrans.
Qed.

Lemma guarded_mono {A} O (Q Q' : gset string -> outcome A -> World -> Prop) m w :
  (forall O r w, Q O r w -> Q' O r w) -> guarded O Q m w -> guarded O Q' m w.
Proof.
  intros HQ. revert O w. induction m as [a|e|X f k IH]; intros O w; simpl; [auto|auto|].
  intros H w1 Hw. destruct (H w1 Hw). auto.
Qed.

Lemma guarded_bind {A B} O (Q : gset string -> outcome B -> World -> Prop) (m : Prog A) (k : A -> Prog B) w :
  guarded O (fun O' r w' => match r with Ok a => guarded O' Q (k a) w' | Throw e => Q O' (Throw e) w' end) m w ->
  guarded O Q (bind m k) w.
Proof.
  revert O w. induction m as [a|e|X f h IH]; intros O w; unfold bind; fold (@bind A B); simpl; [done|done|].
  intros H w1 Hw. destruct (H w1 Hw). auto.
Qed.

Lemma guarded_catch {A} O (Q : gset string -> outcome A -> World -> Prop) (m : Prog A) h w :
  guarded O (fun O' r w' => match r with Ok a => Q O' (Ok a) w' | Throw e => guarded O' Q (h e) w' end) m w ->
  guarded O Q (catch m h) w.
Proof.
  revert O w. induction m as [a|e|X f k IH]; intros O w; unfold catch; fold (@catch A); simpl; [done|done|].
  intros H w1 Hw. destruct (H w1 Hw). auto.
Qed.

Lemma guarded_await {X} O (f : Action X) (Q : gset string -> outcome X -> World -> Prop) w :
  (forall w1, rely O w w1 -> let r := f env w1 in
     touches (extend O w1 r.2) w1 r.2 /\ Q (extend O w1 r.2) r.1 r.2) ->
  guarded O Q (await f) w.
Proof. intros H w1 Hw. destruct (H w1 Hw) as [Ht HQ]. split; [done|]. by destruct (f env w1).1. Qed.

(** An atom that takes nothing off the queue. *)
Lemma guarded_await_same {X} O (f : Action X) (Q : gset string -> outcome X -> World -> Prop) w :
  (forall w1, rely O w w1 -> let r := f env w1 in
     w_started r.2 = w_started w1 /\ touches O w1 r.2 /\ Q O r.1 r.2) ->
  guarded O Q (await f) w.
Proof.
  intros H. apply guarded_await. intros w1 Hw. destruct (H w1 Hw) as (Hs & Ht & HQ).
  cbv zeta. rewrite extend_same; [done|]. unfold taken. by rewrite Hs.
Qed.

(** A program of idle atoms keeps what is stable. *)
Lemma guarded_idle {A} O (J : World -> Prop) (m : Prog A) w :
  (forall w w', J w -> rely O w w' -> J w') -> every idle m -> J w ->
  guarded O (fun O' _ w' => O' = O /\ J w') m w.
Proof.
  intros HJ. revert w. induction m as [a|e|X f k IH]; intros w; simpl; [done|done|].
  intros [Hf Hk] Hw w1 Hw1. assert (Ht : touches ∅ w1 (f env w1).2) by apply idle_touches, Hf.
  destruct (Hf env w1) as (_ & _ & Hs).
  rewrite extend_same by (unfold taken; by rewrite Hs). split; [eapply touches_mono; [|exact Ht]; set_solver|].
  apply IH; [done|]. eapply HJ; [eapply HJ; [exact Hw|exact Hw1]|]. exists ∅. split; [set_solver|done].
Qed.

(** The queue only moves forward. *)
Lemma guarded_index {A} O (Q : gset string -> outcome A -> World -> Prop) m w n :
  guarded O Q m w -> n <= w_index w -> guarded O (fun O r w' => Q O r w' /\ n <= w_index w') m w.
Proof.
  revert O w. induction m as [a|e|X f k IH]; intros O w; simpl; [done|done|].
  intros H Hn w1 Hw. destruct (H w1 Hw) as [Ht Hk]. split; [done|]. apply IH; [done|].
  destruct Hw as (O' & _ & T). pose proof (to_index _ _ _ T). pose proof (to_index _ _ _ Ht). lia.
Qed.

Lemma guarded_run {A} O (Q : gset string -> outcome A -> World -> Prop) m w :
  guarded O Q m w -> let r := run m env w in
  Q (extend O w r.2) r.1 r.2 /\ touches (extend O w r.2) w r.2.
Proof.
  revert O w. induction m as [a|e|X f k IH]; intros O w; cbv zeta.
  - intros H. rewrite extend_same by done. split; [done|]. by apply idle_touches.
  - intros H. rewrite extend_same by done. split; [done|]. by apply idle_touches.
  - intros H. destruct (H w) as [Ht Hk]; [done|]. unfold run; fold (@run A).
    destruct (f env w) as [r w1]. simpl in *. destruct (IH r _ _ Hk) as [HQ Ht'].
    assert (Heq : extend (extend O w w1) w1 (run (k r) env w1).2 = extend O w (run (k r) env w1).2)
      by (apply extend_trans; [by apply (to_taken _ _ _ Ht)|by apply (to_taken _ _ _ Ht')]).
    rewrite Heq in HQ, Ht'. split; [done|]. eapply touches_trans; [|exact Ht'].
    eapply touches_mono; [|exact Ht]. rewrite <- Heq. unfold extend. set_solver.
Qed.

(** ** Parallel composition *)

(** It succeeds, and what it owns is in order. *)
Definition settles O (r : outcome unit) (w : World) : Prop := r = Ok tt /\ forall id, id ∈ O -> settled w id.

Lemma settled_rely O w w' : (forall id, id ∈ O -> settled w id) -> rely O w w' -> forall id, id ∈ O -> settled w' id.
Proof. intros Hs (O' & D & T) id Hid. eapply settled_touches; [|exact T|auto]. set_solver. Qed.

Lemma settles_stable : stable settles.
Proof. intros O r w w' [-> H] Hw. split; [done|]. by eapply settled_rely. Qed.

(** A step of the owner of [O1], seen by the owner of [O2]. *)
Lemma extend_disjoint O1 O2 w w' : O1 ## O2 -> O2 ⊆ taken w -> extend O1 w w' ## O2.
Proof. unfold extend. set_solver. Qed.

Lemma rely_taken O w w' : rely O w w' -> taken w ⊆ taken w'.
Proof. by intros (? & _ & []). Qed.

Lemma guarded_frame O1 O2 m w :
  O1 ## O2 -> O2 ⊆ taken w -> (forall id, id ∈ O2 -> settled w id) -> guarded O1 settles m w ->
  guarded (O1 ∪ O2) settles m w.
Proof.
  revert O1 w. induction m as [a|e|X f k IH]; intros O1 w HD HT HS; simpl.
  - intros [? H]. split; [done|]. set_solver.
  - by intros [? _].
  - intros H w1 Hw. assert (Hw1 : rely O1 w w1) by (eapply rely_mono; [|exact Hw]; set_solver).
    assert (Hw2 : rely O2 w w1) by (eapply rely_mono; [|exact Hw]; set_solver).
    destruct (H w1 Hw1) as [Ht Hk]. pose proof (rely_taken _ _ _ Hw) as Htk.
    assert (HT1 : O2 ⊆ taken w1) by set_solver.
    pose proof (extend_disjoint O1 O2 w1 (f env w1).2 HD HT1) as HD'.
    replace (extend (O1 ∪ O2) w1 (f env w1).2) with (extend O1 w1 (f env w1).2 ∪ O2)
      by (unfold extend; set_solver).
    split; [eapply touches_mono; [|exact Ht]; set_solver|].
    pose proof (to_taken _ _ _ Ht). apply IH; [done|set_solver| |done].
    intros id Hid. eapply settled_touches; [|exact Ht|by eapply settled_rely]. set_solver.
Qed.

Lemma guarded_par O1 O2 m1 m2 w :
  O1 ## O2 -> O1 ⊆ taken w -> O2 ⊆ taken w ->
  guarded O1 settles m1 w -> guarded O2 settles m2 w -> guarded (O1 ∪ O2) settles (par m1 m2) w.
Proof.
  revert O1 O2 m2 w. induction m1 as [[]|e|X1 f1 k1 IH1]; intros O1 O2 m2 w HD T1 T2 H1 H2.
  - rewrite (union_comm_L O1). destruct m2 as [[]|e|X2 f2 k2]; apply guarded_frame; try done; apply H1.
  - by destruct H1.
  - revert O2 w HD T1 T2 H1 H2. induction m2 as [[]|e|X2 f2 k2 IH2]; intros O2 w HD T1 T2 H1 H2.
    + apply guarded_frame; [done|done|apply H2|done].
    + by destruct H2.
    + intros w1 Hw1. cbv zeta. cbn [schedule fst snd]. rewrite extend_same by done.
      split; [by apply idle_touches|]. cbn [turn].
      assert (Hr : forall w2, rely (O1 ∪ O2) (tick w1) w2 ->
        rely O1 w w2 /\ rely O2 w w2 /\ taken w ⊆ taken w2).
      { intros w2 Hw2. assert (Hw : rely (O1 ∪ O2) w w2).
        { etrans; [exact Hw1|]. etrans; [|exact Hw2]. exists ∅. split; [set_solver|]. by apply idle_touches. }
        split_and!; [eapply rely_mono; [|exact Hw]; set_solver..|by eapply rely_taken]. }
      destruct (env_sched env (w_tick w1)); intros w2 Hw2; destruct (Hr w2 Hw2) as (R1 & R2 & Tk); cbv zeta.
      * destruct (H1 w2 R1) as [Ht Hk]. set (w3 := (f1 env w2).2) in *. pose proof (to_taken _ _ _ Ht) as Tk'.
        replace (extend (O1 ∪ O2) w2 w3) with (extend O1 w2 w3 ∪ O2) by (unfold extend; set_solver).
        assert (HD' : extend O1 w2 w3 ## O2) by (apply extend_disjoint; [done|set_solver]).
        split; [eapply touches_mono; [|exact Ht]; set_solver|].
        apply IH1; [done|unfold extend; set_solver|set_solver|done|].
        eapply guarded_rely; [apply settles_stable|exact H2|]. etrans; [exact R2|].
        exists (extend O1 w2 w3). split; [set_solver|done].
      * destruct (H2 w2 R2) as [Ht Hk]. set (w3 := (f2 env w2).2) in *. pose proof (to_taken _ _ _ Ht) as Tk'.
        replace (extend (O1 ∪ O2) w2 w3) with (O1 ∪ extend O2 w2 w3) by (unfold extend; set_solver).
        assert (HD' : extend O2 w2 w3 ## O1) by (apply extend_disjoint; [done|set_solver]).
        split; [eapply touches_mono; [|exact Ht]; set_solver|].
        apply IH2; [done|set_solver|unfold extend; set_solver| |done].
        eapply guarded_rely; [apply settles_stable|exact H1|]. etrans; [exact R1|].
        exists (extend O2 w2 w3). split; [set_solver|done].
Qed.

Lemma guarded_promiseAll m n w :
  guarded ∅ settles m w -> guarded ∅ settles (promiseAll (replicate n m)) w.
Proof.
  intros Hm. induction n as [|n IH]; [by split|]. unfold promiseAll. simpl.
  rewrite <- (union_empty_l_L ∅) at 1. apply guarded_par; [set_solver..|done|exact IH].
Qed.
End ownership.
