(* ===== verification/TrackingSound.v ===== *)
(** * The tracking cycle follows the life cycle

    The parallel loops of [runWithConcurrency] work on different shipments, so
    each may reason about its own row as if it were alone: a whole cycle keeps
    the store invariant and moves escrows along the machine, under every
    schedule of its loops. *)
From S2P Require Import Prelude Records Dates Text Tables Effects Logistics Cache Prisma EscrowRepo Coherence Contract Lifecycle EscrowSvc EscrowSound Disputes Workers WorkersSound QuerySpec Ownership.
Local Open Scope prog_scope.

Section tracking.
Context (env : Env) (items : list EscrowRecord) (HE : good_env env).

#[local] Instance rely_trans O : PreOrder (rely env items O) := rely_preorder env items O.

(** ** One shipment *)

(** Between two operations, all that a loop owns is in order. *)
Definition ready (O : gset string) (w : World) : Prop :=
  O ⊆ taken w /\ valid env items w /\ forall id, id ∈ O -> settled env w id.

Lemma ready_rely O w w' : ready O w -> rely env items O w w' -> ready O w'.
Proof using HE.
  intros (HT & HV & HS) Hr. split_and!; [|by destruct Hr as (? & _ & []); auto|by eapply settled_rely].
  etrans; [exact HT|by eapply rely_taken].
Qed.

Lemma ready_touches O w w' : ready O w -> touches env items ∅ w w' -> ready O w'.
Proof using HE. intros HR Ht. eapply ready_rely; [done|]. exists ∅. split; [set_solver|done]. Qed.

Lemma rely_row O w w' id : id ∈ O -> rely env items O w w' -> escrow_of w' id = escrow_of w id.
Proof using HE. intros Hid (O' & D & T). apply (to_rows _ _ _ _ _ T). set_solver. Qed.

(** A program that works on the row of [id] only, started when the row, if
    there is one, satisfies [P]. *)
Definition works {A} (id : string) (P : PrismaEscrow -> Prop) (m : Prog A) : Prop :=
  forall O w, id ∈ O -> ready O w -> (forall row, escrow_of w id = Some row -> P row) ->
    guarded env items O (fun O' _ w' => O' = O /\ ready O w') m w.

Lemma works_weaken {A} id (P P' : PrismaEscrow -> Prop) (m : Prog A) :
  (forall row, P row -> P' row) -> works id P' m -> works id P m.
Proof using HE. intros HP Hm O w Hid HR Hrow. apply Hm; auto. Qed.

Lemma works_ret {A} id P (a : A) : works id P (Ret a).
Proof using HE. by intros O w ? ? ?. Qed.

Lemma works_raise {A} id P e : works id P (Raise (A:=A) e).
Proof using HE. by intros O w ? ? ?. Qed.

Abbreviation any := (fun _ : PrismaEscrow => True).

Lemma works_bind {A B} id P (m : Prog A) (f : A -> Prog B) :
  works id P m -> (forall a, works id any (f a)) -> works id P (bind m f).
Proof using HE.
  intros Hm Hf O w Hid HR Hrow. apply guarded_bind. eapply guarded_mono; [|by apply Hm].
  intros O' [a|e] w' [-> HR']; [|done]. by apply Hf.
Qed.

Lemma works_catch {A} id P (m : Prog A) h :
  works id P m -> (forall e, works id any (h e)) -> works id P (catch m h).
Proof using HE.
  intros Hm Hh O w Hid HR Hrow. apply guarded_catch. eapply guarded_mono; [|by apply Hm].
  intros O' [a|e] w' [-> HR']; [done|]. by apply Hh.
Qed.

Lemma works_finally {A} id P (m : Prog A) fin : works id P m -> works id any fin -> works id P (finally m fin).
Proof using HE.
  intros Hm Hf. apply works_bind.
  - apply works_catch; [|intros; apply works_ret]. apply works_bind; [done|]. intros. apply works_ret.
  - intros r. apply works_bind; [done|]. intros _. destruct r; [apply works_ret|apply works_raise].
Qed.

(** Idle atoms keep what is known of the row. *)
Lemma works_idle {A B} id P (m : Prog A) (f : A -> Prog B) :
  every idle m -> (forall a, works id P (f a)) -> works id P (bind m f).
Proof using HE.
  intros Hm Hf O w Hid HR Hrow. apply guarded_bind.
  eapply guarded_mono; [|apply (guarded_idle env items O
    (fun w' => ready O w' /\ escrow_of w' id = escrow_of w id)); [|exact Hm|done]].
  - intros O' [a|e] w' (-> & HR' & Heq); [|done]. apply Hf; [done|done|]. intros row. rewrite Heq. apply Hrow.
  - intros w1 w2 [H1 Heq] Hw. split; [by eapply ready_rely|]. by rewrite (rely_row O w1 w2).
Qed.

Lemma works_idle_end {A} id P (m : Prog A) : every idle m -> works id P m.
Proof using HE.
  intros Hm O w Hid HR _. apply guarded_idle; [|done|done]. intros w1 w2. apply ready_rely.
Qed.

(** ** Writes *)

(** The update of the own row, between the database and the cache. *)
Lemma touches_update O w w' id row row' :
  id ∈ O -> ready O w -> escrow_of w id = Some row -> row_evolves row row' -> dates_ok row' ->
  db_escrows (w_db w') = <[id := row']> (db_escrows (w_db w)) ->
  w_memory w' = w_memory w -> w_redis w' = w_redis w ->
  w_index w' = w_index w -> w_started w' = w_started w ->
  touches env items O w w'.
Proof using HE.
  intros Hid (HT & HV & HS) Hrow Hev Hd Hdb Hm Hr Hi Hst.
  assert (Hc : forall k, cached env w' k = cached env w k) by (intros; unfold cached; by rewrite Hm, Hr).
  assert (Htk : taken w' = taken w) by (unfold taken; by rewrite Hst).
  assert (Hne : forall i, i ∉ O -> escrow_of w' i = escrow_of w i).
  { intros i Hi'. rewrite Hdb, lookup_insert_ne; [done|]. by intros ->. }
  split; rewrite ?Htk; [done|by eapply evolves_replace|by intros ? ?; rewrite Hc|lia|done|].
  intros [V1 V2 V3 V4 V5]. split; rewrite ?Hst, ?Hi, ?Htk; try done.
  - intros i r. rewrite Hdb. intros [[<- <-]|[_ H]]%lookup_insert_Some; [|by apply V1].
    destruct Hev as [[<- _] _]. by apply V1.
  - intros i r. rewrite Hdb. intros [[<- <-]|[_ H]]%lookup_insert_Some; [done|by eapply V2].
  - intros i Hi' v. rewrite Hc. intros Hv. destruct (V5 i Hi' v Hv) as (r & Hr' & Hrev).
    exists r. split; [|done]. rewrite Hne; [done|set_solver].
Qed.

(** Dropping a cache entry. *)
Definition drop (key : string) : Action unit := fun env w =>
  if env_cache env then cache_del_action key env w else (Ok tt, w).

Lemma touches_del O w key :
  let w' := (drop key env w).2 in
  touches env items O w w' /\ w_started w' = w_started w /\ w_db w' = w_db w /\ cached env w' key = None.
Proof using HE.
  set (w' := (drop key env w).2). cbv zeta.
  assert (H : w_db w' = w_db w /\ w_started w' = w_started w /\ w_index w' = w_index w /\
    forall k v, cached env w' k = Some v -> cached env w k = Some v /\ k <> key).
  { split_and!; try (unfold w', drop, cache_del_action; by repeat case_match).
    pose proof (wp_cache_del env w key (fun _ w1 => forall k v, cached env w1 k = Some v ->
      cached env w k = Some v /\ k <> key) HE) as Hdel.
    unfold wp, cache_del in Hdel. rewrite run_await in Hdel. apply Hdel. auto. }
  destruct H as (Hdb & Hst & Hi & Hc).
  assert (Htk : taken w' = taken w) by (unfold taken; by rewrite Hst).
  split_and!; [|done|done|].
  - split; rewrite ?Htk, ?Hdb; [done|apply evolves_same; by rewrite Hdb|by intros k v [? _]%Hc|lia|done|].
    intros [V1 V2 V3 V4 V5]. split; rewrite ?Hst, ?Hi, ?Htk, ?Hdb; try done.
    intros i Hi' v [Hv _]%Hc. unfold settled in V5. rewrite Hdb. by apply V5.
  - destruct (cached env w' key) as [v|] eqn:Hv; [|done]. by destruct (Hc _ _ Hv) as [_ []].
Qed.

(** All but the entry of the own row is in order: dropping it settles it. *)
Lemma guarded_invalidate O w id :
  id ∈ O -> O ⊆ taken w -> valid env items w -> (forall i, i ∈ O -> i <> id -> settled env w i) ->
  guarded env items O (fun O' _ w' => O' = O /\ ready O w' /\ escrow_of w' id = escrow_of w id) (invalidate id) w.
Proof using HE.
  intros Hid HT HV HS. apply guarded_await_same. intros w1 Hw1.
  change (if env_cache env then cache_del_action (cacheKey id) env w1 else (Ok tt, w1)) with (drop (cacheKey id) env w1).
  destruct (touches_del O w1 (cacheKey id)) as (Ht & Hst & Hdb & Hnone).
  cbv zeta. set (w2 := (drop (cacheKey id) env w1).2) in *.
  assert (Hrow : escrow_of w2 id = escrow_of w id) by (rewrite Hdb; by eapply rely_row).
  split; [done|]. split; [exact Ht|]. split; [done|]. split; [|exact Hrow]. split_and!.
  - rewrite HT. etrans; [by eapply rely_taken|by apply (to_taken _ _ _ _ _ Ht)].
  - apply (to_valid _ _ _ _ _ Ht). destruct Hw1 as (? & _ & T1). by apply (to_valid _ _ _ _ _ T1).
  - intros i Hi. destruct (decide (i = id)) as [->|Hne]; [intros v; by rewrite Hnone|].
    intros v Hv. apply (to_cache _ _ _ _ _ Ht) in Hv. rewrite Hdb.
    apply (settled_rely env items {[i]} w w1); [|by eapply rely_mono; [|exact Hw1]; set_solver|set_solver|done].
    intros j ->%elem_of_singleton. auto.
Qed.

(** A write to the own row along the machine. *)
Lemma guarded_write O (Q : gset string -> outcome EscrowRecord -> World -> Prop) id (P P' : PrismaEscrow -> Prop) f w :
  good_update f ->
  (forall now row, P row -> rtc transition (e_state row) (e_state (f now row)) /\
     P' (set_updatedAt now (f now row))) ->
  id ∈ O -> ready O w -> (forall row, escrow_of w id = Some row -> P row) ->
  (forall rec w', ready O w' -> (forall row, escrow_of w' id = Some row -> P' row) -> Q O (Ok rec) w') ->
  (forall e w', ready O w' -> Q O (Throw e) w') ->
  guarded env items O Q (write_through id f) w.
Proof using HE.
  intros Hf HP Hid HR Hrow HQ HQe. apply guarded_bind, guarded_await_same. intros w1 Hw1.
  pose proof (ready_rely _ _ _ HR Hw1) as HR1. pose proof (rely_row _ _ _ _ Hid Hw1) as Heq1.
  assert (Hstay : idle w1 (set_db (w_db w1) (tick w1))) by done.
  unfold escrow_update. cbv zeta.
  match goal with |- context [db_call ?g env w1] => destruct (db_call_cases g env w1) as [(e & _ & ->)| ->] end.
  { cbn [fst snd]. split_and!; [done|by apply idle_touches|]. apply HQe. eapply ready_touches; [exact HR1|by apply idle_touches]. }
  destruct (escrow_of w1 id) as [row|] eqn:Hrow1; cbn [fst snd]; cycle 1.
  { split_and!; [done|by apply idle_touches|]. apply HQe. eapply ready_touches; [exact HR1|by apply idle_touches]. }
  set (now := env_now env (w_tick w1)). set (row' := set_updatedAt now (f now row)). set (w2 := set_db _ _).
  assert (Hnow : in_iso_range now) by by apply clock_ok.
  destruct (HP now row (Hrow row (eq_sym Heq1))) as [Htr HP'].
  destruct (Hf now row Hnow (va_dates _ _ _ (proj1 (proj2 HR1)) _ _ Hrow1)) as [Hd Hs].
  destruct (set_updatedAt_good _ _ _ Hnow Hd Hs) as [Hd' Hs'].
  assert (Ht : touches env items O w1 w2) by (apply (touches_update O w1 w2 id row row'); done).
  split; [done|]. split; [exact Ht|]. apply guarded_bind. destruct HR1 as (T1 & V1 & S1).
  eapply guarded_mono; [|apply (guarded_invalidate O w2 id); [done|done|by apply (to_valid _ _ _ _ _ Ht)|]].
  - intros O' [[]|e] w4 (-> & HR4 & Hrow4); [|by apply HQe]. apply HQ; [done|]. rewrite Hrow4. simpl.
    rewrite lookup_insert_eq. by intros ? [= <-].
  - intros i Hi Hne v Hv. simpl. rewrite lookup_insert_ne by done. by apply S1.
Qed.

(** The same with a continuation that may rely on [P']. *)
Lemma works_write {B} id (P P' : PrismaEscrow -> Prop) f (k : EscrowRecord -> Prog B) :
  good_update f ->
  (forall now row, P row -> rtc transition (e_state row) (e_state (f now row)) /\
     P' (set_updatedAt now (f now row))) ->
  (forall rec, works id P' (k rec)) ->
  works id P (bind (write_through id f) k).
Proof using HE.
  intros Hf HP Hk O w Hid HR Hrow. apply guarded_bind. eapply guarded_write; eauto.
  intros rec w' HR' Hrow'. by apply Hk.
Qed.

(** An update that keeps the state needs no guard. *)
Lemma works_keep {B} id P f (k : EscrowRecord -> Prog B) :
  good_update f -> (forall now row, e_state (f now row) = e_state row) ->
  (forall rec, works id any (k rec)) -> works id P (bind (write_through id f) k).
Proof using HE.
  intros Hf Hst Hk. apply (works_weaken id P any); [done|]. eapply (works_write id any any); [done| |done].
  intros now row _. by rewrite Hst.
Qed.

(** [new Date()], then a write stamped with it. *)
Lemma works_stamped {B} id (P : PrismaEscrow -> Prop) (f : Z -> Z -> PrismaEscrow -> PrismaEscrow)
    (k : EscrowRecord -> Prog B) :
  (forall t, in_iso_range t -> good_update (f t)) ->
  (forall t now row, P row -> rtc transition (e_state row) (e_state (f t now row))) ->
  (forall rec, works id any (k rec)) ->
  works id P (let* t := await now in bind (write_through id (f t)) k).
Proof using HE.
  intros Hf HP Hk O w Hid HR Hrow. apply guarded_bind, guarded_await_same. intros w1 Hw1.
  split; [done|]. split; [by apply idle_touches|]. cbn [fst snd now].
  apply (works_write id P any (f (env_now env (w_tick w1)))); [by apply Hf, clock_ok|by eauto|done|done|..].
  - by eapply ready_rely.
  - intros row. rewrite (rely_row O w w1) by done. apply Hrow.
Qed.

(** ** The worker *)

Section worker.
Context {C : ContractApi}.

Lemma idle_quiet {A} (m : Prog A) : every quiet_step m -> every idle m.
Proof using.
  apply every_mono. intros w w' Hq. split; [by apply quiet_off_escrow|]. split; [apply (q_index _ _ Hq)|apply (q_started _ _ Hq)].
Qed.

Ltac idle_walk := walk_every ltac:(idtac; apply every_await; intros; by repeat case_match).

(** A successful claim proves that the escrow is [SHIPPED]. *)
Lemma works_claimDelivery {B} id (k : option EscrowRecord -> Prog B) :
  (forall rec, works id (fun r => e_state r = SHIPPED) (k (Some rec))) -> works id any (k None) ->
  works id any (bind (claimDelivery id) k).
Proof using HE.
  intros Hsome Hnone O w Hid HR _. apply guarded_bind, guarded_bind, guarded_await_same. intros w1 Hw1.
  pose proof (ready_rely _ _ _ HR Hw1) as HR1. unfold escrow_findUnique. cbv zeta.
  match goal with |- context [db_call ?g env w1] => destruct (db_call_cases g env w1) as [(e & _ & ->)| ->] end;
    cbn [fst snd]; split; try done; (split; [by apply idle_touches|]).
  { split; [done|]. eapply ready_touches; [exact HR1|by apply idle_touches]. }
  set (w2 := set_db _ _). assert (HR2 : ready O w2) by (eapply ready_touches; [exact HR1|by apply idle_touches]).
  destruct (escrow_of w1 id) as [row|] eqn:Hrow; [|by apply Hnone].
  destruct (negb _ || negb _) eqn:Hg; [by apply Hnone|]. b2p.
  apply guarded_bind. eapply (guarded_write O _ id (fun r => e_state r = SHIPPED) (fun r => e_state r = SHIPPED));
    [solve_update|by intros; split|done|done| | |done].
  - intros r Hr. pose proof (eq_trans (eq_sym Hrow) Hr) as [= <-]. done.
  - intros rec w' HR' Hrow'. by apply Hsome.
Qed.

Lemma works_record_and_mark id cid :
  works id (fun r => e_state r = SHIPPED) (TrackingPoll.record_and_mark id cid).
Proof using HE.
  apply works_catch.
  - apply works_idle; [unfold TrackingPoll.requireAdminAddress; idle_walk|]. intros admin.
    apply works_idle; [apply idle_quiet, recordDelivery_quiet|]. intros _. apply works_stamped.
    + intros t Ht. by apply markDelivered_good.
    + intros t n row Hst. apply rtc_once. unfold transition. simpl. by rewrite Hst.
    + intros rec. apply works_idle_end. by apply every_await.
  - intros e. apply works_keep; [solve_update|done|]. intros. apply works_raise.
Qed.

Lemma works_processShipment escrow : works (e_id escrow) any (TrackingPoll.processShipment escrow).
Proof using HE.
  apply works_finally.
  - case_match; [|apply works_ret]. case_match; [|apply works_ret]. case_match; [apply works_ret|].
    apply works_idle; [unfold Logistics.getStatus, GiglClient.fetchTracking; idle_walk|]. intros st.
    destruct (negb _); [apply works_ret|]. apply works_claimDelivery; [|apply works_ret].
    intros rec. apply works_record_and_mark.
  - apply works_keep; [solve_update|done|]. intros. apply works_ret.
Qed.
End worker.

(** ** The queue *)

Context (Hids : NoDup (e_id <$> items)).

Lemma touches_take w item :
  valid env items w -> items !! w_index w = Some item ->
  let w' := set_index (S (w_index w)) (w_started w ++ [e_id item]) w in
  touches env items ∅ w w' /\ e_id item ∈ taken w' ∖ taken w /\ taken w' ⊆ taken w ∪ {[e_id item]}.
Proof using HE Hids.
  intros HV Hitem. cbv zeta. set (w' := set_index _ _ w).
  assert (Htk : taken w' = taken w ∪ {[e_id item]}).
  { unfold taken. simpl. rewrite list_to_set_app_L. simpl. by rewrite union_empty_r_L. }
  assert (Hlook : (e_id <$> items) !! w_index w = Some (e_id item)) by by rewrite list_lookup_fmap, Hitem.
  assert (Hnew : e_id item ∉ taken w).
  { unfold taken. rewrite elem_of_list_to_set, (va_started _ _ _ HV). intros (i & Hi & Hlt)%elem_of_take.
    pose proof (NoDup_lookup _ _ _ _ Hids Hi Hlook). lia. }
  split_and!; [|rewrite Htk; set_solver|by rewrite Htk].
  split; rewrite ?Htk; [done|by apply evolves_same|done|simpl; lia|set_solver|].
  intros [V1 V2 V3 V4 V5]. split; try done.
  - simpl. rewrite V3. erewrite take_S_r; [done|exact Hlook].
  - simpl. by eapply lookup_lt_Some in Hitem.
  - intros id. rewrite Htk. intros Hid. apply V5. set_solver.
Qed.

Context (worker : EscrowRecord -> Prog unit) (Hworker : forall item, works (e_id item) any (worker item)).

Lemma guarded_next fuel O w :
  ready O w -> length items < fuel + w_index w ->
  guarded env items O (settles env) (TrackingPoll.next fuel items worker) w.
Proof using HE Hids Hworker.
  revert O w. induction fuel as [|fuel IH]; intros O w HR Hlen.
  { pose proof (va_bound _ _ _ (proj1 (proj2 HR))). lia. }
  cbn [TrackingPoll.next]. apply guarded_bind, guarded_await. intros w1 Hw1. cbv zeta.
  pose proof (ready_rely _ _ _ HR Hw1) as HR1.
  assert (Hix : w_index w <= w_index w1) by (destruct Hw1 as (? & _ & T); apply (to_index _ _ _ _ _ T)).
  unfold TrackingPoll.take_next. destruct (items !! w_index w1) as [item|] eqn:Hitem; cbn [fst snd].
  - destruct (touches_take w1 item) as (Ht & Hin & Hsub); [apply HR1|done|].
    set (w2 := set_index _ _ w1) in *. pose proof (to_taken _ _ _ _ _ Ht) as Hgrow.
    split; [eapply touches_mono; [|exact Ht]; set_solver|]. destruct HR1 as (T1 & V1 & S1).
    assert (HR2 : ready (extend O w1 w2) w2).
    { split_and!; [unfold extend; set_solver|by apply (to_valid _ _ _ _ _ Ht)|].
      intros id. unfold extend. rewrite elem_of_union, elem_of_difference. intros [Hid|[_ Hid]];
        (eapply settled_touches; [|exact Ht|]; [set_solver|auto]). by apply (va_rest _ _ _ V1). }
    apply guarded_bind, guarded_catch. eapply guarded_mono; [|eapply (guarded_index env items) with (n := S (w_index w1));
      [apply (Hworker item); [unfold extend; set_solver|done|done]|done]].
    intros O' r w3 [[-> HR3] Hix3]. destruct r; apply IH; [done|lia|done|lia].
  - split; [by apply idle_touches|]. rewrite extend_same by done. split; [done|]. apply HR1.
Qed.

(** ** The cycle *)

(** A whole run of the loops keeps the store invariant and the life cycle. *)
Lemma wp_runWithConcurrency concurrency w :
  Inv env w ->
  wp (TrackingPoll.runWithConcurrency items concurrency worker) env w (fun _ w' => Inv env w' /\ evolves w w').
Proof using HE Hids Hworker.
  intros HI. apply wp_bind, wp_await. cbn [local fst snd]. set (w0 := set_index 0 [] w).
  assert (HV : valid env items w0).
  { split; [apply HI|apply HI|done|simpl; lia|]. intros id _ v Hv. exact (inv_cache _ _ HI id v Hv). }
  assert (Hsafe : guarded env items ∅ (settles env)
    (promiseAll (replicate (Nat.min concurrency (length items)) (TrackingPoll.next (S (length items)) items worker))) w0).
  { apply guarded_promiseAll, guarded_next; [|simpl; lia]. split_and!; [set_solver|done|set_solver]. }
  destruct (guarded_run env items _ _ _ _ Hsafe) as [[_ HS] Ht]. unfold wp. set (w1 := (run _ env w0).2) in *.
  pose proof (to_valid _ _ _ _ _ Ht HV) as HV1. split; [|etrans; [by apply (evolves_same w w0)|exact (to_evolves _ _ _ _ _ Ht)]].
  split; [apply HV1|apply HV1|]. intros id v Hv.
  destruct (decide (id ∈ taken w1)) as [Hin|Hout]; [|by apply (va_rest _ _ _ HV1)].
  apply HS; [|done]. unfold extend, taken at 2. simpl. set_solver.
Qed.
End tracking.

Section cycle.
Context {C : ContractApi}.

(** The batch holds every shipment once. *)
Lemma shipped_ids env w limit :
  Inv env w ->
  NoDup (e_id <$> (toEscrowRecord <$> take limit (escrow_select (shipped_with_tracking (w_db w))
    (then_by (asc_nulls_first e_trackingCheckedAt) (asc e_createdAt)) (w_db w)))).
Proof.
  intros HI. rewrite <- list_fmap_compose. apply NoDup_fmap_2_strong.
  - intros r1 r2 H1 H2 Heq. apply elem_of_take in H1 as (i1 & H1 & _), H2 as (i2 & H2 & _).
    apply list_elem_of_lookup_2, elem_select in H1 as [_ [k1 H1]], H2 as [_ [k2 H2]].
    pose proof (inv_ids _ _ HI _ _ H1). pose proof (inv_ids _ _ HI _ _ H2). simpl in *. congruence.
  - eapply sublist_NoDup; [by eapply NoDup_select|apply sublist_take].
Qed.

Lemma sound_tracking_run : sound TrackingPoll.run.
Proof.
  unfold TrackingPoll.run. apply sound_bind; [apply sound_off_escrow; off_walk|]. intros []; [apply sound_ret|].
  apply sound_bind; [|intros; apply sound_ret]. apply sound_finally; [|apply sound_off_escrow; off_walk].
  apply sound_catch; [|intros; apply sound_ret]. unfold findShippedWithTracking. intros env w HE HI.
  apply wp_bind, wp_bind, wp_db_frame; [done|done|done| |].
  { intros e w1 HI1 Hdb _ _. split; [done|]. apply evolves_same. by rewrite Hdb. }
  intros now u w1 _ HI1 _ Hdb. simpl in *. apply wp_ret.
  eapply wp_mono; [apply (wp_runWithConcurrency env _ HE)|]; [| |done|].
  - rewrite <- Hdb. by eapply shipped_ids.
  - intros item. by apply works_processShipment.
  - intros r w2 [? Hev]. split; [done|]. etrans; [|exact Hev]. apply evolves_same. by rewrite Hdb.
Qed.
End cycle.
