(* ===== verification/Dlq.v ===== *)
(** * Dead-letter queue and audit log

    [src/dlq/failed-transaction.repository.ts], [src/dlq/dlq.service.ts], the
    replay and abandon endpoints of [src/dlq/dlq.controller.ts], and
    [src/audit-log]: failed contract submissions, their review, and the
    append-only trail of admin actions. *)
From S2P Require Import Prelude Records Dates Text Tables Effects Cache Prisma EscrowRepo Contract Workers.
Local Open Scope prog_scope.

(** ** FailedTransactionRepository *)

Module FailedTransactions.

Record CreateInput : Type := mkCreateInput {
  ci_operation : string; ci_escrowId : option string; ci_errorMessage : string;
  ci_ledgerFeedback : option LedgerFeedback; ci_attempts : option Z }.

Definition create (input : CreateInput) : Prog FailedTransactionRecord :=
  await (failed_create (fun now uuid =>
    mkFailed uuid (ci_operation input) (ci_escrowId input) (ci_errorMessage input)
      (ci_ledgerFeedback input) (coalesce (ci_attempts input) 1%Z) PENDING_REVIEW None now now None None)).

Definition findMany (where_ : FailedTransactionRecord -> bool) (skip limit : Z)
    : Prog (list FailedTransactionRecord) := await (failed_findMany where_ (desc f_createdAt) skip limit).

Definition count (where_ : FailedTransactionRecord -> bool) : Prog Z := await (failed_count where_).

Definition findById (id : string) : Prog (option FailedTransactionRecord) :=
  await (failed_findUnique id).

(** The row with some columns replaced; [updatedAt] is bumped. *)
Definition with_ (r : FailedTransactionRecord) (message : string) (attempts : Z)
    (status : FailedTransactionStatus) (hash : option string) (reviewed replayed : option Z) (now : Z)
    : FailedTransactionRecord :=
  mkFailed (f_id r) (f_operation r) (f_escrowId r) message (f_ledgerFeedback r) attempts status
    hash (f_createdAt r) now reviewed replayed.

Definition incrementAttempts (id errorMessage : string) : Prog FailedTransactionRecord :=
  await (failed_update id (fun now r =>
    with_ r errorMessage (f_attempts r + 1) (f_status r) (f_lastReplayTxHash r) (f_reviewedAt r)
      (f_replayedAt r) now)).

(** [PENDING_REVIEW], or [REPLAYING] and not updated since [staleBefore]. *)
Definition claimable (staleBefore : option Z) (r : FailedTransactionRecord) : bool :=
  bool_decide (f_status r = PENDING_REVIEW) ||
  match staleBefore with
  | Some t => bool_decide (f_status r = REPLAYING) && (f_updatedAt r <=? t)%Z
  | None => false
  end.

Definition claimForReplay (id : string) (staleBefore : option Z) : Prog (option FailedTransactionRecord) :=
  let* count := await (failed_updateMany id (claimable staleBefore) (fun now r =>
    with_ r (f_errorMessage r) (f_attempts r) REPLAYING (f_lastReplayTxHash r) (f_reviewedAt r)
      (f_replayedAt r) now)) in
  if (count =? 0)%Z then Ret None else findById id.

Definition releaseClaim (id : string) : Prog FailedTransactionRecord :=
  await (failed_update id (fun now r =>
    with_ r (f_errorMessage r) (f_attempts r) PENDING_REVIEW (f_lastReplayTxHash r) (f_reviewedAt r)
      (f_replayedAt r) now)).

Definition markReplayed (id txHash : string) : Prog FailedTransactionRecord :=
  await (failed_update id (fun now r =>
    with_ r (f_errorMessage r) (f_attempts r) REPLAYED (Some txHash) (f_reviewedAt r) (Some now) now)).

Definition markAbandoned (id : string) (staleBefore : option Z) : Prog (option FailedTransactionRecord) :=
  let* count := await (failed_updateMany id (claimable staleBefore) (fun now r =>
    with_ r (f_errorMessage r) (f_attempts r) ABANDONED (f_lastReplayTxHash r) (Some now)
      (f_replayedAt r) now)) in
  if (count =? 0)%Z then Ret None else findById id.

Definition markReviewed (id : string) : Prog FailedTransactionRecord :=
  await (failed_update id (fun now r =>
    with_ r (f_errorMessage r) (f_attempts r) (f_status r) (f_lastReplayTxHash r) (Some now)
      (f_replayedAt r) now)).

End FailedTransactions.

(** ** DlqService *)

Module Dlq.

Definition REPLAYING_STALE_THRESHOLD_MS : Z := 5 * 60 * 1000.

Definition enqueue (input : FailedTransactions.CreateInput) : Prog FailedTransactionRecord :=
  FailedTransactions.create input.

Record ListQuery : Type := mkListQuery {
  lq_status : option FailedTransactionStatus; lq_operation : option string;
  lq_escrowId : option string; lq_page : option Z; lq_limit : option Z }.

Record Page : Type := mkPage {
  pg_data : list FailedTransactionRecord; pg_total : Z; pg_page : Z; pg_limit : Z }.

(** [Number(x) || d]: zero and missing values take the default. *)
Definition or_num (o : option Z) (d : Z) : Z :=
  match o with Some n => if (n =? 0)%Z then d else n | None => d end.

Definition list_where (query : ListQuery) (r : FailedTransactionRecord) : bool :=
  match lq_status query with Some s => bool_decide (f_status r = s) | None => true end &&
  (if truthy (lq_operation query) then bool_decide (Some (f_operation r) = lq_operation query) else true) &&
  (if truthy (lq_escrowId query) then bool_decide (f_escrowId r = lq_escrowId query) else true).

Definition list_ (query : ListQuery) : Prog Page :=
  let page := Z.max 1 (or_num (lq_page query) 1) in
  let limit := Z.min 100 (Z.max 1 (or_num (lq_limit query) 20)) in
  let skip := ((page - 1) * limit)%Z in
  let* records := FailedTransactions.findMany (list_where query) skip limit in
  let* total := FailedTransactions.count (list_where query) in
  Ret (mkPage records total page limit).

Definition get (id : string) : Prog FailedTransactionRecord :=
  let* record := FailedTransactions.findById id in
  match record with
  | None => Raise (NotFoundException ("Failed transaction " +:+ id +:+ " not found"))
  | Some record => Ret record
  end.

Definition requireRecord (id : string) : Prog FailedTransactionRecord := get id.

Definition isStaleReplaying (staleThreshold : Z) (record : FailedTransactionRecord) : bool :=
  bool_decide (f_status record = REPLAYING) && (f_updatedAt record <=? staleThreshold)%Z.

Definition replay (id : string) (replayFn : FailedTransactionRecord -> Prog string)
    : Prog FailedTransactionRecord :=
  let* record := requireRecord id in
  let* t := await now in
  let staleThreshold := (t - REPLAYING_STALE_THRESHOLD_MS)%Z in
  if negb (bool_decide (f_status record = PENDING_REVIEW)) && negb (isStaleReplaying staleThreshold record)
  then Raise (ConflictException ("Failed transaction " +:+ id +:+ " is not pending review (status: " +:+
         FailedTransactionStatus_str (f_status record) +:+ ")"))
  else
    let* claimed := FailedTransactions.claimForReplay id (Some staleThreshold) in
    match claimed with
    | None => Raise (ConflictException ("Failed transaction " +:+ id +:+
        " is already being replayed or was replayed"))
    | Some claimed =>
        let* txHash := catch (replayFn claimed) (fun err =>
          FailedTransactions.releaseClaim id ;;;
          FailedTransactions.incrementAttempts id (exn_message err) ;;;
          Raise err) in
        FailedTransactions.markReplayed id txHash
    end.

Definition abandon (id : string) : Prog FailedTransactionRecord :=
  let* record := requireRecord id in
  let* t := await now in
  let staleThreshold := (t - REPLAYING_STALE_THRESHOLD_MS)%Z in
  let conflict := ConflictException ("Failed transaction " +:+ id +:+
    " cannot be abandoned (status: " +:+ FailedTransactionStatus_str (f_status record) +:+ ")") in
  if negb (bool_decide (f_status record = PENDING_REVIEW)) && negb (isStaleReplaying staleThreshold record)
  then Raise conflict
  else
    let* abandoned := FailedTransactions.markAbandoned id (Some staleThreshold) in
    match abandoned with
    | None => Raise conflict
    | Some abandoned => Ret abandoned
    end.

Definition markReviewed (id : string) : Prog FailedTransactionRecord :=
  requireRecord id ;;;
  FailedTransactions.markReviewed id.

End Dlq.

(** ** Audit log *)

Module AuditLog.

Definition append (action adminAddress entityType entityId : string)
    (details : list (string * option string)) : Prog AuditLogEntry :=
  await (audit_create (fun now cuid =>
    mkAudit cuid action adminAddress entityType entityId details now)).

Record Query : Type := mkQuery {
  aq_page : option number; aq_limit : option number; aq_action : option string;
  aq_entityType : option string; aq_entityId : option string; aq_adminAddress : option string;
  aq_from : option Z; aq_to : option Z }.

Record AuditPage : Type := mkAuditPage {
  ap_data : list AuditLogEntry; ap_total : Z; ap_page : Z; ap_limit : Z }.

(** [Math.floor] of a finite number. *)
Definition number_floor (x : number) : option Z :=
  match x with
  | NaN => None
  | Finite m e => Some (if (0 <=? e)%Z then m * 2 ^ e else m / 2 ^ (- e))%Z
  end.

Definition str_filter (o : option string) (v : string) : bool :=
  if truthy o then bool_decide (Some v = o) else true.

Definition audit_where (q : Query) (r : AuditLogEntry) : bool :=
  str_filter (aq_action q) (al_action r) && str_filter (aq_entityType q) (al_entityType r) &&
  str_filter (aq_entityId q) (al_entityId r) && str_filter (aq_adminAddress q) (al_adminAddress r) &&
  match aq_from q with Some t => (t <=? al_occurredAt r)%Z | None => true end &&
  match aq_to q with Some t => (al_occurredAt r <=? t)%Z | None => true end.

Definition findAll (q : Query) : Prog AuditPage :=
  let page := match aq_page q ≫= number_floor with Some n => Z.max 1 n | None => 1%Z end in
  let limit := match aq_limit q ≫= number_floor with
               | Some n => Z.min 100 (Z.max 1 n) | None => 20%Z end in
  let skip := ((page - 1) * limit)%Z in
  let* data := await (audit_findMany (audit_where q) skip limit) in
  let* total := await (audit_count (audit_where q)) in
  Ret (mkAuditPage data total page limit).

End AuditLog.

(** ** The admin endpoints *)

Module DlqController.
Section operations.
Context {C : ContractApi}.

Definition requireAutoReleaseSource : Prog string :=
  catch AutoRelease.requireAutoReleaseSource (fun err =>
    match err with
    | AutoReleaseSourceNotConfiguredError => Raise (ServiceUnavailableException (exn_message err))
    | _ => Raise err
    end).

(** The callback of [replay]: only an auto-release can be replayed. *)
Definition replayFn (r : FailedTransactionRecord) : Prog string :=
  if bool_decide (f_operation r = "submitAutoRelease") && truthy (f_escrowId r) then
    let escrowId := coalesce (f_escrowId r) "" in
    let* contractEscrowId := findContractEscrowId escrowId in
    match contractEscrowId with
    | None => Raise (ConflictException ("Escrow " +:+ DQ +:+ escrowId +:+ DQ +:+
        " has no contractEscrowId, so auto-release cannot be replayed on-chain."))
    | Some contractEscrowId =>
        let* source := requireAutoReleaseSource in
        submitAutoRelease contractEscrowId source
    end
  else Raise (BadRequestException ("Operation " +:+ DQ +:+ f_operation r +:+ DQ +:+
         " cannot be replayed automatically; replay manually.")).

Definition replay (id : string) (admin : option string) : Prog FailedTransactionRecord :=
  let* record := Dlq.get id in
  let* result := Dlq.replay (f_id record) replayFn in
  AuditLog.append "DLQ_REPLAYED" (coalesce admin "unknown") "failed_transaction" id
    [("txHash", f_lastReplayTxHash result); ("operation", Some (f_operation result))] ;;;
  Ret result.

Definition abandon (id : string) (admin : option string) : Prog FailedTransactionRecord :=
  let* result := Dlq.abandon id in
  AuditLog.append "DLQ_ABANDONED" (coalesce admin "unknown") "failed_transaction" id
    [("operation", Some (f_operation result))] ;;;
  Ret result.

End operations.
End DlqController.
