(* ===== verification/Webhook.v ===== *)
(** * Stellar webhook and event replay

    [src/webhooks/stellar-webhook.repository.ts],
    [src/webhooks/stellar-webhook.service.ts],
    [src/webhooks/webhook-cleanup.service.ts] and
    [src/stellar/event-replay.service.ts]: signed payment notifications,
    deduplicated by operation id, that fund escrows. *)
From S2P Require Import Prelude Records Dates Text Tables Effects Cache Prisma EscrowRepo.
Local Open Scope prog_scope.

Module Webhook.

Record StellarWebhookDto : Type := mkWebhookDto {
  wh_type : string; wh_id : string; wh_transaction_hash : string; wh_to : option string;
  wh_amount : option string; wh_asset_code : option string }.

(** ** Repository *)

Definition isProcessed (operationId : string) : Prog bool :=
  let* event := await (webhook_findUnique operationId) in
  Ret (bool_decide (is_Some event)).

Definition markProcessed (operationId : string) : Prog unit := await (webhook_create operationId).

Definition unmarkProcessed (operationId : string) : Prog unit := await (webhook_delete operationId).

Definition pruneOlderThan (before : Z) : Prog Z := await (webhook_deleteMany before).

(** ** Service *)

(** [timingSafeEqual] on the decoded digests. *)
Definition signature_ok (expected signature : string) : bool :=
  bool_decide (hex_bytes signature = hex_bytes expected).

Definition verifySignature (rawBody : string) (signature : option string) : Prog unit :=
  let* secret := ask (fun env => env_config env "STELLAR_WEBHOOK_SECRET") in
  if negb (truthy secret) then Raise (InternalServerErrorException "Webhook secret not configured")
  else if negb (truthy signature) then Raise (UnauthorizedException "Missing X-Stellar-Signature header")
  else
    let* expected := ask (fun env => env_hmac env (coalesce secret "") rawBody) in
    if signature_ok expected (coalesce signature "") then Ret tt
    else Raise (UnauthorizedException "Invalid webhook signature").

(** The amount and asset of the payment are exactly the escrow's. *)
Definition payment_matches (dto : StellarWebhookDto) (escrow : EscrowRecord) : bool :=
  let receivedAmount := match wh_amount dto with Some a => Number_of_string a | None => NaN end in
  number_eqb receivedAmount (e_amount escrow) &&
  bool_decide (toUpperCase (coalesce (wh_asset_code dto) "XLM") = toUpperCase (e_currency escrow)).

Definition fund (escrow : EscrowRecord) : Prog unit :=
  let* updated := updateState (e_id escrow) FUNDED in
  notify NFunded updated.

Definition handlePayment (dto : StellarWebhookDto) : Prog unit :=
  if negb (truthy (wh_to dto)) then
    Raise (BadRequestException "Payment event missing destination address")
  else
    let* escrows := findByVendor (coalesce (wh_to dto) "") None 20 in
    let pending := List.filter (fun e => bool_decide (e_state e = CREATED)) escrows in
    forEach pending (fun escrow => if payment_matches dto escrow then fund escrow else Ret tt).

Definition processEvent (dto : StellarWebhookDto) : Prog unit :=
  if bool_decide (wh_type dto = "payment") then handlePayment dto else Ret tt.

(** Mark, process, and unmark when the processing throws. *)
Definition process_marked (dto : StellarWebhookDto) : Prog unit :=
  markProcessed (wh_id dto) ;;;
  catch (processEvent dto) (fun err => unmarkProcessed (wh_id dto) ;;; Raise err).

(** [Some reason] when the event is skipped; the outer [catch] of the code
    logs and rethrows. *)
Definition handleEvent (rawBody : string) (signature : option string) (dto : StellarWebhookDto)
    : Prog (option string) :=
  verifySignature rawBody signature ;;;
  let* duplicate := isProcessed (wh_id dto) in
  if duplicate then Ret (Some "duplicate")
  else process_marked dto ;;; Ret None.

(** [false] when the operation was already processed. *)
Definition processOperationDto (dto : StellarWebhookDto) : Prog bool :=
  let* duplicate := isProcessed (wh_id dto) in
  if duplicate then Ret false
  else process_marked dto ;;; Ret true.

(** ** Cleanup *)

Definition pruneProcessedWebhookEvents : Prog Z :=
  let* cutoff := await (fun env w =>
    (Ok (env_now env (w_tick w) - env_retentionDays env * 24 * 60 * 60 * 1000)%Z, w)) in
  pruneOlderThan cutoff.

End Webhook.

(** ** Cursors *)

Module Cursor.

Definition DEFAULT_KEY : string := "stellar-listener".
Definition EVENT_REPLAY_KEY : string := "horizon-event-replay".

Definition get (key : string) : Prog (option string) :=
  catch (await (cursor_findUnique key)) (fun _ => Ret None).

Definition set (cursorValue key : string) : Prog unit :=
  catch (await (cursor_upsert key cursorValue)) (fun _ => Ret tt).

End Cursor.

(** ** Replay of Horizon operations *)

Module EventReplay.

Definition to_dto (rec : HorizonRecord) : Webhook.StellarWebhookDto :=
  Webhook.mkWebhookDto (coalesce (hr_type rec) "") (coalesce (hr_id rec) "")
    (coalesce (hr_transaction_hash rec) "") (hr_to rec) (hr_amount rec) (hr_asset_code rec).

(** [String(lastRec['paging_token'] ?? lastRec['id'])] on string fields. *)
Definition paging (rec : HorizonRecord) : string :=
  coalesce (hr_paging_token rec) (coalesce (hr_id rec) "undefined").

Definition fetch_operations (cursor : option string) : Prog (list HorizonRecord) :=
  await (fun env w => (env_horizon env (w_tick w) (if truthy cursor then cursor else None), tick w)).

Definition onModuleInit : Prog unit :=
  catch
    (let* cursor := Cursor.get Cursor.EVENT_REPLAY_KEY in
     let* records := fetch_operations cursor in
     forEach records (fun rec =>
       attempt (Webhook.processOperationDto (to_dto rec)) ;;; Ret tt) ;;;
     match last records with
     | Some lastRec => Cursor.set (paging lastRec) Cursor.EVENT_REPLAY_KEY
     | None => Ret tt
     end)
    (fun _ => Ret tt).

End EventReplay.
