(* ===== verification/Dto.v ===== *)
(** * Request bodies and queries

    The DTO classes of the controllers ([src/src/**/dto]): their properties
    with the validators and transforms that decorate them, and how a handler
    reads the instance the [ValidationPipe] hands it.  The pipe itself
    (class-transformer and class-validator) is a parameter; [ValidationPipe]
    states what the services rely on of it. *)
From Stdlib Require Import Ascii.
From S2P Require Import Prelude Records Dates Text Tables Crypto Json Effects Logistics Cache Prisma EscrowRepo Coherence Contract Lifecycle EscrowSvc Auth Http Doubles Config Disputes.
Local Open Scope string_scope.

(** ** Values of properties *)

(** [o[key]]; an absent property is [undefined]. *)
Definition field_num (key : string) (o : json) : option number :=
  match get_field key o with Some (JNum n) => Some n | _ => None end.

Definition field_int (key : string) (o : json) : option Z :=
  match field_num key o with Some n => integer_of n | None => None end.

(** ** Decorators *)

Inductive Decorator : Type :=
| IsString | IsNotEmpty | IsNumber | IsInt | IsPositive | IsBoolean | IsArray | IsObject
| MinLength (n : nat)
| MaxLength (n : nat)
| Min (n : Z)
| Max (n : Z)
| Matches (pattern : string -> bool)
| IsIn (values : list string)            (* also [IsEnum] *)
| NotEquals (value : string)
| ArrayMinSize (n : nat)
| ArrayMaxSize (n : nat)
| IsStellarAddress
| MaxDecimalPlaces (places : Z)
| Checked (by_library : string)          (* [IsEmail], [IsUrl], [IsTimeZone], ... *)
| Each (d : Decorator).                  (* [{ each: true }] *)

(** A transform sees [undefined] as well; it may throw. *)
Definition Transform : Type := option json -> outcome (option json).

Record Property : Type := mkProperty {
  p_name : string;
  p_optional : bool;                     (* [IsOptional] *)
  p_when : json -> bool;                 (* [ValidateIf] *)
  p_transform : Transform;
  p_decorators : list Decorator
}.

Definition required (name : string) (ds : list Decorator) : Property := mkProperty name false (fun _ => true) Ok ds.
Definition optional (name : string) (ds : list Decorator) : Property := mkProperty name true (fun _ => true) Ok ds.
Definition with_transform (f : Transform) (p : Property) : Property :=
  mkProperty (p_name p) (p_optional p) (p_when p) f (p_decorators p).

Definition not_a_function (method : string) : exn := JsError ("value." +:+ method +:+ " is not a function").

(** [value?.trim()]. *)
Definition trim_value : Transform := fun v =>
  match v with
  | None | Some JNull => Ok None
  | Some (JStr s) => Ok (Some (JStr (trim s)))
  | Some _ => Throw (not_a_function "trim")
  end.

(** [typeof value === 'string' ? value.trim() : value]. *)
Definition trim_string : Transform := fun v =>
  match v with Some (JStr s) => Ok (Some (JStr (trim s))) | _ => Ok v end.

(** [value?.toUpperCase().trim()]. *)
Definition upper_trim : Transform := fun v =>
  match v with
  | None | Some JNull => Ok None
  | Some (JStr s) => Ok (Some (JStr (trim (toUpperCase s))))
  | Some _ => Throw (not_a_function "toUpperCase")
  end.

Fixpoint upper_all (items : list json) : outcome (list json) :=
  match items with
  | [] => Ok []
  | JStr s :: rest =>
      match upper_all rest with Ok l => Ok (JStr (toUpperCase s) :: l) | Throw e => Throw e end
  | _ :: _ => Throw (JsError "v.toUpperCase is not a function")
  end.

(** [Array.isArray(value) ? value.map((v) => v.toUpperCase()) : value]. *)
Definition upper_items : Transform := fun v =>
  match v with
  | Some (JArr items) => match upper_all items with Ok l => Ok (Some (JArr l)) | Throw e => Throw e end
  | _ => Ok v
  end.

(** ** What the decorators accept *)

Section checks.
Context (env : Env).
(** The length of a string as validator.js counts it, and its other checks. *)
Context (char_count : string -> nat) (library_check : string -> string -> bool).

Definition on_string (f : string -> bool) (v : option json) : bool :=
  match v with Some (JStr s) => f s | _ => false end.
Definition on_number (f : Z -> Z -> bool) (v : option json) : bool :=
  match v with Some (JNum (Finite m e)) => f m e | _ => false end.
Definition on_array (f : list json -> bool) (v : option json) : bool :=
  match v with Some (JArr l) => f l | _ => false end.

Fixpoint holds (d : Decorator) (v : option json) : bool :=
  match d with
  | IsString => on_string (fun _ => true) v
  | IsNotEmpty => match v with None | Some JNull => false | Some (JStr s) => negb (bool_decide (s = "")) | _ => true end
  | IsNumber => on_number (fun _ _ => true) v
  | IsInt => on_number (fun m e => bool_decide (is_Some (integer_of (Finite m e)))) v
  | IsPositive => on_number (fun m _ => (0 <? m)%Z) v
  | IsBoolean => match v with Some (JBool _) => true | _ => false end
  | IsArray => on_array (fun _ => true) v
  | IsObject => match v with Some (JObj _) => true | _ => false end
  | MinLength n => on_string (fun s => Nat.leb n (char_count s)) v
  | MaxLength n => on_string (fun s => Nat.leb (char_count s) n) v
  | Min n => on_number (fun m e => (n * number_den e <=? number_num m e)%Z) v
  | Max n => on_number (fun m e => (number_num m e <=? n * number_den e)%Z) v
  | Matches pattern => on_string pattern v
  | IsIn values => on_string (fun s => bool_decide (s ∈ values)) v
  | NotEquals value => match v with Some (JStr s) => negb (bool_decide (s = value)) | _ => true end
  | ArrayMinSize n => on_array (fun l => Nat.leb n (length l)) v
  | ArrayMaxSize n => on_array (fun l => Nat.leb (length l) n) v
  | IsStellarAddress => on_string (Sep10Controller.IsStellarAddress env) v
  | MaxDecimalPlaces places => match v with Some (JNum x) => MaxDecimalPlaces_validate env places x | _ => false end
  | Checked name => on_string (library_check name) v
  | Each d => on_array (forallb (fun item => holds d (Some item))) v
  end.

(** A property is checked unless [ValidateIf] or [IsOptional] excuses it. *)
Definition property_ok (o : json) (p : Property) : bool :=
  negb (p_when p o) ||
  (p_optional p && match get_field (p_name p) o with None | Some JNull => true | _ => false end) ||
  forallb (fun d => holds d (get_field (p_name p) o)) (p_decorators p).

(** Only declared properties ([forbidNonWhitelisted]), all of them in order. *)
Definition instance_ok (C : list Property) (o : json) : bool :=
  match o with
  | JObj fields => forallb (fun kv => bool_decide (kv.1 ∈ p_name <$> C)) fields && forallb (property_ok o) C
  | _ => false
  end.
End checks.

(** [new ValidationPipe({ whitelist: true, transform: true,
    forbidNonWhitelisted: true, ... })] with what it is documented to do: the
    instance it returns satisfies its class and went through the transforms; a
    body it rejects gets a 400, unless a transform throws; and an object that
    satisfies its class and that the transforms leave alone is returned as it
    is. *)
Class ValidationPipe (env : Env) : Type := {
  char_count : string -> nat;
  library_check : string -> string -> bool;
  pipe : list Property -> json -> outcome json;
  pipe_ok : forall C body o, pipe C body = Ok o -> instance_ok env char_count library_check C o = true;
  pipe_transformed : forall C body o p, NoDup (p_name <$> C) -> pipe C body = Ok o -> p ∈ C ->
    exists v, p_transform p v = Ok (get_field (p_name p) o);
  pipe_error : forall C body e, pipe C body = Throw e ->
    (exists m, e = BadRequestException m) \/ exists p v, p ∈ C /\ p_transform p v = Throw e;
  pipe_fixpoint : forall C fields, NoDup fields.*1 ->
    instance_ok env char_count library_check C (JObj fields) = true ->
    (forall p, p ∈ C -> p_transform p (get_field (p_name p) (JObj fields)) = Ok (get_field (p_name p) (JObj fields))) ->
    pipe C (JObj fields) = Ok (JObj fields)
}.

(** ** The classes *)

Module Schema.

Abbreviation all_chars := ConfigSchema.all_chars.

Definition ESCROW_AMOUNT_DECIMAL_PLACES : Z := 8.
Definition ESCROW_AMOUNT_MAX : Z := 9999999999.

Definition is_upper (c : ascii) : bool := char_in 65 90 c.
Definition is_lower (c : ascii) : bool := char_in 97 122 c.
Definition is_dig (c : ascii) : bool := char_in 48 57 c.

(** [/^[A-Z0-9]+$/]. *)
Definition CURRENCY (s : string) : bool :=
  negb (bool_decide (s = "")) && all_chars (fun c => is_upper c || is_dig c) s.

Definition CreateEscrowDto : list Property :=
  [ with_transform trim_value (required "itemName" [IsString; MinLength 3; MaxLength 100]);
    with_transform trim_string (required "itemRef" [IsString; MinLength 3; MaxLength 100]);
    required "amount" [IsNumber; IsPositive; MaxDecimalPlaces ESCROW_AMOUNT_DECIMAL_PLACES; Max ESCROW_AMOUNT_MAX];
    with_transform upper_trim (required "currency" [IsString; MinLength 3; MaxLength 12; Matches CURRENCY]);
    with_transform trim_value (required "buyerAddress" [IsString; IsStellarAddress]) ].

(** [/^[A-Za-z0-9\-_]+$/]. *)
Definition TRACKING_ID (s : string) : bool :=
  negb (bool_decide (s = "")) &&
  all_chars (fun c => is_upper c || is_lower c || is_dig c || bool_decide (c ∈ ["-"; "_"]%char)) s.

Definition UpdateShipmentDto : list Property :=
  [ with_transform trim_value (required "trackingId" [IsString; MinLength 3; MaxLength 64; Matches TRACKING_ID]) ].

(** [/^\+[1-9]\d{6,14}$/]. *)
Definition E164 (s : string) : bool :=
  match s with
  | String plus (String d rest) =>
      bool_decide (plus = "+"%char) && char_in 49 57 d &&
      Nat.leb 6 (String.length rest) && Nat.leb (String.length rest) 14 && all_chars is_dig rest
  | _ => false
  end.

(** [!o.email && !o.phone]. *)
Definition falsy (v : option json) : bool :=
  match v with
  | None | Some JNull | Some (JBool false) | Some (JNum NaN) => true
  | Some (JStr s) => bool_decide (s = "")
  | Some (JNum (Finite m _)) => (m =? 0)%Z
  | _ => false
  end.

Definition UpdateBuyerContactDto : list Property :=
  [ optional "email" [Checked "isEmail"];
    optional "phone" [IsString; Matches E164];
    mkProperty "_atLeastOne" false (fun o => falsy (get_field "email" o) && falsy (get_field "phone" o)) Ok [IsString] ].

Definition DisputeReasonCategory : list string :=
  ["ITEM_NOT_AS_DESCRIBED"; "ITEM_NOT_RECEIVED"; "DAMAGED_ITEM"; "FRAUD"; "OTHER"].

Definition OpenDisputeDto : list Property :=
  [ required "reason" [IsIn DisputeReasonCategory];
    required "description" [IsString; MinLength 20; MaxLength 2000];
    optional "evidenceUrls" [IsArray; ArrayMaxSize 10; Each (Checked "isURL"); Each (MaxLength 500)] ].

Definition EscrowStateEnum : list string :=
  ["CREATED"; "FUNDED"; "SHIPPED"; "DELIVERED"; "COMPLETED"; "RELEASED"; "DISPUTED"; "REFUNDED"; "CANCELLED"].

Definition DisputeStatusEnum : list string := ["OPEN"; "UNDER_REVIEW"; "RESOLVED"; "CANCELLED"; "ABANDONED"].

Definition VendorEscrowsQueryDto : list Property :=
  [ optional "state" [IsIn EscrowStateEnum];
    optional "sort" [IsIn ["date"; "amount"]];
    optional "order" [IsIn ["asc"; "desc"]];
    optional "page" [IsInt; Min 1];
    optional "limit" [IsInt; Min 1; Max 100] ].

Definition EVIDENCE_FILE_EXTENSIONS : list string := ["jpg"; "jpeg"; "png"; "webp"; "gif"; "pdf"].

(** [/^[^/\\]+\.(jpg|...)$/i]: the text before the last dot is not empty and
    there is no separator. *)
Fixpoint before_extension (s : string) : option string :=
  match s with
  | EmptyString => None
  | String c s' =>
      match before_extension s' with
      | Some b => Some (String c b)
      | None => if bool_decide (c = "."%char) then Some "" else None
      end
  end.

Definition EVIDENCE_FILE_NAME (s : string) : bool :=
  all_chars (fun c => negb (bool_decide (c = "/"%char)) && negb (bool_decide (c = "\"%char))) s &&
  match before_extension s, extension s with
  | Some b, Some e => negb (bool_decide (b = "")) && bool_decide (toLowerCase e ∈ EVIDENCE_FILE_EXTENSIONS)
  | _, _ => false
  end.

Definition EvidenceUploadQueryDto : list Property :=
  [ required "fileName" [IsString; IsNotEmpty; MaxLength 255; Matches EVIDENCE_FILE_NAME] ].

Definition CreateVendorProfileDto : list Property :=
  [ with_transform trim_value (required "businessName" [IsString; MinLength 2; MaxLength 100]);
    optional "email" [Checked "isEmail"];
    optional "phone" [IsString; Matches E164; MaxLength 20];
    optional "description" [IsString; NotEquals EscrowService.VENDOR_PROFILE_PLACEHOLDER_DESCRIPTION; MaxLength 500] ].

(** [PartialType]: the same properties, all optional. *)
Definition PartialType (C : list Property) : list Property :=
  (fun p => mkProperty (p_name p) true (p_when p) (p_transform p) (p_decorators p)) <$> C.

Definition UpdateVendorProfileDto : list Property := PartialType CreateVendorProfileDto.

Definition NotificationChannel : list string := ["EMAIL"; "SMS"].

Definition UpdateNotificationPreferencesDto : list Property :=
  [ optional "notifyOnDelivery" [IsBoolean];
    optional "notifyOnDelay" [IsBoolean];
    optional "notifyOnException" [IsBoolean];
    with_transform upper_items
      (optional "notificationChannels" [IsArray; ArrayMinSize 1; ArrayMaxSize 2; Each (IsIn NotificationChannel)]);
    with_transform trim_value (optional "webhookUrl" [IsString]);
    with_transform trim_value (optional "webhookSecret" [IsString]) ].

Definition UpdateVendorAccountDetailsDto : list Property :=
  [ with_transform trim_value (optional "businessLicense" [IsString; MaxLength 100]);
    with_transform trim_value (optional "taxId" [IsString; MaxLength 50]);
    optional "bankAccountNumber" [IsString; MaxLength 50];
    optional "bankRoutingNumber" [IsString; MaxLength 50];
    optional "paymentMethods" [IsArray; ArrayMaxSize 20; Each IsString; Each (MaxLength 50)];
    optional "preferredCurrency" [IsString; Checked "isISO4217"];
    optional "billingAddress" [IsString; MaxLength 200];
    optional "billingCity" [IsString; MaxLength 100];
    optional "billingState" [IsString; MaxLength 100];
    optional "billingCountry" [IsString; Checked "isISO31661Alpha2"];
    optional "billingPostalCode" [IsString; MaxLength 20];
    optional "shippingAddress" [IsString; MaxLength 200];
    optional "shippingCity" [IsString; MaxLength 100];
    optional "shippingState" [IsString; MaxLength 100];
    optional "shippingCountry" [IsString; Checked "isISO31661Alpha2"];
    optional "shippingPostalCode" [IsString; MaxLength 20];
    optional "websiteUrl" [IsString; Checked "isURL"; MaxLength 500];
    optional "socialMediaLinks" [IsArray; ArrayMaxSize 20; Each (Checked "isURL")];
    optional "businessHours" [IsString; MaxLength 200];
    optional "timezone" [IsString; Checked "isTimeZone"; MaxLength 50];
    optional "language" [IsString; MaxLength 10];
    optional "complianceNotes" [IsString; MaxLength 2000] ].

Definition StellarWebhookDto : list Property :=
  [ required "type" [IsString; IsNotEmpty];
    required "id" [IsString; IsNotEmpty];
    required "transaction_hash" [IsString; IsNotEmpty];
    optional "to" [IsString];
    optional "from" [IsString];
    optional "amount" [IsString];
    optional "asset_code" [IsString];
    optional "meta" [IsObject] ].

Definition ResolveDisputeDto : list Property := [ required "resolution" [IsString; IsIn ["RELEASE"; "REFUND"]] ].

(** The page and limit of the admin lists. *)
Definition page_properties : list Property :=
  [ optional "page" [IsInt; Min 1; Max 1000000]; optional "limit" [IsInt; Min 1; Max 100] ].

Definition AdminDisputesQueryDto : list Property :=
  optional "status" [IsIn DisputeStatusEnum] :: page_properties.

Definition AdminAuditLogQueryDto : list Property :=
  page_properties ++
  [ optional "action" [IsString]; optional "entityType" [IsString]; optional "entityId" [IsString];
    optional "adminAddress" [IsString]; optional "from" [Checked "isISO8601"]; optional "to" [Checked "isISO8601"] ].

Definition FAILED_TRANSACTION_STATUSES : list string := ["PENDING_REVIEW"; "REPLAYING"; "REPLAYED"; "ABANDONED"].

Definition ListFailedTransactionsQueryDto : list Property :=
  [ optional "status" [IsIn FAILED_TRANSACTION_STATUSES]; optional "operation" [IsString];
    optional "escrowId" [IsString] ] ++ page_properties.

Definition RotateApiKeyDto : list Property := [ required "key" [IsString; IsNotEmpty] ].

Definition ChartQueryDto : list Property :=
  [ optional "days" [IsInt; Min 1; Max 365]; optional "timezone" [IsString; Checked "isTimeZone"] ].

Definition ChallengeQueryDto : list Property :=
  [ required "account" [IsString; IsStellarAddress]; optional "memo" [IsString; MaxLength 64];
    optional "home_domain" [IsString; MaxLength 255]; optional "client_domain" [IsString; MaxLength 255] ].

Definition ChallengeRequestDto : list Property := [ required "publicKey" [IsString; IsStellarAddress] ].

Definition VerifyChallengeDto : list Property :=
  [ required "transaction" [IsString; MinLength 1; MaxLength MAX_CHALLENGE_TRANSACTION_LENGTH] ].

Definition RefreshTokenDto : list Property :=
  [ required "refreshToken" [IsString; MinLength 1; MaxLength MAX_REFRESH_TOKEN_LENGTH] ].

(** [/^\/[^@]*$/]. *)
Definition ENDPOINT (s : string) : bool :=
  match s with
  | String c rest => bool_decide (c = "/"%char) && all_chars (fun c => negb (bool_decide (c = "@"%char))) rest
  | EmptyString => false
  end.

Definition VirtualProfile : list Property :=
  [ required "concurrentUsers" [IsNumber; Min 1; Max 10000];
    required "requestsPerSecond" [IsNumber; Min 1; Max 1000];
    required "duration" [IsNumber; Min 1; Max 3600];
    required "endpoint" [IsString; Matches ENDPOINT];
    optional "method" [IsIn ["GET"; "POST"; "PUT"; "DELETE"; "PATCH"]];
    optional "payload" [] ].

Definition PerformanceThresholds : list Property :=
  [ required "maxResponseTime" [IsNumber; Min 0];
    required "maxErrorRate" [IsNumber; Min 0; Max 100];
    required "minThroughput" [IsNumber; Min 0] ].

(** Neither [profiles] nor [thresholds] is decorated with [ValidateNested]. *)
Definition StressTestConfigDto : list Property :=
  [ required "testName" [IsString];
    required "profiles" [IsArray; ArrayMaxSize 10];
    optional "thresholds" [];
    optional "rampUpTime" [IsNumber; Min 1];
    optional "enableAlerts" [IsBoolean] ].

End Schema.

(** ** Instances, as the handlers read them *)

Section read.
Context (env : Env) {V : ValidationPipe env}.

(** [@Body() dto] behind the global pipes. *)
Definition body_of (C : list Property) (body : json) : outcome json := global_pipes (pipe C) body.

Definition read_create (o : json) : option CreateEscrowDto :=
  match field_str "itemName" o, field_str "itemRef" o, field_num "amount" o, field_str "currency" o, field_str "buyerAddress" o with
  | Some name, Some ref, Some amount, Some currency, Some buyer => Some (mkCreateEscrowDto name ref amount currency buyer)
  | _, _, _, _, _ => None
  end.

Definition read_contact (o : json) : EscrowService.UpdateBuyerContactDto :=
  EscrowService.mkContactDto (field_str "email" o) (field_str "phone" o).

Definition read_items (o : option json) : option (list string) :=
  match o with
  | Some (JArr items) => Some (omap (fun v => match v with JStr s => Some s | _ => None end) items)
  | _ => None
  end.

Definition read_dispute (o : json) : option BuyerDispute.OpenDisputeDto :=
  match field_str "reason" o, field_str "description" o with
  | Some reason, Some description =>
      Some (BuyerDispute.mkOpenDisputeDto reason (Some description) (read_items (get_field "evidenceUrls" o)))
  | _, _ => None
  end.

Definition read_state (s : string) : option EscrowState :=
  List.find (fun st => bool_decide (EscrowState_str st = s))
    [CREATED; FUNDED; SHIPPED; DELIVERED; COMPLETED; RELEASED; DISPUTED; REFUNDED; CANCELLED].

Definition read_sort (s : string) : option SortField :=
  if bool_decide (s = "date") then Some sort_date else if bool_decide (s = "amount") then Some sort_amount else None.

Definition read_order (s : string) : option SortOrder :=
  if bool_decide (s = "asc") then Some order_asc else if bool_decide (s = "desc") then Some order_desc else None.

(** The defaults of the class ([sort], [order], [page], [limit]) are those the
    service applies. *)
Definition read_vendor_query (o : json) : EscrowService.VendorQuery :=
  EscrowService.mkVendorQuery
    (match field_str "state" o with Some s => read_state s | None => None end)
    (match field_str "sort" o with Some s => read_sort s | None => None end)
    (match field_str "order" o with Some s => read_order s | None => None end)
    (field_int "page" o) (field_int "limit" o).

End read.
