(* ===== verification/Api.v ===== *)
(** * The HTTP API

    The handlers of the controllers with the guards in front of them:
    [escrow.controller.ts], [vendor-escrow.controller.ts],
    [vendor-profile.controller.ts], [vendor-account-details.controller.ts],
    [analytics.controller.ts], [sep10.controller.ts], [dlq.controller.ts],
    [stellar-webhook.controller.ts] and those of [src/src/admin].  A request
    carries its [Authorization] header and the parameters of its handler;
    bodies and queries are the typed values the validation pipe hands on (see
    Dto).
    Guards run before pipes.  The UUID checks of Nest and of class-validator
    are parameters. *)
From S2P Require Import Prelude Records Dates Text Tables Crypto Json Effects Logistics Cache Prisma EscrowRepo Coherence Contract Lifecycle EscrowSvc Vendor Notify RetryQueue Analytics Auth Http Disputes Workers Dlq Webhook.
Local Open Scope prog_scope.

Class UuidChecks := {
  isUUID : string -> bool;         (* [isUUID] of class-validator *)
  ParseUUIDPipe : string -> bool   (* accepted by Nest's pipe *)
}.

(** ** Guards and pipes *)

(** [@UseGuards(JwtGuard)], with [@CurrentUser()]. *)
Definition with_user {A} (authorization : HeaderValue) (handler : AuthUser -> Prog A) : Prog A :=
  let* user := await (fun env w => (JwtGuard.canActivate env (env_now env (w_tick w)) authorization, w)) in
  handler user.

(** [@UseGuards(JwtGuard, AdminGuard)]. *)
Definition with_admin {A} (authorization : HeaderValue) (handler : AuthUser -> Prog A) : Prog A :=
  with_user authorization (fun user =>
    await (fun env w => (AdminGuard.canActivate env (Some user), w)) ;;; handler user).

Section pipes.
Context {U : UuidChecks}.

(** [@Param('id', ParseUUIDPipe)]. *)
Definition with_uuid {A} (id : string) (handler : Prog A) : Prog A :=
  if ParseUUIDPipe id then handler else Raise (BadRequestException "Validation failed (uuid is expected)").

End pipes.

Definition is_admin_role (user : AuthUser) : bool := bool_decide (au_role user = Some "admin").

(** ** Escrows *)

Module EscrowController.
Section handlers.
Context {U : UuidChecks} {C : ContractApi}.

Definition createEscrow (auth : HeaderValue) (idempotencyKey : option string) (dto : CreateEscrowDto) :=
  with_user auth (fun user =>
    match idempotencyKey with
    | Some key =>
        if negb (bool_decide (key = "")) && isUUID key
        then EscrowService.createIdempotent key dto (au_address user)
        else Raise (BadRequestException "Idempotency-Key header is required and must be a valid UUID")
    | None => Raise (BadRequestException "Idempotency-Key header is required and must be a valid UUID")
    end).

Definition evidenceUpload (auth : HeaderValue) (fileName : string) :=
  with_user auth (fun user => EscrowService.generateEvidenceUploadUrl (au_address user) fileName).

Definition getEscrow (id : string) := with_uuid id (EscrowService.getPublicEscrow id).

Definition getEvents (id : string) := with_uuid id (EscrowService.getEvents id).

Definition getTracking (id : string) := with_uuid id (EscrowService.getTracking id).

(** Not guarded: the id is the proof of possession. *)
Definition updateBuyerContact (id : string) (dto : EscrowService.UpdateBuyerContactDto) :=
  with_uuid id (EscrowService.updateBuyerContact id dto).

Definition shipEscrow (auth : HeaderValue) (id trackingId : string) :=
  with_user auth (fun user => with_uuid id
    (EscrowService.handleShipment id (au_address user) trackingId (is_admin_role user))).

Definition cancelEscrow (auth : HeaderValue) (id : string) :=
  with_user auth (fun user => with_uuid id
    (EscrowService.cancelEscrow id (au_address user) (is_admin_role user))).

Definition cancelPendingEscrow (auth : HeaderValue) (id : string) :=
  with_user auth (fun user => with_uuid id
    (EscrowService.cancelPendingEscrow id (au_address user) (is_admin_role user))).

Definition openDispute (auth : HeaderValue) (id : string) (dto : BuyerDispute.OpenDisputeDto) :=
  with_user auth (fun user => with_uuid id (BuyerDispute.openDispute id (au_address user) dto)).

Definition getDispute (auth : HeaderValue) (id : string) :=
  with_user auth (fun user => with_uuid id (BuyerDispute.getDispute id (au_address user))).

End handlers.
End EscrowController.

(** ** Vendors *)

Module VendorControllers.
Section handlers.
Context {D : DecimalOps} {TZ : TimeZones}.

Definition getEscrows (auth : HeaderValue) (query : EscrowService.VendorQuery) :=
  with_user auth (fun user => EscrowService.findVendorEscrows (au_address user) query).

Definition createProfile (auth : HeaderValue) (dto : CreateVendorProfileDto) :=
  with_user auth (fun user => VendorProfileService.createProfile (au_address user) dto).

Definition getProfile (auth : HeaderValue) :=
  with_user auth (fun user => VendorProfileService.getProfile (au_address user)).

Definition upsertProfile (auth : HeaderValue) (dto : CreateVendorProfileDto) :=
  with_user auth (fun user => VendorProfileService.upsertProfile (au_address user) dto).

Definition updateProfile (auth : HeaderValue) (dto : UpdateVendorProfileDto) :=
  with_user auth (fun user => VendorProfileService.updateProfile (au_address user) dto).

Definition getNotifications (auth : HeaderValue) :=
  with_user auth (fun user => VendorProfileService.getNotificationPreferences (au_address user)).

Definition updateNotifications (auth : HeaderValue) (dto : UpdateNotificationPreferencesDto) :=
  with_user auth (fun user => VendorProfileService.updateNotificationPreferences (au_address user) dto).

Definition getAccountDetails (auth : HeaderValue) :=
  with_user auth (fun user => VendorAccountDetails.get (au_address user)).

Definition updateAccountDetails (auth : HeaderValue) (dto : AccountDetailsPatch) :=
  with_user auth (fun user => VendorAccountDetails.update (au_address user) dto).

Definition getTransactionStats (auth : HeaderValue) :=
  with_user auth (fun user => AnalyticsService.getTransactionStats (au_address user)).

(** [days] and [timezone] default to 30 and UTC. *)
Definition getDailyVolumeChart (auth : HeaderValue) (days : option Z) (timezone : option string) :=
  with_user auth (fun user =>
    AnalyticsService.getDailyVolumeChart (au_address user) (coalesce days 30%Z) (coalesce timezone "UTC")).

End handlers.
End VendorControllers.

(** ** Administration *)

Module AdminControllers.
Section handlers.
Context {U : UuidChecks} {C : ContractApi}.

Definition getDisputes (auth : HeaderValue) (status : option DisputeState) (page limit : option Z) :=
  with_admin auth (fun _ => AdminDispute.getDisputes status page limit).

Definition resolution_str (r : Resolution) : string := match r with RELEASE => "RELEASE" | REFUND => "REFUND" end.

Definition resolve (auth : HeaderValue) (id : string) (resolution : Resolution) :=
  with_admin auth (fun admin => with_uuid id (
    let* result := AdminDispute.resolve id resolution in
    AuditLog.append "DISPUTE_RESOLVED" (au_address admin) "escrow" id
      [("resolution", Some (resolution_str resolution))] ;;;
    Ret result)).

Definition getAuditLog (auth : HeaderValue) (query : AuditLog.Query) :=
  with_admin auth (fun _ => AuditLog.findAll query).

Definition rotateLogisticsKey (auth : HeaderValue) (key : string) : Prog string :=
  with_admin auth (fun admin =>
    Logistics.rotateApiKey key ;;;
    AuditLog.append "CREDENTIAL_ROTATED" (au_address admin) "logistics_provider" "logistics"
      [("provider", Some "logistics")] ;;;
    Ret "Logistics API key updated and encrypted").

Definition getStats (auth : HeaderValue) := with_admin auth (fun _ => AdminStats.getStats).

Definition dlqList (auth : HeaderValue) (query : Dlq.ListQuery) := with_admin auth (fun _ => Dlq.list_ query).

Definition dlqDetail (auth : HeaderValue) (id : string) := with_admin auth (fun _ => Dlq.get id).

Definition dlqReplay (auth : HeaderValue) (id : string) :=
  with_admin auth (fun admin => DlqController.replay id (Some (au_address admin))).

Definition dlqAbandon (auth : HeaderValue) (id : string) :=
  with_admin auth (fun admin => DlqController.abandon id (Some (au_address admin))).

End handlers.
End AdminControllers.

(** ** Webhooks *)

(** The raw body is kept by the body parser of the route, if it could read it. *)
Definition handleStellarWebhook (rawBody : option string) (signature : option string) (dto : Webhook.StellarWebhookDto) :=
  match rawBody with
  | Some raw => Webhook.handleEvent raw signature dto
  | None => Raise (BadRequestException "Unable to read raw request body")
  end.

(** ** Routes *)

(** The routes that need a token. *)
Inductive UserRoute : Type :=
| PostEscrow (key : option string) (dto : CreateEscrowDto)
| PostEvidence (fileName : string)
| PatchShip (id trackingId : string)
| PatchCancel (id : string)
| DeleteEscrow (id : string)
| PostDispute (id : string) (dto : BuyerDispute.OpenDisputeDto)
| GetDispute (id : string)
| GetVendorEscrows (query : EscrowService.VendorQuery)
| PostProfile (dto : CreateVendorProfileDto)
| GetProfile
| PutProfile (dto : CreateVendorProfileDto)
| PatchProfile (dto : UpdateVendorProfileDto)
| GetNotifications
| PatchNotifications (dto : UpdateNotificationPreferencesDto)
| GetAccountDetails
| PatchAccountDetails (dto : AccountDetailsPatch)
| GetAnalytics
| GetChart (days : option Z) (timezone : option string).

(** The routes that need the administrator's token. *)
Inductive AdminRoute : Type :=
| GetDisputes (status : option DisputeState) (page limit : option Z)
| PatchResolve (id : string) (resolution : Resolution)
| GetAuditLog (query : AuditLog.Query)
| PatchLogisticsKey (key : string)
| GetStats
| GetDlq (query : Dlq.ListQuery)
| GetDlqRecord (id : string)
| PostReplay (id : string)
| PostAbandon (id : string).

(** The routes anyone may call; the webhook checks a signature of its own. *)
Inductive PublicRoute : Type :=
| GetEscrow (id : string)
| GetEvents (id : string)
| GetTracking (id : string)
| PatchContact (id : string) (dto : EscrowService.UpdateBuyerContactDto)
| GetChallenge (account : string)
| PostChallenge (publicKey : string)
| PostVerify (transaction : string)
| PostRefresh (refreshToken : string)
| PostWebhook (rawBody signature : option string) (dto : Webhook.StellarWebhookDto).

Section routes.
Context {U : UuidChecks} {C : ContractApi} {D : DecimalOps} {TZ : TimeZones}.

Definition ignored {A} (m : Prog A) : Prog unit := m ;;; Ret tt.

Definition user_route (auth : HeaderValue) (r : UserRoute) : Prog unit :=
  match r with
  | PostEscrow key dto => ignored (EscrowController.createEscrow auth key dto)
  | PostEvidence f => ignored (EscrowController.evidenceUpload auth f)
  | PatchShip id t => ignored (EscrowController.shipEscrow auth id t)
  | PatchCancel id => ignored (EscrowController.cancelEscrow auth id)
  | DeleteEscrow id => ignored (EscrowController.cancelPendingEscrow auth id)
  | PostDispute id dto => ignored (EscrowController.openDispute auth id dto)
  | GetDispute id => ignored (EscrowController.getDispute auth id)
  | GetVendorEscrows q => ignored (VendorControllers.getEscrows auth q)
  | PostProfile dto => ignored (VendorControllers.createProfile auth dto)
  | GetProfile => ignored (VendorControllers.getProfile auth)
  | PutProfile dto => ignored (VendorControllers.upsertProfile auth dto)
  | PatchProfile dto => ignored (VendorControllers.updateProfile auth dto)
  | GetNotifications => ignored (VendorControllers.getNotifications auth)
  | PatchNotifications dto => ignored (VendorControllers.updateNotifications auth dto)
  | GetAccountDetails => ignored (VendorControllers.getAccountDetails auth)
  | PatchAccountDetails dto => ignored (VendorControllers.updateAccountDetails auth dto)
  | GetAnalytics => ignored (VendorControllers.getTransactionStats auth)
  | GetChart days tz => ignored (VendorControllers.getDailyVolumeChart auth days tz)
  end.

Definition admin_route (auth : HeaderValue) (r : AdminRoute) : Prog unit :=
  match r with
  | GetDisputes s p l => ignored (AdminControllers.getDisputes auth s p l)
  | PatchResolve id res => ignored (AdminControllers.resolve auth id res)
  | GetAuditLog q => ignored (AdminControllers.getAuditLog auth q)
  | PatchLogisticsKey key => ignored (AdminControllers.rotateLogisticsKey auth key)
  | GetStats => ignored (AdminControllers.getStats auth)
  | GetDlq q => ignored (AdminControllers.dlqList auth q)
  | GetDlqRecord id => ignored (AdminControllers.dlqDetail auth id)
  | PostReplay id => ignored (AdminControllers.dlqReplay auth id)
  | PostAbandon id => ignored (AdminControllers.dlqAbandon auth id)
  end.

Definition public_route (r : PublicRoute) : Prog unit :=
  match r with
  | GetEscrow id => ignored (EscrowController.getEscrow id)
  | GetEvents id => ignored (EscrowController.getEvents id)
  | GetTracking id => ignored (EscrowController.getTracking id)
  | PatchContact id dto => ignored (EscrowController.updateBuyerContact id dto)
  | GetChallenge a => ignored (Sep10Controller.challengeGet a)
  | PostChallenge a => ignored (Sep10Controller.challengePost a)
  | PostVerify tx => ignored (Sep10Controller.verify tx)
  | PostRefresh tok => ignored (Sep10Controller.refresh tok)
  | PostWebhook b s dto => ignored (handleStellarWebhook b s dto)
  end.

Inductive HttpRequest : Type :=
| ToUser (auth : HeaderValue) (r : UserRoute)
| ToAdmin (auth : HeaderValue) (r : AdminRoute)
| ToPublic (r : PublicRoute).

Definition respond (r : HttpRequest) : Prog unit :=
  match r with
  | ToUser auth r => user_route auth r
  | ToAdmin auth r => admin_route auth r
  | ToPublic r => public_route r
  end.

(** Requests answered one after the other. *)
Fixpoint answer (env : Env) (rs : list HttpRequest) (w : World) : World :=
  match rs with
  | [] => w
  | r :: rs => answer env rs (run (respond r) env w).2
  end.

End routes.
