(* ===== verification/Wire.v ===== *)
(** * Requests as they arrive

    A request on the wire has a method and path, its headers and an untyped JSON
    body or query.  [typed] applies the global pipes with the DTO class of the
    handler and reads the instance into the typed request of Api; [serve_request] is a
    request from the body parsers ([main.ts]) through the guards and pipes to
    the handler.  The parser of form bodies is a parameter. *)
From S2P Require Import Prelude Records Dates Text Tables Crypto Json Effects Logistics Cache Prisma EscrowRepo Coherence Contract Lifecycle EscrowSvc Vendor Notify RetryQueue Analytics Auth Http Doubles Config Disputes Workers Dlq Webhook Dto Api.
Local Open Scope prog_scope.

(** ** Reading instances *)

(** A property that may be [undefined], [null] or a value. *)
Definition read_field {A} (read : json -> option A) (key : string) (o : json) : field A :=
  match get_field key o with
  | None => Undefined
  | Some JNull => Null
  | Some v => match read v with Some a => Val a | None => Undefined end
  end.

Definition as_str (v : json) : option string := match v with JStr s => Some s | _ => None end.
Definition as_bool (v : json) : option bool := match v with JBool b => Some b | _ => None end.
Definition as_strs (v : json) : option (list string) := match v with JArr l => Some (omap as_str l) | _ => None end.

Definition read_profile (o : json) : option CreateVendorProfileDto :=
  (fun name => mkProfileDto name (field_str "email" o) (field_str "phone" o) (field_str "description" o))
    <$> field_str "businessName" o.

Definition read_profile_patch (o : json) : UpdateVendorProfileDto :=
  mkProfilePatch (read_field as_str "businessName" o) (read_field as_str "email" o) (read_field as_str "phone" o)
    (read_field as_str "description" o).

Definition read_preferences (o : json) : UpdateNotificationPreferencesDto :=
  mkPreferencesDto (read_field as_bool "notifyOnDelivery" o) (read_field as_bool "notifyOnDelay" o)
    (read_field as_bool "notifyOnException" o) (read_field as_strs "notificationChannels" o)
    (read_field as_str "webhookUrl" o) (read_field as_str "webhookSecret" o).

(** [customFields] is not a property of the class. *)
Definition read_details (o : json) : AccountDetailsPatch :=
  let str key := read_field as_str key o in
  mkDetailsPatch (str "businessLicense") (str "taxId") (str "bankAccountNumber") (str "bankRoutingNumber")
    (read_field as_strs "paymentMethods" o) (str "preferredCurrency") (str "billingAddress") (str "billingCity")
    (str "billingState") (str "billingCountry") (str "billingPostalCode") (str "shippingAddress") (str "shippingCity")
    (str "shippingState") (str "shippingCountry") (str "shippingPostalCode") (str "websiteUrl")
    (read_field as_strs "socialMediaLinks" o) (str "businessHours") (str "timezone") (str "language")
    (str "complianceNotes") Undefined.

Definition read_dispute_status (s : string) : option DisputeState :=
  if bool_decide (s = "OPEN") then Some OPEN else if bool_decide (s = "UNDER_REVIEW") then Some UNDER_REVIEW
  else if bool_decide (s = "RESOLVED") then Some RESOLVED else if bool_decide (s = "CANCELLED") then Some DCANCELLED
  else if bool_decide (s = "ABANDONED") then Some DABANDONED else None.

Definition read_resolution (s : string) : option Resolution :=
  if bool_decide (s = "RELEASE") then Some RELEASE else if bool_decide (s = "REFUND") then Some REFUND else None.

Definition read_failed_status (s : string) : option FailedTransactionStatus :=
  List.find (fun st => bool_decide (FailedTransactionStatus_str st = s)) [PENDING_REVIEW; REPLAYING; REPLAYED; ABANDONED].

Definition read_dlq_query (o : json) : Dlq.ListQuery :=
  Dlq.mkListQuery (field_str "status" o ≫= read_failed_status) (field_str "operation" o) (field_str "escrowId" o)
    (field_int "page" o) (field_int "limit" o).

(** [new Date(query.from)], when the text is not empty. *)
Definition read_date (env : Env) (key : string) (o : json) : option Z :=
  match field_str key o with
  | Some s => if bool_decide (s = "") then None else Some (pv_parseDate (env_providers env) s)
  | None => None
  end.

Definition read_audit_query (env : Env) (o : json) : AuditLog.Query :=
  AuditLog.mkQuery (field_num "page" o) (field_num "limit" o) (field_str "action" o) (field_str "entityType" o)
    (field_str "entityId" o) (field_str "adminAddress" o) (read_date env "from" o) (read_date env "to" o).

Definition read_webhook (o : json) : option Webhook.StellarWebhookDto :=
  match field_str "type" o, field_str "id" o, field_str "transaction_hash" o with
  | Some type, Some id, Some hash =>
      Some (Webhook.mkWebhookDto type id hash (field_str "to" o) (field_str "amount" o) (field_str "asset_code" o))
  | _, _, _ => None
  end.

(** ** Requests *)

Inductive Method : Type := GET | POST | PUT | PATCH | DELETE.

(** The routes of Api, with the id of their path. *)
Inductive Route : Type :=
| R_escrow (m : Method) | R_evidence | R_escrow_id (m : Method) (id : string) | R_ship (id : string) | R_cancel (id : string)
| R_contact (id : string) | R_events (id : string) | R_tracking (id : string) | R_dispute (m : Method) (id : string)
| R_vendor_escrows | R_profile (m : Method) | R_preferences (m : Method) | R_details (m : Method)
| R_stats_vendor | R_chart
| R_admin_disputes | R_resolve (id : string) | R_audit | R_credentials | R_admin_stats
| R_dlq | R_dlq_id (id : string) | R_replay (id : string) | R_abandon (id : string)
| R_challenge (m : Method) | R_verify | R_refresh | R_webhook.

Inductive ContentType : Type := ApplicationJson | FormUrlencoded | OtherType.

Record WireRequest : Type := mkWire {
  wr_route : Route;
  wr_authorization : HeaderValue;
  wr_idempotencyKey : option string;
  wr_signature : option string;
  wr_type : ContentType;
  wr_bytes : string;       (* the body, as received *)
  wr_query : json          (* the parsed query string *)
}.

(** The default limit of the body parsers, 100kb. *)
Definition BODY_LIMIT : Z := 102400.

(** What a parser throws is a [SyntaxError], which the framework answers with
    400, or the error of the limit, which it does not know. *)
Definition BAD_JSON : exn := BadRequestException "Unexpected token in JSON".
Definition TOO_LARGE : exn := JsError "request entity too large".

Section parsers.
(** [express.urlencoded({ extended: true })]. *)
Context (parse_form : string -> json).

Definition within_limit {A} (r : WireRequest) (parsed : outcome A) : outcome A :=
  if (Z.of_nat (String.length (wr_bytes r)) <=? BODY_LIMIT)%Z then parsed else Throw TOO_LARGE.

(** [express.json()], which is strict: a body is an object or an array; then the
    parser of forms.  A request with another body, or none, has none. *)
Definition parsed_body (r : WireRequest) : outcome (option json) :=
  if bool_decide (wr_bytes r = "") then Ok None
  else
    match wr_type r with
    | ApplicationJson => within_limit r
        match JSON_parse (wr_bytes r) with
        | Some (JObj fields) => Ok (Some (JObj fields))
        | Some (JArr items) => Ok (Some (JArr items))
        | _ => Throw BAD_JSON
        end
    | FormUrlencoded => within_limit r (Ok (Some (parse_form (wr_bytes r))))
    | OtherType => Ok None
    end.

(** [rawBody] of a webhook request. *)
Definition rawBody (r : WireRequest) : option string :=
  match wr_type r with ApplicationJson => Some (wr_bytes r) | _ => None end.

(** The parser of the webhook route keeps the bytes of a JSON body and swallows
    what it cannot parse; the other parsers then leave it alone. *)
Definition captureRawBody (r : WireRequest) : outcome (option json) :=
  match rawBody r with
  | Some bytes => within_limit r (Ok (JSON_parse bytes))
  | None => parsed_body r
  end.

Definition is_webhook (route : Route) : bool := match route with R_webhook => true | _ => false end.

(** What the body parsers of the route leave in [request.body]. *)
Definition request_body (r : WireRequest) : outcome (option json) :=
  if is_webhook (wr_route r) then captureRawBody r else parsed_body r.

End parsers.

Section wire.
Context (env : Env) {V : ValidationPipe env} (parse_form : string -> json).

Definition unreadable : exn := InternalServerErrorException "Internal server error".

(** A class instance is made of an empty object when the value is nil. *)
Definition toEmptyIfNil (value : option json) : json :=
  match value with None | Some JNull => JObj [] | Some v => v end.

(** [@Body() dto: C] and [@Query() query: C]. *)
Definition dto_of {A} (C : list Property) (value : option json) (read : json -> option A) : outcome A :=
  match body_of env C (toEmptyIfNil value) with
  | Ok o => match read o with Some a => Ok a | None => Throw unreadable end
  | Throw e => Throw e
  end.

Definition fmap_ok {A B} (f : A -> B) (r : outcome A) : outcome B :=
  match r with Ok a => Ok (f a) | Throw e => Throw e end.

(** Each controller: the typed request of a route, [None] when it has no such
    handler. *)
Definition escrow_routes (r : WireRequest) (body : option json) : option (outcome HttpRequest) :=
  let user x := ToUser (wr_authorization r) x in
  match wr_route r with
  | R_escrow POST => Some (fmap_ok (fun dto => user (PostEscrow (wr_idempotencyKey r) dto)) (dto_of Schema.CreateEscrowDto body read_create))
  | R_evidence => Some (fmap_ok (fun f => user (PostEvidence f)) (dto_of Schema.EvidenceUploadQueryDto (Some (wr_query r)) (field_str "fileName")))
  | R_escrow_id GET id => Some (Ok (ToPublic (GetEscrow id)))
  | R_escrow_id DELETE id => Some (Ok (user (DeleteEscrow id)))
  | R_events id => Some (Ok (ToPublic (GetEvents id)))
  | R_tracking id => Some (Ok (ToPublic (GetTracking id)))
  | R_contact id => Some (fmap_ok (fun dto => ToPublic (PatchContact id dto)) (dto_of Schema.UpdateBuyerContactDto body (fun o => Some (read_contact o))))
  | R_ship id => Some (fmap_ok (fun t => user (PatchShip id t)) (dto_of Schema.UpdateShipmentDto body (field_str "trackingId")))
  | R_cancel id => Some (Ok (user (PatchCancel id)))
  | R_dispute POST id => Some (fmap_ok (fun dto => user (PostDispute id dto)) (dto_of Schema.OpenDisputeDto body read_dispute))
  | R_dispute GET id => Some (Ok (user (GetDispute id)))
  | _ => None
  end.

Definition vendor_routes (r : WireRequest) (body : option json) : option (outcome HttpRequest) :=
  let user x := ToUser (wr_authorization r) x in
  match wr_route r with
  | R_vendor_escrows => Some (fmap_ok (fun q => user (GetVendorEscrows q))
      (dto_of Schema.VendorEscrowsQueryDto (Some (wr_query r)) (fun o => Some (read_vendor_query o))))
  | R_profile GET => Some (Ok (user GetProfile))
  | R_profile POST => Some (fmap_ok (fun dto => user (PostProfile dto)) (dto_of Schema.CreateVendorProfileDto body read_profile))
  | R_profile PUT => Some (fmap_ok (fun dto => user (PutProfile dto)) (dto_of Schema.CreateVendorProfileDto body read_profile))
  | R_profile PATCH => Some (fmap_ok (fun dto => user (PatchProfile dto)) (dto_of Schema.UpdateVendorProfileDto body (fun o => Some (read_profile_patch o))))
  | R_preferences GET => Some (Ok (user GetNotifications))
  | R_preferences PATCH => Some (fmap_ok (fun dto => user (PatchNotifications dto))
      (dto_of Schema.UpdateNotificationPreferencesDto body (fun o => Some (read_preferences o))))
  | R_details GET => Some (Ok (user GetAccountDetails))
  | R_details PATCH => Some (fmap_ok (fun dto => user (PatchAccountDetails dto))
      (dto_of Schema.UpdateVendorAccountDetailsDto body (fun o => Some (read_details o))))
  | R_stats_vendor => Some (Ok (user GetAnalytics))
  | R_chart => Some (fmap_ok (fun q => user (GetChart q.1 q.2))
      (dto_of Schema.ChartQueryDto (Some (wr_query r)) (fun o => Some (field_int "days" o, field_str "timezone" o))))
  | _ => None
  end.

Definition admin_routes (r : WireRequest) (body : option json) : option (outcome HttpRequest) :=
  let admin x := ToAdmin (wr_authorization r) x in
  match wr_route r with
  | R_admin_disputes => Some (fmap_ok admin (dto_of Schema.AdminDisputesQueryDto (Some (wr_query r))
      (fun o => Some (GetDisputes (field_str "status" o ≫= read_dispute_status) (field_int "page" o) (field_int "limit" o)))))
  | R_resolve id => Some (fmap_ok (fun res => admin (PatchResolve id res)) (dto_of Schema.ResolveDisputeDto body (fun o => field_str "resolution" o ≫= read_resolution)))
  | R_audit => Some (fmap_ok (fun q => admin (GetAuditLog q)) (dto_of Schema.AdminAuditLogQueryDto (Some (wr_query r)) (fun o => Some (read_audit_query env o))))
  | R_credentials => Some (fmap_ok (fun key => admin (PatchLogisticsKey key)) (dto_of Schema.RotateApiKeyDto body (field_str "key")))
  | R_admin_stats => Some (Ok (admin GetStats))
  | R_dlq => Some (fmap_ok (fun q => admin (GetDlq q)) (dto_of Schema.ListFailedTransactionsQueryDto (Some (wr_query r)) (fun o => Some (read_dlq_query o))))
  | R_dlq_id id => Some (Ok (admin (GetDlqRecord id)))
  | R_replay id => Some (Ok (admin (PostReplay id)))
  | R_abandon id => Some (Ok (admin (PostAbandon id)))
  | _ => None
  end.

Definition auth_routes (r : WireRequest) (body : option json) : option (outcome HttpRequest) :=
  match wr_route r with
  | R_challenge GET => Some (fmap_ok (fun a => ToPublic (GetChallenge a)) (dto_of Schema.ChallengeQueryDto (Some (wr_query r)) (field_str "account")))
  | R_challenge POST => Some (fmap_ok (fun a => ToPublic (PostChallenge a)) (dto_of Schema.ChallengeRequestDto body (field_str "publicKey")))
  | R_verify => Some (fmap_ok (fun t => ToPublic (PostVerify t)) (dto_of Schema.VerifyChallengeDto body (field_str "transaction")))
  | R_refresh => Some (fmap_ok (fun t => ToPublic (PostRefresh t)) (dto_of Schema.RefreshTokenDto body (field_str "refreshToken")))
  | _ => None
  end.

Definition webhook_routes (r : WireRequest) (body : option json) : option (outcome HttpRequest) :=
  match wr_route r with
  | R_webhook => Some (fmap_ok (fun dto => ToPublic (PostWebhook (rawBody r) (wr_signature r) dto))
      (dto_of Schema.StellarWebhookDto body read_webhook))
  | _ => None
  end.

Definition or_else {A} (o o' : option A) : option A := match o with Some _ => o | None => o' end.

Definition typed_route (r : WireRequest) (body : option json) : option (outcome HttpRequest) :=
  or_else (escrow_routes r body) (or_else (vendor_routes r body) (or_else (admin_routes r body)
    (or_else (auth_routes r body) (webhook_routes r body)))).

Definition NO_ROUTE : exn := NotFoundException "Cannot find the route".

(** The typed request, as far as parsers and pipes accept it. *)
Definition typed (r : WireRequest) : option HttpRequest :=
  match request_body parse_form r with
  | Ok body => match typed_route r body with Some (Ok req) => Some req | _ => None end
  | Throw _ => None
  end.

End wire.

(** ** The guards of a route *)

Definition guarded_by_admin (route : Route) : bool :=
  match route with
  | R_admin_disputes | R_resolve _ | R_audit | R_credentials | R_admin_stats | R_dlq | R_dlq_id _ | R_replay _ | R_abandon _ => true
  | _ => false
  end.

Definition is_public (route : Route) : bool :=
  match route with
  | R_escrow_id GET _ | R_contact _ | R_events _ | R_tracking _ | R_challenge _ | R_verify | R_refresh | R_webhook => true
  | _ => false
  end.

Definition guard (r : WireRequest) : Prog unit :=
  if is_public (wr_route r) then Ret tt
  else if guarded_by_admin (wr_route r) then with_admin (wr_authorization r) (fun _ => Ret tt)
  else with_user (wr_authorization r) (fun _ => Ret tt).

Section serve.
Context (env : Env) {V : ValidationPipe env} (parse_form : string -> json).
Context {U : UuidChecks} {C : ContractApi} {D : DecimalOps} {TZ : TimeZones}.

(** The body parsers run first, then the guards, the pipes and the handler. The
    handler of Api passes the guards again, which read only the header and the
    clock. *)
Definition serve_request (r : WireRequest) : Prog unit :=
  match request_body parse_form r with
  | Throw e => Raise e
  | Ok body =>
      match typed_route env r body with
      | None => Raise NO_ROUTE
      | Some request =>
          guard r ;;;
          match request with
          | Ok req => respond req
          | Throw e => Raise e
          end
      end
  end.

Fixpoint serve_all (rs : list WireRequest) (w : World) : World :=
  match rs with
  | [] => w
  | r :: rs => serve_all rs (run (serve_request r) env w).2
  end.

End serve.
