(* ===== verification/Stress.v ===== *)
(** * The load generator

    [src/src/stress-test]: [stress-test.service.ts] and the handler of
    [stress-test.controller.ts] that starts a run.  The workers of a profile
    share the list of their measurements; which of them settles a request next
    is a step relation.  The numbers of a profile are the whole numbers from 1
    its decorators ask for.  The formatting of numbers is a parameter. *)
From S2P Require Import Prelude Records Doubles Text Tables Effects Analytics Auth Dlq Api.
Local Open Scope prog_scope.

Module StressTest.

(** ** Data *)

Record PerformanceMetrics : Type := mkMetric {
  pm_timestamp : Z; pm_responseTime : Z; pm_statusCode : Z; pm_success : bool; pm_error : option string }.

Record VirtualProfile : Type := mkProfile {
  vp_concurrentUsers : positive;
  vp_requestsPerSecond : positive;
  vp_duration : positive;
  vp_endpoint : string;
  vp_method : option string;
  vp_payload : option json
}.

Record PerformanceThresholds : Type := mkThresholds {
  th_maxResponseTime : number; th_maxErrorRate : number; th_minThroughput : number }.

Inductive AlertType : Type := PERFORMANCE_DROP | ERROR_RATE | THROUGHPUT_DROP.
Inductive Severity : Type := INFO | WARNING | CRITICAL.

Record Alert : Type := mkAlert {
  ar_timestamp : Z; ar_type : AlertType; ar_severity : Severity; ar_message : string;
  ar_metric : string; ar_value : number; ar_threshold : number }.

Record ProfileResult : Type := mkResult {
  pr_profileIndex : nat;
  pr_totalRequests : Z;
  pr_successfulRequests : Z;
  pr_failedRequests : Z;
  pr_averageResponseTime : number;
  pr_minResponseTime : Z;
  pr_maxResponseTime : Z;
  pr_p50ResponseTime : Z;
  pr_p95ResponseTime : Z;
  pr_p99ResponseTime : Z;
  pr_throughput : number;
  pr_errorRate : number;
  pr_metrics : list PerformanceMetrics;
  pr_alerts : list Alert
}.

Record OverallMetrics : Type := mkOverall {
  om_totalRequests : Z; om_successfulRequests : Z; om_failedRequests : Z;
  om_averageResponseTime : number; om_overallErrorRate : number; om_overallThroughput : number }.

(** ** The workers *)

(** [Math.min(profile.concurrentUsers, 100)]. *)
Definition workers (p : VirtualProfile) : Z := Z.min (Zpos (vp_concurrentUsers p)) 100.

Definition requestsPerWorker (p : VirtualProfile) : Z :=
  Math_ceil (number_div (of_Z (Zpos (vp_requestsPerSecond p) * Zpos (vp_duration p))) (workers p)).

(** How [httpService.request] settles: an answer with a status, or an error
    that may carry one. *)
Inductive Reply : Type :=
| Answered (status : Z)
| Failed (status : option Z) (message : option string).

(** The entry one request pushes. *)
Definition measure (startTime endTime : Z) (r : Reply) : PerformanceMetrics :=
  let responseTime := (endTime - startTime)%Z in
  match r with
  | Answered status => mkMetric startTime responseTime status ((200 <=? status)%Z && (status <? 300)%Z) None
  | Failed status message => mkMetric startTime responseTime (coalesce status 0%Z) false message
  end.

(** The pool: the requests each worker has left, and the shared list. *)
Definition Pool : Type := list nat * list PerformanceMetrics.

(** A request of some worker settles. *)
Inductive pool_step : Pool -> Pool -> Prop :=
| request_settles left_over metrics i n startTime endTime r :
    left_over !! i = Some (S n) -> (startTime <= endTime)%Z ->
    pool_step (left_over, metrics) (<[i := n]> left_over, metrics ++ [measure startTime endTime r]).

Definition pool_start (p : VirtualProfile) : Pool :=
  (replicate (Z.to_nat (workers p)) (Z.to_nat (requestsPerWorker p)), []).

(** ** The results of a profile *)

(** [responseTimes[index] || 0]. *)
Definition at_index (responseTimes : list Z) (index : Z) : Z := coalesce (responseTimes !! Z.to_nat index) 0%Z.

(** [Math.floor(length * share)], the share in hundredths. *)
Definition share_index (hundredths : Z) (length : Z) : Z :=
  Math_floor (number_mul (ratio_to_number hundredths 100) length).

Definition calculateProfileMetrics (metrics : list PerformanceMetrics) (profileIndex : nat) (duration : positive) : ProfileResult :=
  let successful := List.filter pm_success metrics in
  let failed := List.filter (fun m => negb (pm_success m)) metrics in
  let responseTimes := sort_by Z.leb (pm_responseTime <$> metrics) in
  let count := Z.of_nat (length metrics) in
  let failedRequests := Z.of_nat (length failed) in
  let average := if (count =? 0)%Z then NaN else ratio_to_number (foldl Z.add 0%Z responseTimes) count in
  mkResult profileIndex count (Z.of_nat (length successful)) failedRequests average
    (at_index responseTimes 0) (at_index responseTimes (count - 1))
    (at_index responseTimes (share_index 50 count)) (at_index responseTimes (share_index 95 count))
    (at_index responseTimes (share_index 99 count))
    (ratio_to_number count (Zpos duration))
    (if (count =? 0)%Z then NaN else AnalyticsService.rate failedRequests count)
    metrics [].

Section thresholds.
(** [toFixed(2)], and a number in a template string. *)
Context (toFixed2 text : number -> string).

Definition checkThresholds (profile : ProfileResult) (thresholds : PerformanceThresholds) (timestamp : Z) : list Alert :=
  let average := pr_averageResponseTime profile in
  let errorRate := pr_errorRate profile in
  let throughput := pr_throughput profile in
  (if number_ltb (th_maxResponseTime thresholds) average
   then [mkAlert timestamp PERFORMANCE_DROP CRITICAL
     ("Average response time " +:+ toFixed2 average +:+ "ms exceeds threshold " +:+ text (th_maxResponseTime thresholds) +:+ "ms")
     "averageResponseTime" average (th_maxResponseTime thresholds)]
   else []) ++
  (if number_ltb (th_maxErrorRate thresholds) errorRate
   then [mkAlert timestamp ERROR_RATE CRITICAL
     ("Error rate " +:+ toFixed2 errorRate +:+ "% exceeds threshold " +:+ text (th_maxErrorRate thresholds) +:+ "%")
     "errorRate" errorRate (th_maxErrorRate thresholds)]
   else []) ++
  (if number_ltb throughput (th_minThroughput thresholds)
   then [mkAlert timestamp THROUGHPUT_DROP WARNING
     ("Throughput " +:+ toFixed2 throughput +:+ " req/s below threshold " +:+ text (th_minThroughput thresholds) +:+ " req/s")
     "throughput" throughput (th_minThroughput thresholds)]
   else []).

(** [executeProfile] from what its workers measured. *)
Definition executeProfile (profile : VirtualProfile) (profileIndex : nat) (thresholds : option PerformanceThresholds)
    (enableAlerts : bool) (metrics : list PerformanceMetrics) (now : Z) : ProfileResult :=
  let r := calculateProfileMetrics metrics profileIndex (vp_duration profile) in
  match thresholds with
  | Some th =>
      if enableAlerts
      then mkResult (pr_profileIndex r) (pr_totalRequests r) (pr_successfulRequests r) (pr_failedRequests r)
        (pr_averageResponseTime r) (pr_minResponseTime r) (pr_maxResponseTime r) (pr_p50ResponseTime r)
        (pr_p95ResponseTime r) (pr_p99ResponseTime r) (pr_throughput r) (pr_errorRate r) (pr_metrics r)
        (checkThresholds r th now)
      else r
  | None => r
  end.

End thresholds.

(** ** The results of a run *)

(** One round of the [reduce] over the durations of the profiles; [None] is
    the exception for a profile without measurements. *)
Definition add_duration (sum : option number) (p : ProfileResult) : option number :=
  match sum with
  | None => None
  | Some sum =>
      if number_ltb (Finite 0 0) (number_add sum (of_Z (Z.of_nat (length (pr_metrics p))))) then
        match head (pr_metrics p), last (pr_metrics p) with
        | Some first, Some final => Some (ratio_to_number (pm_timestamp final - pm_timestamp first) 1000)
        | _, _ => None
        end
      else Some (Finite 0 0)
  end.

Definition falsy (x : number) : bool := match x with NaN => true | Finite m _ => (m =? 0)%Z end.

Definition totalDuration (profiles : list ProfileResult) : option number :=
  match foldl add_duration (Some (Finite 0 0)) profiles with
  | None => None
  | Some d => Some (if falsy d then of_Z (60 * Z.of_nat (length profiles)) else d)
  end.

Definition sum_of (f : ProfileResult -> Z) (profiles : list ProfileResult) : Z := foldl (fun s p => (s + f p)%Z) 0%Z profiles.

Definition calculateOverallMetrics (profiles : list ProfileResult) : option OverallMetrics :=
  let totalRequests := sum_of pr_totalRequests profiles in
  let failedRequests := sum_of pr_failedRequests profiles in
  let times := concat ((fun p => pm_responseTime <$> pr_metrics p) <$> profiles) in
  match totalDuration profiles with
  | None => None
  | Some duration =>
      Some (mkOverall totalRequests (sum_of pr_successfulRequests profiles) failedRequests
        (if (0 <? Z.of_nat (length times))%Z then ratio_to_number (foldl Z.add 0%Z times) (Z.of_nat (length times)) else zero)
        (if (0 <? totalRequests)%Z then AnalyticsService.rate failedRequests totalRequests else zero)
        (if number_ltb (Finite 0 0) duration then number_quot (of_Z totalRequests) duration else zero))
  end.

(** ** A run *)

Record StressTestConfigDto : Type := mkConfig {
  sc_testName : string;
  sc_profiles : list VirtualProfile;
  sc_thresholds : option PerformanceThresholds;
  sc_enableAlerts : option bool
}.

Inductive RunStatus : Type := RUN_COMPLETED | RUN_FAILED | RUN_INTERRUPTED.

Record StressTestResult : Type := mkRun {
  ru_testId : string;
  ru_testName : string;
  ru_startTime : Z;
  ru_endTime : Z;
  ru_duration : Z;
  ru_profileResults : list ProfileResult;
  ru_overallMetrics : OverallMetrics;
  ru_alerts : list Alert;
  ru_status : RunStatus
}.

Definition no_metrics : OverallMetrics := mkOverall 0 0 0 zero zero zero.

Section run.
Context (toFixed2 text : number -> string).
(** What the workers of the profile with this index pushed. *)
Context (measured : nat -> list PerformanceMetrics).

Fixpoint run_profiles (config : StressTestConfigDto) (profiles : list VirtualProfile) (i : nat) : Prog (list ProfileResult) :=
  match profiles with
  | [] => Ret []
  | profile :: profiles =>
      let* t := await now in
      let r := executeProfile toFixed2 text profile i (sc_thresholds config)
        (coalesce (sc_enableAlerts config) true) (measured i) t in
      let* rest := run_profiles config profiles (S i) in
      Ret (r :: rest)
  end.

Definition runStressTest (config : StressTestConfigDto) (testId : string) : Prog StressTestResult :=
  let* startTime := await now in
  let* results := run_profiles config (sc_profiles config) 0 in
  let* endTime := await now in
  let '(overall, status) := match calculateOverallMetrics results with
    | Some overall => (overall, RUN_COMPLETED)
    | None => (no_metrics, RUN_FAILED)
    end in
  Ret (mkRun testId (sc_testName config) startTime endTime (endTime - startTime) results overall
    (concat (pr_alerts <$> results)) status).

(** [POST /stress-test]: the run is audited before it starts. *)
Definition startStressTest (auth : HeaderValue) (testId : string) (config : StressTestConfigDto) : Prog StressTestResult :=
  with_admin auth (fun admin =>
    AuditLog.append "STRESS_TEST_STARTED" (au_address admin) "stress_test" testId
      [("testName", Some (sc_testName config));
       ("profileCount", Some (Dates.bigint_toString (Z.of_nat (length (sc_profiles config)))))] ;;;
    runStressTest config testId).
End run.

(** ** The runs in progress *)

(** [activeTests]: a [Map], in the order of insertion.  Its values are the
    objects the runs are filling. *)
Definition Registry : Type := list (string * StressTestResult).

Fixpoint registry_set (testId : string) (r : StressTestResult) (m : Registry) : Registry :=
  match m with
  | [] => [(testId, r)]
  | (id, r') :: m => if bool_decide (id = testId) then (id, r) :: m else (id, r') :: registry_set testId r m
  end.

Fixpoint registry_get (testId : string) (m : Registry) : option StressTestResult :=
  match m with
  | [] => None
  | (id, r) :: m => if bool_decide (id = testId) then Some r else registry_get testId m
  end.

Definition registry_delete (testId : string) (m : Registry) : Registry :=
  List.filter (fun kv => negb (bool_decide (kv.1 = testId))) m.

(** The object a run starts with. *)
Definition new_result (testId testName : string) (startTime : Z) : StressTestResult :=
  mkRun testId testName startTime 0 0 [] no_metrics [] RUN_COMPLETED.

(** [result.profileResults.push(profileResult)]. *)
Definition push_profile (r : ProfileResult) (run : StressTestResult) : StressTestResult :=
  mkRun (ru_testId run) (ru_testName run) (ru_startTime run) (ru_endTime run) (ru_duration run)
    (ru_profileResults run ++ [r]) (ru_overallMetrics run) (ru_alerts run) (ru_status run).

(** What the runs of a process do to it, in the order it happens: a run enters,
    finishes a profile, and leaves. *)
Inductive RunEvent : Type :=
| RunStarted (testId testName : string) (startTime : Z)
| ProfileFinished (testId : string) (r : ProfileResult)
| RunEnded (testId : string).

Definition run_event (m : Registry) (ev : RunEvent) : Registry :=
  match ev with
  | RunStarted testId testName startTime => registry_set testId (new_result testId testName startTime) m
  | ProfileFinished testId r =>
      match registry_get testId m with Some run => registry_set testId (push_profile r run) m | None => m end
  | RunEnded testId => registry_delete testId m
  end.

Definition getAllActiveTests (m : Registry) : list StressTestResult := m.*2.

(** [GET /stress-test/active/:testId]. *)
Definition getActiveTest (testId : string) (m : Registry) : outcome StressTestResult :=
  match registry_get testId m with
  | Some run => Ok run
  | None => Throw (NotFoundException ("Stress test with id " +:+ DQ +:+ testId +:+ DQ +:+ " not found"))
  end.

End StressTest.

(** ** The command-line runner *)

(** [scripts/stress-test-runner.ts], the same generator run from the shell: it
    accepts every status as an answer and guards the quotients by zero.  Its
    profiles are those the service would accept. *)
Module StressTestRunner.
Import StressTest.

(** What a request comes to: a response with a status, or an error without one. *)
Inductive HttpOutcome : Type := Responded (status : Z) | NoResponse (message : option string).

(** [validateStatus: () => true]. *)
Definition axios_runner (o : HttpOutcome) : Reply :=
  match o with Responded status => Answered status | NoResponse message => Failed None message end.

(** The service keeps the default of axios, which rejects what is not a 2xx. *)
Definition axios_service (o : HttpOutcome) : Reply :=
  match o with
  | Responded status =>
      if (200 <=? status)%Z && (status <? 300)%Z then Answered status
      else Failed (Some status) (Some ("Request failed with status code " +:+ Dates.bigint_toString status))
  | NoResponse message => Failed None message
  end.

Definition measure (startTime endTime : Z) (o : HttpOutcome) : PerformanceMetrics :=
  let responseTime := (endTime - startTime)%Z in
  match axios_runner o with
  | Answered status => mkMetric startTime responseTime status ((200 <=? status)%Z && (status <? 300)%Z) None
  | Failed status message =>
      mkMetric startTime responseTime (coalesce status 0%Z) false (Some (or_str message "Unknown error"))
  end.

Definition calculateProfileMetrics (metrics : list PerformanceMetrics) (profileIndex : nat) (duration : positive) : ProfileResult :=
  let successful := List.filter pm_success metrics in
  let failed := List.filter (fun m => negb (pm_success m)) metrics in
  let responseTimes := sort_by Z.leb (pm_responseTime <$> metrics) in
  let count := Z.of_nat (length metrics) in
  let failedRequests := Z.of_nat (length failed) in
  let average := if (0 <? count)%Z then ratio_to_number (foldl Z.add 0%Z responseTimes) count else zero in
  mkResult profileIndex count (Z.of_nat (length successful)) failedRequests average
    (at_index responseTimes 0) (at_index responseTimes (count - 1))
    (at_index responseTimes (share_index 50 count)) (at_index responseTimes (share_index 95 count))
    (at_index responseTimes (share_index 99 count))
    (ratio_to_number count (Zpos duration))
    (if (0 <? count)%Z then AnalyticsService.rate failedRequests count else zero)
    metrics [].

(** The totals of the report, from the results and the seconds the run took. *)
Record Report : Type := mkReport {
  rp_totalRequests : Z; rp_successfulRequests : Z; rp_failedRequests : Z;
  rp_throughput : number; rp_errorRate : number; rp_totalAlerts : nat }.

Definition generateReport (results : list ProfileResult) (totalDuration : number) : Report :=
  let totalRequests := sum_of pr_totalRequests results in
  let failedRequests := sum_of pr_failedRequests results in
  mkReport totalRequests (sum_of pr_successfulRequests results) failedRequests
    (number_quot (of_Z totalRequests) totalDuration)
    (if (totalRequests =? 0)%Z then NaN else AnalyticsService.rate failedRequests totalRequests)
    (length (concat (pr_alerts <$> results))).

End StressTestRunner.
