(* ===== verification/Poller.v ===== *)
(** * Soroban poller

    [src/stellar/soroban-poller.service.ts] and
    [src/stellar/blockchain-listener.service.ts]: one poll cycle fetches
    contract events from the cursor on, decodes them, resolves the contract's
    escrow id and drives [syncStateFromChain]; the cursor moves past the
    events that were applied or dead-lettered. *)
From S2P Require Import Prelude Records Dates Text Tables Effects Cache Prisma EscrowRepo Contract EscrowSvc Workers Dlq Webhook.
Local Open Scope prog_scope.

(** ** BlockchainListenerService *)

Module BlockchainListener.

Record ParsedSorobanEvent : Type := mkParsed {
  ps_name : option string; ps_topics : list native; ps_data : native }.

(** [topics.map(decodeScVal)]: the first failure throws. *)
Fixpoint decode_all (sdk : StellarSdk) (l : list string) : outcome (list native) :=
  match l with
  | [] => Ok []
  | t :: l =>
      match sdk_decode sdk t with
      | Throw e => Throw e
      | Ok v => match decode_all sdk l with Ok vs => Ok (v :: vs) | Throw e => Throw e end
      end
  end.

Definition topic_name (topics : list native) : option string :=
  match topics with
  | NString s :: _ => Some s
  | NInteger n :: _ => Some (bigint_toString n)
  | NFraction text :: _ => Some text
  | _ => None
  end.

(** Never throws: an undecodable event is [None]. *)
Definition parseEvent (sdk : StellarSdk) (raw : SorobanRpcEvent) : option ParsedSorobanEvent :=
  match decode_all sdk (re_topic raw), sdk_decode sdk (re_value raw) with
  | Ok topics, Ok data => Some (mkParsed (topic_name topics) topics data)
  | _, _ => None
  end.

(** The events of a batch that decode. *)
Definition parseEvents (sdk : StellarSdk) (raws : list SorobanRpcEvent) : list ParsedSorobanEvent :=
  omap (parseEvent sdk) raws.

End BlockchainListener.

(** ** SorobanPollerService *)

Module Poller.
Section poller.
Context {C : ContractApi}.

Definition START_LEDGER_MARGIN : Z := 10.
Definition LEDGER_CURSOR_PREFIX : string := "ledger:".
Definition MAX_SYNC_RETRIES : Z := 5.

Definition EVENT_TYPE_OVERRIDES : list (string * string) :=
  [("EscrowReleased", "AutoReleased"); ("EscrowCanceled", "EscrowCancelled");
   ("EscrowCancelled", "EscrowCancelled"); ("EscrowAutoCncl", "EscrowAutoCancelled");
   ("EscrowExpired", "EscrowExpired"); ("RefundApproved", "RefundApproved")].

Definition override (rawEventType : string) : string :=
  match List.find (fun kv => bool_decide (kv.1 = rawEventType)) EVENT_TYPE_OVERRIDES with
  | Some kv => kv.2
  | None => rawEventType
  end.

(** [Number.isSafeInteger]. *)
Definition is_safe_integer (n : Z) : bool := (Z.abs n <? 2 ^ 53)%Z.

Fixpoint all_digits (s : string) : bool :=
  match s with
  | EmptyString => true
  | String c s => char_in 48 57 c && all_digits s
  end.

Definition toContractEscrowId (value : native) : option Z :=
  match value with
  | NBigInt n => if (0 <=? n)%Z then Some n else None
  | NInteger n => if is_safe_integer n && (0 <=? n)%Z then Some n else None
  | NString s => if negb (bool_decide (s = "")) && all_digits s then BigInt_parse s else None
  | _ => None
  end.

Definition parseDisputeResolution (value : native) : option Resolution :=
  let variant := match value with NArray [NString s] => Some s | NString s => Some s | _ => None end in
  if truthy variant then
    let normalized := toUpperCase (coalesce variant "") in
    if bool_decide (normalized = "REFUND") then Some REFUND
    else if bool_decide (normalized = "RELEASE") then Some RELEASE
    else None
  else None.

(** [data?.field]: a missing field, or a payload that is not an object, is
    [undefined]. *)
Definition field (data : native) (name : string) : native :=
  match data with
  | NObject fields =>
      match List.find (fun kv => bool_decide (kv.1 = name)) fields with
      | Some kv => kv.2
      | None => NOther
      end
  | _ => NOther
  end.

Definition string_field (data : native) (name : string) : option string :=
  match field data name with NString s => Some s | _ => None end.

(** A failure to persist the dead letter is logged and swallowed. *)
Definition deadLetter (raw : SorobanRpcEvent) (escrowId : option string) (reason : string) : Prog unit :=
  catch
    (Dlq.enqueue (FailedTransactions.mkCreateInput "soroban_event_sync" escrowId reason
       (Some [("eventId", re_id raw); ("contractId", re_contractId raw); ("type", re_type raw);
              ("ledger", bigint_toString (re_ledger raw)); ("pagingToken", re_pagingToken raw);
              ("topic", join "," (re_topic raw))]) None) ;;;
     Ret tt)
    (fun _ => Ret tt).

(** The event handed to the state machine. *)
Definition chain_event (raw : SorobanRpcEvent) (eventType escrowId : string) (data : native)
    : EscrowService.SorobanChainEvent :=
  EscrowService.mkChainEvent eventType escrowId
    (match string_field data "tracking_id" with
     | Some t => Some t
     | None => string_field data "trackingId"
     end)
    (if bool_decide (eventType = "AutoReleased") then Some (re_id raw) else string_field data "txHash")
    (string_field data "reason")
    (parseDisputeResolution (field data "resolution")).

(** The [catch] around [syncStateFromChain]: count the failure, dead-letter
    the event at the limit, rethrow below it. *)
Definition sync_failed (raw : SorobanRpcEvent) (eventType escrowId : string) (err : exn) : Prog unit :=
  let* attempts := await (fun _ w =>
    let n := (coalesce (w_syncRetry w !! re_id raw) 0 + 1)%Z in
    (Ok n, set_syncRetry (<[re_id raw := n]> (w_syncRetry w)) w)) in
  if (MAX_SYNC_RETRIES <=? attempts)%Z then
    await (local (fun w => set_syncRetry (delete (re_id raw) (w_syncRetry w)) w)) ;;;
    deadLetter raw (Some escrowId) ("syncStateFromChain failed " +:+ bigint_toString attempts +:+
      " times for event " +:+ DQ +:+ eventType +:+ DQ +:+ ": " +:+ exn_message err)
  else Raise err.

Definition is_topic (v : option native) : option string :=
  match v with
  | Some (NString s) => if bool_decide (s = "") then None else Some s
  | _ => None
  end.

(** The reasons of the dead letters end where the code appends a JSON dump of
    the offending value. *)
Definition processEvent (raw : SorobanRpcEvent) : Prog unit :=
  let* sdk := ask env_sdk in
  match BlockchainListener.parseEvent sdk raw with
  | None => deadLetter raw None "event payload could not be parsed"
  | Some parsed =>
      match is_topic (BlockchainListener.ps_topics parsed !! 0),
            is_topic (BlockchainListener.ps_topics parsed !! 1) with
      | Some topic0, Some topic1 =>
          let eventType := override (topic0 +:+ topic1) in
          let data := BlockchainListener.ps_data parsed in
          match toContractEscrowId (field data "escrow_id") with
          | None => deadLetter raw None ("event " +:+ DQ +:+ eventType +:+ DQ +:+
              " payload is missing a usable escrow_id")
          | Some contractEscrowId =>
              let* escrowId := EscrowService.findIdByContractEscrowId contractEscrowId in
              if truthy escrowId then
                let escrowId := coalesce escrowId "" in
                catch
                  (EscrowService.syncStateFromChain (chain_event raw eventType escrowId data) ;;;
                   await (local (fun w => set_syncRetry (delete (re_id raw) (w_syncRetry w)) w)))
                  (sync_failed raw eventType escrowId)
              else deadLetter raw None ("event " +:+ DQ +:+ eventType +:+ DQ +:+
                " references contract escrow " +:+ bigint_toString contractEscrowId +:+
                ", which maps to no backend escrow")
          end
      | _, _ => deadLetter raw None "non-string topics"
      end
  end.

Definition getLatestLedger : Prog Z := await (fun env w => (env_rpc_ledger env (w_tick w), tick w)).

Definition resolveStartLedger : Prog Z :=
  let* configured := ask env_startLedger in
  match configured with
  | Some n => Ret n
  | None =>
      let* latest := getLatestLedger in
      Ret (Z.max 1 (latest - START_LEDGER_MARGIN))
  end.

Definition strip_prefix (s : string) : string :=
  String.substring (String.length LEDGER_CURSOR_PREFIX) (String.length s) s.

Definition fetchEvents (cursor : string) : Prog (list SorobanRpcEvent) :=
  let from := if String.prefix LEDGER_CURSOR_PREFIX cursor
              then StartLedger (BigInt_parse (strip_prefix cursor)) else FromCursor cursor in
  await (fun env w => (env_rpc_events env (w_tick w) from, tick w)).

(** The batch: stop at the first event that throws; the paging token of the
    last event that did not. *)
Fixpoint process_batch (events : list SorobanRpcEvent) (lastToken : option string)
    : Prog (option string) :=
  match events with
  | [] => Ret lastToken
  | raw :: rest =>
      let* r := attempt (processEvent raw) in
      match r with
      | Throw _ => Ret lastToken
      | Ok _ => process_batch rest (Some (re_pagingToken raw))
      end
  end.

(** The stored cursor, or a fresh start ledger, persisted at once. *)
Definition load_cursor : Prog string :=
  let* cursor := Cursor.get Cursor.DEFAULT_KEY in
  if truthy cursor then Ret (coalesce cursor "")
  else
    let* startLedger := resolveStartLedger in
    let cursor := LEDGER_CURSOR_PREFIX +:+ bigint_toString startLedger in
    Cursor.set cursor Cursor.DEFAULT_KEY ;;;
    Ret cursor.

(** A quiet contract: both branches of the code write the same fresh ledger
    cursor. *)
Definition advance_quiet : Prog unit :=
  let* latestLedger := attempt getLatestLedger in
  match latestLedger with
  | Throw _ => Ret tt
  | Ok latestLedger =>
      if (latestLedger =? 0)%Z then Ret tt
      else Cursor.set (LEDGER_CURSOR_PREFIX +:+
             bigint_toString (Z.max 1 (latestLedger - START_LEDGER_MARGIN))) Cursor.DEFAULT_KEY
  end.

Definition pollInternal : Prog unit :=
  finally
    (catch
      (let* cursor := load_cursor in
       let* rawEvents := fetchEvents cursor in
       match rawEvents with
       | [] => advance_quiet
       | _ =>
           let* lastPagingToken := process_batch rawEvents None in
           if truthy lastPagingToken
           then Cursor.set (coalesce lastPagingToken "") Cursor.DEFAULT_KEY
           else Ret tt
       end)
      (fun _ => Ret tt))
    (await (local (set_polling false))).

Definition poll : Prog unit :=
  let* polling := await (fun _ w => (Ok (w_polling w), set_polling true w)) in
  if polling then Ret tt else pollInternal.

End poller.
End Poller.
