(* ===== verification/Periodic.v ===== *)
(** * The periodic jobs of a process

    The timers of [auto-release.worker.ts], [tracking-poll.worker.ts] and
    [soroban-poller.service.ts]: what starts and stops them, and the cycles they
    start, which run side by side with everything else in the process. *)
From S2P Require Import Prelude Records Dates Text Tables Effects Contract Workers Poller.
Local Open Scope prog_scope.

Inductive Job : Type := AutoReleaseJob | TrackingJob | PollJob.

#[export] Instance Job_eq_dec : EqDecision Job.
Proof. solve_decision. Defined.

(** The field each service tests before it starts a cycle. *)
Definition flag (j : Job) (w : World) : bool :=
  match j with AutoReleaseJob => w_autoRunning w | TrackingJob => w_trackRunning w | PollJob => w_polling w end.

(** [onModuleInit]: whether it sets the timer.  A boolean of the validated
    configuration is given by its text. *)
Definition starts_timer (config : string -> option string) (j : Job) : bool :=
  match j with
  | AutoReleaseJob | TrackingJob => negb (bool_decide (config "NODE_ENV"%string = Some "test"%string))
  | PollJob =>
      negb (bool_decide (config "SOROBAN_POLLER_ENABLED"%string = Some "false"%string)) &&
      truthy (config "CONTRACT_ID"%string)
  end.

Section jobs.
Context {C : ContractApi}.

(** What a tick of the timer starts. *)
Definition cycle (j : Job) : Prog unit :=
  match j with
  | AutoReleaseJob => let* _ := AutoRelease.run None in Ret tt
  | TrackingJob => let* _ := TrackingPoll.run in Ret tt
  | PollJob => Poller.poll
  end.

(** A process: its state, the timers that are set, and the cycles started so
    far, settled or not. *)
Record Process : Type := mkProcess { pr_world : World; pr_timer : Job -> bool; pr_cycles : list (Job * Prog unit) }.

Definition set_timer (j : Job) (b : bool) (timer : Job -> bool) : Job -> bool :=
  fun j' => if decide (j' = j) then b else timer j'.

(** The poller starts a cycle at once. *)
Definition first_cycle (j : Job) : list (Job * Prog unit) :=
  match j with PollJob => [(PollJob, cycle PollJob)] | _ => [] end.

Definition onModuleInit (config : string -> option string) (j : Job) (p : Process) : Process :=
  if starts_timer config j
  then mkProcess (pr_world p) (set_timer j true (pr_timer p)) (pr_cycles p ++ first_cycle j)
  else p.

(** [onApplicationShutdown], and [onModuleDestroy] of the poller: cycles under
    way go on. *)
Definition onShutdown (j : Job) (p : Process) : Process :=
  mkProcess (pr_world p) (set_timer j false (pr_timer p)) (pr_cycles p).

Definition tick_timer (j : Job) (p : Process) : Process :=
  mkProcess (pr_world p) (pr_timer p) (pr_cycles p ++ [(j, cycle j)]).

(** What can happen next in a process: a hook, a tick, an atom of a cycle, or
    an atom of something else, which leaves the flags of the jobs alone. *)
Inductive process_step (env : Env) (config : string -> option string) : Process -> Process -> Prop :=
| step_init j p : process_step env config p (onModuleInit config j p)
| step_shutdown j p : process_step env config p (onShutdown j p)
| step_tick j p : pr_timer p j = true -> process_step env config p (tick_timer j p)
| step_cycle p i j X (f : Action X) k r w' :
    pr_cycles p !! i = Some (j, Atom X f k) -> f env (pr_world p) = (r, w') ->
    process_step env config p (mkProcess w' (pr_timer p) (<[i := (j, k r)]> (pr_cycles p)))
| step_other p w' :
    (forall j, flag j w' = flag j (pr_world p)) ->
    process_step env config p (mkProcess w' (pr_timer p) (pr_cycles p)).

(** A process that just started. *)
Definition fresh (p : Process) : Prop :=
  pr_cycles p = [] /\ forall j, pr_timer p j = false /\ flag j (pr_world p) = false.

End jobs.
