(* ===== verification/Backend.v ===== *)
(** * The backend as a whole

    Every entry point that can touch an escrow, as one type of requests, and
    the theorems that hold of any sequence of them: the store invariant, the
    life cycle, and the permanence of identities and of terminal states. *)
From S2P Require Import Prelude Records Dates Text Tables Effects Cache Prisma EscrowRepo Coherence Contract Demo Lifecycle EscrowSvc EscrowSound Disputes Workers WorkersSound Ownership TrackingSound Dlq Webhook Poller.
Local Open Scope prog_scope.

Ltac sound_end := apply sound_when_sound; first [apply sound_raise | apply sound_ret].
Ltac off := solve [apply sound_off_escrow; off_walk].

(** ** Webhook *)

(** The escrows of the list still await payment, or have just been funded. *)
Definition payable (w : World) (l : list EscrowRecord) : Prop :=
  forall e row, e ∈ l -> escrow_of w (e_id e) = Some row -> e_state row = CREATED \/ e_state row = FUNDED.

Lemma wp_fund env w e (l : list EscrowRecord) (Q : outcome unit -> World -> Prop) :
  good_env env -> Inv env w -> payable w (e :: l) ->
  (forall r w', Inv env w' -> evolves w w' -> payable w' l -> Q r w') ->
  wp (Webhook.fund e) env w Q.
Proof.
  intros HE HI Hp HQ. apply wp_bind, wp_write_through; [done|done|solve_update| |].
  - intros ex w' HI' Hdb _ _. apply HQ; [done|apply evolves_same; by rewrite Hdb|].
    intros e' row He'. rewrite Hdb. apply Hp. by right.
  - intros now row w' Hnow Hrow HI' _ row' Hdb. apply wp_await.
    assert (Hdb1 : db_escrows (w_db w') = <[e_id e := row']> (db_escrows (w_db w))) by by rewrite Hdb.
    assert (Hst : e_state row = CREATED \/ e_state row = FUNDED) by (apply (Hp e); [left|done]).
    apply HQ; [by eapply inv_frame| |].
    + eapply evolves_replace; [exact Hrow| |exact Hdb1]. split; [repeat split|]. simpl.
      destruct Hst as [-> | ->]; [by apply rtc_once|done].
    + intros e' r He'. simpl. rewrite Hdb1, lookup_insert_Some.
      intros [[_ <-]|[_ Hr]]; [by right|]. apply (Hp e'); [by right|done].
Qed.

Lemma sound_pay dto l env w :
  good_env env -> Inv env w -> payable w l ->
  wp (forEach l (fun e => if Webhook.payment_matches dto e then Webhook.fund e else Ret tt)) env w
    (fun _ w' => Inv env w' /\ evolves w w').
Proof.
  revert w. induction l as [|e l IH]; intros w HE HI Hp; simpl; [by apply wp_ret|].
  assert (Hp' : payable w l) by (intros e' row He'; apply Hp; by right).
  apply wp_bind. destruct (Webhook.payment_matches dto e); [|by apply wp_ret, IH].
  eapply wp_fund; eauto. intros r w1 HI1 Hev1 Hp1. destruct r; [|done].
  eapply wp_mono; [by apply IH|]. intros r w2 [? ?]. split; [done|by etrans].
Qed.

Lemma elem_escrow_select (P : PrismaEscrow -> bool) le (d : Db) row :
  row ∈ escrow_select P le d -> P row = true /\ exists k, db_escrows d !! k = Some row.
Proof. unfold escrow_select, escrow_rows. rewrite sort_by_perm. apply elem_of_rows. Qed.

Lemma elem_after_cursor c rows row : row ∈ after_cursor c rows -> row ∈ rows.
Proof.
  induction rows as [|r rows IH]; simpl; [done|]. case_match; [by right|]. intros ?. right. auto.
Qed.

Lemma elem_cursor_window c n rows row : row ∈ cursor_window c n rows -> row ∈ rows.
Proof.
  unfold cursor_window. intros H%elem_of_take. destruct H as (i & H & _).
  apply list_elem_of_lookup_2 in H. case_match; [by eapply elem_after_cursor|done].
Qed.

Lemma sound_handlePayment dto : sound (Webhook.handlePayment dto).
Proof.
  unfold Webhook.handlePayment. case_match; [apply sound_raise|].
  intros env w HE HI. apply wp_bind, wp_bind, wp_db_frame; [done|done|done| |].
  { intros e w1 HI1 Hdb _ _. split; [done|]. apply evolves_same. by rewrite Hdb. }
  intros now u w1 _ HI1 _ Hdb. simpl in *. apply wp_ret.
  assert (Hev : evolves w w1) by (apply evolves_same; by rewrite Hdb).
  eapply wp_mono; [apply sound_pay; [done|done|]|].
  - intros e row He Hrow. rewrite list_elem_of_In, filter_In, <- list_elem_of_In in He.
    destruct He as [He Hst]. b2p. apply list_elem_of_fmap in He as (row0 & -> & He).
    apply elem_cursor_window, elem_escrow_select in He as [_ [k Hk]].
    rewrite Hdb in Hrow. pose proof (inv_ids _ _ HI _ _ Hk) as Hid. simpl in *.
    rewrite Hid in Hrow. simplify_eq. by left.
  - intros r w2 [? ?]. split; [done|by etrans].
Qed.

Lemma sound_process_marked dto : sound (Webhook.process_marked dto).
Proof.
  unfold Webhook.process_marked, Webhook.markProcessed, Webhook.unmarkProcessed.
  apply sound_bind; [off|]. intros _. apply sound_catch; [|intros e; off].
  unfold Webhook.processEvent. case_match; [apply sound_handlePayment|apply sound_ret].
Qed.

Lemma sound_handleEvent body sig dto : sound (Webhook.handleEvent body sig dto).
Proof.
  unfold Webhook.handleEvent, Webhook.verifySignature, Webhook.isProcessed.
  apply sound_bind; [off|]. intros _. apply sound_bind; [off|]. intros []; [apply sound_ret|].
  apply sound_bind; [apply sound_process_marked|]. intros. apply sound_ret.
Qed.

Lemma sound_processOperationDto dto : sound (Webhook.processOperationDto dto).
Proof.
  unfold Webhook.processOperationDto, Webhook.isProcessed.
  apply sound_bind; [off|]. intros []; [apply sound_ret|].
  apply sound_bind; [apply sound_process_marked|]. intros. apply sound_ret.
Qed.

Lemma cursor_get_off key : every off_escrow (Cursor.get key).
Proof. unfold Cursor.get. off_walk. Qed.

Lemma cursor_set_off v key : every off_escrow (Cursor.set v key).
Proof. unfold Cursor.set. off_walk. Qed.

Lemma sound_event_replay : sound EventReplay.onModuleInit.
Proof.
  unfold EventReplay.onModuleInit, EventReplay.fetch_operations.
  apply sound_catch; [|intros; apply sound_ret].
  apply sound_bind; [apply sound_off_escrow, cursor_get_off|]. intros c.
  apply sound_bind; [off|]. intros records.
  apply sound_bind; [|intros; case_match; [apply sound_off_escrow, cursor_set_off|apply sound_ret]].
  apply sound_forEach. intros rec. apply sound_bind; [|intros; apply sound_ret].
  apply sound_attempt, sound_processOperationDto.
Qed.

Lemma sound_prune : sound Webhook.pruneProcessedWebhookEvents.
Proof. unfold Webhook.pruneProcessedWebhookEvents, Webhook.pruneOlderThan. off. Qed.

(** ** Dead-letter queue *)

Section contract.
Context {C : ContractApi}.

Lemma replayFn_off r : every off_escrow (DlqController.replayFn r).
Proof.
  unfold DlqController.replayFn, findContractEscrowId, DlqController.requireAutoReleaseSource,
    AutoRelease.requireAutoReleaseSource.
  walk_every ltac:(idtac; first [off_atom
    | eapply every_mono; [apply quiet_off_escrow|apply submitAutoRelease_quiet]]).
Qed.

Lemma dlq_replay_off id : every off_escrow (Dlq.replay id DlqController.replayFn).
Proof.
  unfold Dlq.replay, Dlq.requireRecord, Dlq.get, FailedTransactions.findById,
    FailedTransactions.claimForReplay, FailedTransactions.findById, FailedTransactions.releaseClaim,
    FailedTransactions.incrementAttempts, FailedTransactions.markReplayed.
  walk_every ltac:(idtac; first [apply replayFn_off | off_atom]).
Qed.

Lemma sound_dlq_replay id admin : sound (DlqController.replay id admin).
Proof.
  apply sound_off_escrow. unfold DlqController.replay, Dlq.get, FailedTransactions.findById, AuditLog.append.
  walk_every ltac:(idtac; first [apply dlq_replay_off | off_atom]).
Qed.

Lemma sound_dlq_abandon id admin : sound (DlqController.abandon id admin).
Proof.
  apply sound_off_escrow. unfold DlqController.abandon, Dlq.abandon, Dlq.requireRecord, Dlq.get,
    FailedTransactions.findById, FailedTransactions.markAbandoned, FailedTransactions.findById, AuditLog.append.
  off_walk.
Qed.

(** ** Poller *)

Lemma deadLetter_off raw id reason : every off_escrow (Poller.deadLetter raw id reason).
Proof. unfold Poller.deadLetter, Dlq.enqueue, FailedTransactions.create. off_walk. Qed.

Lemma sound_poller_processEvent raw : sound (Poller.processEvent raw).
Proof.
  assert (Hdl : forall id reason, sound (Poller.deadLetter raw id reason)).
  { intros. apply sound_off_escrow, deadLetter_off. }
  unfold Poller.processEvent, EscrowService.findIdByContractEscrowId, findIdByContractEscrowId.
  apply sound_bind; [off|]. intros sdk.
  repeat (case_match; try apply Hdl). apply sound_bind; [off|]. intros eid. case_match; [|apply Hdl].
  apply sound_catch.
  - apply sound_bind; [apply sound_syncStateFromChain|]. intros. off.
  - intros err. unfold Poller.sync_failed. apply sound_bind; [off|]. intros n.
    case_match; [|apply sound_raise]. apply sound_bind; [off|]. intros. apply Hdl.
Qed.

Lemma sound_process_batch events tok : sound (Poller.process_batch events tok).
Proof.
  revert tok. induction events as [|raw l IH]; intros tok; simpl; [apply sound_ret|].
  apply sound_bind; [apply sound_attempt, sound_poller_processEvent|].
  intros []; [apply IH|apply sound_ret].
Qed.

Lemma load_cursor_off : every off_escrow Poller.load_cursor.
Proof.
  unfold Poller.load_cursor, Poller.resolveStartLedger, Poller.getLatestLedger.
  walk_every ltac:(idtac; first [apply cursor_get_off | apply cursor_set_off | off_atom]).
Qed.

Lemma advance_quiet_off : every off_escrow Poller.advance_quiet.
Proof.
  unfold Poller.advance_quiet, Poller.getLatestLedger.
  walk_every ltac:(idtac; first [apply cursor_set_off | off_atom]).
Qed.

Lemma sound_poll : sound Poller.poll.
Proof.
  unfold Poller.poll. apply sound_bind; [off|]. intros []; [apply sound_ret|].
  unfold Poller.pollInternal, Poller.fetchEvents. apply sound_finally; [|off].
  apply sound_catch; [|intros; apply sound_ret].
  apply sound_bind; [apply sound_off_escrow, load_cursor_off|]. intros c.
  apply sound_bind; [off|]. intros [|raw l]; [apply sound_off_escrow, advance_quiet_off|].
  apply sound_bind; [apply sound_process_batch|]. intros tok.
  case_match; [apply sound_off_escrow, cursor_set_off|apply sound_ret].
Qed.

(** ** Requests *)

(** Every entry point of the backend that reads or writes escrows. *)
Inductive Request : Type :=
| RCreate (dto : CreateEscrowDto) (vendor : string)
| RCreateIdempotent (key : string) (dto : CreateEscrowDto) (vendor : string)
| RGet (id : string)
| RGetTracking (id : string)
| RCancel (id caller : string) (isAdmin : bool)
| RCancelPending (id caller : string) (isAdmin : bool)
| RShip (id vendor trackingId : string) (isAdmin : bool)
| RContact (id : string) (dto : EscrowService.UpdateBuyerContactDto)
| RChainEvent (event : EscrowService.SorobanChainEvent)
| ROpenDispute (id caller : string) (dto : BuyerDispute.OpenDisputeDto)
| RGetDispute (id caller : string)
| RResolve (id : string) (resolution : Resolution)
| RWebhook (body : string) (signature : option string) (dto : Webhook.StellarWebhookDto)
| REventReplay
| RPrune
| RAutoRelease (referenceTime : option Z)
| RShipment (escrow : EscrowRecord)
| RTrackingPoll
| RPoll
| RDlqReplay (id : string) (admin : option string)
| RDlqAbandon (id : string) (admin : option string).

Definition ignore {A} (m : Prog A) : Prog unit := m ;;; Ret tt.

Definition handle (r : Request) : Prog unit :=
  match r with
  | RCreate dto v => ignore (EscrowService.createEscrow dto v)
  | RCreateIdempotent k dto v => ignore (EscrowService.createIdempotent k dto v)
  | RGet id => ignore (EscrowService.findById id)
  | RGetTracking id => ignore (EscrowService.getTracking id)
  | RCancel id c a => ignore (EscrowService.cancelEscrow id c a)
  | RCancelPending id c a => ignore (EscrowService.cancelPendingEscrow id c a)
  | RShip id v t a => ignore (EscrowService.handleShipment id v t a)
  | RContact id dto => ignore (EscrowService.updateBuyerContact id dto)
  | RChainEvent ev => ignore (EscrowService.syncStateFromChain ev)
  | ROpenDispute id c dto => ignore (BuyerDispute.openDispute id c dto)
  | RGetDispute id c => ignore (BuyerDispute.getDispute id c)
  | RResolve id res => ignore (AdminDispute.resolve id res)
  | RWebhook b s dto => ignore (Webhook.handleEvent b s dto)
  | REventReplay => EventReplay.onModuleInit
  | RPrune => ignore Webhook.pruneProcessedWebhookEvents
  | RAutoRelease t => ignore (AutoRelease.run t)
  | RShipment e => TrackingPoll.processShipment e
  | RTrackingPoll => ignore TrackingPoll.run
  | RPoll => Poller.poll
  | RDlqReplay id a => ignore (DlqController.replay id a)
  | RDlqAbandon id a => ignore (DlqController.abandon id a)
  end.

Lemma sound_ignore {A} (m : Prog A) : sound m -> sound (ignore m).
Proof. intros Hm. apply sound_bind; [done|]. intros. apply sound_ret. Qed.

Lemma sound_handle r : sound (handle r).
Proof.
  destruct r; simpl.
  - apply sound_ignore, sound_createEscrow.
  - apply sound_ignore, sound_createIdempotent.
  - apply sound_ignore, sound_service_findById.
  - apply sound_ignore, sound_getTracking.
  - apply sound_ignore, sound_cancelEscrow.
  - apply sound_ignore, sound_cancelPendingEscrow.
  - apply sound_ignore, sound_handleShipment.
  - apply sound_ignore, sound_updateBuyerContact.
  - apply sound_ignore, sound_syncStateFromChain.
  - apply sound_ignore, sound_openDispute.
  - apply sound_ignore, sound_getDispute.
  - apply sound_ignore, sound_resolve.
  - apply sound_ignore, sound_handleEvent.
  - apply sound_event_replay.
  - apply sound_ignore, sound_prune.
  - apply sound_ignore, sound_auto_release_run.
  - apply sound_processShipment.
  - apply sound_ignore, sound_tracking_run.
  - apply sound_poll.
  - apply sound_ignore, sound_dlq_replay.
  - apply sound_ignore, sound_dlq_abandon.
Qed.

(** Requests handled one after the other, each to its end, failed or not. *)
Fixpoint serve (env : Env) (rs : list Request) (w : World) : World :=
  match rs with
  | [] => w
  | r :: rs => serve env rs (run (handle r) env w).2
  end.

Lemma serve_sound env rs w :
  good_env env -> Inv env w -> Inv env (serve env rs w) /\ evolves w (serve env rs w).
Proof.
  revert w. induction rs as [|r rs IH]; intros w HE HI; simpl; [done|].
  destruct (sound_handle r env w HE HI) as [HI1 Hev1].
  destruct (IH _ HE HI1) as [HI2 Hev2]. split; [done|by etrans].
Qed.

(** ** Theorems *)

(** C1. Whatever sequence of requests the backend
    serves, whatever contract service it is wired to and whichever database
    calls fail on the way, the store invariant still holds (rows filed under
    their id, cache in agreement with the database) and every escrow has
    evolved along the life cycle with its identity intact.  A tracking cycle
    counts as one request: its five parallel loops may interleave in any
    order. *)
Theorem backend_follows_lifecycle env rs w :
  good_env env -> Inv env w -> Inv env (serve env rs w) /\ evolves w (serve env rs w).
Proof. apply serve_sound. Qed.

(** C2. An escrow that is COMPLETED, RELEASED,
    REFUNDED or CANCELLED is still there, in that same state and with the same
    parties and amount, after any sequence of requests. *)
Theorem terminal_states_are_final env rs w id row :
  good_env env -> Inv env w -> escrow_of w id = Some row -> TERMINAL_STATES (e_state row) = true ->
  exists row', escrow_of (serve env rs w) id = Some row' /\
    e_state row' = e_state row /\ same_identity row row'.
Proof.
  intros HE HI Hrow Ht. destruct (serve_sound env rs w HE HI) as [_ Hev].
  destruct (ev_old _ _ Hev _ _ Hrow) as (row' & Hrow' & Hid & Hst).
  exists row'. split_and!; [done| |done]. by apply terminal_absorbing.
Qed.

(** If no vendor has two escrows with the same
    item reference to begin with, none ever has, and every escrow created on
    the way has a buyer other than its vendor. *)
Theorem item_references_stay_unique env rs w :
  good_env env -> Inv env w -> items_unique w ->
  items_unique (serve env rs w) /\
  forall id row, escrow_of (serve env rs w) id = Some row -> escrow_of w id = None ->
    e_buyerAddress row <> e_vendorAddress row.
Proof.
  intros HE HI Hu. destruct (serve_sound env rs w HE HI) as [_ Hev].
  split; [by apply (ev_items _ _ Hev)|]. intros id row Hrow Hnone.
  destruct (ev_new _ _ Hev _ _ Hrow Hnone) as (row0 & (_ & _ & _ & Hne) & Hid & _).
  unfold same_identity in Hid. intuition congruence.
Qed.

(** C32. After any sequence of requests, a read of an escrow
    through the cache returns exactly the record of the database row, or
    nothing when there is no row; it can only fail by a database fault. *)
Theorem cached_reads_agree env rs w id :
  good_env env -> Inv env w ->
  found env (serve env rs w) id (run (findById id) env (serve env rs w)).1.
Proof.
  intros HE HI. destruct (serve_sound env rs w HE HI) as [HI' _].
  apply (wp_findById env (serve env rs w) id
    (fun r _ => found env (serve env rs w) id r)); try done.
Qed.

(** No entry point ever writes
    [contractEscrowId]: a backend that starts without a mapped escrow never
    gets one, although every on-chain call and every inbound chain event needs
    the mapping. *)
Theorem contract_ids_never_assigned env rs w :
  good_env env -> Inv env w ->
  (forall id row, escrow_of w id = Some row -> e_contractEscrowId row = None) ->
  forall id row, escrow_of (serve env rs w) id = Some row -> e_contractEscrowId row = None.
Proof.
  intros HE HI Hnone id row Hrow. destruct (serve_sound env rs w HE HI) as [_ Hev].
  destruct (escrow_of w id) as [row0|] eqn:H0.
  - destruct (ev_old _ _ Hev _ _ H0) as (row' & Hrow' & (_ & Hc & _) & _). simplify_eq.
    rewrite <- Hc. by eapply Hnone.
  - destruct (ev_new _ _ Hev _ _ Hrow H0) as (row0 & (_ & Hc & _) & (_ & Hs & _) & _).
    by rewrite <- Hs.
Qed.

End contract.

(** ** Instances *)

Definition demo_requests : list Request :=
  [RShip "e1" "GVENDOR" "TRACK-1" false; RTrackingPoll;
   RChainEvent (EscrowService.mkChainEvent "EscrowCompleted" "e1" None None None None);
   RCancel "e1" "GBUYER" false].

Abbreviation demo_two := [demo_row "e1" FUNDED; demo_row "e2" CANCELLED].

Lemma demo_two_inv : Inv demo_env (demo_world demo_two).
Proof. apply demo_inv. repeat constructor; apply demo_row_dates. Qed.

Lemma backend_follows_lifecycle_witness :
  good_env demo_env /\ Inv demo_env (demo_world demo_two) /\
  evolves (demo_world demo_two) (serve demo_env demo_requests (demo_world demo_two)).
Proof.
  split_and!; [apply demo_good|apply demo_two_inv|].
  apply (backend_follows_lifecycle demo_env demo_requests); [apply demo_good|apply demo_two_inv].
Defined.

Lemma terminal_states_are_final_witness :
  exists row', escrow_of (serve demo_env demo_requests (demo_world demo_two)) "e2" = Some row' /\
    e_state row' = CANCELLED /\ same_identity (demo_row "e2" CANCELLED) row'.
Proof.
  apply (terminal_states_are_final demo_env demo_requests _ "e2" (demo_row "e2" CANCELLED));
    [apply demo_good|apply demo_two_inv|reflexivity|reflexivity].
Defined.

Lemma demo_two_unique : items_unique (demo_world demo_two).
Proof.
  intros id1 id2 r1 r2. simpl. rewrite !lookup_insert_Some, !lookup_empty.
  intros [[<- <-]|[? [[<- <-]|[? [=]]]]] [[<- <-]|[? [[<- <-]|[? [=]]]]]; done.
Qed.

Lemma item_references_stay_unique_witness :
  items_unique (serve demo_env demo_requests (demo_world demo_two)).
Proof.
  apply (item_references_stay_unique demo_env demo_requests);
    [apply demo_good|apply demo_two_inv|apply demo_two_unique].
Defined.

Lemma cached_reads_agree_witness :
  found demo_env (serve demo_env demo_requests (demo_world demo_two)) "e1"
    (run (findById "e1") demo_env (serve demo_env demo_requests (demo_world demo_two))).1.
Proof.
  apply (cached_reads_agree demo_env demo_requests); [apply demo_good|apply demo_two_inv].
Defined.

Definition demo_dto : CreateEscrowDto := mkCreateEscrowDto "Camera" "SKU-9" (Finite 1 0) "USDC" "GBUYER".

Lemma contract_ids_never_assigned_witness :
  exists row, escrow_of (serve demo_env [RCreate demo_dto "GVENDOR"; RPoll] (demo_world [])) "C" = Some row /\
    e_contractEscrowId row = None.
Proof.
  destruct (escrow_of (serve demo_env [RCreate demo_dto "GVENDOR"; RPoll] (demo_world [])) "C") as [row|] eqn:H;
    [|vm_compute in H; discriminate].
  exists row. split; [done|].
  apply (contract_ids_never_assigned demo_env [RCreate demo_dto "GVENDOR"; RPoll] (demo_world [])) with "C";
    [apply demo_good|apply demo_inv; constructor| |exact H]. intros id r. cbn. by rewrite lookup_empty.
Defined.
