(* ===== verification/Concurrency.v ===== *)
(** * Interleavings

    The event loop may switch between programs at every [await].  The
    conditional update that claims an auto-release has at most one winner
    under every interleaving; the read-then-write claim of a delivery does
    not; a delivery mark can overwrite a terminal state written meanwhile; and
    the audit trail only ever grows. *)
From S2P Require Import Prelude Records Dates Text Tables Effects Cache Prisma EscrowRepo Coherence Demo Contract Lifecycle EscrowSvc EscrowSound SyncSpec Disputes Workers WorkersSound Dlq Webhook Poller Backend.
Local Open Scope prog_scope.

(** ** One step of one program *)

Definition advance {A} (m : Prog A) (env : Env) (w : World) : option (Prog A * World) :=
  match m with
  | Atom X f k => let '(r, w') := f env w in Some (k r, w')
  | _ => None
  end.

Lemma advance_bind_await {X A} (f : Action X) (k : X -> Prog A) env w :
  advance (bind (await f) k) env w = Some (bind (settle (f env w).1) k, (f env w).2).
Proof. unfold await, advance, bind. by destruct (f env w). Qed.

Lemma every_advance {A} R (m : Prog A) env w m' w' :
  every R m -> advance m env w = Some (m', w') -> R w w' /\ every R m'.
Proof.
  destruct m as [a|e|X f k]; [done|done|]. intros [Hf Hk]. specialize (Hf env w). simpl.
  destruct (f env w) as [r w1]. intros [= <- <-]. by split.
Qed.

Lemma pool_step_advance {A} env w (ps : list (Prog A)) w' ps' :
  pool_step env (w, ps) (w', ps') <->
  exists i p p', ps !! i = Some p /\ advance p env w = Some (p', w') /\ ps' = <[i := p']> ps.
Proof.
  split.
  - intros Hstep. inversion Hstep as [w0 ps0 i X f k r w1 Hi Hf]; subst.
    exists i, (Atom X f k), (k r). simpl. by rewrite Hf.
  - intros (i & [a|e|X f k] & p' & Hi & Hadv & ->); [done|done|]. simpl in Hadv.
    destruct (f env w) as [r w1] eqn:Hf. injection Hadv as <- <-. by econstructor.
Qed.

(** ** Executing a schedule *)

Definition step_pool {A} (env : Env) (i : nat) (c : World * list (Prog A)) : option (World * list (Prog A)) :=
  match c.2 !! i with
  | Some p => match advance p env c.1 with Some (p', w') => Some (w', <[i := p']> c.2) | None => None end
  | None => None
  end.

Fixpoint run_pool {A} (env : Env) (sched : list nat) (c : World * list (Prog A))
    : option (World * list (Prog A)) :=
  match sched with
  | [] => Some c
  | i :: sched => match step_pool env i c with Some c' => run_pool env sched c' | None => None end
  end.

Lemma run_pool_rtc {A} env sched (c c' : World * list (Prog A)) :
  run_pool env sched c = Some c' -> rtc (pool_step env) c c'.
Proof.
  revert c. induction sched as [|i sched IH]; intros [w ps] H; simpl in H; [by simplify_eq|].
  unfold step_pool in H; simpl in H. destruct (ps !! i) as [p|] eqn:Hi; [|done].
  destruct (advance p env w) as [[p' w']|] eqn:Hadv; [|done].
  eapply rtc_l; [|by apply IH]. apply pool_step_advance. by exists i, p, p'.
Qed.

(** A schedule that runs, by computation. *)
Lemma run_pool_defined {A} (o : option (World * list (Prog A))) :
  (if o is Some _ then true else false) = true -> exists c, o = Some c.
Proof. destruct o as [c|]; [by exists c|done]. Qed.

(** What a pool of two claimants has answered, once both have settled. *)
Definition settled2 {A} (o : option (World * list (Prog A))) : option (World * A * A) :=
  match o with Some (w, [Ret a; Ret b]) => Some (w, a, b) | _ => None end.

Lemma settled2_inv {A} (o : option (World * list (Prog A))) w a b :
  settled2 o = Some (w, a, b) -> o = Some (w, [Ret a; Ret b]).
Proof. unfold settled2. intros H. repeat case_match; simplify_eq. done. Qed.

(** ** The auto-release claim *)

Definition keeps_db (w w' : World) : Prop := w_db w' = w_db w.

Lemma after_claim_keeps id :
  every keeps_db (let* result := findById id in invalidate id ;;; Ret result).
Proof.
  unfold findById, findById_miss, cache_get, cache_set, invalidate, cache_del.
  walk_every ltac:(idtac; first
    [ apply every_await; intros env w; unfold keeps_db, cache_get_action, cache_set_action,
        cache_del_action; by repeat case_match
    | apply every_await; intros env w; unfold keeps_db, escrow_findUnique, db_call; by case_match ]).
Qed.

(** Where a claimant of the pool stands: not started, refused, or the one
    that set the column. *)
Definition claimant (id : string) (winner : option nat) (i : nat) (p : Prog (option EscrowRecord)) : Prop :=
  p = markAutoReleaseSubmitting id \/ p = Ret None \/ (exists e, p = Raise e) \/
  (winner = Some i /\ every keeps_db p).

(** The column is set. *)
Definition claimed (w : World) (id : string) : Prop :=
  exists row, escrow_of w id = Some row /\ e_autoReleaseSubmittedAt row <> None.

Record pool_inv (id : string) (w : World) (ps : list (Prog (option EscrowRecord))) (winner : option nat) : Prop := {
  pi_all : forall i p, ps !! i = Some p -> claimant id winner i p;
  pi_set : is_Some winner -> claimed w id
}.

Lemma pool_inv_insert id w ps winner winner' w' i p :
  pool_inv id w ps winner ->
  (forall j, winner = Some j -> winner' = Some j) -> (is_Some winner' -> claimed w' id) ->
  claimant id winner' i p -> pool_inv id w' (<[i := p]> ps) winner'.
Proof.
  intros [Hall _] Hw Hset Hp. split; [|done]. intros j q Hj.
  apply list_lookup_insert_Some in Hj as [(<- & <- & _)|[_ Hj]]; [done|].
  destruct (Hall _ _ Hj) as [?|[?|[?|[Hwin ?]]]]; unfold claimant; auto 6.
Qed.

(** The claim's conditional update, on each outcome of the database call. *)
Lemma advance_claim id env w p' w' :
  advance (markAutoReleaseSubmitting id) env w = Some (p', w') ->
  (w_db w' = w_db w /\ (p' = Ret None \/ exists e, p' = Raise e)) \/
  (~ claimed w id /\ claimed w' id /\ every keeps_db p').
Proof.
  unfold markAutoReleaseSubmitting. rewrite advance_bind_await. intros [= <- <-].
  unfold escrow_updateMany.
  match goal with |- context [db_call ?f env w] => destruct (db_call_cases f env w) as [(e & _ & ->)| ->] end.
  { left. split; [done|]. right. by exists e. }
  destruct (escrow_of w id) as [row|] eqn:Hrow; [|by left; auto].
  destruct (bool_decide (e_autoReleaseSubmittedAt row = None)) eqn:Hn; [right|by left; auto]. b2p.
  split_and!.
  - intros (row' & Hrow' & H). pose proof (eq_trans (eq_sym Hrow) Hrow') as [= <-]. done.
  - eexists. split; [apply lookup_insert_eq|done].
  - apply after_claim_keeps.
Qed.

Lemma pool_inv_step id env w ps winner w' ps' :
  pool_inv id w ps winner -> pool_step env (w, ps) (w', ps') ->
  exists winner', pool_inv id w' ps' winner'.
Proof.
  intros Hinv Hstep. pose proof (pi_set _ _ _ _ Hinv) as Hset.
  apply pool_step_advance in Hstep as (i & p & p' & Hi & Hadv & ->).
  assert (Hkeep : w_db w' = w_db w -> is_Some winner -> claimed w' id).
  { unfold claimed, escrow_of. intros ->. exact Hset. }
  destruct (pi_all _ _ _ _ Hinv _ _ Hi) as [->|[->|[[e ->]|[Hwin Hev]]]]; [|done|done|].
  - destruct (advance_claim _ _ _ _ _ Hadv) as [[Hdb Hp']|(Hno & Hyes & Hev)].
    + exists winner. apply (pool_inv_insert id w ps winner winner); auto.
      destruct Hp' as [->|[e ->]]; [by right; left|by right; right; left; exists e].
    + exists (Some i). apply (pool_inv_insert id w ps winner (Some i)); auto.
      * intros j ->. destruct Hno. apply Hset. by exists j.
      * by right; right; right.
  - exists winner. destruct (every_advance _ _ _ _ _ _ Hev Hadv) as [Hdb Hev'].
    apply (pool_inv_insert id w ps winner winner); auto. by right; right; right.
Qed.

Lemma pool_inv_star id env c c' winner :
  rtc (pool_step env) c c' -> pool_inv id c.1 c.2 winner -> exists winner', pool_inv id c'.1 c'.2 winner'.
Proof.
  intros Hstar. revert winner. induction Hstar as [c|[w1 ps1] [w2 ps2] c3 Hstep _ IH]; intros winner Hinv.
  - by exists winner.
  - destruct (pool_inv_step _ _ _ _ _ _ _ Hinv Hstep) as [winner' Hinv']. by eapply IH.
Qed.

(** C4. However many workers race to claim one
    escrow for auto-release, in whatever order their database and cache calls
    interleave and whichever of them fail, at most one is told it holds the
    claim. *)
Theorem auto_release_single_claim env w id n w' ps i j r r' :
  rtc (pool_step env) (w, replicate n (markAutoReleaseSubmitting id)) (w', ps) ->
  ps !! i = Some (Ret (Some r)) -> ps !! j = Some (Ret (Some r')) -> i = j.
Proof.
  intros Hstar Hi Hj. destruct (pool_inv_star id env _ _ None Hstar) as [winner [Hall _]].
  { split; simpl; [|by intros [? ?]]. intros k p [-> _]%lookup_replicate. by left. }
  destruct (Hall _ _ Hi) as [?|[?|[[? ?]|[Hwi _]]]]; try done.
  destruct (Hall _ _ Hj) as [?|[?|[[? ?]|[Hwj _]]]]; try done. congruence.
Qed.


(** Two workers race for one escrow: the first wins, the second is refused. *)
Lemma auto_release_single_claim_witness :
  exists w' ps r, rtc (pool_step demo_env)
      (demo_world [demo_row "E" SHIPPED], replicate 2 (markAutoReleaseSubmitting "E")) (w', ps) /\
    ps !! 1%nat = Some (Ret (Some r)) /\
    forall i r', ps !! i = Some (Ret (Some r')) -> i = 1%nat.
Proof.
  destruct (settled2 (run_pool demo_env [1; 0; 1; 1; 1; 1]%nat
    (demo_world [demo_row "E" SHIPPED], replicate 2 (markAutoReleaseSubmitting "E"))))
    as [[[w' []] [r|]]|] eqn:H; try (apply (f_equal (option_map (fun x => (x.1.2, bool_decide (x.2 = None))))) in H; vm_compute in H; discriminate).
  exists w', [Ret None; Ret (Some r)], r.
  assert (Hstar := run_pool_rtc _ _ _ _ (settled2_inv _ _ _ _ H)).
  split_and!; [exact Hstar|done|]. intros i r' Hi.
  by apply (auto_release_single_claim demo_env _ "E" 2 _ _ i 1 r' r Hstar).
Defined.

(** ** The delivery claim *)

(** [claimDelivery] reads the row and then
    updates it, in two awaits: two workers that both read before either writes
    are both told that they hold the claim, so both go on to record the
    delivery on chain. *)
Theorem delivery_claim_has_two_winners :
  exists w' r1 r2, rtc (pool_step demo_env)
    (demo_world [demo_row "E" SHIPPED], replicate 2 (claimDelivery "E"))
    (w', [Ret (Some r1); Ret (Some r2)]).
Proof.
  destruct (settled2 (run_pool demo_env [0; 1; 0; 1; 0; 1]%nat
    (demo_world [demo_row "E" SHIPPED], replicate 2 (claimDelivery "E"))))
    as [[[w' [r1|]] [r2|]]|] eqn:H;
    try (apply (f_equal (option_map (fun x => (bool_decide (x.1.2 = None), bool_decide (x.2 = None))))) in H;
         vm_compute in H; discriminate).
  exists w', r1, r2. by eapply run_pool_rtc, settled2_inv.
Qed.

(** ** A delivery mark against a completion *)

Definition tracked_row : PrismaEscrow := set_trackingId (Some "TRK1") (demo_row "E" SHIPPED).

Definition delivery_and_completion : list (Prog unit) :=
  handle <$> [RShipment (toEscrowRecord tracked_row);
              RChainEvent (EscrowService.mkChainEvent "EscrowCompleted" "E" None None None None)].

(** [markDelivered] updates the row without
    a condition on its state.  While a worker is waiting for the contract call
    that records a delivery, the event stream may complete the escrow; the
    worker then overwrites COMPLETED by DELIVERED.  Finality of terminal
    states holds for requests served one at a time, not for interleaved
    ones. *)
Theorem delivery_overwrites_completion :
  exists w1 ps1 w2 ps2,
    rtc (pool_step demo_env) (demo_world [tracked_row], delivery_and_completion) (w1, ps1) /\
    state_of w1 "E" = Some COMPLETED /\
    rtc (pool_step demo_env) (w1, ps1) (w2, ps2) /\ state_of w2 "E" = Some DELIVERED.
Proof.
  pose (c1 := run_pool demo_env (replicate 18 0 ++ replicate 6 1)%nat
                (demo_world [tracked_row], delivery_and_completion)).
  pose (c2 := match c1 with Some c => run_pool demo_env (replicate 5 0%nat) c | None => None end).
  assert (H1 : (fun c => state_of c.1 "E") <$> c1 = Some (Some COMPLETED)) by (vm_compute; reflexivity).
  assert (H2 : (fun c => state_of c.1 "E") <$> c2 = Some (Some DELIVERED)) by (vm_compute; reflexivity).
  destruct c1 as [[w1 ps1]|] eqn:E1; [|done]. destruct c2 as [[w2 ps2]|] eqn:E2; [|done].
  exists w1, ps1, w2, ps2. simpl in H1, H2. injection H1 as H1. injection H2 as H2.
  split_and!; [by eapply run_pool_rtc|done|by eapply run_pool_rtc|done].
Qed.
