(* ===== verification/Retention.v ===== *)
(** * Record keeping under every interleaving

    No atom of any request drops an escrow, a dispute or a dead-letter record,
    changes what identifies one, or rewrites the audit trail.  The relation is
    kept atom by atom, so it holds however the event loop interleaves the
    requests and wherever they fail. *)
From S2P Require Import Prelude Records Dates Text Tables Effects Logistics Cache Prisma EscrowRepo Coherence Demo Contract Lifecycle EscrowSvc EscrowSound Disputes Workers WorkersSound Dlq Webhook Poller Backend Concurrency.
Local Open Scope prog_scope.

(** ** The relation *)

(** Every record of [m] is still there, with what [same] protects. *)
Definition kept {V} (same : V -> V -> Prop) (m m' : gmap string V) : Prop :=
  forall k v, m !! k = Some v -> exists v', m' !! k = Some v' /\ same v v'.

Definition same_dispute (d d' : DisputeRecord) : Prop :=
  d_id d' = d_id d /\ d_escrowId d' = d_escrowId d /\ d_reason d' = d_reason d /\
  d_description d' = d_description d /\ d_evidenceUrls d' = d_evidenceUrls d /\ d_createdAt d' = d_createdAt d.

Definition same_failure (f f' : FailedTransactionRecord) : Prop :=
  f_id f' = f_id f /\ f_operation f' = f_operation f /\ f_escrowId f' = f_escrowId f /\
  f_ledgerFeedback f' = f_ledgerFeedback f /\ f_createdAt f' = f_createdAt f.

Record retains_db (d d' : Db) : Prop := {
  rt_escrows : kept same_identity (db_escrows d) (db_escrows d');
  rt_disputes : kept same_dispute (db_disputes d) (db_disputes d');
  rt_failed : kept same_failure (db_failed d) (db_failed d');
  rt_enqueued : forall id f, db_failed d' !! id = Some f -> db_failed d !! id = None ->
    f_operation f = "soroban_event_sync";
  rt_audit : db_audit d `prefix_of` db_audit d';
  rt_events : db_events d' = db_events d
}.

Definition retains (w w' : World) : Prop := retains_db (w_db w) (w_db w').

#[export] Instance same_dispute_preorder : PreOrder same_dispute.
Proof. unfold same_dispute. split; [done|]. intros x y z. intuition congruence. Qed.

#[export] Instance same_failure_preorder : PreOrder same_failure.
Proof. unfold same_failure. split; [done|]. intros x y z. intuition congruence. Qed.

#[export] Instance same_identity_preorder {N B D} : PreOrder (@same_identity N B D).
Proof. split; [intros x; apply same_identity_refl|intros x y z; apply same_identity_trans]. Qed.

#[export] Instance kept_preorder {V} (same : V -> V -> Prop) `{!PreOrder same} : PreOrder (kept same).
Proof.
  split; [by intros m k v Hv; exists v|]. intros m1 m2 m3 H12 H23 k v (v2 & H2 & E2)%H12.
  destruct (H23 _ _ H2) as (v3 & H3 & E3). exists v3. split; [done|by etrans].
Qed.

#[export] Instance retains_db_preorder : PreOrder retains_db.
Proof.
  split; [intros d; split; try done; congruence|].
  intros d1 d2 d3 [E1 D1 F1 Q1 A1 V1] [E2 D2 F2 Q2 A2 V2].
  split; [by etrans|by etrans|by etrans| |by etrans|congruence].
  intros id f3 H3 Hnone. destruct (db_failed d2 !! id) as [f2|] eqn:H2; [|by eapply Q2].
  destruct (F2 _ _ H2) as (f3' & H3' & _ & Hop & _). rewrite H3 in H3'. injection H3' as <-.
  rewrite Hop. by eapply Q1.
Qed.

#[export] Instance retains_preorder : PreOrder retains.
Proof. unfold retains. split; [by intros w|by intros w1 w2 w3 H ?; etrans]. Qed.

(** ** Tables *)

Lemma kept_insert {V} (same : V -> V -> Prop) `{!PreOrder same} m k v :
  (forall v0, m !! k = Some v0 -> same v0 v) -> kept same m (<[k := v]> m).
Proof.
  intros Hs j u Hu. destruct (decide (j = k)) as [->|Hne].
  - exists v. rewrite lookup_insert_eq. auto.
  - exists u. by rewrite lookup_insert_ne.
Qed.

Lemma retains_set_escrows d k row :
  (forall row0, db_escrows d !! k = Some row0 -> same_identity row0 row) ->
  retains_db d (set_escrows (<[k := row]> (db_escrows d)) d).
Proof. intros H. split; simpl; try done; [by apply kept_insert; [apply _|]|congruence]. Qed.

Lemma retains_set_disputes d k row :
  (forall row0, db_disputes d !! k = Some row0 -> same_dispute row0 row) ->
  retains_db d (set_disputes (<[k := row]> (db_disputes d)) d).
Proof. intros H. split; simpl; try done; [by apply kept_insert; [apply _|]|congruence]. Qed.

Lemma retains_set_failed d k row :
  (forall row0, db_failed d !! k = Some row0 -> same_failure row0 row) ->
  (db_failed d !! k = None -> f_operation row = "soroban_event_sync") ->
  retains_db d (set_failed (<[k := row]> (db_failed d)) d).
Proof.
  intros H Hop. split; simpl; try done; [by apply kept_insert; [apply _|]|].
  intros id f. rewrite lookup_insert_Some. intros [[<- <-]|[_ Hf]] Hnone; [auto|congruence].
Qed.

Lemma retains_set_audit d row : retains_db d (set_audit (db_audit d ++ [row]) d).
Proof. split; simpl; try done; [congruence|by exists [row]]. Qed.

(** ** Atoms *)

Lemma retains_same w w' : w_db w' = w_db w -> retains w w'.
Proof. unfold retains. by intros ->. Qed.

Lemma retains_db_call {X} (f : Z -> string -> Db -> outcome X * Db) :
  (forall now u d, retains_db d (f now u d).2) -> every retains (await (db_call f)).
Proof.
  intros Hf. apply every_await. intros env w. destruct (db_call_cases f env w) as [(e & _ & ->)| ->].
  - by apply retains_same.
  - apply Hf.
Qed.

Lemma retains_escrow_update id f :
  (forall now row, same_identity row (f now row)) -> every retains (await (escrow_update id f)).
Proof.
  intros Hf. apply retains_db_call. intros now u d. destruct (db_escrows d !! id) as [row|] eqn:Hrow; [|done].
  apply retains_set_escrows. intros row0 Hrow0. rewrite Hrow in Hrow0. injection Hrow0 as <-.
  etrans; [apply (Hf now)|]. by repeat split.
Qed.

Lemma retains_escrow_updateMany id P f :
  (forall now row, same_identity row (f now row)) -> every retains (await (escrow_updateMany id P f)).
Proof.
  intros Hf. apply retains_db_call. intros now u d. destruct (db_escrows d !! id) as [row|] eqn:Hrow; [|done].
  destruct (P row); [|done]. apply retains_set_escrows. intros row0 Hrow0. rewrite Hrow in Hrow0.
  injection Hrow0 as <-. etrans; [apply (Hf now)|]. by repeat split.
Qed.

Lemma retains_escrow_create mk : every retains (await (escrow_create mk)).
Proof.
  apply retains_db_call. intros now u d. cbv zeta. case_match; [done|]. case_match eqn:Hid; [done|].
  case_match; [done|]. case_match; [|done]. b2p. apply retains_set_escrows. intros row0 Hrow0.
  destruct Hid. by eexists.
Qed.

Lemma retains_dispute_create mk : every retains (await (dispute_create mk)).
Proof.
  apply retains_db_call. intros now u d. cbv zeta. case_match eqn:Hid; [done|].
  case_match; [done|]. case_match; [|done]. b2p. apply retains_set_disputes. intros row0 Hrow0.
  destruct Hid. by eexists.
Qed.

Lemma retains_dispute_update id f :
  (forall now row, same_dispute row (f now row)) -> every retains (await (dispute_update id f)).
Proof.
  intros Hf. apply retains_db_call. intros now u d. destruct (db_disputes d !! id) as [row|] eqn:Hrow; [|done].
  apply retains_set_disputes. intros row0 Hrow0. rewrite Hrow in Hrow0. injection Hrow0 as <-. apply Hf.
Qed.

Lemma retains_failed_create mk :
  (forall now u, f_operation (mk now u) = "soroban_event_sync") -> every retains (await (failed_create mk)).
Proof.
  intros Hmk. apply retains_db_call. intros now u d. cbv zeta. case_match eqn:Hid; [done|]. b2p.
  apply retains_set_failed; [|by intros _]. intros row0 Hrow0. destruct Hid. by eexists.
Qed.

Lemma retains_failed_update id f :
  (forall now row, same_failure row (f now row)) -> every retains (await (failed_update id f)).
Proof.
  intros Hf. apply retains_db_call. intros now u d. destruct (db_failed d !! id) as [row|] eqn:Hrow; [|done].
  apply retains_set_failed; [|congruence]. intros row0 Hrow0. rewrite Hrow in Hrow0. injection Hrow0 as <-. apply Hf.
Qed.

Lemma retains_failed_updateMany id P f :
  (forall now row, same_failure row (f now row)) -> every retains (await (failed_updateMany id P f)).
Proof.
  intros Hf. apply retains_db_call. intros now u d. destruct (db_failed d !! id) as [row|] eqn:Hrow; [|done].
  destruct (P row); [|done]. apply retains_set_failed; [|congruence]. intros row0 Hrow0. rewrite Hrow in Hrow0.
  injection Hrow0 as <-. apply Hf.
Qed.

Lemma retains_audit_create mk : every retains (await (audit_create mk)).
Proof. apply retains_db_call. intros now u d. apply retains_set_audit. Qed.

Lemma retains_quiet {A} (m : Prog A) : every quiet_step m -> every retains m.
Proof. apply every_mono. intros w w' Hq. apply retains_same, Hq. Qed.

Create HintDb retention.
#[export] Hint Resolve retains_escrow_create retains_dispute_create retains_audit_create : retention.

(** The side condition of an update: the data object sets no protected column. *)
Ltac retains_data := intros; repeat (first [case_match | split]); done.

Ltac retains_atom :=
  first
    [ solve [eauto 1 with retention]
    | apply retains_escrow_update; solve [retains_data]
    | apply retains_escrow_updateMany; solve [retains_data]
    | apply retains_dispute_update; solve [retains_data]
    | apply retains_failed_create; solve [done]
    | apply retains_failed_update; solve [retains_data]
    | apply retains_failed_updateMany; solve [retains_data]
    | apply retains_db_call; intros; simpl; repeat case_match; split; simpl; congruence || done
    | apply every_await; intros; apply retains_same; done ].

Ltac retains_walk := walk_every ltac:(idtac; retains_atom).

(** ** Repositories *)

Lemma cache_get_retains k : every retains (cache_get k).
Proof.
  apply every_await. intros env w. apply retains_same. unfold cache_get_action. by repeat case_match.
Qed.

Lemma cache_set_retains k v t : every retains (cache_set k v t).
Proof.
  apply every_await. intros env w. apply retains_same. unfold cache_set_action. by repeat case_match.
Qed.

Lemma cache_del_retains k : every retains (cache_del k).
Proof.
  apply every_await. intros env w. apply retains_same. unfold cache_del_action. by repeat case_match.
Qed.
#[export] Hint Resolve cache_get_retains cache_set_retains cache_del_retains : retention.

Lemma findById_retains id : every retains (EscrowRepo.findById id).
Proof. unfold EscrowRepo.findById, findById_miss, invalidate. retains_walk. Qed.

Lemma create_retains dto v : every retains (EscrowRepo.create dto v).
Proof.
  apply every_bind; [|done]. apply every_await. intros env w.
  exact (proj1 (retains_escrow_create _) env w).
Qed.

Lemma write_through_retains id f :
  (forall now row, same_identity row (f now row)) -> every retains (write_through id f).
Proof.
  intros Hf. unfold write_through, invalidate.
  walk_every ltac:(idtac; first [by apply retains_escrow_update | retains_atom]).
Qed.
#[export] Hint Resolve findById_retains create_retains : retention.
#[export] Hint Extern 1 (every retains (write_through _ _)) =>
  apply write_through_retains; retains_data : retention.

Ltac repo_walk :=
  unfold updateState, markShipped, markTrackingChecked, markCompleted, markRefunded, markDelivered,
    recordAutoReleaseSubmission, markCancelled, clearAutoReleaseSubmitting, markAutoReleased,
    clearDeliveryClaim, saveBuyerContact, notify, ask, invalidate, DisputeRepository.create,
    DisputeRepository.findByEscrow, DisputeRepository.findFirst, DisputeRepository.update;
  retains_walk.

Lemma markAutoReleaseSubmitting_retains id : every retains (markAutoReleaseSubmitting id).
Proof. unfold markAutoReleaseSubmitting. repo_walk. Qed.

Lemma claimDelivery_retains id : every retains (claimDelivery id).
Proof. unfold claimDelivery. repo_walk. Qed.
#[export] Hint Resolve markAutoReleaseSubmitting_retains claimDelivery_retains : retention.

(** ** Services *)

Section contract.
Context {C : ContractApi}.

Lemma service_findById_retains id : every retains (EscrowService.findById id).
Proof. unfold EscrowService.findById. repo_walk. Qed.
#[local] Hint Resolve service_findById_retains : retention.

Lemma createEscrow_retains dto v : every retains (EscrowService.createEscrow dto v).
Proof.
  unfold EscrowService.createEscrow, findByVendorAndItem, EscrowService.ensureVendorProfile. repo_walk.
Qed.
#[local] Hint Resolve createEscrow_retains : retention.

Lemma createIdempotent_retains k dto v : every retains (EscrowService.createIdempotent k dto v).
Proof. unfold EscrowService.createIdempotent. repo_walk. Qed.

Lemma getTracking_retains id : every retains (EscrowService.getTracking id).
Proof. unfold EscrowService.getTracking. repo_walk. Qed.

Lemma cancelEscrow_retains id c a : every retains (EscrowService.cancelEscrow id c a).
Proof. unfold EscrowService.cancelEscrow. repo_walk. Qed.

#[local] Hint Extern 1 (every retains _) =>
  first [ apply retains_quiet, getEscrowState_quiet | apply retains_quiet, cancelEscrowOnChain_quiet
        | apply retains_quiet, resolveDispute_quiet | apply retains_quiet, submitAutoRelease_quiet
        | apply retains_quiet, recordDelivery_quiet ] : retention.

Lemma cancelPendingEscrow_retains id c a : every retains (EscrowService.cancelPendingEscrow id c a).
Proof. unfold EscrowService.cancelPendingEscrow. repo_walk. Qed.

Lemma handleShipment_retains id v t a : every retains (EscrowService.handleShipment id v t a).
Proof. unfold EscrowService.handleShipment. repo_walk. Qed.

Lemma updateBuyerContact_retains id dto : every retains (EscrowService.updateBuyerContact id dto).
Proof. unfold EscrowService.updateBuyerContact, EscrowService.encrypt_opt. repo_walk. Qed.

Lemma syncStateFromChain_retains ev : every retains (EscrowService.syncStateFromChain ev).
Proof.
  unfold EscrowService.syncStateFromChain, EscrowService.sync_escrow, EscrowService.sync_dispute_raised,
    EscrowService.sync_dispute_resolved, EscrowService.skip, EscrowService.done_. repo_walk.
Qed.
#[local] Hint Resolve syncStateFromChain_retains : retention.

Lemma openDispute_retains id c dto : every retains (BuyerDispute.openDispute id c dto).
Proof. unfold BuyerDispute.openDispute, BuyerDispute.toResponse. repo_walk. Qed.

Lemma getDispute_retains id c : every retains (BuyerDispute.getDispute id c).
Proof. unfold BuyerDispute.getDispute, BuyerDispute.toResponse. repo_walk. Qed.

Lemma resolve_retains id res : every retains (AdminDispute.resolve id res).
Proof. unfold AdminDispute.resolve, AdminDispute.requireAdminAddress. repo_walk. Qed.

Lemma process_marked_retains dto : every retains (Webhook.process_marked dto).
Proof.
  unfold Webhook.process_marked, Webhook.markProcessed, Webhook.unmarkProcessed, Webhook.processEvent,
    Webhook.handlePayment, Webhook.fund, findByVendor. repo_walk.
Qed.
#[local] Hint Resolve process_marked_retains : retention.

Lemma handleEvent_retains b s dto : every retains (Webhook.handleEvent b s dto).
Proof. unfold Webhook.handleEvent, Webhook.verifySignature, Webhook.isProcessed. repo_walk. Qed.

Lemma processOperationDto_retains dto : every retains (Webhook.processOperationDto dto).
Proof. unfold Webhook.processOperationDto, Webhook.isProcessed. repo_walk. Qed.
#[local] Hint Resolve processOperationDto_retains : retention.

Lemma event_replay_retains : every retains EventReplay.onModuleInit.
Proof.
  unfold EventReplay.onModuleInit, EventReplay.fetch_operations, Cursor.get, Cursor.set. repo_walk.
Qed.

Lemma prune_retains : every retains Webhook.pruneProcessedWebhookEvents.
Proof. unfold Webhook.pruneProcessedWebhookEvents, Webhook.pruneOlderThan. repo_walk. Qed.

Lemma processEscrow_retains e : every retains (AutoRelease.processEscrow e).
Proof.
  unfold AutoRelease.processEscrow, AutoRelease.submit_and_record, AutoRelease.requireAutoReleaseSource.
  repo_walk.
Qed.
#[local] Hint Resolve processEscrow_retains : retention.

Lemma process_all_retains l : every retains (AutoRelease.process_all l).
Proof. induction l; simpl; repo_walk. Qed.
#[local] Hint Resolve process_all_retains : retention.

Lemma auto_release_run_retains t : every retains (AutoRelease.run t).
Proof. unfold AutoRelease.run, AutoRelease.runCycle, findAutoReleaseEligible. repo_walk. Qed.

Lemma processShipment_retains e : every retains (TrackingPoll.processShipment e).
Proof.
  unfold TrackingPoll.processShipment, TrackingPoll.record_and_mark, Logistics.getStatus, GiglClient.fetchTracking,
    TrackingPoll.requireAdminAddress. repo_walk.
Qed.

Lemma next_retains fuel items : every retains (TrackingPoll.next fuel items TrackingPoll.processShipment).
Proof.
  induction fuel as [|fuel IH]; cbn [TrackingPoll.next]; [done|].
  apply every_bind; [apply every_await; intros; apply retains_same; unfold TrackingPoll.take_next; by case_match|].
  intros [item|]; [|done]. apply every_bind; [|done]. apply every_catch; [apply processShipment_retains|done].
Qed.

Lemma tracking_run_retains : every retains TrackingPoll.run.
Proof.
  unfold TrackingPoll.run, TrackingPoll.runCycle, TrackingPoll.runWithConcurrency, findShippedWithTracking.
  walk_every ltac:(idtac; first [retains_atom | apply every_promiseAll;
    [intros; by apply retains_same|apply Forall_replicate, next_retains]]).
Qed.

Lemma poller_processEvent_retains raw : every retains (Poller.processEvent raw).
Proof.
  unfold Poller.processEvent, Poller.deadLetter, Dlq.enqueue, FailedTransactions.create,
    Poller.sync_failed, EscrowService.findIdByContractEscrowId, findIdByContractEscrowId. repo_walk.
Qed.
#[local] Hint Resolve poller_processEvent_retains : retention.

Lemma process_batch_retains l t : every retains (Poller.process_batch l t).
Proof. revert t. induction l; intros t; simpl; repo_walk. Qed.
#[local] Hint Resolve process_batch_retains : retention.

Lemma poll_retains : every retains Poller.poll.
Proof.
  unfold Poller.poll, Poller.pollInternal, Poller.fetchEvents, Poller.load_cursor, Poller.advance_quiet,
    Poller.resolveStartLedger, Poller.getLatestLedger, Cursor.get, Cursor.set. repo_walk.
Qed.

Ltac dlq_walk :=
  unfold Dlq.replay, Dlq.abandon, Dlq.requireRecord, Dlq.get, FailedTransactions.claimForReplay,
    FailedTransactions.releaseClaim, FailedTransactions.incrementAttempts, FailedTransactions.markReplayed,
    FailedTransactions.markAbandoned, FailedTransactions.findById, AuditLog.append; repo_walk.

Lemma replayFn_retains r : every retains (DlqController.replayFn r).
Proof.
  unfold DlqController.replayFn, findContractEscrowId, DlqController.requireAutoReleaseSource,
    AutoRelease.requireAutoReleaseSource. repo_walk.
Qed.
#[local] Hint Resolve replayFn_retains : retention.

Lemma dlq_replay_retains id admin : every retains (DlqController.replay id admin).
Proof. unfold DlqController.replay. dlq_walk. Qed.

Lemma dlq_abandon_retains id admin : every retains (DlqController.abandon id admin).
Proof. unfold DlqController.abandon. dlq_walk. Qed.

Lemma handle_retains r : every retains (handle r).
Proof.
  assert (Hi : forall A (m : Prog A), every retains m -> every retains (ignore m)).
  { intros A m Hm. by apply every_bind. }
  destruct r; simpl; try apply Hi.
  all: auto using createIdempotent_retains, getTracking_retains, cancelEscrow_retains,
    cancelPendingEscrow_retains, handleShipment_retains, updateBuyerContact_retains, openDispute_retains,
    getDispute_retains, resolve_retains, handleEvent_retains, event_replay_retains, prune_retains,
    auto_release_run_retains, processShipment_retains, tracking_run_retains, poll_retains, dlq_replay_retains,
    dlq_abandon_retains with retention.
Qed.

(** Every atom of every request retains, so every interleaving does. *)
Lemma handle_pool_retains env rs w w' ps :
  rtc (pool_step env) (w, handle <$> rs) (w', ps) -> retains w w'.
Proof.
  intros Hstar. eapply every_pool; [apply _| |exact Hstar].
  apply Forall_forall. intros p (r & -> & _)%list_elem_of_fmap. apply handle_retains.
Qed.

(** ** Theorem *)

(** C7. Run any set of requests concurrently,
    switching between them at any await, against any contract service and with
    any database faults: at every moment every escrow, dispute and dead-letter
    record is still there with its identifying columns unchanged, the audit
    log has only been appended to, the [EscrowEvent] table is untouched (no
    code path writes the history that [findEvents] reads), and every
    dead-letter record added is of the operation [soroban_event_sync]. *)
Theorem records_survive_interleavings env rs w w' ps :
  rtc (pool_step env) (w, handle <$> rs) (w', ps) -> retains w w'.
Proof. apply handle_pool_retains. Qed.

End contract.

(** A cancellation and a shipment of one escrow take turns. *)
Lemma records_survive_interleavings_witness :
  exists w' ps, run_pool demo_env [0; 1; 0; 1]%nat
      (demo_world [demo_row "E" FUNDED], handle <$> [RCancel "E" "GBUYER" false; RShip "E" "GVENDOR" "TRK1" false])
      = Some (w', ps) /\ retains (demo_world [demo_row "E" FUNDED]) w'.
Proof.
  match goal with |- exists _ _, ?o = _ /\ _ => destruct (run_pool_defined o) as ([w' ps] & H); [by vm_compute|] end.
  exists w', ps. split; [done|]. eapply records_survive_interleavings, run_pool_rtc, H.
Defined.
