(* ===== verification/WebhookSpec.v ===== *)
(** * The payment webhook

    Forged notifications have no effect, each operation is processed once and
    stays retryable when its processing fails, and a payment funds exactly the
    pending escrows it matches. *)
From S2P Require Import Prelude Records Dates Text Tables Effects Cache Prisma EscrowRepo Coherence Demo Contract Lifecycle EscrowSvc EscrowSound EscrowSpec QuerySpec SyncSpec Disputes Workers WorkersSound Dlq Webhook Poller Backend.
Import Webhook.
Local Open Scope prog_scope.

(** ** Authentication *)

(** The request carries the digest of its body under the configured secret. *)
Definition authentic (env : Env) (rawBody : string) (signature : option string) : bool :=
  let secret := env_config env "STELLAR_WEBHOOK_SECRET" in
  truthy secret && truthy signature &&
  bool_decide (hex_bytes (coalesce signature "") = hex_bytes (env_hmac env (coalesce secret "") rawBody)).

Lemma run_verifySignature env w body sig :
  if authentic env body sig then run (verifySignature body sig) env w = (Ok tt, w)
  else exists e, run (verifySignature body sig) env w = (Throw e, w) /\
    (exn_status e = Some 401%Z \/ exn_status e = Some 500%Z).
Proof.
  unfold authentic, verifySignature, signature_ok, ask. rewrite run_bind, run_await.
  destruct (truthy (env_config env "STELLAR_WEBHOOK_SECRET")); simpl; [|eexists; by split; [|right]].
  destruct (truthy sig); simpl; [|eexists; by split; [|left]].
  rewrite run_bind, run_await. case_match; [done|]. eexists. by split; [|left].
Qed.

(** C9. A webhook request whose signature is missing
    or is not the HMAC of its body under the configured secret, or that arrives
    when no secret is configured, is answered with 401 or 500 and changes
    nothing at all. *)
Theorem webhook_rejects_forgeries env w body sig dto :
  authentic env body sig = false ->
  exists e, run (handleEvent body sig dto) env w = (Throw e, w) /\
    (exn_status e = Some 401%Z \/ exn_status e = Some 500%Z).
Proof.
  intros Ha. unfold handleEvent. rewrite run_bind. pose proof (run_verifySignature env w body sig) as H.
  rewrite Ha in H. destruct H as (e & -> & He). by exists e.
Qed.

Lemma webhook_rejects_forgeries_witness :
  exists e, run (handleEvent "{}" (Some "00") (mkWebhookDto "payment" "op1" "tx" None None None)) demo_env (demo_world [])
    = (Throw e, demo_world []) /\ (exn_status e = Some 401%Z \/ exn_status e = Some 500%Z).
Proof. apply webhook_rejects_forgeries. vm_compute. reflexivity. Defined.

(** ** Once per operation *)

Definition same_webhooks (w w' : World) : Prop := db_webhooks (w_db w') = db_webhooks (w_db w).

#[export] Instance same_webhooks_preorder : PreOrder same_webhooks.
Proof. unfold same_webhooks. split; [done|]. intros w1 w2 w3. congruence. Qed.

Lemma same_webhooks_call {X} (f : Z -> string -> Db -> outcome X * Db) :
  (forall now u d, db_webhooks (f now u d).2 = db_webhooks d) -> every same_webhooks (await (db_call f)).
Proof.
  intros Hf. apply every_await. intros env w. unfold same_webhooks.
  destruct (db_call_cases f env w) as [(e & _ & ->)| ->]; [done|]. apply Hf.
Qed.

Lemma processEvent_webhooks dto : every same_webhooks (processEvent dto).
Proof.
  unfold processEvent, handlePayment, fund, findByVendor, updateState, write_through, invalidate, cache_del, notify.
  walk_every ltac:(idtac; first
    [ apply same_webhooks_call; intros; simpl; by repeat case_match
    | apply every_await; intros; unfold same_webhooks, cache_del_action; by repeat case_match ]).
Qed.

Section once.
Context (env : Env) (HR : db_reliable env).

Lemma run_isProcessed id w :
  run (isProcessed id) env w = (Ok (bool_decide (is_Some (db_webhooks (w_db w) !! id))), set_db (w_db w) (tick w)).
Proof using HR.
  unfold isProcessed. rewrite run_bind, run_await. unfold webhook_findUnique. by rewrite db_call_reliable.
Qed.

Lemma run_process_marked dto w r w' :
  db_webhooks (w_db w) !! wh_id dto = None -> run (process_marked dto) env w = (r, w') ->
  match r with
  | Ok _ => exists t, db_webhooks (w_db w') = <[wh_id dto := t]> (db_webhooks (w_db w))
  | Throw _ => db_webhooks (w_db w') = db_webhooks (w_db w)
  end.
Proof using HR.
  intros Hnone. unfold process_marked, markProcessed. rewrite run_bind, run_await. unfold webhook_create.
  rewrite db_call_reliable by done. rewrite Hnone. simpl. set (w1 := set_db _ _). set (now := env_now _ _) in *.
  assert (H1 : db_webhooks (w_db w1) = <[wh_id dto := now]> (db_webhooks (w_db w))) by done.
  rewrite run_catch. pose proof (every_run same_webhooks _ env w1 (processEvent_webhooks dto)) as H2.
  destruct (run (processEvent dto) env w1) as [[u|e] w2]; simpl in H2; unfold same_webhooks in H2.
  - intros [= <- <-]. exists now. congruence.
  - unfold unmarkProcessed. rewrite run_bind, run_await. unfold webhook_delete.
    rewrite db_call_reliable by done. rewrite H2, H1, lookup_insert_eq. simpl. intros [= <- <-]. simpl.
    by rewrite delete_insert_id.
Qed.

(** C8. An authentic notification of a known operation is
    skipped without a write.  A new one is recorded exactly when its processing
    succeeds, after which the same operation is skipped; when the processing
    fails the record of it is withdrawn, so the operation can be retried. *)
Theorem webhook_exactly_once w body sig dto r w1 :
  authentic env body sig = true -> run (handleEvent body sig dto) env w = (r, w1) ->
  match db_webhooks (w_db w) !! wh_id dto, r with
  | Some _, _ => r = Ok (Some "duplicate") /\ w_db w1 = w_db w
  | None, Throw _ => db_webhooks (w_db w1) = db_webhooks (w_db w)
  | None, Ok answer => answer = None /\
      (exists t, db_webhooks (w_db w1) = <[wh_id dto := t]> (db_webhooks (w_db w))) /\
      forall body' sig', authentic env body' sig' = true ->
        (run (handleEvent body' sig' dto) env w1).1 = Ok (Some "duplicate") /\
        w_db (run (handleEvent body' sig' dto) env w1).2 = w_db w1
  end.
Proof using HR.
  intros Ha.
  assert (Hdup : forall w b s, authentic env b s = true -> is_Some (db_webhooks (w_db w) !! wh_id dto) ->
    run (handleEvent b s dto) env w = (Ok (Some "duplicate"), set_db (w_db w) (tick w))).
  { intros w0 b s Hb Hs. unfold handleEvent. rewrite run_bind. pose proof (run_verifySignature env w0 b s) as Hv.
    rewrite Hb in Hv. rewrite Hv, run_bind, run_isProcessed. by rewrite bool_decide_true. }
  destruct (db_webhooks (w_db w) !! wh_id dto) as [t|] eqn:Hid.
  { intros Hrun. rewrite Hdup in Hrun by (done || by eexists). by injection Hrun as <- <-. }
  intros Hrun. unfold handleEvent in Hrun. rewrite run_bind in Hrun.
  pose proof (run_verifySignature env w body sig) as Hv. rewrite Ha in Hv.
  rewrite Hv, run_bind, run_isProcessed, Hid, bool_decide_false, run_bind in Hrun by (by intros [? ?]).
  set (w0 := set_db _ _) in Hrun. pose proof (run_process_marked dto w0) as Hp.
  destruct (run (process_marked dto) env w0) as [[u|e] w2]; injection Hrun as <- <-.
  - destruct (Hp _ _ Hid eq_refl) as [t Ht]. split_and!; [done|by exists t|].
    intros b s Hb. rewrite Hdup; [done|done|]. rewrite Ht, lookup_insert_eq. by eexists.
  - exact (Hp _ _ Hid eq_refl).
Qed.
End once.

Lemma webhook_exactly_once_witness :
  exists w1, run (handleEvent "ab" (Some "ab") (mkWebhookDto "other" "op1" "tx" None None None)) demo_env (demo_world [])
      = (Ok None, w1) /\ is_Some (db_webhooks (w_db w1) !! "op1").
Proof.
  destruct (run (handleEvent "ab" (Some "ab") (mkWebhookDto "other" "op1" "tx" None None None)) demo_env (demo_world []))
    as [r w1] eqn:Hrun.
  pose proof (webhook_exactly_once demo_env (demo_reliable _) (demo_world []) "ab" (Some "ab")
    (mkWebhookDto "other" "op1" "tx" None None None) r w1 ltac:(vm_compute; reflexivity) Hrun) as H.
  assert (Hr : (r, w1).1 = Ok None) by (rewrite <- Hrun; vm_compute; reflexivity). simpl in Hr. subst r. destruct H as (_ & [t Ht] & _). exists w1. split; [done|]. rewrite Ht. simpl.
  rewrite lookup_insert_eq. by eexists.
Defined.

(** ** Funding *)

(** The rows a payment to [vendor] is compared with: the 20 newest of the
    vendor, when they still await payment. *)
Definition candidates (d : Db) (vendor : string) : list PrismaEscrow :=
  List.filter (fun row => bool_decide (e_state row = CREATED))
    (cursor_window None 20 (escrow_select (fun r => bool_decide (e_vendorAddress r = vendor)) (desc e_createdAt) d)).

Definition funded (now : Z) (row : PrismaEscrow) : PrismaEscrow := set_updatedAt now (set_state FUNDED row).

(** The row after a payment: funded when it is one of [l] and matches. *)
Definition paid (dto : StellarWebhookDto) (l : list PrismaEscrow) (row : PrismaEscrow) (after : option PrismaEscrow)
    : Prop :=
  if bool_decide (e_id row ∈ e_id <$> l) && payment_matches dto (toEscrowRecord row)
  then exists now, after = Some (funded now row) else after = Some row.

(** The payment is for what the escrow asks: the same amount, as a number,
    and the same asset, whatever its case; a payment in lumens names none. *)
Definition settles (dto : StellarWebhookDto) (row : PrismaEscrow) : Prop :=
  exists a m e, wh_amount dto = Some a /\ Number_of_string a = Finite m e /\
    ratio_to_number (e_amount row) DECIMAL_SCALE = Finite m e /\
    toUpperCase (coalesce (wh_asset_code dto) "XLM") = toUpperCase (e_currency row).

Lemma payment_matches_spec dto row : payment_matches dto (toEscrowRecord row) = true <-> settles dto row.
Proof.
  unfold payment_matches, settles. cbn [toEscrowRecord e_amount e_currency]. cbv zeta.
  rewrite andb_true_iff, bool_decide_eq_true. split.
  - intros [Hn Hc]. destruct (wh_amount dto) as [a|]; [|done].
    destruct (Number_of_string a) as [|m e] eqn:Ha; [done|].
    destruct (ratio_to_number _ _) as [|m' e'] eqn:Hr; [done|]. apply bool_decide_eq_true in Hn.
    exists a, m, e. by split_and!.
  - intros (a & m & e & -> & -> & -> & Hc). split; [|done]. by apply bool_decide_eq_true.
Qed.

Lemma paid_cons dto row l row2 o : e_id row2 <> e_id row -> paid dto l row2 o -> paid dto (row :: l) row2 o.
Proof.
  intros Hne. unfold paid. rewrite fmap_cons.
  replace (bool_decide (e_id row2 ∈ e_id row :: (e_id <$> l))) with (bool_decide (e_id row2 ∈ e_id <$> l)); [done|].
  apply bool_decide_ext. rewrite elem_of_cons. tauto.
Qed.

Lemma paid_absent dto l row o : e_id row ∉ e_id <$> l -> paid dto l row o -> o = Some row.
Proof. intros Hn. unfold paid. by rewrite bool_decide_false. Qed.

Lemma paid_due dto l row o :
  (forall row', row' ∈ l -> e_id row' = e_id row -> row' = row) -> paid dto l row o ->
  let due := row ∈ l /\ settles dto row in
  (due -> exists now, o = Some (funded now row)) /\ (~ due -> o = Some row).
Proof.
  intros Hl Hp due. unfold paid in Hp.
  assert (Hd : bool_decide (e_id row ∈ e_id <$> l) && payment_matches dto (toEscrowRecord row) = true <-> due).
  { rewrite andb_true_iff, bool_decide_eq_true, payment_matches_spec, list_elem_of_fmap. unfold due.
    split; intros [Hm Hs]; (split; [|done]); [|by exists row].
    destruct Hm as (row' & Heq & Hr'). by rewrite <- (Hl row' Hr'). }
  case_match; rewrite ?true_iff in Hd; split; try done; intros Hn; try done; [by destruct Hn; apply Hd|by apply Hd in Hn].
Qed.

Lemma NoDup_filter_bool {A} (P : A -> bool) l : NoDup l -> NoDup (List.filter P l).
Proof.
  induction 1 as [|x l Hx _ IH]; simpl; [apply NoDup_nil_2|].
  case_match; [|done]. constructor; [|done]. rewrite list_elem_of_In, filter_In, <- list_elem_of_In. by intros [? _].
Qed.

Lemma NoDup_take {A} n (l : list A) : NoDup l -> NoDup (take n l).
Proof. rewrite <- (take_drop n l) at 1. by intros (? & _)%NoDup_app. Qed.

Section funding.
Context (env : Env) (HE : good_env env) (HR : db_reliable env) (dto : StellarWebhookDto).

Lemma wp_fund_one w row (Q : outcome unit -> World -> Prop) :
  Inv env w -> escrow_of w (e_id row) = Some row ->
  (forall now w', Inv env w' -> db_escrows (w_db w') = <[e_id row := funded now row]> (db_escrows (w_db w)) ->
     Q (Ok tt) w') ->
  wp (fund (toEscrowRecord row)) env w Q.
Proof using HE HR.
  intros HI Hrow HQ. apply wp_bind, wp_write_through; [done|done|solve_update| |].
  - intros e w' _ _ _ Hn. destruct (Hn HR) as [Hnone _]. simpl in Hnone. congruence.
  - intros now row0 w' _ Hrow0 HI' _ row' Hdb'. simpl in Hrow0. rewrite Hrow in Hrow0. injection Hrow0 as <-.
    apply wp_await, (HQ now); [by eapply inv_frame|]. simpl. by rewrite Hdb'.
Qed.

Lemma wp_pay l w :
  Inv env w -> NoDup (e_id <$> l) -> (forall row, row ∈ l -> escrow_of w (e_id row) = Some row) ->
  wp (forEach (toEscrowRecord <$> l) (fun e => if payment_matches dto e then fund e else Ret tt)) env w
    (fun r w' => r = Ok tt /\ Inv env w' /\ forall id,
       match escrow_of w id with Some row => paid dto l row (escrow_of w' id) | None => escrow_of w' id = None end).
Proof using HE HR.
  revert w. induction l as [|row l IH]; intros w HI Hnd Hl; simpl.
  { apply wp_ret. split_and!; [done|done|]. intros id. destruct (escrow_of w id); [|done].
    unfold paid. by rewrite bool_decide_false by apply not_elem_of_nil. }
  apply NoDup_cons in Hnd as [Hnin Hnd].
  assert (Hrow : escrow_of w (e_id row) = Some row) by (apply Hl; left).
  apply wp_bind. destruct (payment_matches dto (toEscrowRecord row)) eqn:Hm.
  - apply wp_fund_one; [done|done|]. intros now w1 HI1 Hdb1. eapply wp_mono; [apply IH; [done|done|]|].
    + intros r Hr. rewrite Hdb1, lookup_insert_ne; [apply Hl; by right|]. intros Heq. apply Hnin. rewrite Heq. by apply list_elem_of_fmap_2.
    + intros r w2 (-> & HI2 & Hw2). split_and!; [done|done|]. intros id. specialize (Hw2 id).
      rewrite Hdb1 in Hw2. destruct (decide (id = e_id row)) as [->|Hne].
      * rewrite lookup_insert_eq in Hw2. rewrite Hrow. apply paid_absent in Hw2; [|done].
        unfold paid. rewrite fmap_cons, bool_decide_true by left. rewrite Hm. by exists now.
      * rewrite lookup_insert_ne in Hw2 by done. destruct (escrow_of w id) as [r|] eqn:Hr; [|done].
        apply paid_cons; [|done]. by rewrite (inv_ids _ _ HI _ _ Hr).
  - apply wp_ret. eapply wp_mono; [apply IH; [done|done|]|].
    + intros r Hr. apply Hl. by right.
    + intros r w2 (-> & HI2 & Hw2). split_and!; [done|done|]. intros id. specialize (Hw2 id).
      destruct (escrow_of w id) as [r|] eqn:Hr; [|done].
      destruct (decide (e_id r = e_id row)) as [Heq|Hne]; [|by apply paid_cons].
      pose proof (inv_ids _ _ HI _ _ Hr) as Hid. assert (r = row) as -> by congruence.
      unfold paid. rewrite Hm, andb_false_r. by apply (paid_absent dto l).
Qed.

(** C10. A payment to a vendor funds exactly those
    of the vendor's twenty newest escrows that still await payment and whose
    amount and asset are those of the payment; every other escrow, whoever it
    belongs to and whatever its state, is left as it was. *)
Theorem payment_funds_exact_matches w vendor :
  Inv env w -> wh_to dto = Some vendor -> vendor <> "" ->
  wp (handlePayment dto) env w (fun r w' => r = Ok tt /\ forall id,
    match escrow_of w id with
    | Some row =>
        let due := row ∈ candidates (w_db w) vendor /\ settles dto row in
        (due -> exists now, escrow_of w' id = Some (funded now row)) /\ (~ due -> escrow_of w' id = Some row)
    | None => escrow_of w' id = None
    end).
Proof using HE HR.
  intros HI Hto Hne. unfold handlePayment. rewrite Hto.
  assert (Ht : truthy (Some vendor) = true) by (simpl; by rewrite bool_decide_false).
  rewrite Ht. cbn [negb coalesce].
  apply wp_bind, wp_bind, wp_db_frame; [done|done|done|by intros|].
  intros now u w1 _ HI1 _ Hdb. simpl in Hdb. apply wp_ret. cbv zeta.
  set (rows := cursor_window None 20 _).
  assert (Hf : List.filter (fun e : EscrowRecord => bool_decide (e_state e = CREATED)) (toEscrowRecord <$> rows)
             = toEscrowRecord <$> candidates (w_db w) vendor).
  { unfold candidates. fold rows. clear. induction rows as [|r rows IH]; [done|].
    rewrite fmap_cons. cbn [List.filter toEscrowRecord e_state].
    destruct (bool_decide (e_state r = CREATED)); [by rewrite fmap_cons, IH|done]. }
  cbn [fst]. fold rows. rewrite Hf.
  assert (Hin : forall row, row ∈ candidates (w_db w) vendor -> escrow_of w (e_id row) = Some row).
  { intros row Hr. unfold candidates in Hr. rewrite list_elem_of_In, filter_In, <- list_elem_of_In in Hr.
    destruct Hr as [[_ [k Hk]]%elem_cursor_window%elem_escrow_select _]. by rewrite (inv_ids _ _ HI _ _ Hk). }
  eapply wp_mono; [apply wp_pay; [done| |]|].
  - apply NoDup_fmap_2_strong.
    + intros r1 r2 H1%Hin H2%Hin Heq. congruence.
    + unfold candidates. apply NoDup_filter_bool, NoDup_take. by eapply NoDup_select.
  - intros row Hr. rewrite Hdb. by apply Hin.
  - intros r w2 (-> & _ & Hw2). split; [done|]. intros id. specialize (Hw2 id). rewrite Hdb in Hw2.
    destruct (escrow_of w id) as [row|] eqn:Hrow; [|done]. apply paid_due; [|done].
    intros r' Hr' Heq. apply Hin in Hr'. rewrite Heq, (inv_ids _ _ HI _ _ Hrow) in Hr'. congruence.
Qed.
End funding.

Definition usdc_payment : StellarWebhookDto :=
  mkWebhookDto "payment" "op1" "tx" (Some "GVENDOR") (Some "250.0000000") (Some "usdc").

Lemma payment_funds_exact_matches_witness :
  wp (handlePayment usdc_payment) demo_env (demo_world [demo_row "E" CREATED])
    (fun r w' => exists now, escrow_of w' "E" = Some (funded now (demo_row "E" CREATED))).
Proof.
  eapply wp_mono; [apply (payment_funds_exact_matches demo_env (demo_good _ _) (demo_reliable _) usdc_payment
    (demo_world [demo_row "E" CREATED]) "GVENDOR" (demo_world_inv [demo_row "E" CREATED] ltac:(demo_rows)) eq_refl);
    done|].
  intros r w' [_ H]. specialize (H "E").
  assert (Hrow : escrow_of (demo_world [demo_row "E" CREATED]) "E" = Some (demo_row "E" CREATED)) by reflexivity.
  rewrite Hrow in H. apply H. split.
  - apply list_elem_of_In. vm_compute. by left.
  - apply payment_matches_spec. vm_compute. reflexivity.
Defined.

(** The loop over the pending escrows does not
    stop at the first match: a single payment marks every pending escrow of the
    vendor with that amount and asset as FUNDED, and the buyer who paid is not
    compared with the escrow's. *)
Theorem one_payment_funds_two_escrows :
  let w' := (run (handlePayment usdc_payment) demo_env (demo_world [demo_row "E" CREATED; demo_row "F" CREATED])).2 in
  state_of w' "E" = Some FUNDED /\ state_of w' "F" = Some FUNDED.
Proof. vm_compute. done. Qed.
