(* ===== verification/PollerSpec.v ===== *)
(** * The event poller

    The stored cursor only moves past events that were synchronised or
    dead-lettered (or whose dead letter was rejected), an event that keeps
    failing is dead-lettered after five attempts instead of blocking the
    stream, and the re-entrancy flags of the periodic jobs are always
    released. *)
From S2P Require Import Prelude Records Dates Text Tables Effects Cache Prisma EscrowRepo Coherence Demo Contract Lifecycle EscrowSvc EscrowSound SyncSpec Disputes Workers WorkersSound Dlq Webhook Poller Backend.
Import Poller.
Local Open Scope prog_scope.

Lemma run_ret {A} (a : A) env w : run (Ret a) env w = (Ok a, w).
Proof. done. Qed.

Section poller.
Context {C : ContractApi}.

(** ** Batches *)

(** The events were handled one after the other, none threw. *)
Fixpoint handled (env : Env) (w : World) (events : list SorobanRpcEvent) (w' : World) : Prop :=
  match events with
  | [] => w' = w
  | raw :: rest => exists w1, run (processEvent raw) env w = (Ok tt, w1) /\ handled env w1 rest w'
  end.

(** The token the cursor moves to. *)
Definition token_after (events : list SorobanRpcEvent) (start : option string) : option string :=
  match last events with Some raw => Some (re_pagingToken raw) | None => start end.

Lemma token_after_cons raw rest start :
  token_after (raw :: rest) start = token_after rest (Some (re_pagingToken raw)).
Proof. unfold token_after. rewrite last_cons. by destruct (last rest). Qed.

Lemma process_batch_prefix env events start w :
  exists k w1 w', k <= length events /\ handled env w (take k events) w1 /\
    run (process_batch events start) env w = (Ok (token_after (take k events) start), w') /\
    match events !! k with
    | Some raw => exists e, run (processEvent raw) env w1 = (Throw e, w')
    | None => w' = w1
    end.
Proof.
  revert start w. induction events as [|raw rest IH]; intros start w.
  - exists 0, w, w. by split_and!.
  - cbn [process_batch]. rewrite run_bind, run_attempt.
    destruct (run (processEvent raw) env w) as [[[]|e] w1] eqn:Hrun; cbn [fst snd].
    + destruct (IH (Some (re_pagingToken raw)) w1) as (k & w2 & w' & Hk & Hh & Hr & Hend).
      exists (S k), w2, w'. simpl. split_and!; [lia|by exists w1| |done].
      by rewrite token_after_cons.
    + exists 0, w, w1. split_and!; [simpl; lia|done|done|]. by exists e.
Qed.

(** ** Failing events *)

Definition same_retries (w w' : World) : Prop := w_syncRetry w' = w_syncRetry w.

#[local] Instance same_retries_preorder : PreOrder same_retries.
Proof. unfold same_retries. split; [done|]. intros w1 w2 w3. congruence. Qed.

Lemma retries_call {X} (f : Z -> string -> Db -> outcome X * Db) : every same_retries (await (db_call f)).
Proof. apply every_await. intros env w. by destruct (db_call_cases f env w) as [(e & _ & ->)| ->]. Qed.

Ltac retries_walk :=
  walk_every ltac:(idtac; first [apply retries_call | apply every_await; intros;
    unfold same_retries, cache_get_action, cache_set_action, cache_del_action; by repeat case_match]).

Lemma sync_retries ev : every same_retries (EscrowService.syncStateFromChain ev).
Proof.
  unfold EscrowService.syncStateFromChain, EscrowService.sync_escrow, EscrowService.sync_dispute_raised,
    EscrowService.sync_dispute_resolved, EscrowService.skip, EscrowService.done_, EscrowRepo.findById,
    findById_miss, updateState, markShipped, markCompleted, markCancelled, markRefunded, markAutoReleased,
    write_through, invalidate, cache_get, cache_set, cache_del, notify, ask.
  retries_walk.
Qed.

Lemma deadLetter_ok raw id reason env w : exists w', run (deadLetter raw id reason) env w = (Ok tt, w').
Proof.
  unfold deadLetter. rewrite run_catch. destruct (run (bind _ _) env w) as [[[]|e] w1]; by eexists.
Qed.

Definition retries (w : World) (raw : SorobanRpcEvent) : Z := coalesce (w_syncRetry w !! re_id raw) 0%Z.

Lemma deadLetter_no_throw raw id reason env w e w' : run (deadLetter raw id reason) env w <> (Throw e, w').
Proof. destruct (deadLetter_ok raw id reason env w) as [w1 ->]. done. Qed.

Lemma sync_failed_throws raw ty id err env w e w' :
  run (sync_failed raw ty id err) env w = (Throw e, w') ->
  retries w' raw = (retries w raw + 1)%Z /\ (retries w' raw < MAX_SYNC_RETRIES)%Z.
Proof.
  unfold sync_failed. rewrite run_bind, run_await.
  destruct (Z.leb_spec MAX_SYNC_RETRIES (coalesce (w_syncRetry w !! re_id raw) 0%Z + 1)%Z) as [Hle|Hgt].
  - rewrite run_bind, run_await. cbn [local]. by intros ?%deadLetter_no_throw.
  - intros [= <- <-]. unfold retries at 1 3. cbn [w_syncRetry set_syncRetry]. rewrite lookup_insert_eq. by split.
Qed.

(** An event that throws has its failure counted, below the limit. *)
Lemma processEvent_throws raw env w e w' :
  db_reliable env -> run (processEvent raw) env w = (Throw e, w') ->
  retries w' raw = (retries w raw + 1)%Z /\ (retries w' raw < MAX_SYNC_RETRIES)%Z.
Proof.
  intros HR. unfold processEvent, ask. rewrite run_bind, run_await.
  destruct (BlockchainListener.parseEvent _ raw) as [parsed|]; [|by intros ?%deadLetter_no_throw].
  destruct (is_topic (_ !! 0)) as [topic0|]; [|by intros ?%deadLetter_no_throw].
  destruct (is_topic (_ !! 1)) as [topic1|]; [|by intros ?%deadLetter_no_throw].
  cbv zeta. destruct (toContractEscrowId _) as [cid|]; [|by intros ?%deadLetter_no_throw].
  rewrite run_bind. unfold EscrowService.findIdByContractEscrowId, findIdByContractEscrowId.
  rewrite run_bind, run_await. unfold escrow_findMany. rewrite db_call_reliable by done. cbn [fst snd].
  rewrite run_ret. set (w1 := set_db _ _). assert (Hw1 : retries w1 raw = retries w raw) by done.
  destruct (truthy _); [|by intros ?%deadLetter_no_throw]. rewrite run_catch, run_bind.
  match goal with |- context [run (EscrowService.syncStateFromChain ?ev) env w1] =>
    pose proof (every_run same_retries _ env w1 (sync_retries ev)) as Hs;
    destruct (run (EscrowService.syncStateFromChain ev) env w1) as [[u|err] w2] end.
  - by rewrite run_await.
  - intros H%sync_failed_throws. unfold same_retries in Hs. simpl in Hs.
    assert (retries w2 raw = retries w1 raw) as Heq by (unfold retries; by rewrite Hs).
    rewrite Heq, Hw1 in H. exact H.
Qed.

(** [n] consecutive attempts at the event, all of which throw. *)
Fixpoint fails (n : nat) (env : Env) (raw : SorobanRpcEvent) (w w' : World) : Prop :=
  match n with
  | O => w' = w
  | S n => exists e w1, run (processEvent raw) env w = (Throw e, w1) /\ fails n env raw w1 w'
  end.

Lemma fails_retries n env raw w w' :
  db_reliable env -> fails n env raw w w' -> retries w' raw = (retries w raw + Z.of_nat n)%Z /\
    (n = 0%nat \/ (retries w' raw < MAX_SYNC_RETRIES)%Z).
Proof.
  intros HR. revert w. induction n as [|n IH]; intros w Hf; simpl in Hf.
  - subst. split; [lia|by left].
  - destruct Hf as (e & w1 & Hrun & Hf). destruct (processEvent_throws _ _ _ _ _ HR Hrun) as [H1 H2].
    destruct (IH _ Hf) as [H3 H4]. split; [lia|]. right. destruct H4 as [->|?]; [|done].
    simpl in Hf. by subst.
Qed.

(** C16. With the database up, whatever the event is, at
    most four consecutive attempts at it fail: the fifth at the latest is
    handled (synchronised or dead-lettered), so one bad event cannot hold the
    cursor forever. *)
Theorem poison_event_unblocks env raw w :
  db_reliable env -> (0 <= retries w raw)%Z ->
  exists n w1 w2, n < 5 /\ fails n env raw w w1 /\ run (processEvent raw) env w1 = (Ok tt, w2).
Proof.
  intros HR H0.
  assert (Hstep : forall m, (exists n w1 w2, n < m /\ fails n env raw w w1 /\ run (processEvent raw) env w1 = (Ok tt, w2))
    \/ exists w1, fails m env raw w w1).
  { induction m as [|m [IH|[w1 Hf]]]; [by right; exists w| |].
    - left. destruct IH as (n & w1 & w2 & Hn & H). exists n, w1, w2. split; [lia|done].
    - destruct (run (processEvent raw) env w1) as [[[]|e] w2] eqn:Hrun; [left; exists m, w1, w2; split; [lia|done]|].
      right. exists w2. clear -Hf Hrun. revert w Hf. induction m as [|m IHm]; intros w Hf; simpl in *.
      + subst. by exists e, w2.
      + destruct Hf as (e1 & w3 & H3 & Hf). exists e1, w3. split; [done|by apply IHm]. }
  destruct (Hstep 5) as [?|[w1 Hf]]; [done|]. exfalso.
  destruct (fails_retries _ _ _ _ _ HR Hf) as [H1 [H2|H2]]; [done|]. unfold MAX_SYNC_RETRIES in H2. lia.
Qed.

(** ** What becomes of an event *)

(** The cursors are left alone; the failed transactions too, unless a dead
    letter is written. *)
Definition same_cursors (w w' : World) : Prop := db_cursors (w_db w') = db_cursors (w_db w).
Definition same_failed (w w' : World) : Prop := db_failed (w_db w') = db_failed (w_db w).

#[local] Instance same_cursors_preorder : PreOrder same_cursors.
Proof. unfold same_cursors. split; [done|]. intros w1 w2 w3. congruence. Qed.
#[local] Instance same_failed_preorder : PreOrder same_failed.
Proof. unfold same_failed. split; [done|]. intros w1 w2 w3. congruence. Qed.

Definition same_both (w w' : World) : Prop := same_cursors w w' /\ same_failed w w'.

#[local] Instance same_both_preorder : PreOrder same_both.
Proof. split; [by split|]. intros w1 w2 w3 [? ?] [? ?]. split; by etrans. Qed.

Lemma both_call {X} (f : Z -> string -> Db -> outcome X * Db) :
  (forall now uuid d, db_cursors (f now uuid d).2 = db_cursors d /\ db_failed (f now uuid d).2 = db_failed d) ->
  every same_both (await (db_call f)).
Proof.
  intros Hf. apply every_await. intros env w. unfold db_call. destruct (env_db env (w_tick w)); [by split|].
  destruct (Hf (env_now env (w_tick w)) (env_uuid env (w_tick w)) (w_db w)).
  by destruct (f _ _ (w_db w)).
Qed.

Ltac both_call := apply both_call; intros; by repeat case_match.

Lemma sync_same_both ev : every same_both (EscrowService.syncStateFromChain ev).
Proof.
  unfold EscrowService.syncStateFromChain, EscrowService.sync_escrow, EscrowService.sync_dispute_raised,
    EscrowService.sync_dispute_resolved, EscrowService.skip, EscrowService.done_, EscrowRepo.findById,
    findById_miss, updateState, markShipped, markCompleted, markCancelled, markRefunded, markAutoReleased,
    write_through, invalidate, cache_get, cache_set, cache_del, notify, ask,
    dispute_create.
  walk_every ltac:(idtac; first [both_call | apply every_await; intros;
    unfold same_both, same_cursors, same_failed, cache_get_action, cache_set_action, cache_del_action; by repeat case_match]).
Qed.

Lemma deadLetter_same_cursors raw id reason : every same_cursors (deadLetter raw id reason).
Proof.
  unfold deadLetter, Dlq.enqueue, FailedTransactions.create, failed_create.
  walk_every ltac:(idtac; apply every_await; intros; unfold same_cursors, db_call; by repeat (case_match; simplify_eq)).
Qed.

Lemma processEvent_same_cursors raw : every same_cursors (processEvent raw).
Proof.
  unfold processEvent, sync_failed, EscrowService.findIdByContractEscrowId, findIdByContractEscrowId, escrow_findMany, ask.
  walk_every ltac:(idtac; first [apply deadLetter_same_cursors
    | apply (every_mono same_both); [by intros ? ? []|apply sync_same_both]
    | apply every_await; intros; unfold same_cursors, local, db_call; by repeat (case_match; simplify_eq)]).
Qed.

(** What became of an event the poller passed: it was synchronised; or a new
    dead letter records it; or the dead letter itself could not be written. *)
Inductive fate (env : Env) (raw : SorobanRpcEvent) (w w' : World) : Prop :=
| fate_synchronised ty id data res w0 w1 :
    w_db w0 = w_db w ->
    run (EscrowService.syncStateFromChain (chain_event raw ty id data)) env w0 = (Ok res, w1) ->
    w_db w' = w_db w1 -> fate env raw w w'
| fate_dead_lettered row feedback :
    db_failed (w_db w) !! f_id row = None ->
    db_failed (w_db w') = <[f_id row := row]> (db_failed (w_db w)) ->
    f_operation row = "soroban_event_sync" -> f_status row = PENDING_REVIEW ->
    f_ledgerFeedback row = Some feedback -> ("eventId"%string, re_id raw) ∈ feedback -> fate env raw w w'
| fate_unrecorded input w0 e :
    run (Dlq.enqueue input) env w0 = (Throw e, w') -> fate env raw w w'.

Lemma deadLetter_fate raw id reason env w w0 w' :
  db_failed (w_db w0) = db_failed (w_db w) ->
  run (deadLetter raw id reason) env w0 = (Ok tt, w') -> fate env raw w w'.
Proof.
  intros Hw. unfold deadLetter. rewrite run_catch, run_bind.
  set (input := FailedTransactions.mkCreateInput _ _ _ _ _).
  destruct (run (Dlq.enqueue input) env w0) as [[r|e] w1] eqn:He.
  - rewrite run_ret. intros [= <-]. revert He. unfold Dlq.enqueue, FailedTransactions.create, failed_create.
    rewrite run_await. unfold db_call. destruct (env_db env (w_tick w0)) as [e|]; [done|].
    cbv zeta. cbn [f_id]. case_bool_decide as Hnone; [done|]. intros [= <- <-].
    lazymatch goal with |- context [<[_ := ?r]> (db_failed _)] => eapply (fate_dead_lettered _ _ _ _ r) end;
      cbn [f_id f_operation f_status f_ledgerFeedback w_db db_failed set_db set_failed].
    + rewrite <- Hw. by apply eq_None_not_Some.
    + by rewrite <- Hw.
    + done.
    + done.
    + done.
    + apply list_elem_of_here.
  - rewrite run_ret. intros [= <-]. by eapply fate_unrecorded.
Qed.

Lemma processEvent_fate raw env w w' : run (processEvent raw) env w = (Ok tt, w') -> fate env raw w w'.
Proof.
  unfold processEvent, ask. rewrite run_bind, run_await.
  destruct (BlockchainListener.parseEvent _ raw) as [parsed|]; [|by apply deadLetter_fate].
  destruct (is_topic (_ !! 0)) as [topic0|]; [|by apply deadLetter_fate].
  destruct (is_topic (_ !! 1)) as [topic1|]; [|by apply deadLetter_fate].
  cbv zeta. destruct (toContractEscrowId _) as [cid|]; [|by apply deadLetter_fate].
  rewrite run_bind. unfold EscrowService.findIdByContractEscrowId, findIdByContractEscrowId.
  rewrite run_bind, run_await. unfold escrow_findMany, db_call.
  destruct (env_db env (w_tick w)) as [e|]; [done|]. rewrite run_ret. set (w0 := set_db _ _).
  destruct (truthy _); [|by apply deadLetter_fate]. rewrite run_catch, run_bind.
  match goal with |- context [run (EscrowService.syncStateFromChain ?ev) env w0] =>
    pose proof (every_run same_both _ env w0 (sync_same_both ev)) as [_ Hf];
    destruct (run (EscrowService.syncStateFromChain ev) env w0) as [[u|err] w1] eqn:Hs end.
  - rewrite run_await. intros [= <-]. by eapply fate_synchronised; [|exact Hs|].
  - unfold sync_failed. rewrite run_bind, run_await.
    destruct (MAX_SYNC_RETRIES <=? _)%Z; [|done].
    rewrite run_bind, run_await. apply deadLetter_fate. exact Hf.
Qed.

(** The events were passed one after the other. *)
Fixpoint passed (env : Env) (w : World) (events : list SorobanRpcEvent) (w' : World) : Prop :=
  match events with
  | [] => w' = w
  | raw :: rest => exists w1, run (processEvent raw) env w = (Ok tt, w1) /\ fate env raw w w1 /\ passed env w1 rest w'
  end.

Lemma handled_passed env w events w' : handled env w events w' -> passed env w events w'.
Proof.
  revert w. induction events as [|raw rest IH]; intros w; [done|]. intros (w1 & Hr & Hh). exists w1.
  split_and!; [done|by apply processEvent_fate|by apply IH].
Qed.

Lemma handled_same_cursors env w events w' : handled env w events w' -> same_cursors w w'.
Proof.
  revert w. induction events as [|raw rest IH]; intros w; simpl; [by intros ->|]. intros (w1 & Hr & Hh).
  pose proof (every_run same_cursors _ env w (processEvent_same_cursors raw)) as H1. rewrite Hr in H1.
  etrans; [exact H1|by apply IH].
Qed.

(** ** The cursor *)

(** The write of the cursor, which gives up when the database rejects it. *)
Definition stored (env : Env) (w : World) (token : string) (old : gmap string string) : gmap string string :=
  match env_db env (w_tick w) with None => <[Cursor.DEFAULT_KEY := token]> old | Some _ => old end.

Lemma run_cursor_set env w token :
  exists w', run (Cursor.set token Cursor.DEFAULT_KEY) env w = (Ok tt, w') /\
    db_cursors (w_db w') = stored env w token (db_cursors (w_db w)).
Proof.
  unfold Cursor.set, cursor_upsert, stored. rewrite run_catch, run_await. unfold db_call.
  destruct (env_db env (w_tick w)) as [e|]; by eexists.
Qed.


(** ** Re-entrancy flags *)

Lemma run_catch_all {A} (m : Prog A) (a : A) env w :
  exists b w', run (catch m (fun _ => Ret a)) env w = (Ok b, w').
Proof. rewrite run_catch. destruct (run m env w) as [[b|e] w']; by eexists _, _. Qed.

(** Each of the three periodic jobs (event poll,
    auto-release, tracking poll) does nothing when a previous run is still
    under way, and otherwise never throws and leaves its flag down, whatever
    fails inside: no failure can stop a job for good. *)
Theorem periodic_jobs_release_flags env w t :
  (if w_polling w then run poll env w = (Ok tt, w)
   else (run poll env w).1 = Ok tt /\ w_polling (run poll env w).2 = false) /\
  (if w_autoRunning w then run (AutoRelease.run t) env w = (Ok None, w)
   else (exists s, (run (AutoRelease.run t) env w).1 = Ok (Some s)) /\
        w_autoRunning (run (AutoRelease.run t) env w).2 = false) /\
  (if w_trackRunning w then run TrackingPoll.run env w = (Ok false, w)
   else (run TrackingPoll.run env w).1 = Ok true /\ w_trackRunning (run TrackingPoll.run env w).2 = false).
Proof.
  split_and!.
  - unfold poll. rewrite run_bind, run_await. destruct (w_polling w) eqn:Hf.
    { rewrite run_ret. destruct w. simpl in *. by subst. }
    unfold pollInternal. rewrite run_finally, run_await.
    match goal with |- context [run (catch ?m _) env ?v] => destruct (run_catch_all m tt env v) as (b & w' & ->) end.
    by destruct b.
  - unfold AutoRelease.run. rewrite run_bind, run_await. cbn [now]. rewrite run_bind, run_await.
    destruct (w_autoRunning w) eqn:Hf.
    { rewrite run_ret. destruct w. simpl in *. by subst. }
    rewrite run_bind, run_finally, run_await. unfold AutoRelease.runCycle.
    match goal with |- context [run (catch ?m (fun _ => Ret ?a)) env ?v] =>
      destruct (run_catch_all m a env v) as (b & w' & ->) end.
    split; [by exists b|done].
  - unfold TrackingPoll.run. rewrite run_bind, run_await. destruct (w_trackRunning w) eqn:Hf.
    { rewrite run_ret. destruct w. simpl in *. by subst. }
    rewrite run_bind, run_finally, run_await. unfold TrackingPoll.runCycle.
    match goal with |- context [run (catch ?m _) env ?v] => destruct (run_catch_all m tt env v) as (b & w' & ->) end.
    done.
Qed.

End poller.

(** ** Instances *)

Definition demo_raw : SorobanRpcEvent :=
  mkRpcEvent "ev1" "CCONTRACT" "contract" 90 "tok1" ["Dispute"; "Raised"] "payload".

(** The payload decodes to the escrow with contract id 7. *)
Definition poison_env : Env :=
  mkEnv (fun _ => demo_now) (fun _ => None) demo_uuid true false (fun _ => false) true false demo_config
    (fun _ => 25000000000%Z) (Some demo_server)
    (mkSdk (fun _ => Some "GSIGNER") (fun _ => Ok tt) (fun _ => Ok tt) (fun _ _ => Ok tt) (fun tx _ => Ok tx)
       (fun s => if bool_decide (s = "payload") then Ok (NObject [("escrow_id", NBigInt 7)]) else Ok (NString s)))
    (fun s => s) (fun _ m => m) (fun _ => "0") (fun _ _ => Ok [demo_raw]) (fun _ => Ok 100%Z) (fun _ _ => Ok []) 30
    None (fun _ => true) demo_providers.

(** The dispute row of the event exists already, so its synchronisation is
    rejected by the unique key every time. *)
Definition poison_world : World :=
  world_of (set_disputes {["D" := mkDispute "D" "E" "r" "" [] OPEN None demo_now demo_now]} (demo_db [demo_row "E" SHIPPED])).

Lemma poison_event_unblocks_witness :
  exists n w1 w2, n < 5 /\ fails n poison_env demo_raw poison_world w1 /\
    run (processEvent demo_raw) poison_env w1 = (Ok tt, w2).
Proof. apply poison_event_unblocks; [done|vm_compute; done]. Defined.

(** The event of that instance fails four times and is dead-lettered at the
    fifth. *)
Example poison_dead_lettered :
  let attempt w := (run (processEvent demo_raw) poison_env w).2 in
  size (db_failed (w_db (attempt (attempt (attempt (attempt poison_world)))))) = 0 /\
  size (db_failed (w_db (attempt (attempt (attempt (attempt (attempt poison_world))))))) = 1.
Proof. vm_compute. done. Qed.

(** The same instance with a stored cursor: the first failure stops the batch
    and leaves the cursor. *)
Definition poison_cursor_world : World :=
  world_of (set_cursors {["stellar-listener" := "tok0"]} (w_db poison_world)).


(** Five poll cycles of that instance: the cursor stays until the event is
    dead-lettered, then moves past it. *)
Example poison_cursor_moves_at_last :
  let cycle w := (run poll poison_env w).2 in
  let cursor w := db_cursors (w_db w) !! "stellar-listener"%string in
  cursor (cycle (cycle (cycle (cycle poison_cursor_world)))) = Some "tok0"%string /\
  cursor (cycle (cycle (cycle (cycle (cycle poison_cursor_world))))) = Some "tok1"%string.
Proof. vm_compute. done. Qed.

(** [CursorService.get] answers "no cursor"
    when the read fails, and the poller then stores a fresh start ledger: one
    failed read replaces the saved position by one ten ledgers behind the tip,
    and the events in between are never fetched. *)
Theorem cursor_outage_discards_position :
  let w := world_of (set_cursors {["stellar-listener" := "0000123-4"]} (demo_db [])) in
  let env := demo_env_with (fun t => if Nat.eqb t 0 then Some (PrismaError "P1001") else None) (Some demo_server) in
  db_cursors (w_db (run load_cursor env w).2) !! "stellar-listener" = Some "ledger:90".
Proof. vm_compute. reflexivity. Qed.
