(* ===== verification/DlqSpec.v ===== *)
(** * The dead-letter queue

    What a replay and an abandonment do to a record on every branch, and why
    no record the backend enqueues can be replayed. *)
From S2P Require Import Prelude Records Dates Text Tables Effects Cache Prisma EscrowRepo Coherence Demo Contract Lifecycle EscrowSvc EscrowSound ContractSpec Disputes Workers WorkersSound Dlq Webhook Poller Backend PollerSpec Concurrency Retention.
Local Open Scope prog_scope.

Abbreviation failed_of w id := (db_failed (w_db w) !! id).

Section dlq.
Context (env : Env) (HR : db_reliable env).

(** The instant the staleness of a claim is measured at. *)
Definition stale_before (w : World) : Z := (env_now env (S (w_tick w)) - 5 * 60 * 1000)%Z.

(** The record after each step of a replay. *)
Definition replaying (t : Z) (r : FailedTransactionRecord) : FailedTransactionRecord :=
  FailedTransactions.with_ r (f_errorMessage r) (f_attempts r) REPLAYING (f_lastReplayTxHash r) (f_reviewedAt r)
    (f_replayedAt r) t.
Definition replayed (t : Z) (txHash : string) (r : FailedTransactionRecord) : FailedTransactionRecord :=
  FailedTransactions.with_ r (f_errorMessage r) (f_attempts r) REPLAYED (Some txHash) (f_reviewedAt r) (Some t) t.
Definition returned (t : Z) (message : string) (r : FailedTransactionRecord) : FailedTransactionRecord :=
  FailedTransactions.with_ r message (f_attempts r + 1) PENDING_REVIEW (f_lastReplayTxHash r) (f_reviewedAt r)
    (f_replayedAt r) t.
Definition abandoned (t : Z) (r : FailedTransactionRecord) : FailedTransactionRecord :=
  FailedTransactions.with_ r (f_errorMessage r) (f_attempts r) ABANDONED (f_lastReplayTxHash r) (Some t)
    (f_replayedAt r) t.

(** A record an operator may act on: one that waits for review, or whose
    replay has been under way since [t] or longer. *)
Definition reviewable (t : Z) (r : FailedTransactionRecord) : bool :=
  match f_status r with
  | PENDING_REVIEW => true
  | REPLAYING => (f_updatedAt r <=? t)%Z
  | _ => false
  end.

Lemma reviewable_claimable t r : FailedTransactions.claimable (Some t) r = reviewable t r.
Proof. unfold FailedTransactions.claimable, reviewable. by destruct (f_status r). Qed.

Lemma claimable_guard t r :
  negb (bool_decide (f_status r = PENDING_REVIEW)) && negb (Dlq.isStaleReplaying t r)
    = negb (reviewable t r).
Proof. rewrite <- reviewable_claimable. unfold Dlq.isStaleReplaying, FailedTransactions.claimable. by rewrite negb_orb. Qed.

Lemma run_requireRecord id w :
  run (Dlq.requireRecord id) env w =
    (match failed_of w id with
     | Some r => Ok r
     | None => Throw (NotFoundException ("Failed transaction " +:+ id +:+ " not found"))
     end, set_db (w_db w) (tick w)).
Proof using HR.
  unfold Dlq.requireRecord, Dlq.get, FailedTransactions.findById, failed_findUnique.
  rewrite run_bind, run_await, db_call_reliable by done. simpl. by destruct (failed_of w id).
Qed.

(** A conditional update that finds its row, with the read that follows it. *)
Lemma run_claim id (P : FailedTransactionRecord -> bool) f w r :
  failed_of w id = Some r ->
  run (let* count := await (failed_updateMany id P f) in
       if (count =? 0)%Z then Ret None else FailedTransactions.findById id) env w =
  if P r then
    let w1 := set_db (set_failed (<[id := f (env_now env (w_tick w)) r]> (db_failed (w_db w))) (w_db w)) (tick w) in
    (Ok (Some (f (env_now env (w_tick w)) r)), set_db (w_db w1) (tick w1))
  else (Ok None, set_db (w_db w) (tick w)).
Proof using HR.
  intros Hr. rewrite run_bind, run_await. unfold failed_updateMany. rewrite db_call_reliable by done. rewrite Hr.
  destruct (P r); [|done]. cbn [fst snd Z.eqb]. unfold FailedTransactions.findById, failed_findUnique.
  rewrite run_await, db_call_reliable by done. cbn [fst snd set_db set_failed w_db db_failed].
  by rewrite lookup_insert_eq.
Qed.

Lemma run_failed_update id f w r :
  failed_of w id = Some r ->
  run (await (failed_update id f)) env w =
    (Ok (f (env_now env (w_tick w)) r),
     set_db (set_failed (<[id := f (env_now env (w_tick w)) r]> (db_failed (w_db w))) (w_db w)) (tick w)).
Proof using HR.
  intros Hr. rewrite run_await. unfold failed_update. rewrite db_call_reliable by done. by rewrite Hr.
Qed.

(** Abandoning answers 404 for an unknown record and
    409, without a write, for one that is neither pending review nor stuck in
    replay for five minutes; otherwise the record, and nothing else, becomes
    ABANDONED with the time of the review. *)
Theorem dlq_abandon_correct id w :
  let '(r, w') := run (Dlq.abandon id) env w in
  match failed_of w id with
  | None => (exists m, r = Throw (NotFoundException m)) /\ w_db w' = w_db w
  | Some row =>
      if reviewable (stale_before w) row then
        exists t, r = Ok (abandoned t row) /\
          w_db w' = set_failed (<[id := abandoned t row]> (db_failed (w_db w))) (w_db w)
      else (exists m, r = Throw (ConflictException m)) /\ w_db w' = w_db w
  end.
Proof using HR.
  unfold Dlq.abandon. rewrite run_bind, run_requireRecord.
  destruct (failed_of w id) as [row|] eqn:Hrow; [|by split; [eexists|]].
  rewrite run_bind, run_await. cbn [now w_tick set_db tick]. change (env_now env _ - _)%Z with (stale_before w). cbv zeta.
  rewrite claimable_guard. destruct (reviewable _ row) eqn:Hc; cbn [negb]; [|by split; [eexists|]].
  rewrite run_bind. unfold FailedTransactions.markAbandoned. erewrite run_claim by exact Hrow. rewrite reviewable_claimable, Hc.
  eexists. by split.
Qed.

(** ** Replay *)

Definition same_failed (w w' : World) : Prop := db_failed (w_db w') = db_failed (w_db w).

#[local] Instance same_failed_preorder : PreOrder same_failed.
Proof. unfold same_failed. split; [done|]. intros w1 w2 w3. congruence. Qed.

(** C24. A replay answers 404 and 409 like an abandonment and
    runs nothing in those cases.  Otherwise the record is claimed (REPLAYING)
    before the transaction is replayed; when that succeeds it becomes REPLAYED
    with the new hash, and when it fails the claim is released, the attempt and
    its error are recorded, and the error is passed on. *)
Theorem dlq_replay_correct id w (replayFn : FailedTransactionRecord -> Prog string) :
  (forall row, every same_failed (replayFn row)) ->
  let '(r, w') := run (Dlq.replay id replayFn) env w in
  match failed_of w id with
  | None => (exists m, r = Throw (NotFoundException m)) /\ w_db w' = w_db w
  | Some row =>
      if reviewable (stale_before w) row then
        exists t w1 o w2, let claim := replaying t row in
          failed_of w1 id = Some claim /\ run (replayFn claim) env w1 = (o, w2) /\
          match o with
          | Ok txHash => exists t', r = Ok (replayed t' txHash claim) /\
              db_failed (w_db w') = <[id := replayed t' txHash claim]> (db_failed (w_db w))
          | Throw err => r = Throw err /\ exists t',
              db_failed (w_db w') = <[id := returned t' (exn_message err) row]> (db_failed (w_db w))
          end
      else (exists m, r = Throw (ConflictException m)) /\ w_db w' = w_db w
  end.
Proof using HR.
  intros Hfn. unfold Dlq.replay. rewrite run_bind, run_requireRecord.
  destruct (failed_of w id) as [row|] eqn:Hrow; [|by split; [eexists|]].
  rewrite run_bind, run_await. cbn [now w_tick set_db tick]. change (env_now env _ - _)%Z with (stale_before w). cbv zeta.
  rewrite claimable_guard. destruct (reviewable _ row) eqn:Hc; cbn [negb]; [|by split; [eexists|]].
  rewrite run_bind. unfold FailedTransactions.claimForReplay. erewrite run_claim by exact Hrow. rewrite reviewable_claimable, Hc.
  cbv zeta iota. set (t := env_now _ _). fold (replaying t row). set (w1 := set_db _ _).
  assert (H1 : db_failed (w_db w1) = <[id := replaying t row]> (db_failed (w_db w))) by done.
  clearbody w1.
  rewrite run_bind, run_catch. pose proof (every_run same_failed _ env w1 (Hfn (replaying t row))) as Hs.
  destruct (run (replayFn (replaying t row)) env w1) as [o w2] eqn:Hrun. unfold same_failed in Hs. cbn [snd] in Hs.
  assert (H2 : failed_of w2 id = Some (replaying t row)) by (by rewrite Hs, H1, lookup_insert_eq).
  destruct o as [txHash|err].
  - unfold FailedTransactions.markReplayed. erewrite run_failed_update by exact H2.
    exists t, w1, (Ok txHash), w2. split_and!; [by rewrite H1, lookup_insert_eq|done|].
    eexists. split; [done|]. simpl. by rewrite Hs, H1, insert_insert_eq.
  - unfold FailedTransactions.releaseClaim. rewrite run_bind. erewrite run_failed_update by exact H2.
    unfold FailedTransactions.incrementAttempts. rewrite run_bind.
    erewrite run_failed_update by (simpl; apply lookup_insert_eq).
    exists t, w1, (Throw err), w2. split_and!; [by rewrite H1, lookup_insert_eq|done|done|]. eexists. simpl. by rewrite Hs, H1, !insert_insert_eq.
Qed.
End dlq.

(** ** What can be replayed *)

Section contract.
Context {C : ContractApi}.

(** Every dead-letter record is a failed event synchronisation. *)
Definition only_event_syncs (w : World) : Prop :=
  forall id f, failed_of w id = Some f -> f_operation f = "soroban_event_sync".

Lemma retains_only_event_syncs w w' : retains w w' -> only_event_syncs w -> only_event_syncs w'.
Proof.
  intros Hr Ho id f' Hf'. destruct (failed_of w id) as [f|] eqn:Hf; [|by eapply (rt_enqueued _ _ Hr)].
  destruct (rt_failed _ _ Hr _ _ Hf) as (f2 & H2 & _ & Hop & _).
  rewrite Hf' in H2. injection H2 as <-. rewrite Hop. by eapply Ho.
Qed.

Lemma replayFn_event_sync r env w :
  f_operation r = "soroban_event_sync" -> exists m, run (DlqController.replayFn r) env w = (Throw (BadRequestException m), w).
Proof. intros Ho. unfold DlqController.replayFn. rewrite Ho. by eexists. Qed.

(** The replay of an event synchronisation fails before it reaches the chain. *)
Lemma dlq_replay_event_sync env w id :
  db_reliable env -> only_event_syncs w ->
  exists e w', run (Dlq.replay id DlqController.replayFn) env w = (Throw e, w') /\
    w_chain w' = w_chain w /\ db_audit (w_db w') = db_audit (w_db w).
Proof.
  intros HR Ho. unfold Dlq.replay. rewrite run_bind, run_requireRecord by done.
  destruct (failed_of w id) as [row|] eqn:Hrow; [|by eexists _, _].
  rewrite run_bind, run_await. cbn [now w_tick set_db tick]. cbv zeta. rewrite claimable_guard.
  destruct (reviewable _ row) eqn:Hc; cbn [negb]; [|by eexists _, _].
  rewrite run_bind. unfold FailedTransactions.claimForReplay.
  erewrite run_claim by (done || exact Hrow). rewrite reviewable_claimable, Hc. cbv zeta iota.
  set (claim := FailedTransactions.with_ _ _ _ _ _ _ _ _). set (w1 := set_db _ _).
  assert (H1 : failed_of w1 id = Some claim) by (simpl; apply lookup_insert_eq).
  rewrite run_bind, run_catch. destruct (replayFn_event_sync claim env w1) as [m ->]; [exact (Ho id row Hrow)|].
  rewrite run_bind. unfold FailedTransactions.releaseClaim. erewrite run_failed_update by (done || exact H1).
  unfold FailedTransactions.incrementAttempts. rewrite run_bind.
  erewrite run_failed_update by (done || (simpl; apply lookup_insert_eq)). by eexists _, _.
Qed.

(** The only failures the backend ever
    enqueues are event synchronisations, and the replay endpoint accepts only
    [submitAutoRelease] records: however the requests of the backend have been
    interleaved since the queue was empty, replaying any record fails, submits
    nothing and leaves no audit entry. *)
Theorem no_enqueued_failure_can_be_replayed env rs w0 w ps id admin :
  db_reliable env -> db_failed (w_db w0) = ∅ -> rtc (pool_step env) (w0, handle <$> rs) (w, ps) ->
  exists e w', run (DlqController.replay id admin) env w = (Throw e, w') /\
    w_chain w' = w_chain w /\ db_audit (w_db w') = db_audit (w_db w).
Proof.
  intros HR Hempty Hstar.
  assert (Ho : only_event_syncs w).
  { eapply retains_only_event_syncs; [by eapply handle_pool_retains|]. intros i f Hf. by rewrite Hempty in Hf. }
  unfold DlqController.replay. rewrite run_bind. change (Dlq.get id) with (Dlq.requireRecord id).
  rewrite run_requireRecord by done. destruct (failed_of w id) as [row|]; [|by eexists _, _].
  rewrite run_bind. set (w1 := set_db _ _).
  destruct (dlq_replay_event_sync env w1 (f_id row) HR Ho) as (e & w' & -> & Hch & Hau). by exists e, w'.
Qed.

End contract.

(** ** Instances *)

Definition demo_failure (status : FailedTransactionStatus) : FailedTransactionRecord :=
  mkFailed "F" "submitAutoRelease" (Some "E") "boom" None 1 status None (demo_now - 1000) (demo_now - 1000) None None.

Definition failure_world (status : FailedTransactionStatus) : World :=
  world_of (set_failed {["F" := demo_failure status]} (demo_db [demo_row "E" DELIVERED])).

Lemma dlq_abandon_correct_witness :
  exists t w', run (Dlq.abandon "F") demo_env (failure_world PENDING_REVIEW)
    = (Ok (abandoned t (demo_failure PENDING_REVIEW)), w').
Proof.
  pose proof (dlq_abandon_correct demo_env (demo_reliable _) "F" (failure_world PENDING_REVIEW)) as H.
  destruct (run (Dlq.abandon "F") demo_env (failure_world PENDING_REVIEW)) as [r w'].
  destruct H as (t & -> & _). by exists t, w'.
Defined.

Lemma dlq_replay_correct_witness :
  exists t t' w', run (Dlq.replay "F" (fun _ => Ret "hash")) demo_env (failure_world PENDING_REVIEW)
    = (Ok (replayed t' "hash" (replaying t (demo_failure PENDING_REVIEW))), w').
Proof.
  pose proof (dlq_replay_correct demo_env (demo_reliable _) "F" (failure_world PENDING_REVIEW) (fun _ => Ret "hash")
    (fun _ => I)) as H.
  destruct (run (Dlq.replay "F" (fun _ => Ret "hash")) demo_env (failure_world PENDING_REVIEW)) as [r w'].
  destruct H as (t & w1 & o & w2 & _ & [= <- <-] & t' & -> & _). by exists t, t', w'.
Defined.

Lemma no_enqueued_failure_can_be_replayed_witness :
  exists e w', run (DlqController.replay "F" None) demo_env (demo_world []) = (Throw e, w') /\
    w_chain w' = [] /\ db_audit (w_db w') = [].
Proof.
  apply (no_enqueued_failure_can_be_replayed demo_env [] (demo_world []) (demo_world []) [] "F" None
    (demo_reliable _) eq_refl). apply rtc_refl.
Defined.
