(* ===== verification/DisputeSpec.v ===== *)
(** * Disputes

    What opening and resolving a dispute answer and write on every branch,
    when the database answers. *)
From S2P Require Import Prelude Records Dates Text Tables Effects Cache Prisma EscrowRepo Coherence Demo Contract Lifecycle EscrowSvc EscrowSound EscrowSpec SyncSpec Disputes.
Local Open Scope prog_scope.

(** A dispute row refers to the escrow. *)
Definition has_dispute (w : World) (id : string) : bool :=
  existsb (fun d => bool_decide (d_escrowId d = id)) (dispute_rows (w_db w)).

Lemma involved_party admin caller row :
  BuyerDispute.is_involved admin caller (toEscrowRecord row) = party (bool_decide (admin = Some caller)) caller row.
Proof.
  unfold BuyerDispute.is_involved, party. cbn [toEscrowRecord e_vendorAddress e_buyerAddress].
  rewrite <- !bool_decide_or. apply bool_decide_ext. rewrite !elem_of_cons, elem_of_nil. intuition congruence.
Qed.

Lemma disputable_states s : DISPUTABLE_STATES s = bool_decide (s ∈ [FUNDED; SHIPPED; DELIVERED]).
Proof. by destruct s. Qed.

Section disputes.
Context {C : ContractApi} (env : Env) (w : World).
Context (HE : good_env env) (HI : Inv env w) (HR : db_reliable env).

Lemma wp_repo_load id {B} (k : option EscrowRecord -> Prog B) (Q : outcome B -> World -> Prop) :
  (forall w', Inv env w' -> unchanged w w' -> wp (k (toEscrowRecord <$> escrow_of w id)) env w' Q) ->
  wp (bind (EscrowRepo.findById id) k) env w Q.
Proof using HE HI HR.
  intros H. apply wp_bind, wp_findById; [done|done|].
  intros [[rec|]|e] w' HI' Hdb Haux Hf; simpl in Hf.
  - destruct Hf as (row & Hrow & ->). rewrite Hrow in H. by apply H.
  - rewrite Hf in H. by apply H.
  - by destruct (Hf HR).
Qed.

(** The row after the state change, everything else of it as before. *)
Definition moved (s : EscrowState) (now : Z) (row : PrismaEscrow) : PrismaEscrow :=
  set_updatedAt now (set_state s row).

Lemma wp_set_state w1 id row s {B} (k : EscrowRecord -> Prog B) (Q : outcome B -> World -> Prop) :
  Inv env w1 -> db_escrows (w_db w1) = db_escrows (w_db w) -> escrow_of w id = Some row ->
  (forall now w2, Inv env w2 -> same_aux w1 w2 ->
     w_db w2 = set_escrows (<[id := moved s now row]> (db_escrows (w_db w1))) (w_db w1) ->
     wp (k (toEscrowRecord (moved s now row))) env w2 Q) ->
  wp (bind (write_through id (fun _ => set_state s)) k) env w1 Q.
Proof using HE HR.
  intros HI1 Hdb1 Hrow HQ. apply wp_bind, wp_write_through; [done|done|solve_update| |].
  - intros e w' _ _ _ Hn. destruct (Hn HR) as [Hnone _]. rewrite Hdb1 in Hnone. congruence.
  - intros now row0 w2 _ Hrow0 HI2 Haux row' Hdb2. rewrite Hdb1, Hrow in Hrow0. injection Hrow0 as <-. by apply HQ.
Qed.

(** ** Opening *)

Definition new_dispute (id : string) (dto : BuyerDispute.OpenDisputeDto) (now : Z) (cuid : string) : DisputeRecord :=
  mkDispute cuid id (BuyerDispute.od_reason dto) (coalesce (BuyerDispute.od_description dto) "")
    (coalesce (BuyerDispute.od_evidenceUrls dto) []) OPEN None now now.

(** Inserting the dispute: the outcome and the table. *)
Lemma wp_dispute_create w1 id dto (Q : outcome DisputeRecord -> World -> Prop) :
  Inv env w1 -> w_db w1 = w_db w -> (forall t, db_disputes (w_db w) !! env_uuid env t = None) ->
  is_Some (escrow_of w id) ->
  (has_dispute w id = true -> forall w2, Inv env w2 -> w_db w2 = w_db w -> same_aux w1 w2 ->
     Q (Throw (PrismaError "P2002")) w2) ->
  (has_dispute w id = false -> forall now cuid w2, Inv env w2 -> same_aux w1 w2 ->
     w_db w2 = set_disputes (<[cuid := new_dispute id dto now cuid]> (db_disputes (w_db w))) (w_db w) ->
     Q (Ok (new_dispute id dto now cuid)) w2) ->
  wp (DisputeRepository.create id (BuyerDispute.od_reason dto) (BuyerDispute.od_description dto)
        (Some (coalesce (BuyerDispute.od_evidenceUrls dto) [])) None) env w1 Q.
Proof using HE HR.
  intros HI1 Hdb1 Hfresh Hesc Hdup Hok. unfold DisputeRepository.create, dispute_create.
  apply wp_await. rewrite db_call_reliable by done. cbv zeta. rewrite Hdb1.
  set (now := env_now env (w_tick w1)). set (cuid := env_uuid env (w_tick w1)).
  cbn [d_id d_escrowId]. rewrite (bool_decide_false (is_Some (db_disputes (w_db w) !! cuid)))
    by (unfold cuid; rewrite Hfresh; by intros [? ?]).
  unfold has_dispute in *. destruct (existsb _ _).
  - apply Hdup; [done| |done|done]. eapply inv_frame; [exact HI1| |done]. simpl. by rewrite Hdb1.
  - rewrite bool_decide_true by done. apply (Hok eq_refl now cuid); [|done|done]. eapply inv_frame; [exact HI1| |done].
    simpl. by rewrite Hdb1.
Qed.

(** C23. Opening a dispute answers 404 for an unknown
    escrow, 403 to anyone but the buyer, the vendor or the admin, 409 when the
    escrow is DISPUTED already or not in a disputable state, and is rejected by
    the unique key when a dispute row exists, each without a write.  Otherwise
    one OPEN dispute with the given reason and evidence is inserted, the escrow
    becomes DISPUTED, and two notices of the updated record are started: the
    dispute notice of the vendor, then the one of the operator. *)
Theorem open_dispute_correct id caller dto :
  (forall t, db_disputes (w_db w) !! env_uuid env t = None) ->
  wp (BuyerDispute.openDispute id caller dto) env w (fun r w' =>
    match escrow_of w id with
    | None => (exists m, r = Throw (NotFoundException m)) /\ unchanged w w'
    | Some row =>
        if negb (party (bool_decide (env_config env "ADMIN_ADDRESS" = Some caller)) caller row) then
          (exists m, r = Throw (ForbiddenException m)) /\ unchanged w w'
        else if bool_decide (e_state row = DISPUTED) || negb (bool_decide (e_state row ∈ [FUNDED; SHIPPED; DELIVERED])) then
          (exists m, r = Throw (ConflictException m)) /\ unchanged w w'
        else if has_dispute w id then r = Throw (PrismaError "P2002") /\ unchanged w w'
        else exists now cuid now',
          let d := new_dispute id dto now cuid in
          let row' := moved DISPUTED now' row in
          (exists resp, r = Ok resp /\ BuyerDispute.dr_id resp = cuid /\ BuyerDispute.dr_status resp = OPEN) /\
          db_disputes (w_db w') = <[cuid := d]> (db_disputes (w_db w)) /\
          db_escrows (w_db w') = <[id := row']> (db_escrows (w_db w)) /\
          w_outbox w' = w_outbox w ++ [mkNotice NDisputed (toEscrowRecord row'); mkAdminNotice (toEscrowRecord row')]
    end).
Proof using HE HI HR.
  intros Hfresh. apply wp_repo_load. intros w1 HI1 Hun.
  destruct (escrow_of w id) as [row|] eqn:Hrow; cbn [fmap option_fmap option_map]; [|refused].
  apply wp_bind, wp_await. cbn [fst snd]. rewrite involved_party, disputable_states.
  destruct (party _ caller row); cbn [negb toEscrowRecord e_state]; [|refused].
  destruct (bool_decide (e_state row = DISPUTED)); [refused|]. cbn [orb].
  destruct (bool_decide (e_state row ∈ _)); cbn [negb]; [|refused].
  destruct Hun as [Hdb1 Haux1].
  apply wp_bind, wp_dispute_create; [done|done|done|by rewrite Hrow| |].
  - intros -> w2 _ Hdb2 Haux2. split; [done|]. split; [done|by etrans].
  - intros -> now cuid w2 HI2 Haux2 Hdb2. unfold updateState.
    apply (wp_set_state w2 id row DISPUTED); [done|by rewrite Hdb2|done|].
    intros now' w3 HI3 Haux3 Hdb3. apply wp_bind, wp_await, wp_bind, wp_await, wp_await.
    exists now, cuid, now'. split_and!.
    + by eexists.
    + simpl. by rewrite Hdb3, Hdb2.
    + simpl. by rewrite Hdb3, Hdb2.
    + simpl. rewrite (aux_outbox _ _ Haux3), (aux_outbox _ _ Haux2), (aux_outbox _ _ Haux1). by rewrite <- app_assoc.
Qed.

(** ** Resolving *)

(** The state and the notification a resolution leads to. *)
Definition outcome_of (resolution : Resolution) : EscrowState * NotificationType :=
  match resolution with RELEASE => (COMPLETED, NCompleted) | REFUND => (REFUNDED, NRefunded) end.

Definition open_dispute (id : string) : option DisputeRecord :=
  List.find (AdminDispute.is_open id) (dispute_rows (w_db w)).

(** The dispute table after the resolution. *)
Definition disputes_resolved (id : string) (now : Z) : gmap string DisputeRecord :=
  match open_dispute id with
  | Some d => <[d_id d := EscrowService.resolve_row now d]> (db_disputes (w_db w))
  | None => db_disputes (w_db w)
  end.

Lemma wp_close_dispute w1 id {B} (k : unit -> Prog B) (Q : outcome B -> World -> Prop) :
  Inv env w1 -> w_db w1 = w_db w -> (forall i d, db_disputes (w_db w) !! i = Some d -> d_id d = i) ->
  (forall now w2, Inv env w2 -> same_aux w1 w2 -> w_db w2 = set_disputes (disputes_resolved id now) (w_db w) ->
     wp (k tt) env w2 Q) ->
  wp (let* dispute := DisputeRepository.findFirst (AdminDispute.is_open id) in
      bind (match dispute with
            | Some dispute => DisputeRepository.update (d_id dispute) EscrowService.resolve_row ;;; Ret tt
            | None => Ret tt
            end) k) env w1 Q.
Proof using HE HR.
  intros HI1 Hdb1 Hids HQ. apply wp_bind, wp_await. unfold dispute_findFirst. rewrite db_call_reliable by done.
  cbn [fst snd]. rewrite Hdb1. fold (open_dispute id). set (w2 := set_db (w_db w) (tick w1)).
  assert (HI2 : Inv env w2) by (eapply inv_frame; [exact HI1| |done]; simpl; by rewrite Hdb1).
  unfold disputes_resolved in HQ. destruct (open_dispute id) as [d|] eqn:Hd.
  - apply wp_bind, wp_bind. unfold DisputeRepository.update, dispute_update.
    apply wp_await. rewrite db_call_reliable by done. cbn [fst snd]. change (w_db w2) with (w_db w).
    assert (Hrow : db_disputes (w_db w) !! d_id d = Some d).
    { apply find_some in Hd as [Hin _]. unfold dispute_rows in Hin. rewrite <- list_elem_of_In in Hin.
      apply list_elem_of_fmap in Hin as ([i d'] & -> & Hi%elem_of_map_to_list). simpl in *.
      by rewrite (Hids _ _ Hi). }
    rewrite Hrow. apply wp_ret. apply (HQ (env_now env (w_tick w2))); [|done|done].
    eapply inv_frame; [exact HI2|done|done].
  - apply wp_bind, wp_ret. apply (HQ 0%Z); [done|done|]. simpl. by destruct (w_db w).
Qed.

(** C22. Resolving answers 404 for an unknown escrow and
    409 for one that is not DISPUTED, has no contract id, or when no admin
    address is configured, without a write.  Otherwise the resolution is
    submitted to the contract first: if that fails, the error is passed on and
    the database is untouched; if it succeeds, the open dispute row becomes
    RESOLVED, the escrow COMPLETED (release) or REFUNDED (refund), and one
    notification of that kind is started. *)
Theorem resolve_dispute_correct id resolution :
  (forall i d, db_disputes (w_db w) !! i = Some d -> d_id d = i) ->
  wp (AdminDispute.resolve id resolution) env w (fun r w' =>
    match escrow_of w id with
    | None => (exists m, r = Throw (NotFoundException m)) /\ unchanged w w'
    | Some row =>
        match bool_decide (e_state row = DISPUTED), e_contractEscrowId row,
              truthy (env_config env "ADMIN_ADDRESS") with
        | true, Some cid, true =>
            exists w1 o w2, w_db w1 = w_db w /\
            run (resolveDispute cid resolution (coalesce (env_config env "ADMIN_ADDRESS") "")) env w1 = (o, w2) /\
            match o with
            | Throw e => r = Throw e /\ w_db w' = w_db w
            | Ok _ => exists now now',
                let row' := moved (outcome_of resolution).1 now' row in
                r = Ok (toEscrowRecord row') /\
                w_db w' = set_escrows (<[id := row']> (db_escrows (w_db w)))
                            (set_disputes (disputes_resolved id now) (w_db w)) /\
                w_outbox w' = w_outbox w ++ [mkNotice (outcome_of resolution).2 (toEscrowRecord row')]
            end
        | _, _, _ => (exists m, r = Throw (ConflictException m)) /\ unchanged w w'
        end
    end).
Proof using HE HI HR.
  intros Hids. apply wp_repo_load. intros w1 HI1 Hun.
  destruct (escrow_of w id) as [row|] eqn:Hrow; cbn [fmap option_fmap option_map]; [|refused].
  cbn [toEscrowRecord e_state e_contractEscrowId].
  destruct (bool_decide (e_state row = DISPUTED)) eqn:Hst; cbn [negb]; cycle 1.
  { destruct (_ || _); refused. }
  b2p. rewrite Hst. cbn [bool_decide]. rewrite !bool_decide_false by done. cbn [orb].
  destruct (e_contractEscrowId row) as [cid|]; [|refused].
  apply wp_bind, wp_bind, wp_await. cbn [fst snd].
  destruct (truthy (env_config env "ADMIN_ADDRESS")); [|refused]. apply wp_ret.
  destruct Hun as [Hdb1 Haux1].
  apply wp_bind. unfold wp at 1.
  set (call := resolveDispute cid resolution _).
  assert (Hq : quiet_step w1 (run call env w1).2) by (apply every_run; [apply _|apply resolveDispute_quiet]).
  assert (HI2 : Inv env (run call env w1).2) by (eapply off_escrow_inv; [by apply quiet_off_escrow|done]).
  destruct (run call env w1) as [o w2] eqn:Hrun. cbn [fst snd] in *.
  assert (Hdb2 : w_db w2 = w_db w) by (rewrite (q_db _ _ Hq); done).
  destruct o as [h|e]; [|by exists w1, (Throw e), w2].
  apply (wp_close_dispute w2 id); [done|done|done|]. intros now w3 HI3 Haux3 Hdb3.
  assert (Hmove : forall s t, outcome_of resolution = (s, t) ->
    wp (bind (write_through id (fun _ => set_state s)) (fun result => notify t result ;;; Ret result)) env w3
      (fun r w' => exists now', r = Ok (toEscrowRecord (moved s now' row)) /\
         w_db w' = set_escrows (<[id := moved s now' row]> (db_escrows (w_db w)))
                     (set_disputes (disputes_resolved id now) (w_db w)) /\
         w_outbox w' = w_outbox w ++ [mkNotice t (toEscrowRecord (moved s now' row))])).
  { intros s t _. apply (wp_set_state w3 id row s); [done|by rewrite Hdb3|done|].
    intros now' w4 _ Haux4 Hdb4. apply wp_bind, wp_await, wp_ret. exists now'. split_and!; [done| |].
    - simpl. by rewrite Hdb4, Hdb3.
    - simpl. by rewrite (aux_outbox _ _ Haux4), (aux_outbox _ _ Haux3), (q_outbox _ _ Hq), (aux_outbox _ _ Haux1). }
  destruct resolution; (eapply wp_mono; [by eapply Hmove|]); intros r w' (now' & Hr);
    exists w1, (Ok h), w2; (split_and!; [done|done|]); by exists now, now'.
Qed.
End disputes.

(** ** Instances *)

Lemma open_dispute_correct_witness :
  wp (BuyerDispute.openDispute "E" "GBUYER" (BuyerDispute.mkOpenDisputeDto "broken" None None)) demo_env
    (demo_world [demo_row "E" SHIPPED]) (fun r w' => exists resp, r = Ok resp /\ BuyerDispute.dr_status resp = OPEN).
Proof.
  eapply wp_mono; [apply (open_dispute_correct demo_env (demo_world [demo_row "E" SHIPPED]) (demo_good _ _)
    (demo_world_inv [demo_row "E" SHIPPED] ltac:(demo_rows)) (demo_reliable _) "E" "GBUYER"
    (BuyerDispute.mkOpenDisputeDto "broken" None None)); intros t; done|].
  intros r w' (now & cuid & now' & (resp & Hr & _ & Hs) & _). by exists resp.
Defined.

Lemma resolve_dispute_correct_witness :
  wp (AdminDispute.resolve "E" REFUND) demo_env (demo_world [demo_row "E" DISPUTED])
    (fun r w' => (exists now, r = Ok (toEscrowRecord (moved REFUNDED now (demo_row "E" DISPUTED)))) \/
       exists e, r = Throw e).
Proof.
  eapply wp_mono; [apply (resolve_dispute_correct demo_env (demo_world [demo_row "E" DISPUTED]) (demo_good _ _)
    (demo_world_inv [demo_row "E" DISPUTED] ltac:(demo_rows)) (demo_reliable _) "E" REFUND);
    intros i d Hd; vm_compute in Hd; discriminate|].
  intros r w' (w1 & o & w2 & _ & _ & H). destruct o as [h|e]; [left|right].
  - destruct H as (now & now' & -> & _). by exists now'.
  - destruct H as [-> _]. by exists e.
Defined.
