(* ===== verification/Parallel.v ===== *)
(** * Reasoning about parallel programs

    A rely-guarantee logic for [par] and [promiseAll]: [safe] says that a
    program, started in a world and interrupted before each of its atoms by
    any steps of a guarantee [G], itself only makes steps of [G] and ends in
    its postcondition.  Used for the bounded concurrency of the tracking
    poll. *)
From S2P Require Import Prelude Records Text Tables Effects.
Local Open Scope prog_scope.

Section safe.
Context (env : Env) (G : World -> World -> Prop) `{!PreOrder G}.
Context (G_tick : forall w, G w (tick w)).

Fixpoint safe {A} (Q : outcome A -> World -> Prop) (m : Prog A) (w : World) : Prop :=
  match m with
  | Ret a => Q (Ok a) w
  | Raise e => Q (Throw e) w
  | Atom X f k => forall w', G w w' ->
      G w' (f env w').2 /\ safe Q (k (f env w').1) (f env w').2
  end.

(** The interference of other programs cannot falsify it. *)
Definition stable {A} (Q : outcome A -> World -> Prop) : Prop :=
  forall r w w', Q r w -> G w w' -> Q r w'.

Lemma safe_stable {A} (Q : outcome A -> World -> Prop) m w w' :
  stable Q -> safe Q m w -> G w w' -> safe Q m w'.
Proof using PreOrder0.
  intros HQ. destruct m as [a|e|X f k]; simpl; [by intros; eapply HQ..|].
  intros H Hw w'' Hw''. apply H. by etrans.
Qed.

Lemma safe_run {A} (Q : outcome A -> World -> Prop) m w :
  safe Q m w -> Q (run m env w).1 (run m env w).2.
Proof using PreOrder0.
  revert w. induction m as [a|e|X f k IH]; intros w; [done|done|]. intros H.
  destruct (H w) as [_ Hk]; [done|]. unfold run; fold (@run A).
  destruct (f env w) as [r w1]. by apply IH.
Qed.

Lemma safe_mono {A} (Q Q' : outcome A -> World -> Prop) m w :
  (forall r w, Q r w -> Q' r w) -> safe Q m w -> safe Q' m w.
Proof using.
  intros HQ. revert w. induction m as [a|e|X f k IH]; intros w; simpl; [auto|auto|].
  intros H w' Hw. destruct (H w' Hw). auto.
Qed.

Lemma safe_bind {A B} (Q : outcome B -> World -> Prop) (m : Prog A) (k : A -> Prog B) w :
  safe (fun r w' => match r with Ok a => safe Q (k a) w' | Throw e => Q (Throw e) w' end) m w ->
  safe Q (bind m k) w.
Proof using.
  revert w. induction m as [a|e|X f h IH]; intros w; unfold bind; fold (@bind A B); simpl; [done|done|].
  intros H w' Hw. destruct (H w' Hw). auto.
Qed.

Lemma safe_catch {A} (Q : outcome A -> World -> Prop) (m : Prog A) h w :
  safe (fun r w' => match r with Ok a => Q (Ok a) w' | Throw e => safe Q (h e) w' end) m w ->
  safe Q (catch m h) w.
Proof using.
  revert w. induction m as [a|e|X f k IH]; intros w; unfold catch; fold (@catch A); simpl; [done|done|].
  intros H w' Hw. destruct (H w' Hw). auto.
Qed.

Lemma safe_await {X} (f : Action X) (Q : outcome X -> World -> Prop) w :
  (forall w', G w w' -> G w' (f env w').2 /\ Q (f env w').1 (f env w').2) -> safe Q (await f) w.
Proof using.
  intros H w' Hw. destruct (H w' Hw) as [HG HQ]. split; [done|]. by destruct (f env w').1.
Qed.

(** A program whose atoms all make steps of [G] keeps what is stable. *)
Lemma safe_every {A} (P : World -> Prop) (R : World -> World -> Prop) (m : Prog A) w :
  (forall w w', R w w' -> G w w') -> (forall w w', P w -> G w w' -> P w') -> every R m -> P w ->
  safe (fun _ => P) m w.
Proof using.
  intros HR HP. revert w. induction m as [a|e|X f k IH]; intros w; [done|done|].
  intros [Hf Hk] Hw w' Hw'. assert (HG : G w' (f env w').2) by apply HR, Hf.
  split; [done|]. apply IH; [done|]. eauto.
Qed.

(** ** Parallel composition *)

(** Both succeed, and what each establishes holds at the end. *)
Definition succeeds (P : World -> Prop) (r : outcome unit) (w : World) : Prop := r = Ok tt /\ P w.

Context (P1 P2 : World -> Prop).
Context (S1 : forall w w', P1 w -> G w w' -> P1 w') (S2 : forall w w', P2 w -> G w w' -> P2 w').
Abbreviation both := (fun w => P1 w /\ P2 w).

Lemma succeeds_stable (P : World -> Prop) : (forall w w', P w -> G w w' -> P w') -> stable (succeeds P).
Proof using. intros HP r w w' [-> H] Hw. split; [done|eauto]. Qed.

Lemma safe_frame_l m w : P1 w -> safe (succeeds P2) m w -> safe (succeeds both) m w.
Proof using S1 PreOrder0.
  revert w. induction m as [a|e|X f k IH]; intros w H1; simpl; [intros [? ?]; split; [done|by split]..|].
  intros H w' Hw. destruct (H w' Hw) as [HG Hk]. split; [done|]. apply IH; [|done].
  eapply S1; [exact H1|]. by etrans.
Qed.

Lemma safe_frame_r m w : P2 w -> safe (succeeds P1) m w -> safe (succeeds both) m w.
Proof using S2 PreOrder0.
  revert w. induction m as [a|e|X f k IH]; intros w H1; simpl; [intros [? ?]; split; [done|by split]..|].
  intros H w' Hw. destruct (H w' Hw) as [HG Hk]. split; [done|]. apply IH; [|done].
  eapply S2; [exact H1|]. by etrans.
Qed.

Lemma safe_par m1 m2 w :
  safe (succeeds P1) m1 w -> safe (succeeds P2) m2 w -> safe (succeeds both) (par m1 m2) w.
Proof using S1 S2 G_tick PreOrder0.
  revert m2 w. induction m1 as [[]|e|X1 f1 k1 IH1]; intros m2 w H1 H2.
  - destruct m2; apply safe_frame_l; first [done | apply H1].
  - by destruct H1.
  - revert w H1 H2. induction m2 as [[]|e|X2 f2 k2 IH2]; intros w H1 H2.
    + apply safe_frame_r; [apply H2|done].
    + by destruct H2.
    + intros w' Hw'. split; [apply G_tick|]. cbn [fst snd schedule turn].
      assert (HG : G w (tick w')) by (etrans; [exact Hw'|apply G_tick]).
      pose proof (succeeds_stable P1 S1) as T1. pose proof (succeeds_stable P2 S2) as T2.
      destruct (env_sched env (w_tick w')).
      * intros w2 Hw2. assert (HG2 : G w w2) by (by etrans). destruct (H1 w2 HG2) as [Hf Hk].
        split; [done|]. apply IH1; [done|]. eapply safe_stable; [exact T2|exact H2|by etrans].
      * intros w2 Hw2. assert (HG2 : G w w2) by (by etrans). destruct (H2 w2 HG2) as [Hf Hk].
        split; [done|]. apply IH2; [|done]. eapply safe_stable; [exact T1|exact H1|by etrans].
Qed.
End safe.

(** [Promise.all] of copies of one program. *)
Lemma safe_promiseAll env G `{!PreOrder G} (P : World -> Prop) m n w :
  (forall w, G w (tick w)) -> (forall w w', P w -> G w w' -> P w') -> (0 < n)%nat ->
  safe env G (succeeds P) m w -> safe env G (succeeds P) (promiseAll (replicate n m)) w.
Proof.
  intros Ht HP Hn Hm. destruct n as [|n]; [lia|]. clear Hn. unfold promiseAll. simpl.
  assert (Hrest : safe env G (succeeds (fun _ => True)) (foldr par (Ret tt) (replicate n m)) w).
  { induction n as [|n IH]; simpl; [done|].
    eapply safe_mono; [|apply (safe_par env G Ht P (fun _ => True)); eauto]. by intros r w' [-> _]. }
  eapply safe_mono; [|apply (safe_par env G Ht P (fun _ => True)); eauto].
  intros r w' (-> & Hp & _). by split.
Qed.
