(* ===== verification/WorkerSpec.v ===== *)
(** * The periodic workers

    The tracking poll hands every shipment to exactly one of its parallel
    loops whatever the schedule; the auto-release worker keeps its claim
    exactly when the release was submitted and recorded. *)
From S2P Require Import Prelude Records Dates Text Tables Effects Logistics Cache Prisma EscrowRepo Coherence Demo Contract Lifecycle EscrowSvc EscrowSound EscrowSpec QuerySpec SyncSpec Disputes Workers WorkersSound Parallel.
Local Open Scope prog_scope.

(** ** Bounded concurrency *)

Section concurrency.
Context (env : Env) (items : list EscrowRecord) (worker : EscrowRecord -> Prog unit).

(** The items taken so far are a prefix of the list. *)
Definition prefix_taken (w : World) : Prop :=
  w_started w = take (w_index w) (e_id <$> items) /\ w_index w <= length items.

(** The index only grows, and the items taken stay a prefix. *)
Definition index_step (w w' : World) : Prop :=
  w_index w <= w_index w' /\ (prefix_taken w -> prefix_taken w').

#[local] Instance index_step_preorder : PreOrder index_step.
Proof. unfold index_step. split; [done|]. intros w1 w2 w3 [] []. split; [lia|auto]. Qed.

Definition keeps_index (w w' : World) : Prop := w_index w' = w_index w /\ w_started w' = w_started w.

Context (Hworker : forall item, every keeps_index (worker item)).

Lemma keeps_index_step w w' : keeps_index w w' -> index_step w w'.
Proof. intros [Hi Hs]. unfold index_step, prefix_taken. by rewrite Hi, Hs. Qed.

(** What a loop needs: enough rounds for the items that are left. *)
Definition enough (fuel : nat) (w : World) : Prop := prefix_taken w /\ length items < fuel + w_index w.
Definition finished (w : World) : Prop := prefix_taken w /\ w_index w = length items.

Lemma enough_stable fuel w w' : enough fuel w -> index_step w w' -> enough fuel w'.
Proof. intros [Hp Hl] [Hi Hw]. split; [auto|lia]. Qed.

Lemma finished_stable w w' : finished w -> index_step w w' -> finished w'.
Proof.
  intros [Hp Hl] [Hi Hw]. pose proof (Hw Hp) as Hp'. split; [done|]. destruct Hp'. lia.
Qed.

Lemma safe_next fuel w : enough fuel w -> safe env index_step (succeeds finished) (TrackingPoll.next fuel items worker) w.
Proof using Hworker.
  revert w. induction fuel as [|fuel IH]; intros w Hen.
  { destruct Hen as [[_ ?] ?]. lia. }
  cbn [TrackingPoll.next]. apply safe_bind, safe_await. intros w1 Hw1.
  destruct (enough_stable _ _ _ Hen Hw1) as [[Hst Hix] Hl].
  unfold TrackingPoll.take_next. destruct (items !! w_index w1) as [item|] eqn:Hitem; cbn [fst snd].
  - assert (Hlt : w_index w1 < length items) by (by eapply lookup_lt_Some).
    assert (Hnext : prefix_taken (set_index (S (w_index w1)) (w_started w1 ++ [e_id item]) w1)).
    { split; simpl; [|lia]. rewrite Hst. erewrite take_S_r; [done|]. by rewrite list_lookup_fmap, Hitem. }
    split; [split; simpl; [lia|done]|].
    apply safe_bind, safe_catch. eapply safe_mono; cycle 1.
    { apply (safe_every env index_step (enough fuel) keeps_index);
        [apply keeps_index_step|apply enough_stable|apply Hworker|]. split; [done|]. simpl. lia. }
    intros r w2 H. destruct r; by apply IH.
  - apply lookup_ge_None in Hitem. split; [done|]. split; [done|]. split; [by split|lia].
Qed.

End concurrency.

Section contract.
Context {C : ContractApi}.

Lemma keeps_index_call {X} (f : Z -> string -> Db -> outcome X * Db) : every keeps_index (await (db_call f)).
Proof. apply every_await. intros env w. by destruct (db_call_cases f env w) as [(e & _ & ->)| ->]. Qed.

Lemma keeps_index_quiet {A} (m : Prog A) : every quiet_step m -> every keeps_index m.
Proof. apply every_mono. intros w w' Hq. split; [apply (q_index _ _ Hq)|apply (q_started _ _ Hq)]. Qed.

Lemma processShipment_keeps_index e : every keeps_index (TrackingPoll.processShipment e).
Proof.
  unfold TrackingPoll.processShipment, TrackingPoll.record_and_mark, Logistics.getStatus, GiglClient.fetchTracking,
    TrackingPoll.requireAdminAddress, claimDelivery, clearDeliveryClaim, markDelivered, markTrackingChecked,
    write_through, invalidate, cache_del, notify, ask.
  walk_every ltac:(idtac; first [apply keeps_index_call | apply keeps_index_quiet, recordDelivery_quiet
    | apply every_await; intros; unfold keeps_index, cache_del_action; by repeat case_match]).
Qed.

(** ** Auto-release *)

Definition skipped (rec : EscrowRecord) : bool :=
  TERMINAL_STATES (e_state rec) || truthy (e_autoReleaseTxHash rec) || bool_decide (e_contractEscrowId rec = None).

Definition disputed (w : World) (id : string) : bool :=
  match List.find (fun d => bool_decide (d_escrowId d = id)) (dispute_rows (w_db w)) with Some _ => true | None => false end.

Section step.
Context (env : Env) (HE : good_env env) (HR : db_reliable env).

(** A write to a row that is there. *)
Lemma wp_row w id row f (Q : outcome EscrowRecord -> World -> Prop) :
  Inv env w -> escrow_of w id = Some row -> good_update f ->
  (forall now w', let row' := set_updatedAt now (f now row) in
     Inv env w' -> escrow_of w' id = Some row' -> same_aux w w' -> Q (Ok (toEscrowRecord row')) w') ->
  wp (write_through id f) env w Q.
Proof using HE HR.
  intros HI Hrow Hf HQ. apply wp_write_through; [done|done|done| |].
  - intros e w' _ _ _ Hn. destruct (Hn HR) as [Hnone _]. congruence.
  - intros now row0 w' _ Hrow0 HI' Haux row' Hdb'. rewrite Hrow in Hrow0. injection Hrow0 as <-.
    apply HQ; [done| |done]. rewrite Hdb'. simpl. apply lookup_insert_eq.
Qed.

(** The claimed part, from a row that carries the claim. *)
Lemma wp_submit_and_record w1 row1 id cid source (Q : outcome bool -> World -> Prop) :
  Inv env w1 -> escrow_of w1 id = Some row1 ->
  env_config env "AUTO_RELEASE_SOURCE_ADDRESS" = Some source -> source <> "" ->
  (forall o w2 w' r row', run (submitAutoRelease cid source) env w1 = (o, w2) ->
     escrow_of w' id = Some row' -> e_state row' = e_state row1 ->
     match o with
     | Ok txHash => r = Ok true /\ e_autoReleaseTxHash row' = Some txHash /\ e_autoReleaseSubmittedAt row' <> None
     | Throw e => r = Throw e /\ e_autoReleaseTxHash row' = e_autoReleaseTxHash row1 /\
                  e_autoReleaseSubmittedAt row' = None
     end -> Q r w') ->
  wp (AutoRelease.submit_and_record id cid) env w1 Q.
Proof using HE HR.
  intros HI1 Hrow1 Hsrc Hne HQ. unfold AutoRelease.submit_and_record, AutoRelease.requireAutoReleaseSource.
  apply wp_catch, wp_bind, wp_bind, wp_await. cbn [fst snd]. rewrite Hsrc.
  replace (truthy (Some source)) with true by (simpl; by rewrite bool_decide_false). apply wp_ret. cbn [coalesce].
  apply wp_bind. unfold wp at 1. set (call := submitAutoRelease cid source) in *.
  assert (Hq : quiet_step w1 (run call env w1).2) by (apply every_run; [apply _|apply submitAutoRelease_quiet]).
  assert (HI2 : Inv env (run call env w1).2) by (eapply off_escrow_inv; [by apply quiet_off_escrow|done]).
  destruct (run call env w1) as [o w2] eqn:Hrun. cbn [fst snd] in *.
  assert (Hrow2 : escrow_of w2 id = Some row1) by (rewrite (q_db _ _ Hq); done).
  destruct o as [txHash|e].
  - apply wp_bind, (wp_row w2 id row1); [done|done|solve_update|]. intros now w3 row3 _ Hrow3 _. apply wp_ret.
    by eapply (HQ (Ok txHash) w2 w3 (Ok true) row3).
  - apply wp_bind, (wp_row w2 id row1); [done|done|solve_update|]. intros now w3 row3 _ Hrow3 _. apply wp_raise.
    by eapply (HQ (Throw e) w2 w3 (Throw e) row3).
Qed.

(** C20. The auto-release of one escrow
    does nothing when it is disputed, terminal, already released or unmapped,
    or when another worker holds the claim.  Otherwise it claims the row before
    it calls the contract; if the submission succeeds, the row carries the
    transaction hash and keeps the claim, and if it fails, the claim is
    released and the error is passed on, so the next cycle tries again. *)
Theorem auto_release_claim_matches_submission w rec row source :
  Inv env w -> escrow_of w (e_id rec) = Some row ->
  env_config env "AUTO_RELEASE_SOURCE_ADDRESS" = Some source -> source <> "" ->
  wp (AutoRelease.processEscrow rec) env w (fun r w' =>
    if disputed w (e_id rec) || skipped rec || negb (bool_decide (e_autoReleaseSubmittedAt row = None)) then
      r = Ok false /\ w_db w' = w_db w /\ w_chain w' = w_chain w
    else
      exists w1 o w2 row', run (submitAutoRelease (coalesce (e_contractEscrowId rec) 0%Z) source) env w1 = (o, w2) /\
        (exists row1, escrow_of w1 (e_id rec) = Some row1 /\ e_autoReleaseSubmittedAt row1 <> None) /\
        escrow_of w' (e_id rec) = Some row' /\ e_state row' = e_state row /\
        match o with
        | Ok txHash => r = Ok true /\ e_autoReleaseTxHash row' = Some txHash /\ e_autoReleaseSubmittedAt row' <> None
        | Throw e => r = Throw e /\ e_autoReleaseTxHash row' = e_autoReleaseTxHash row /\
                     e_autoReleaseSubmittedAt row' = None
        end).
Proof using HE HR.
  intros HI Hrow Hsrc Hne. unfold AutoRelease.processEscrow, DisputeRepository.findByEscrow.
  apply wp_bind, wp_await. unfold dispute_findFirst. rewrite db_call_reliable by done. cbn [fst snd].
  unfold disputed. destruct (List.find _ _); [by apply wp_ret|]. cbn [orb]. set (w0 := set_db _ _).
  assert (HI0 : Inv env w0) by (by eapply inv_frame). unfold skipped.
  destruct (TERMINAL_STATES (e_state rec) || truthy (e_autoReleaseTxHash rec)); [by apply wp_ret|]. cbn [orb].
  destruct (e_contractEscrowId rec) as [cid|]; [|by apply wp_ret].
  rewrite (bool_decide_false (Some cid = None)) by done. cbn [coalesce orb].
  apply wp_bind, wp_markAutoReleaseSubmitting; [done|done| |].
  - intros [[x|]|e] w1 _ Haux Hdb Hres; [done| |by destruct (Hres HR)]. apply wp_ret.
    rewrite (bool_decide_false (e_autoReleaseSubmittedAt row = None)) by (by apply Hres).
    split_and!; [done|by rewrite Hdb|by rewrite (aux_chain _ _ Haux)].
  - intros now row0 r w1 _ Hrow0 Hnull HI1 Haux1 row1 Hdb1 Hres.
    change (escrow_of w0 (e_id rec)) with (escrow_of w (e_id rec)) in Hrow0. rewrite Hrow in Hrow0. injection Hrow0 as <-.
    destruct r as [[x|]|e]; [|done|by destruct (Hres HR)]. clear Hres.
    rewrite (bool_decide_true (e_autoReleaseSubmittedAt row = None)) by done. cbn [negb].
    assert (Hrow1 : escrow_of w1 (e_id rec) = Some row1) by (rewrite Hdb1; apply lookup_insert_eq).
    apply (wp_submit_and_record w1 row1 (e_id rec) cid source); try done.
    intros o w2 w' r row' Hrun Hrow' Hst Hend. exists w1, o, w2, row'.
    split_and!; [done|by exists row1|done|by rewrite Hst|]. by destruct o.
Qed.
End step.
End contract.

(** ** Instances and faults *)


Lemma delivered_inv : Inv demo_env (demo_world [delivered_row "E"]).
Proof. apply (demo_inv _ [delivered_row "E"]), Forall_singleton, delivered_row_dates. Qed.

Lemma auto_release_claim_matches_submission_witness :
  wp (AutoRelease.processEscrow (C := demo_chain) (toEscrowRecord (delivered_row "E"))) demo_env
    (demo_world [delivered_row "E"])
    (fun r w' => r = Ok true /\ exists row', escrow_of w' "E" = Some row' /\ e_autoReleaseTxHash row' = Some "hash").
Proof.
  eapply wp_mono; [apply (auto_release_claim_matches_submission (C := demo_chain) demo_env (demo_good _ _)
    (demo_reliable _) (demo_world [delivered_row "E"]) (toEscrowRecord (delivered_row "E")) (delivered_row "E")
    "GSOURCE" delivered_inv eq_refl eq_refl); done|].
  intros r w' (w1 & o & w2 & row' & [= <- <-] & _ & Hrow' & _ & -> & Hh & _). split; [done|]. by exists row'.
Defined.

Definition auto_release_twice (fault : nat) : outcome bool * outcome bool * World :=
  after_fault fault (AutoRelease.processEscrow (toEscrowRecord (delivered_row "E")))
    (AutoRelease.processEscrow (toEscrowRecord (delivered_row "E"))) (demo_world [delivered_row "E"]).

(** When the release was submitted and confirmed
    but the write of its hash fails, the claim is released although the
    transaction is on chain, and the next cycle submits a second release of
    the same escrow. *)
Theorem record_failure_resubmits :
  let '(r1, r2, w2) := auto_release_twice 11 in
  r1 = Throw (PrismaError "P1001") /\ r2 = Ok true /\ length (w_chain w2) = 2%nat.
Proof. vm_compute. done. Qed.

(** The claim is set before the row is
    read back, and the read is outside the [try]: when it fails, nothing is
    submitted but the claim stays, so the next cycles skip the escrow and it is
    never released. *)
Theorem claim_read_failure_strands_escrow :
  let '(r1, r2, w2) := auto_release_twice 3 in
  r1 = Throw (PrismaError "P1001") /\ r2 = Ok false /\ w_chain w2 = [] /\
  e_autoReleaseSubmittedAt <$> escrow_of w2 "E" = Some (Some demo_now).
Proof. vm_compute. done. Qed.
