(* ===== verification/PeriodicSpec.v ===== *)
(** * Properties of the periodic jobs

    Cycles of one job never overlap, however their atoms interleave with each
    other and with the rest of the process, and a job that is switched off runs
    no cycle. *)
From S2P Require Import Prelude Records Dates Text Tables Effects Demo Cache Prisma EscrowRepo Contract EscrowSvc Disputes Logistics Workers Dlq Webhook Poller Periodic Concurrency.
Local Open Scope prog_scope.

(** ** What cycles do to the flags *)

Definition keeps_flags (w w' : World) : Prop := forall j, flag j w' = flag j w.

#[local] Instance keeps_flags_preorder : PreOrder keeps_flags.
Proof. split; [done|]. intros w1 w2 w3 H1 H2 j. by rewrite H2, H1. Qed.

Lemma keeps_call {X} (f : Z -> string -> Db -> outcome X * Db) : every keeps_flags (await (db_call f)).
Proof. apply every_await. intros env w. by destruct (db_call_cases f env w) as [(e & _ & ->)| ->]; intros []. Qed.

Lemma keeps_quiet {A} (m : Prog A) : every quiet_step m -> every keeps_flags m.
Proof. apply every_mono. intros w w' []. by intros []. Qed.

(** An atom on the cache or on the rest of the memory. *)
Ltac keeps_atom := apply every_await; intros; unfold keeps_flags, cache_get_action, cache_set_action, cache_del_action;
  repeat case_match; intros []; reflexivity.

Ltac keeps_walk := walk_every ltac:(idtac; first [apply keeps_call | keeps_atom | apply keeps_quiet; solve
  [apply recordDelivery_quiet | apply submitAutoRelease_quiet]]).

Section jobs.
Context {C : ContractApi}.

Lemma autoCycle_keeps t : every keeps_flags (AutoRelease.runCycle t).
Proof.
  unfold AutoRelease.runCycle. apply every_catch; [|done]. apply every_bind.
  { unfold findAutoReleaseEligible. keeps_walk. }
  intros eligible. apply every_bind; [|done]. induction eligible as [|e l IH]; cbn [AutoRelease.process_all]; [done|].
  apply every_bind; [apply every_attempt|intros r; apply every_bind; [exact IH|done]].
  unfold AutoRelease.processEscrow, AutoRelease.submit_and_record, AutoRelease.requireAutoReleaseSource,
    DisputeRepository.findByEscrow, markAutoReleaseSubmitting, recordAutoReleaseSubmission, clearAutoReleaseSubmitting,
    EscrowRepo.findById, findById_miss, write_through, invalidate, cache_get, cache_set, cache_del, ask.
  keeps_walk.
Qed.

Lemma trackCycle_keeps : every keeps_flags TrackingPoll.runCycle.
Proof.
  unfold TrackingPoll.runCycle. apply every_catch; [|done]. apply every_bind.
  { unfold findShippedWithTracking. keeps_walk. }
  intros shipments. unfold TrackingPoll.runWithConcurrency. apply every_bind; [keeps_walk|]. intros _.
  apply every_promiseAll; [by intros w []|]. apply Forall_replicate.
  induction (S (length shipments)) as [|n IH]; cbn [TrackingPoll.next]; [done|].
  apply every_bind; [unfold TrackingPoll.take_next; keeps_walk|]. intros [e|]; [|done].
  apply every_bind; [apply every_catch; [|done]|done].
  unfold TrackingPoll.processShipment, TrackingPoll.record_and_mark, Logistics.getStatus, GiglClient.fetchTracking,
    TrackingPoll.requireAdminAddress, claimDelivery, clearDeliveryClaim, markDelivered, markTrackingChecked,
    write_through, invalidate, cache_del, notify, ask.
  keeps_walk.
Qed.

(** The [try] of [pollInternal]. *)
Definition pollBody : Prog unit :=
  catch
    (let* cursor := Poller.load_cursor in
     let* rawEvents := Poller.fetchEvents cursor in
     match rawEvents with
     | [] => Poller.advance_quiet
     | _ =>
         let* lastPagingToken := Poller.process_batch rawEvents None in
         if truthy lastPagingToken then Cursor.set (coalesce lastPagingToken "") Cursor.DEFAULT_KEY else Ret tt
     end)
    (fun _ => Ret tt).

Lemma event_keeps raw : every keeps_flags (Poller.processEvent raw).
Proof.
  unfold Poller.processEvent, Poller.sync_failed, Poller.deadLetter, Dlq.enqueue, FailedTransactions.create,
    EscrowService.findIdByContractEscrowId, EscrowRepo.findIdByContractEscrowId,
    EscrowService.syncStateFromChain, EscrowService.sync_escrow, EscrowService.sync_dispute_raised,
    EscrowService.sync_dispute_resolved, EscrowService.skip, EscrowService.done_, EscrowRepo.findById,
    findById_miss, updateState, markShipped, markCompleted, markCancelled, markRefunded, markAutoReleased,
    write_through, invalidate, cache_get, cache_set, cache_del, notify, ask.
  keeps_walk.
Qed.

Lemma pollBody_keeps : every keeps_flags pollBody.
Proof.
  unfold pollBody. apply every_catch; [|done]. apply every_bind.
  { unfold Poller.load_cursor, Poller.resolveStartLedger, Poller.getLatestLedger, Cursor.get, Cursor.set, ask. keeps_walk. }
  intros cursor. apply every_bind; [unfold Poller.fetchEvents; keeps_walk|]. intros rawEvents.
  assert (Hbatch : forall tok, every keeps_flags (Poller.process_batch rawEvents tok)).
  { induction rawEvents as [|raw l IH]; intros tok; cbn [Poller.process_batch]; [done|].
    apply every_bind; [apply every_attempt, event_keeps|]. intros [[]|e]; [apply IH|done]. }
  destruct rawEvents as [|raw l].
  - unfold Poller.advance_quiet, Poller.getLatestLedger, Cursor.set. keeps_walk.
  - apply every_bind; [apply Hbatch|]. intros tok. unfold Cursor.set. keeps_walk.
Qed.

(** ** The stages of a cycle *)

Definition settled (p : Prog unit) : Prop := match p with Atom _ _ _ => False | _ => True end.

Definition keeps_other (j : Job) (w w' : World) : Prop := forall j', j' <> j -> flag j' w' = flag j' w.

(** Past its guard: every atom leaves the flag up, until one takes it down and
    ends the program. *)
Fixpoint working (j : Job) {A} (p : Prog A) : Prop :=
  match p with
  | Atom X f k => forall env w, flag j w = true ->
      keeps_other j w (f env w).2 /\
      (flag j (f env w).2 = true /\ working j (k (f env w).1) \/
       flag j (f env w).2 = false /\ match k (f env w).1 with Atom _ _ _ => False | _ => True end)
  | _ => False
  end.

Lemma working_bind {A B} j (p : Prog A) (k : A -> Prog B) :
  working j p -> (forall a, match k a with Atom _ _ _ => False | _ => True end) -> working j (bind p k).
Proof.
  intros Hp Hk. induction p as [a|e|X f g IH]; [done|done|]. intros env w Hf.
  destruct (Hp env w Hf) as [Ho [[Ht Hw]|[Hd Hs]]]; (split; [exact Ho|]); [left|right]; (split; [done|]).
  - by apply IH.
  - destruct (g (f env w).1); [apply Hk|done|done].
Qed.

Lemma working_attempt {A B} j (m : Prog A) (f : outcome A -> Prog B) :
  every keeps_flags m -> (forall r, working j (f r)) -> working j (bind (attempt m) f).
Proof.
  intros Hm Hf. induction m as [a|e|X g k IH]; [apply Hf|apply Hf|]. destruct Hm as [Hg Hk].
  intros env w Hw. specialize (Hg env w). split; [by intros j' _|]. left. split; [by rewrite Hg|]. by apply IH.
Qed.

(** [try { m } finally { this.flag = false }]. *)
Lemma working_finally {A} j (m : Prog A) (lower : World -> World) :
  every keeps_flags m -> (forall w, flag j (lower w) = false) -> (forall w, keeps_other j w (lower w)) ->
  working j (finally m (await (local lower))).
Proof.
  intros Hm Hd Ho. apply working_attempt; [done|]. intros r env w _. split; [apply Ho|right]. split; [apply Hd|]. by destruct r.
Qed.

(** The auto-release cycle when it has read the clock. *)
Definition after_clock (t : Z) : Prog unit :=
  let* _ :=
    (let* running := await (fun _ w => (Ok (w_autoRunning w), set_autoRunning true w)) in
     if running : bool then Ret None
     else
       let* s := finally (AutoRelease.runCycle t) (await (local (set_autoRunning false))) in
       Ret (Some s)) in
  Ret tt.

(** Not yet past its guard. *)
Inductive waiting : Job -> Prog unit -> Prop :=
| waiting_cycle j : waiting j (cycle j)
| waiting_guard t : waiting AutoReleaseJob (after_clock t).

(** Under way: past the guard and not settled. *)
Definition under_way (j : Job) (p : Prog unit) : Prop := ~ waiting j p /\ ~ settled p.

(** What the next atom of a waiting cycle does: nothing to any flag, or it
    finds the flag up and gives up, or it raises the flag and goes to work. *)
Lemma waiting_step j p env w p' w' :
  waiting j p -> advance p env w = Some (p', w') ->
  keeps_other j w w' /\
  (flag j w' = flag j w /\ waiting j p' \/
   flag j w = true /\ flag j w' = true /\ settled p' \/
   flag j w = false /\ flag j w' = true /\ working j p').
Proof.
  intros Hp Hadv. destruct Hp as [[]|t].
  - injection Hadv as <- <-. split; [done|]. left. split; [done|]. apply waiting_guard.
  - injection Hadv as <- <-. split; [by intros []|right]. cbn [flag]. destruct (w_trackRunning w); [by left|right].
    do 2 (split; [done|]). apply (working_bind TrackingJob (bind (finally _ _) (fun _ => Ret true))); [|done].
    apply working_bind; [|done]. apply working_finally; [apply trackCycle_keeps|done|by intros ? []].
  - injection Hadv as <- <-. split; [by intros []|right]. cbn [flag]. destruct (w_polling w); [by left|right].
    do 2 (split; [done|]). apply (working_finally PollJob pollBody); [apply pollBody_keeps|done|by intros ? []].
  - injection Hadv as <- <-. split; [by intros []|right]. cbn [flag]. destruct (w_autoRunning w); [by left|right].
    do 2 (split; [done|]). apply (working_bind AutoReleaseJob (bind (finally _ _) (fun s => Ret (Some s)))); [|done].
    apply working_bind; [|done]. apply working_finally; [apply autoCycle_keeps|done|by intros ? []].
Qed.

(** A waiting cycle is not at work: with the flag up it gives up. *)
Lemma waiting_not_working j p : waiting j p -> ~ working j p.
Proof.
  intros Hp Hw. set (w := set_autoRunning true (set_trackRunning true (set_polling true (demo_world [])))).
  assert (Hup : flag j w = true) by by destruct j.
  destruct Hp as [[]|t]; specialize (Hw demo_env w Hup) as [_ [[_ Hw]|[Hd _]]]; try done.
  specialize (Hw demo_env w Hup) as [_ [[_ Hw]|[Hd _]]]; done.
Qed.

(** ** The invariant of a process *)

(** [holder j] is the cycle of [j] under way. *)
Definition stage (holder : Job -> option nat) (i : nat) (jp : Job * Prog unit) : Prop :=
  waiting jp.1 jp.2 \/ settled jp.2 \/ (holder jp.1 = Some i /\ working jp.1 jp.2).

Record process_ok (config : string -> option string) (holder : Job -> option nat) (p : Process) : Prop := {
  ok_stage : forall i jp, pr_cycles p !! i = Some jp -> stage holder i jp;
  ok_flag : forall j, flag j (pr_world p) = true <-> is_Some (holder j);
  ok_holder : forall j i, holder j = Some i -> exists q, pr_cycles p !! i = Some (j, q) /\ working j q;
  ok_timer : forall j, pr_timer p j = true -> starts_timer config j = true;
  ok_started : forall i j q, pr_cycles p !! i = Some (j, q) -> starts_timer config j = true
}.

(** More cycles that wait. *)
Lemma process_ok_more config holder w timer timer' cycles new :
  process_ok config holder (mkProcess w timer cycles) ->
  (forall j, timer' j = true -> starts_timer config j = true) ->
  (forall jp, jp ∈ new -> waiting jp.1 jp.2 /\ starts_timer config jp.1 = true) ->
  process_ok config holder (mkProcess w timer' (cycles ++ new)).
Proof.
  intros [Hs Hf Hh _ Hst] Ht Hnew. split; cbn [pr_cycles pr_world pr_timer] in *; try done.
  - intros i jp [Hi|[_ Hi]]%lookup_app_Some; [by apply Hs|]. left. by apply Hnew, list_elem_of_lookup_2 with (i - length cycles).
  - intros j i (q & Hq & Hw)%Hh. exists q. split; [by apply lookup_app_l_Some|done].
  - intros i j q [Hi|[_ Hi]]%lookup_app_Some; [by eapply Hst|]. by apply (Hnew (j, q)), list_elem_of_lookup_2 with (i - length cycles).
Qed.

(** An atom of a cycle of [j]: the flags of other jobs stay, and the new holder
    of [j] agrees with its flag. *)
Lemma process_ok_atom config holder w timer cycles i j q q' w' h :
  process_ok config holder (mkProcess w timer cycles) -> cycles !! i = Some (j, q) ->
  keeps_other j w w' -> (flag j w' = true <-> is_Some h) ->
  (h = holder j /\ h <> Some i /\ (waiting j q' \/ settled q') \/ h = Some i /\ working j q' \/
   h = None /\ holder j = Some i /\ settled q') ->
  (h = Some i -> holder j = None \/ holder j = Some i) ->
  process_ok config (fun j' => if decide (j' = j) then h else holder j') (mkProcess w' timer (<[i := (j, q')]> cycles)).
Proof.
  intros [Hs Hf Hh Ht Hst] Hi Ho Hflag Hcase Hfree. cbn [pr_cycles pr_world pr_timer] in *.
  assert (Hlt : i < length cycles) by by eapply lookup_lt_Some.
  split; cbn [pr_cycles pr_world pr_timer]; [| | |done|].
  - intros k jp Hk. destruct (decide (k = i)) as [->|Hki].
    + rewrite list_lookup_insert_eq in Hk by done. injection Hk as <-. unfold stage. cbn [fst snd]. rewrite decide_True by done.
      destruct Hcase as [(_ & _ & [?|?])|[[-> ?]|(_ & _ & ?)]]; auto.
    + rewrite list_lookup_insert_ne in Hk by done. destruct (Hs _ _ Hk) as [?|[?|[Hj Hw]]]; [by left|by right; left|].
      right. right. split; [|done]. case_decide as E; [|done]. rewrite E in *.
      destruct Hcase as [(-> & _ & _)|[[-> _]|(_ & Hj' & _)]]; [done| |congruence].
      destruct (Hfree eq_refl); congruence.
  - intros j'. case_decide as E; [by subst|]. rewrite Ho by done. apply Hf.
  - intros j' k Hk. case_decide as E.
    + subst j'. destruct Hcase as [(Hhj & Hne & _)|[[Hhi Hw]|(Hn & _ & _)]].
      * subst h. destruct (Hh _ _ Hk) as (q0 & Hq & Hw). exists q0. split; [|done].
        rewrite list_lookup_insert_ne by congruence. done.
      * assert (k = i) as -> by congruence. exists q'. by rewrite list_lookup_insert_eq.
      * congruence.
    + destruct (Hh _ _ Hk) as (q0 & Hq & Hw). exists q0. split; [|done].
      rewrite list_lookup_insert_ne; [done|]. intros <-. congruence.
  - intros k j' q0 Hk. destruct (decide (k = i)) as [->|Hki].
    + rewrite list_lookup_insert_eq in Hk by done. injection Hk as <- _. by eapply Hst.
    + rewrite list_lookup_insert_ne in Hk by done. by eapply Hst.
Qed.

Lemma waiting_not_holder config holder p i j q :
  process_ok config holder p -> pr_cycles p !! i = Some (j, q) -> waiting j q -> holder j <> Some i.
Proof.
  intros Hok Hi Hq E. destruct (ok_holder _ _ _ Hok _ _ E) as (q0 & Hq0 & Hw). rewrite Hi in Hq0. injection Hq0 as <-.
  by apply (waiting_not_working j q).
Qed.

Lemma process_ok_step env config holder p p' :
  process_ok config holder p -> process_step env config p p' -> exists holder', process_ok config holder' p'.
Proof.
  intros Hok Hstep. inversion Hstep as [j p0|j p0|j p0 Ht|p0 i j X f k r w' Hi Hf|p0 w' Hw]; subst; destruct p as [w timer cycles]; simpl in *.
  - exists holder. unfold onModuleInit. destruct (starts_timer config j) eqn:Hj; [|done]. apply (process_ok_more _ _ _ timer); [done|..].
    + intros j'. unfold set_timer. cbn [pr_timer]. case_decide; [by subst|]. apply Hok.
    + intros jp Hin. destruct j; [by apply not_elem_of_nil in Hin..|]. apply list_elem_of_singleton in Hin as ->. split; [apply waiting_cycle|done].
  - exists holder. unfold onShutdown. rewrite <- (app_nil_r cycles). cbn [pr_world pr_timer pr_cycles].
    apply (process_ok_more _ _ _ timer); [done|..|by intros jp Hin%not_elem_of_nil].
    intros j'. unfold set_timer. case_decide; [done|]. apply Hok.
  - exists holder. apply (process_ok_more _ _ _ timer); [done|apply Hok|].
    intros jp Hin%list_elem_of_singleton. subst. split; [apply waiting_cycle|by apply Hok].
  - pose proof (ok_flag _ _ _ Hok j) as Hflag. cbn [pr_world] in Hflag.
    destruct (ok_stage _ _ _ Hok _ _ Hi) as [Hwait|[Hset|[Hj Hwork]]]; cbn [fst snd] in *; [|done|].
    + pose proof (waiting_not_holder _ _ _ _ _ _ Hok Hi Hwait) as Hnot.
      assert (Hfree' : holder j = Some i -> holder j = None \/ holder j = Some i) by auto.
      destruct (waiting_step j _ env w (k r) w' Hwait) as [Ho [(Hsame & Hw)|[(Hup & Hup' & Hs)|(Hdn & Hup & Hw)]]].
      { simpl. by rewrite Hf. }
      * eexists. apply (process_ok_atom _ _ _ _ _ _ _ _ (k r) w' (holder j) Hok Hi Ho); [by rewrite Hsame|by left; auto|done].
      * eexists. apply (process_ok_atom _ _ _ _ _ _ _ _ (k r) w' (holder j) Hok Hi Ho); [by rewrite <- Hflag, Hup', Hup|by left; auto|done].
      * assert (Hfree : holder j = None).
        { destruct (holder j) as [h|] eqn:E; [|done]. rewrite (proj2 Hflag) in Hdn by eauto. done. }
        eexists. apply (process_ok_atom _ _ _ _ _ _ _ _ (k r) w' (Some i) Hok Hi Ho); [by rewrite Hup|by right; left|by left].
    + assert (Hup : flag j w = true) by (apply Hflag; eauto). specialize (Hwork env w Hup). rewrite Hf in Hwork. cbn [fst snd] in Hwork.
      destruct Hwork as [Ho [[Hup' Hw]|[Hdn Hs]]].
      * eexists. apply (process_ok_atom _ _ _ _ _ _ _ _ (k r) w' (Some i) Hok Hi Ho); [by rewrite Hup'|by right; left|by right].
      * eexists. apply (process_ok_atom _ _ _ _ _ _ _ _ (k r) w' None Hok Hi Ho); [by rewrite Hdn; split; [|intros [? ?]]|by right; right|done].
  - exists holder. destruct Hok as [Hs Hfl Hh Ht Hst]. split; cbn [pr_cycles pr_world pr_timer] in *; try done.
    intros j. rewrite Hw. apply Hfl.
Qed.

Lemma step_advance env config p i j q q' w' :
  pr_cycles p !! i = Some (j, q) -> advance q env (pr_world p) = Some (q', w') ->
  process_step env config p (mkProcess w' (pr_timer p) (<[i := (j, q')]> (pr_cycles p))).
Proof.
  intros Hi Hadv. destruct q as [a|e|X f k]; [done|done|]. simpl in Hadv.
  destruct (f env (pr_world p)) as [r w1] eqn:E. injection Hadv as <- <-. by eapply step_cycle.
Qed.

Lemma working_under_way j q : working j q -> under_way j q.
Proof. intros Hw. split; [by intros ?%waiting_not_working|by destruct q; [| |intros []]]. Qed.

(** C35. In every state a process reaches, through any interleaving of
    the timers, the cycles, the shutdown hooks and everything else that leaves
    the jobs' flags alone, at most one cycle of each job is under way, its flag
    is up exactly while one is, and only cycles of jobs the configuration
    switches on have been started. *)
Theorem cycles_never_overlap env config p p' :
  fresh p -> rtc (process_step env config) p p' ->
  (forall j i i' q q', pr_cycles p' !! i = Some (j, q) -> pr_cycles p' !! i' = Some (j, q') ->
     under_way j q -> under_way j q' -> i = i') /\
  (forall j, flag j (pr_world p') = true <-> exists i q, pr_cycles p' !! i = Some (j, q) /\ under_way j q) /\
  (forall i j q, pr_cycles p' !! i = Some (j, q) -> starts_timer config j = true).
Proof.
  intros [Hempty Hdown] Hsteps.
  assert (Hok : exists holder, process_ok config holder p').
  { assert (H0 : exists holder, process_ok config holder p).
    { exists (fun _ => None). split; try done; try (by intros i j; rewrite Hempty); try (by intros i j q; rewrite Hempty).
      - intros j. rewrite (proj2 (Hdown j)). by split; [|intros [? ?]].
      - intros j. by rewrite (proj1 (Hdown j)). }
    clear Hempty Hdown. induction Hsteps as [|p1 p2 p3 H12 _ IH]; [done|]. apply IH.
    destruct H0 as [h Hh]. by eapply process_ok_step. }
  destruct Hok as [holder Hok].
  assert (Hheld : forall i j q, pr_cycles p' !! i = Some (j, q) -> under_way j q -> holder j = Some i).
  { intros i j q Hi [Hw Hs]. by destruct (ok_stage _ _ _ Hok _ _ Hi) as [?|[?|[? _]]]. }
  split; [|split].
  - intros j i i' q q' Hi Hi' Hq Hq'. pose proof (Hheld _ _ _ Hi Hq). pose proof (Hheld _ _ _ Hi' Hq'). congruence.
  - intros j. rewrite (ok_flag _ _ _ Hok j). split.
    + intros [i Hi]. destruct (ok_holder _ _ _ Hok _ _ Hi) as (q & Hq & Hw). exists i, q. split; [done|by apply working_under_way].
    + intros (i & q & Hi & Hq). exists i. by apply (Hheld i j q).
  - exact (ok_started _ _ _ Hok).
Qed.

End jobs.

(** ** Instances *)

(** The poller starts, polls, and is ticked again while it waits for the
    database. *)
Lemma cycles_never_overlap_witness :
  let p := mkProcess (demo_world []) (fun _ => false) [] in
  exists p', rtc (process_step demo_env demo_config) p p' /\ length (pr_cycles p') = 2 /\
    flag PollJob (pr_world p') = true /\
    (exists i q, pr_cycles p' !! i = Some (PollJob, q) /\ under_way PollJob q) /\
    (forall i i' q q', pr_cycles p' !! i = Some (PollJob, q) -> pr_cycles p' !! i' = Some (PollJob, q') ->
       under_way PollJob q -> under_way PollJob q' -> i = i').
Proof.
  intros p. set (p1 := onModuleInit demo_config PollJob p).
  set (p2 := mkProcess (set_polling true (demo_world [])) (pr_timer p1) [(PollJob, Poller.pollInternal)]).
  set (p3 := tick_timer PollJob p2).
  assert (Hsteps : rtc (process_step demo_env demo_config) p p3).
  { apply rtc_l with p1; [apply step_init|]. apply rtc_l with p2.
    - by apply (step_advance demo_env demo_config p1 0 PollJob Poller.poll).
    - apply rtc_once, step_tick. reflexivity. }
  destruct (cycles_never_overlap demo_env demo_config p p3) as (Hone & Hflag & _); [by split; [|intros []]|exact Hsteps|].
  exists p3. split; [exact Hsteps|]. do 2 (split; [reflexivity|]). split; [by apply Hflag|apply Hone].
Defined.
