(* ===== verification/VendorSpec.v ===== *)
(** * Properties of the vendor services

    Who may create a profile over which row, what an update of the
    notification preferences reads back as, and what the masked account
    details reveal. *)
From Stdlib Require Import Ascii.
From S2P Require Import Prelude Records Dates Text Tables Crypto Effects Logistics Cache Prisma EscrowRepo Coherence Demo Contract Lifecycle EscrowSvc Vendor.
Local Open Scope prog_scope.

(** ** Profiles *)

(** The row a request leaves: its fields, created then and updated now. *)
Definition profile_from (address : string) (dto : CreateVendorProfileDto) (created : Z) (v : VendorProfileRecord) : Prop :=
  v_address v = address /\ v_businessName v = vp_businessName dto /\ v_email v = vp_email dto /\
  v_phone v = vp_phone dto /\ v_description v = vp_description dto /\ v_createdAt v = created.

Section profiles.
Context (env : Env) (DB : db_reliable env).

Abbreviation vendors w := (db_vendors (w_db w)).

(** Creating a profile: without a row one is created; a row that was only
    a placeholder, left by the creation of an escrow, is replaced and keeps its
    creation time; any other row is left as it is and the request refused with
    a conflict. *)
Theorem profile_creation w address dto :
  map_Forall (fun k v => v_address v = k) (vendors w) ->
  let r := (run (VendorProfileService.createProfile address dto) env w).1 in
  let w' := (run (VendorProfileService.createProfile address dto) env w).2 in
  match vendors w !! address with
  | None => exists v, r = Ok v /\ profile_from address dto (v_updatedAt v) v /\ vendors w' = <[address := v]> (vendors w)
  | Some old =>
      if decide (v_description old = Some EscrowService.VENDOR_PROFILE_PLACEHOLDER_DESCRIPTION \/
                 v_businessName old = address /\ v_description old = None)
      then exists v, r = Ok v /\ profile_from address dto (v_createdAt old) v /\ vendors w' = <[address := v]> (vendors w)
      else r = Throw (ConflictException "Vendor profile already exists") /\ vendors w' = vendors w
  end.
Proof using DB.
  intros Hkeys r w'. subst r w'. unfold VendorProfileService.createProfile, VendorProfileRepository.findByAddress, vendor_findUnique.
  rewrite run_bind, run_await, db_call_reliable by done. cbn [fst snd].
  destruct (vendors w !! address) as [old|] eqn:Hold.
  - unfold VendorProfileService.is_placeholder.
    pose proof (Hkeys _ _ Hold) as Hk. simpl in Hk.
    case_decide as Hd.
    + replace (_ || _) with true.
      2: { symmetry. apply orb_true_iff. destruct Hd as [Hd|[H1 H2]]; [left|right].
           - by apply bool_decide_eq_true_2.
           - by rewrite !bool_decide_eq_true_2. }
      unfold VendorProfileRepository.upsert, vendor_save. rewrite run_await, db_call_reliable by done.
      cbn [fst snd w_db set_db tick]. rewrite Hold. eexists. split; [reflexivity|]. split; [|done]. by repeat split.
    + replace (_ || _) with false; [done|]. symmetry. apply orb_false_iff. split.
      * apply bool_decide_eq_false_2. auto.
      * apply andb_false_iff. destruct (decide (v_businessName old = address)) as [H1|H1];
          [right|left]; apply bool_decide_eq_false_2; auto.
  - unfold VendorProfileRepository.create, vendor_create. rewrite run_await, db_call_reliable by done.
    cbn [fst snd w_db set_db tick v_address VendorProfileRepository.new_profile]. rewrite Hold.
    rewrite bool_decide_eq_false_2 by (by intros [? ?]). eexists. split; [reflexivity|]. split; [by repeat split|done].
Qed.

(** ** Notification preferences *)

(** What a field of the request leaves of the value read before. *)
Definition shows {A} (f : field A) (old new : A) : Prop :=
  match f with Val a => new = a | _ => new = old end.

(** Preferences, saved and read back: an update that succeeds shows every
    field it sets, removes a webhook set to null, and leaves every other
    preference, the defaults of a vendor without settings included, as it
    was. *)
Theorem preferences_read_back w address dto s w1 :
  run (VendorProfileService.updateNotificationPreferences address dto) env w = (Ok s, w1) ->
  exists old new w2 w3,
    run (VendorProfileService.getNotificationPreferences address) env w = (Ok old, w2) /\
    run (VendorProfileService.getNotificationPreferences address) env w1 = (Ok new, w3) /\
    shows (up_notifyOnDelivery dto) (np_notifyOnDelivery old) (np_notifyOnDelivery new) /\
    shows (up_notifyOnDelay dto) (np_notifyOnDelay old) (np_notifyOnDelay new) /\
    shows (up_notifyOnException dto) (np_notifyOnException old) (np_notifyOnException new) /\
    shows (up_notificationChannels dto) (np_notificationChannels old) (np_notificationChannels new) /\
    np_webhookUrl new = match up_webhookUrl dto with Val u => Some u | Null => None | Undefined => np_webhookUrl old end /\
    np_enableTracking new = np_enableTracking old /\ np_delayThresholdHours new = np_delayThresholdHours old /\
    np_deliveryConfirmation new = np_deliveryConfirmation old /\
    np_trackingHistoryRetentionDays new = np_trackingHistoryRetentionDays old.
Proof using DB.
  unfold VendorProfileService.updateNotificationPreferences. destruct (VendorProfileService.preferences_empty dto); [done|].
  unfold VendorProfileRepository.findByAddress, vendor_findUnique, VendorProfileService.getNotificationPreferences,
    VendorProfileRepository.findNotificationPreferences, settings_findUnique.
  rewrite run_bind, run_await, db_call_reliable by done. cbn [fst snd].
  destruct (vendors w !! address) as [v|] eqn:Hv; [|done].
  unfold VendorProfileRepository.updateNotificationPreferences.
  destruct (VendorProfileRepository.preferences_invalid dto); [done|].
  unfold settings_upsert. rewrite run_await, db_call_reliable by done. cbn [fst snd w_db set_db tick]. rewrite Hv.
  destruct (ac_settings (db_accounts (w_db w)) !! address) as [s0|] eqn:Hs.
  - cbn [fst snd]. intros [= <- <-]. do 4 eexists.
    rewrite run_bind, run_await, db_call_reliable by done. cbn [fst snd]. rewrite Hs. split; [reflexivity|].
    rewrite run_bind, run_await, db_call_reliable by done. cbn. rewrite lookup_insert_eq. split; [reflexivity|].
    destruct dto as [[] [] [] [] [] []]; simpl; repeat split.
  - rewrite bool_decide_eq_true_2 by done. cbn [fst snd]. intros [= <- <-]. do 4 eexists.
    rewrite run_bind, run_await, db_call_reliable by done. cbn [fst snd]. rewrite Hs. split; [reflexivity|].
    rewrite run_bind, run_await, db_call_reliable by done. cbn. rewrite lookup_insert_eq. split; [reflexivity|].
    destruct dto as [[] [] [] [] [] []]; simpl; repeat split.
Qed.
End profiles.

(** ** Account details *)

Local Arguments VendorAccountDetails.maskSensitiveField : simpl never.

(** Two non-empty values the masked view does not tell apart. *)
Definition alike (a b : string) : Prop :=
  a <> "" /\ b <> "" /\
  (String.length a <= 4 /\ String.length b <= 4 \/
   4 < String.length a /\ String.length b = String.length a /\
   VendorAccountDetails.last_chars 4 b = VendorAccountDetails.last_chars 4 a).

Lemma mask_alike a b : alike a b ->
  VendorAccountDetails.maskSensitiveField (Some b) = VendorAccountDetails.maskSensitiveField (Some a).
Proof.
  intros (Ha & Hb & Hl). unfold VendorAccountDetails.maskSensitiveField.
  rewrite !bool_decide_eq_false_2 by done. destruct Hl as [[H1 H2]|(H1 & H2 & H3)].
  - by rewrite !(proj2 (Nat.leb_le _ _)).
  - rewrite !(proj2 (Nat.leb_gt _ _)) by lia. by rewrite H2, H3.
Qed.

(** A vendor's bank account number is stored as it was sent, not
    encrypted; what the response, and any later read of the endpoint, shows of
    it and of the tax id is the same for every value of that length with the
    same last four characters, and the same for all values of up to four. *)
Theorem account_numbers_masked_not_encrypted env w address p shown w1 n other :
  db_reliable env -> run (VendorAccountDetails.update address p) env w = (Ok shown, w1) ->
  ap_bankAccountNumber p = Val n -> alike n other ->
  (exists row, ac_details (db_accounts (w_db w1)) !! address = Some row /\ ad_bankAccountNumber row = Some n) /\
  ad_bankAccountNumber shown = VendorAccountDetails.maskSensitiveField (Some other) /\
  exists again w2, run (VendorAccountDetails.get address) env w1 = (Ok (Some again), w2) /\
    ad_bankAccountNumber again = VendorAccountDetails.maskSensitiveField (Some other) /\
    (forall tax tax', ap_taxId p = Val tax -> alike tax tax' ->
       ad_taxId again = VendorAccountDetails.maskSensitiveField (Some tax')).
Proof.
  intros DB. unfold VendorAccountDetails.update, VendorAccountDetails.upsertDetails, VendorAccountDetails.upsert.
  rewrite run_bind. destruct (details_invalid p); [done|]. unfold details_upsert.
  rewrite run_await, db_call_reliable by done. cbv beta zeta. intros Hrun Hp Ho.
  assert (Hrow : exists row w0, shown = VendorAccountDetails.fromRecord row /\ w1 = w0 /\
    ac_details (db_accounts (w_db w1)) !! address = Some row /\ ad_bankAccountNumber row = Some n /\
    forall tax, ap_taxId p = Val tax -> ad_taxId row = Some tax).
  { destruct (ac_details (db_accounts (w_db w)) !! address) as [r0|] eqn:Hr.
    - cbn [fst snd] in Hrun. change (run (Ret ?x) env ?y) with (Ok x, y) in Hrun. injection Hrun as <- <-.
      eexists _, _. split; [reflexivity|]. split; [reflexivity|]. split; [apply lookup_insert_eq|]. simpl. rewrite Hp.
      split; [done|]. by intros tax ->.
    - destruct (bool_decide _); [|done]. cbn [fst snd] in Hrun. change (run (Ret ?x) env ?y) with (Ok x, y) in Hrun.
      injection Hrun as <- <-.
      eexists _, _. split; [reflexivity|]. split; [reflexivity|]. split; [apply lookup_insert_eq|]. simpl. rewrite Hp.
      split; [done|]. by intros tax ->. }
  destruct Hrow as (row & w0 & -> & <- & Hrow & Hn & Htax). split; [by exists row|].
  split; [simpl; rewrite Hn; by rewrite (mask_alike n other)|].
  unfold VendorAccountDetails.get, VendorAccountDetails.getDetails, VendorAccountDetails.findByVendorAddress, details_findUnique.
  rewrite run_bind, run_await, db_call_reliable by done. cbn [fst snd]. rewrite Hrow.
  eexists _, _. split; [reflexivity|]. simpl. rewrite Hn. split; [by rewrite (mask_alike n other)|].
  intros tax tax' Ht Ha. rewrite (Htax _ Ht). by rewrite (mask_alike tax tax').
Qed.

(** ** Instances *)

Definition vendor_world : World :=
  world_of (set_vendors {["GVENDOR" := mkVendor "GVENDOR" "GVENDOR" None None
    (Some EscrowService.VENDOR_PROFILE_PLACEHOLDER_DESCRIPTION) demo_now demo_now]} (demo_db [])).

Lemma vendor_world_keys : map_Forall (fun k v => v_address v = k) (db_vendors (w_db vendor_world)).
Proof. by apply map_Forall_singleton. Qed.

Lemma profile_creation_witness :
  exists v, (run (VendorProfileService.createProfile "GVENDOR" (mkProfileDto "Shop" None None None))
    demo_env vendor_world).1 = Ok v /\ v_businessName v = "Shop".
Proof.
  pose proof (profile_creation demo_env (demo_reliable _) vendor_world "GVENDOR" (mkProfileDto "Shop" None None None)
    vendor_world_keys) as H.
  cbv zeta in H. replace (_ !! "GVENDOR") with (Some (mkVendor "GVENDOR" "GVENDOR" None None
    (Some EscrowService.VENDOR_PROFILE_PLACEHOLDER_DESCRIPTION) demo_now demo_now)) in H by (vm_compute; reflexivity).
  rewrite decide_True in H by by left. destruct H as (v & Hr & Hv & _). exists v. split; [exact Hr|apply Hv].
Defined.

Definition demo_preferences : UpdateNotificationPreferencesDto :=
  mkPreferencesDto Undefined (Val false) Undefined (Val ["SMS"]) Undefined Undefined.

Lemma preferences_read_back_witness :
  exists s w1 new w3, run (VendorProfileService.updateNotificationPreferences "GVENDOR" demo_preferences)
      demo_env vendor_world = (Ok s, w1) /\
    run (VendorProfileService.getNotificationPreferences "GVENDOR") demo_env w1 = (Ok new, w3) /\
    np_notificationChannels new = ["SMS"] /\ np_notifyOnDelay new = false.
Proof.
  destruct (run (VendorProfileService.updateNotificationPreferences "GVENDOR" demo_preferences) demo_env vendor_world)
    as [[s|e] w1] eqn:H.
  2: { apply (f_equal (fun x => is_ok x.1)) in H. vm_compute in H. discriminate. }
  destruct (preferences_read_back demo_env (demo_reliable _) _ _ _ _ _ H) as (old & new & w2 & w3 & _ & Hn & _ & Hd & _ & Hc & _).
  exists s, w1, new, w3. by split_and!.
Defined.

Definition demo_details : AccountDetailsPatch :=
  mkDetailsPatch Undefined Undefined (Val "0123456789") Undefined Undefined Undefined Undefined Undefined Undefined
    Undefined Undefined Undefined Undefined Undefined Undefined Undefined Undefined Undefined Undefined Undefined
    Undefined Undefined Undefined.

Lemma account_numbers_masked_not_encrypted_witness :
  exists shown w1, run (VendorAccountDetails.update "GVENDOR" demo_details) demo_env vendor_world = (Ok shown, w1) /\
    ad_bankAccountNumber shown = VendorAccountDetails.maskSensitiveField (Some "9999996789").
Proof.
  destruct (run (VendorAccountDetails.update "GVENDOR" demo_details) demo_env vendor_world) as [[shown|e] w1] eqn:H.
  2: { apply (f_equal (fun x => is_ok x.1)) in H. vm_compute in H. discriminate. }
  exists shown, w1. split; [done|].
  apply (account_numbers_masked_not_encrypted demo_env _ _ _ _ _ "0123456789" "9999996789" (demo_reliable _) H eq_refl).
  split; [done|]. split; [done|]. right. vm_compute. split; [lia|]. split; reflexivity.
Defined.
