(* ===== verification/RetrySpec.v ===== *)
(** * Properties of the retry queue

    The delay before a retry lies within a quarter of the capped exponential
    delay, computed in doubles; the in-process runner and the BullMQ worker, which
    is given the JSON image of the job, settle its row and its dead letter in
    the same way. *)
From S2P Require Import Prelude Records Doubles Dates Text Tables Crypto Effects Cache Prisma EscrowRepo Coherence Demo Contract Lifecycle EscrowSvc Vendor Notify RetryQueue.
Local Open Scope prog_scope.

(** ** Delays *)


(** A rounded jitter: at most a quarter of [c], up to the rounding. *)
Lemma jitter_bound c r m e : (0 <= c <= 2 ^ 48)%Z -> (0 <= r < 2 ^ 53)%Z ->
  near (c * (r - 2 ^ 52)) (2 ^ 54) m e ->
  (Z.abs (m * 2 ^ Z.max 0 e) * 64 <= (16 * c + 1) * 2 ^ Z.max 0 (- e))%Z.
Proof.
  unfold near. intros Hc Hr H. pose proof (pow2_pos (- e)) as HP.
  set (P := (2 ^ Z.max 0 (- e))%Z) in *. set (M := (m * 2 ^ Z.max 0 e)%Z) in *. clearbody P M.
  assert (Hn : (Z.abs (c * (r - 2 ^ 52)) <= c * 2 ^ 52)%Z).
  { rewrite Z.abs_mul, (Z.abs_eq c) by lia. apply Z.mul_le_mono_nonneg_l; lia. }
  set (n := (c * (r - 2 ^ 52))%Z) in *. clearbody n.
  assert (Hx : (Z.abs (n * P) <= c * 2 ^ 52 * P)%Z).
  { rewrite Z.abs_mul, (Z.abs_eq P) by lia. apply Z.mul_le_mono_nonneg_r; lia. }
  assert (Hy : (Z.abs n * P <= c * 2 ^ 52 * P)%Z) by (apply Z.mul_le_mono_nonneg_r; lia).
  assert (Hz : (c * P <= 2 ^ 48 * P)%Z) by (apply Z.mul_le_mono_nonneg_r; lia).
  set (Q := (n * P)%Z) in *. set (A := (Z.abs n * P)%Z) in *. clearbody Q A.
  replace (c * 2 ^ 52 * P)%Z with (2 ^ 52 * (c * P))%Z in * by ring.
  replace ((16 * c + 1) * P)%Z with (16 * (c * P) + P)%Z by ring.
  set (C := (c * P)%Z) in *. clearbody C. lia.
Qed.

(** The same after [capped + jitter]. *)
Lemma sum_bound c x P m e : (0 <= c <= 2 ^ 48)%Z -> (0 < P)%Z ->
  (Z.abs x * 64 <= (16 * c + 1) * P)%Z -> near (c * P + x) P m e ->
  ((48 * c - 5) * 2 ^ Z.max 0 (- e) <= 64 * (m * 2 ^ Z.max 0 e) <= (80 * c + 5) * 2 ^ Z.max 0 (- e))%Z.
Proof.
  unfold near. intros Hc HP Hx H. pose proof (pow2_pos (- e)) as HR.
  set (R := (2 ^ Z.max 0 (- e))%Z) in *. set (M := (m * 2 ^ Z.max 0 e)%Z) in *. clearbody R M.
  assert (HcP : (c * P <= 2 ^ 48 * P)%Z) by (apply Z.mul_le_mono_nonneg_r; lia).
  assert (Hn : ((48 * c - 1) * P <= 64 * (c * P + x) <= (80 * c + 1) * P)%Z).
  { replace ((48 * c - 1) * P)%Z with (48 * (c * P) - P)%Z by ring.
    replace ((80 * c + 1) * P)%Z with (80 * (c * P) + P)%Z by ring.
    replace ((16 * c + 1) * P)%Z with (16 * (c * P) + P)%Z in Hx by ring. lia. }
  assert (Ha : (64 * Z.abs (c * P + x) <= 2 ^ 55 * P)%Z).
  { replace ((48 * c - 1) * P)%Z with (48 * (c * P) - P)%Z in Hn by ring.
    replace ((80 * c + 1) * P)%Z with (80 * (c * P) + P)%Z in Hn by ring.
    assert (0 <= c * P)%Z by (apply Z.mul_nonneg_nonneg; lia). lia. }
  set (n := (c * P + x)%Z) in *. clearbody n. clear Hx HcP.
  assert (Hd : (Z.abs (M * P - n * R) * 2 ^ 59 <= 2 ^ 55 * P * R)%Z).
  { assert (Hm : (64 * Z.abs n * R <= 2 ^ 55 * P * R)%Z) by (apply Z.mul_le_mono_nonneg_r; lia).
    rewrite <- Z.mul_assoc in Hm. set (D := Z.abs (M * P - n * R)) in *. set (A := (Z.abs n * R)%Z) in *.
    clearbody D A. lia. }
  assert (H1 : ((48 * c - 1) * P * R <= 64 * n * R)%Z) by (apply Z.mul_le_mono_nonneg_r; lia).
  assert (H2 : (64 * n * R <= (80 * c + 1) * P * R)%Z) by (apply Z.mul_le_mono_nonneg_r; lia).
  assert (HPR : (0 < P * R)%Z) by (apply Z.mul_pos_pos; lia).
  replace (2 ^ 55 * P * R)%Z with (2 ^ 55 * (P * R))%Z in Hd by ring.
  assert (Hd' : (Z.abs (M * P - n * R) * 16 <= P * R)%Z) by lia.
  split; apply (Z.mul_le_mono_pos_r _ _ P HP).
  - replace ((48 * c - 5) * R * P)%Z with ((48 * c - 1) * P * R - 4 * (P * R))%Z by ring. lia.
  - replace ((80 * c + 5) * R * P)%Z with ((80 * c + 1) * P * R + 4 * (P * R))%Z by ring. lia.
Qed.

Lemma computeBackoffDelay_bounds r n b :
  (1 < n)%Z -> (0 <= r < 2 ^ 53)%Z -> (0 <= capped_delay n b <= 2 ^ 48)%Z ->
  (3 * capped_delay n b / 4 <= computeBackoffDelay r n b <= (5 * capped_delay n b + 3) / 4)%Z.
Proof.
  intros Hn Hr Hc. unfold computeBackoffDelay. destruct (n <=? 1)%Z eqn:E; b2p; [lia|]. cbv zeta.
  set (c := capped_delay n b) in *. clearbody c.
  destruct (ratio_near (c * (r - 2 ^ 52)) (2 ^ 54)) as (m & e & -> & Hj); [lia|].
  apply jitter_bound in Hj; [|done|done]. unfold add_number.
  destruct (ratio_near (c * 2 ^ Z.max 0 (- e) + m * 2 ^ Z.max 0 e) (2 ^ Z.max 0 (- e)))
    as (m' & e' & -> & Hs); [apply pow2_pos|].
  apply sum_bound in Hs; [|done|apply pow2_pos|done]. unfold Math_round, coalesce.
  pose proof (pow2_pos (- e')) as HP. set (P := (2 ^ Z.max 0 (- e'))%Z) in *.
  set (M := (m' * 2 ^ Z.max 0 e')%Z) in *. clearbody P M. clear Hj.
  assert (L : (3 * c / 4 <= (2 * M + P) / (2 * P))%Z).
  { apply Z.div_le_lower_bound; [lia|]. pose proof (Z.mul_div_le (3 * c) 4 ltac:(lia)). nia. }
  assert (U : ((2 * M + P) / (2 * P) < (5 * c + 3) / 4 + 1)%Z).
  { apply Z.div_lt_upper_bound; [lia|]. pose proof (Z.mod_pos_bound (5 * c + 3) 4 ltac:(lia)).
    pose proof (Z.div_mod (5 * c + 3) 4 ltac:(lia)). nia. }
  pose proof (Z.div_pos (3 * c) 4 ltac:(lia) ltac:(lia)). lia.
Qed.

(** The default schedule never waits more than 6 minutes and 15 seconds. *)
Theorem retry_delay_within_a_quarter r n b :
  (1 < n)%Z -> (0 <= r < 2 ^ 53)%Z -> (0 <= bo_delay b)%Z ->
  (forall cap, bo_maxDelayMs b = Some cap -> (0 <= cap)%Z) -> (capped_delay n b <= 2 ^ 48)%Z ->
  let ideal := capped_delay n b in
  (3 * ideal / 4 <= computeBackoffDelay r n b <= (5 * ideal + 3) / 4)%Z /\
  (forall cap, bo_maxDelayMs b = Some cap -> (computeBackoffDelay r n b <= (5 * cap + 3) / 4)%Z).
Proof.
  intros Hn Hr Hd Hm Hc ideal.
  assert (H0 : (0 <= capped_delay n b)%Z).
  { unfold capped_delay. assert (0 <= bo_delay b * 2 ^ (n - 2))%Z by (apply Z.mul_nonneg_nonneg; [done|apply Z.pow_nonneg; lia]).
    destruct (bo_maxDelayMs b) as [cap|] eqn:E; [|done]. specialize (Hm cap eq_refl). lia. }
  pose proof (computeBackoffDelay_bounds r n b Hn Hr (conj H0 Hc)) as HB. split; [done|].
  intros cap Hcap. etrans; [apply HB|]. apply Z.div_le_mono; [lia|].
  unfold capped_delay. rewrite Hcap. lia.
Qed.

(** ** The verdict on a job *)

Inductive Verdict : Type :=
| Delivered (failures : nat)
| Exhausted (last : option exn).

(** What a dispatcher does with a job it may be handed [budget] more times,
    the [i]-th dispatch of the process being the next. *)
Fixpoint verdict (f : nat -> RetryJob -> outcome unit) (job : RetryJob) (i budget failures : nat)
    (last : option exn) : Verdict :=
  match budget with
  | O => Exhausted last
  | S budget =>
      match f i job with
      | Ok _ => Delivered failures
      | Throw e => verdict f job (S i) budget (S failures) (Some e)
      end
  end.

Definition dispatched (total : nat) (v : Verdict) : nat :=
  match v with Delivered failures => S failures | Exhausted _ => total end.

Definition notification_of (w : World) (id : string) : option NotificationRow :=
  ac_notifications (db_accounts (w_db w)) !! id.

Definition row_settled (total : nat) (v : Verdict) (row : NotificationRow) : Prop :=
  match v with
  | Delivered failures => nt_status row = NSent /\ nt_retryCount row = Z.of_nat failures
  | Exhausted last =>
      nt_status row = NFailed /\ nt_retryCount row = Z.of_nat total /\ nt_lastError row = exn_message <$> last
  end.

Definition dead_letters (job : RetryJob) (total : nat) (v : Verdict) (l : list DeadLetterRecord) : Prop :=
  match v with
  | Delivered _ => l = []
  | Exhausted last => exists at_, l = [RetryQueue.dead_letter job (Z.of_nat total) last at_]
  end.

(** The job was handed to the dispatcher exactly as often as the verdict says,
    its row shows the verdict, and it is dead-lettered once iff it failed: in
    the sink and, while BullMQ is connected, in the dead-letter queue. *)
Definition settled (job : RetryJob) (id : string) (total : nat) (v : Verdict) (w w' : World) : Prop :=
  sd_dispatches (w_side w') = sd_dispatches (w_side w) ++ replicate (dispatched total v) job /\
  (exists row, notification_of w' id = Some row /\ row_settled total v row) /\
  (exists l, sd_sink (w_side w') = sd_sink (w_side w) ++ l /\
    sd_bullDlq (w_side w') = sd_bullDlq (w_side w) ++
      (if sd_bullUp (w_side w) then RetryQueue.entry_image <$> l else []) /\
    dead_letters job total v l).

(** ** Steps *)

Lemma no_letters (connected : bool) (l : list DeadLetterJson) :
  l = l ++ (if connected then RetryQueue.entry_image <$> [] else []).
Proof. destruct connected; change (RetryQueue.entry_image <$> []) with (@nil DeadLetterJson); by rewrite app_nil_r. Qed.

(** [n] dispatches and the waits [ds] later, nothing else of the queue's state
    has changed. *)
Definition moved (job : RetryJob) (n : nat) (ds : list Z) (w w' : World) : Prop :=
  sd_dispatches (w_side w') = sd_dispatches (w_side w) ++ replicate n job /\
  sd_sleeps (w_side w') = sd_sleeps (w_side w) ++ ds /\
  sd_sink (w_side w') = sd_sink (w_side w) /\
  sd_bullDlq (w_side w') = sd_bullDlq (w_side w) /\
  sd_dispatchers (w_side w') = sd_dispatchers (w_side w) /\
  sd_bullUp (w_side w') = sd_bullUp (w_side w).

Lemma moved_refl job w : moved job 0 [] w w.
Proof. unfold moved. by rewrite !app_nil_r. Qed.

Lemma moved_trans job n m ds es w1 w2 w3 :
  moved job n ds w1 w2 -> moved job m es w2 w3 -> moved job (n + m) (ds ++ es) w1 w3.
Proof.
  intros (A1 & B1 & C1 & D1 & E1 & F1) (A2 & B2 & C2 & D2 & E2 & F2). unfold moved.
  rewrite A2, A1, B2, B1, replicate_add, <- !app_assoc. split_and!; congruence.
Qed.

(** The waits of the in-process runner from its [k]-th failure on: the delay
    computed for the next attempt. *)
Definition scheduled (backoff : NotificationRetryBackoff) (env : Env) (k : nat) (ds : list Z) : Prop :=
  forall i d, ds !! i = Some d ->
    exists t, d = computeBackoffDelay (pv_random (env_providers env) t) (Z.of_nat (k + i) + 2) backoff.

Lemma scheduled_cons backoff env k t ds :
  scheduled backoff env (S k) ds ->
  scheduled backoff env k
    (computeBackoffDelay (pv_random (env_providers env) t) (Z.of_nat k + 2) backoff :: ds).
Proof.
  intros H [|i] d; simpl; intros Hd.
  - injection Hd as <-. exists t. by rewrite Nat.add_0_r.
  - destruct (H i d Hd) as [t' ->]. exists t'. by replace (k + S i) with (S k + i) by lia.
Qed.

Lemma verdict_dispatched f job i budget k last v :
  verdict f job i budget k last = v -> dispatched (k + budget) v <= k + budget /\
    match v with Delivered k' => k <= k' | Exhausted _ => True end.
Proof.
  intros <-. revert i k last. induction budget as [|b IH]; intros i k last; simpl; [lia|].
  destruct (f i job); simpl; [lia|]. destruct (IH (S i) (S k) (Some e)) as [H1 H2].
  replace (k + S b) with (S k + b) by lia. split; [done|]. case_match; lia.
Qed.

(** A run waited [n] times, each time as scheduled. *)
Definition paced (backoff : NotificationRetryBackoff) (env : Env) (n : nat) (w w' : World) : Prop :=
  exists ds, sd_sleeps (w_side w') = sd_sleeps (w_side w) ++ ds /\ length ds = n /\ scheduled backoff env 0 ds.

Section queue.
Context (backoff : NotificationRetryBackoff) (env : Env) (job : RetryJob) (id : string)
  (f : nat -> RetryJob -> outcome unit).
Context (DB : db_reliable env) (HJ : rj_notificationId job = Some id) (Hid : id <> "").
Context (sink : nat -> DeadLetterRecord -> outcome unit) (Hsink : pv_sink (env_providers env) = Some sink)
  (Hsink_ok : forall t e, sink t e = Ok tt).

Lemma run_mark w row g :
  notification_of w id = Some row ->
  exists w', run (RetryQueue.mark job (fun i => NotificationRepository.update i g)) env w = (Ok tt, w') /\
    moved job 0 [] w w' /\ notification_of w' id = Some (g (env_now env (w_tick w)) row).
Proof using DB HJ Hid.
  intros Hrow. unfold RetryQueue.mark. rewrite HJ. simpl. rewrite bool_decide_eq_false_2 by done. simpl.
  rewrite run_catch, run_bind. unfold NotificationRepository.update. rewrite run_await. unfold db_call.
  rewrite DB. unfold notification_of in Hrow. rewrite Hrow. eexists. split; [reflexivity|]. split.
  - unfold moved. simpl. by rewrite !app_nil_r.
  - unfold notification_of. simpl. by rewrite lookup_insert_eq.
Qed.

Lemma run_dispatch w :
  run (await (RetryQueue.dispatch f job)) env w =
    (f (length (sd_dispatches (w_side w))) job, set_side (add_dispatch job (w_side w)) (tick w)).
Proof. by rewrite run_await. Qed.

Lemma moved_dispatch w : moved job 1 [] w (set_side (add_dispatch job (w_side w)) (tick w)).
Proof. unfold moved. simpl. by rewrite app_nil_r. Qed.

Lemma run_pause ms w : moved job 0 [ms] w (run (await (Notifications.pause ms)) env w).2.
Proof. rewrite run_await. unfold moved. simpl. by rewrite app_nil_r. Qed.

Lemma run_recordDeadLetter w n last :
  sd_bullUp (w_side w) = false \/ (forall t, pv_bull (env_providers env) t = Ok tt) ->
  exists w', run (RetryQueue.recordDeadLetter job n last) env w = (Ok tt, w') /\
    sd_dispatches (w_side w') = sd_dispatches (w_side w) /\
    sd_dispatchers (w_side w') = sd_dispatchers (w_side w) /\ w_db w' = w_db w /\
    sd_sleeps (w_side w') = sd_sleeps (w_side w) /\
    exists at_, sd_sink (w_side w') = sd_sink (w_side w) ++ [RetryQueue.dead_letter job n last at_] /\
      sd_bullDlq (w_side w') = sd_bullDlq (w_side w) ++
        (if sd_bullUp (w_side w) then [RetryQueue.entry_image (RetryQueue.dead_letter job n last at_)] else []).
Proof using Hsink Hsink_ok.
  intros Hup. unfold RetryQueue.recordDeadLetter. rewrite run_bind, run_await. simpl. rewrite run_bind, run_await. simpl.
  rewrite run_bind. destruct (sd_bullUp (w_side w)) eqn:Hb.
  - destruct Hup as [?|Hok]; [done|]. rewrite run_await. unfold RetryQueue.bullDlq_add. rewrite Hok.
    rewrite run_await. unfold RetryQueue.sink_record. rewrite Hsink, Hsink_ok.
    eexists. split; [reflexivity|]. do 4 (split; [done|]). eexists. by split.
  - change (run (Ret tt) env w) with (Ok (A:=unit) tt, w). cbv iota beta. rewrite run_await.
    unfold RetryQueue.sink_record. rewrite Hsink, Hsink_ok. eexists. split; [reflexivity|]. do 4 (split; [done|]).
    eexists. split; [done|]. by rewrite app_nil_r.
Qed.

(** What the row shows between two attempts. *)
Definition row_tried (k : nat) (last : option exn) (row : NotificationRow) : Prop :=
  k = 0 \/ nt_retryCount row = Z.of_nat k /\ nt_lastError row = exn_message <$> last.

Definition loop_result (v : Verdict) : option (option exn) :=
  match v with Delivered _ => None | Exhausted last => Some last end.

Definition row_looped (total : nat) (v : Verdict) (row : NotificationRow) : Prop :=
  match v with
  | Delivered k => nt_status row = NSent /\ nt_retryCount row = Z.of_nat k
  | Exhausted last => row_tried total last row
  end.

Lemma run_attempts_loop budget k last w row :
  (Z.of_nat (k + budget) = bo_attempts backoff)%Z -> notification_of w id = Some row -> row_tried k last row ->
  let v := verdict f job (length (sd_dispatches (w_side w))) budget k last in
  exists w' row' ds, run (RetryQueue.attempts_loop backoff f job budget (Z.of_nat k + 1) last) env w = (Ok (loop_result v), w') /\
    moved job (dispatched (k + budget) v - k) ds w w' /\ scheduled backoff env k ds /\
    length ds = dispatched (k + budget) v - k - 1 /\
    notification_of w' id = Some row' /\ row_looped (k + budget) v row'.
Proof using DB HJ Hid.
  revert k last w row. induction budget as [|b IH]; intros k last w row HN Hrow Htried v; simpl in v.
  { exists w, row, []. subst v. simpl. rewrite Nat.add_0_r, Nat.sub_diag. split_and!; auto using moved_refl. done. }
  simpl. rewrite run_bind, run_attempt, run_dispatch. simpl.
  pose proof (moved_dispatch w) as Hm1. set (w1 := set_side _ _) in *.
  assert (Hrow1 : notification_of w1 id = Some row) by done.
  destruct (f _ job) as [[]|err] eqn:Hf; rewrite run_bind.
  - destruct (run_mark w1 row (NotificationRepository.sent (Z.of_nat k + 1 - 1)) Hrow1) as (w2 & E & Hm2 & Hrow2).
    unfold NotificationRepository.markSent. subst v. rewrite E. exists w2. eexists _, ([] ++ []). split; [reflexivity|]. simpl dispatched.
    replace (S k - k) with (1 + 0) by lia. split; [by eapply moved_trans|]. split; [done|]. split; [done|].
    split; [done|]. split; [done|simpl; lia].
  - destruct (run_mark w1 row (NotificationRepository.attempt_failed (Z.of_nat k + 1) (exn_message err)) Hrow1)
      as (w2 & E & Hm2 & Hrow2).
    unfold NotificationRepository.markAttemptFailed. rewrite E. clear E.
    assert (Htried2 : row_tried (S k) (Some err)
      (NotificationRepository.attempt_failed (Z.of_nat k + 1) (exn_message err) (env_now env (w_tick w1)) row)).
    { right. simpl. split; [lia|done]. }
    assert (Hm : moved job (1 + 0) ([] ++ []) w w2) by (by eapply moved_trans). simpl in Hm.
    destruct (bo_attempts backoff <=? Z.of_nat k + 1)%Z eqn:Hlast; b2p.
    { assert (b = 0) as -> by lia. subst v. simpl. exists w2. eexists _, []. split; [reflexivity|].
      replace (k + 1 - k) with 1 by lia. replace (k + 1) with (S k) by lia.
      split; [done|]. split; [done|]. split; [done|]. split; [exact Hrow2|done]. }
    rewrite run_bind, run_await. simpl. rewrite run_bind.
    set (delay := computeBackoffDelay _ _ _).
    destruct (run (await (Notifications.pause delay)) env w2) as [r w3] eqn:E3.
    pose proof (run_pause delay w2) as Hm3. rewrite E3 in Hm3. simpl in Hm3.
    rewrite run_await in E3. injection E3 as <- Hw3.
    assert (Hrow3 : notification_of w3 id = notification_of w2 id) by (by subst w3).
    rewrite <- Hrow3 in Hrow2.
    destruct (IH (S k) (Some err) w3 _ ltac:(lia) Hrow2 Htried2) as (w' & row' & ds & E & Hm4 & Hds & Hlen & Hrow' & Hlooped).
    replace (Z.of_nat k + 1 + 1)%Z with (Z.of_nat (S k) + 1)%Z by lia.
    assert (Hv : verdict f job (length (sd_dispatches (w_side w3))) b (S k) (Some err) = v).
    { subst v. f_equal. destruct (moved_trans _ _ _ _ _ _ _ _ Hm Hm3) as [-> _]. rewrite length_app. simpl. lia. }
    rewrite Hv in *. exists w', row', (delay :: ds). split; [done|].
    replace (k + S b) with (S k + b) by lia.
    pose proof (verdict_dispatched _ _ _ _ _ _ _ Hv) as [_ Hge].
    assert (Hd : 2 <= dispatched (S k + b) v - k) by (destruct v; simpl in *; lia).
    split; [|split; [|split; [cbn [length]; rewrite Hlen; lia|done]]].
    + replace (dispatched (S k + b) v - k) with (1 + (0 + (dispatched (S k + b) v - S k))) by lia.
      apply (moved_trans job 1 _ [] _ w w2 w'); [done|]. by apply (moved_trans job 0 _ [delay] ds w2 w3 w').
    + subst delay. replace (Z.of_nat k + 1 + 1)%Z with (Z.of_nat k + 2)%Z by lia. by apply scheduled_cons.
Qed.

Lemma run_mark_failed w row :
  notification_of w id = Some row ->
  exists w', run (RetryQueue.mark job NotificationRepository.markFailed) env w = (Ok tt, w') /\
    moved job 0 [] w w' /\ notification_of w' id = Some (NotificationRepository.failed (env_now env (w_tick w)) row).
Proof using DB HJ Hid. apply run_mark. Qed.

(** The row and the dead letter of an exhausted job. *)
Lemma run_exhaust w row n last :
  sd_bullUp (w_side w) = false \/ (forall t, pv_bull (env_providers env) t = Ok tt) ->
  0 < n -> notification_of w id = Some row -> row_tried n last row ->
  exists w', run (RetryQueue.mark job NotificationRepository.markFailed ;;;
      RetryQueue.recordDeadLetter job (Z.of_nat n) last) env w = (Ok tt, w') /\
    sd_dispatches (w_side w') = sd_dispatches (w_side w) /\
    (exists row', notification_of w' id = Some row' /\ row_settled n (Exhausted last) row') /\
    sd_sleeps (w_side w') = sd_sleeps (w_side w) /\
    (exists l, sd_sink (w_side w') = sd_sink (w_side w) ++ l /\
      sd_bullDlq (w_side w') = sd_bullDlq (w_side w) ++
        (if sd_bullUp (w_side w) then RetryQueue.entry_image <$> l else []) /\
      dead_letters job n (Exhausted last) l).
Proof using DB HJ Hid Hsink Hsink_ok.
  intros Hup Hn Hrow Htried. destruct (run_mark_failed w row Hrow) as (w1 & E1 & (A1 & B1 & C1 & D1 & F1 & G1) & Hrow1).
  rewrite run_bind, E1.
  destruct (run_recordDeadLetter w1 (Z.of_nat n) last) as (w' & E & HA & HB & Hdb & Hsl & at_ & Hs & Hq); [by rewrite G1|].
  exists w'. split; [done|]. split; [by rewrite HA, A1, app_nil_r|]. split; [|split].
  - eexists. split; [unfold notification_of; rewrite Hdb; exact Hrow1|]. simpl.
    destruct Htried as [->|[H1 H2]]; [lia|]. auto.
  - by rewrite Hsl, B1, app_nil_r.
  - exists [RetryQueue.dead_letter job (Z.of_nat n) last at_].
    split; [by rewrite Hs, C1|]. split; [rewrite Hq, D1, G1; by destruct (sd_bullUp _)|by exists at_].
Qed.

Lemma run_processInProcess w row n :
  bo_attempts backoff = Z.of_nat n -> 0 < n ->
  sd_dispatchers (w_side w) (rj_channel job) = Some f -> sd_bullUp (w_side w) = false ->
  notification_of w id = Some row ->
  let v := verdict f job (length (sd_dispatches (w_side w))) n 0 None in
  exists w', run (RetryQueue.processInProcess backoff job) env w = (Ok tt, w') /\
    settled job id n v w w' /\ paced backoff env (dispatched n v - 1) w w'.
Proof using DB HJ Hid Hsink Hsink_ok.
  intros Hn Hpos Hf Hup Hrow v. unfold RetryQueue.processInProcess. rewrite run_bind, run_await. simpl. rewrite Hf.
  rewrite run_bind, Hn, Nat2Z.id.
  destruct (run_attempts_loop n 0 None w row) as (w1 & row1 & ds & E & (A1 & B1 & C1 & D1 & F1 & G1) & Hds & Hlen & Hrow1 & Hl);
    [done|done|by left|].
  rewrite Nat.add_0_l, Nat.sub_0_r in *. change (Z.of_nat 0 + 1)%Z with 1%Z in E. rewrite E.
  fold v in A1, Hlen, Hl |- *. clearbody v. destruct v as [k|last]; cbn [loop_result].
  - exists w1. split; [done|]. split; [|exists ds; split; [done|by split]]. split; [done|]. split; [by exists row1|].
    exists []. rewrite C1, D1. rewrite app_nil_r, <- no_letters. by split_and!.
  - destruct (run_exhaust w1 row1 n last) as (w' & E' & HA & HR & HS & l & HL & HQ & HD); [left; congruence|done|done|done|].
    exists w'. split; [done|]. split; [|exists ds; by rewrite HS, B1].
    split; [by rewrite HA|]. split; [done|]. exists l. by rewrite HL, C1, HQ, D1, G1.
Qed.

(** *** The BullMQ worker *)

Context {bull : BullMQ} (bull_ok : forall t, pv_bull (env_providers env) t = Ok tt).

Abbreviation worker := (bull_work (RetryQueue.process job) (RetryQueue.on_failed backoff job)).

Lemma run_process w row k :
  sd_dispatchers (w_side w) (rj_channel job) = Some f -> notification_of w id = Some row ->
  exists w' row', run (RetryQueue.process job (Z.of_nat k)) env w = (f (length (sd_dispatches (w_side w))) job, w') /\
    moved job 1 [] w w' /\ notification_of w' id = Some row' /\
    match f (length (sd_dispatches (w_side w))) job with
    | Ok _ => nt_status row' = NSent /\ nt_retryCount row' = Z.of_nat k
    | Throw e => row_tried (S k) (Some e) row'
    end.
Proof using DB HJ Hid.
  intros Hd Hrow. unfold RetryQueue.process. rewrite run_bind, run_await. simpl. rewrite Hd.
  rewrite run_catch, run_bind, run_dispatch. pose proof (moved_dispatch w) as Hm1. set (w1 := set_side _ _) in *.
  assert (Hrow1 : notification_of w1 id = Some row) by done. destruct (f _ job) as [[]|err].
  - destruct (run_mark w1 row (NotificationRepository.sent (Z.of_nat k)) Hrow1) as (w2 & E & Hm2 & Hrow2).
    unfold NotificationRepository.markSent. rewrite E. exists w2. eexists. split; [done|].
    split; [by apply (moved_trans job 1 0 [] [] w w1 w2)|]. by split.
  - rewrite run_bind.
    destruct (run_mark w1 row (NotificationRepository.attempt_failed (Z.of_nat k + 1) (exn_message err)) Hrow1)
      as (w2 & E & Hm2 & Hrow2).
    unfold NotificationRepository.markAttemptFailed. rewrite E. exists w2. eexists. split; [done|].
    split; [by apply (moved_trans job 1 0 [] [] w w1 w2)|]. split; [done|]. right. simpl. split; [lia|done].
Qed.

Lemma run_worker budget k last w row n :
  bo_attempts backoff = Z.of_nat n -> k + S budget = n ->
  sd_dispatchers (w_side w) (rj_channel job) = Some f -> notification_of w id = Some row ->
  let v := verdict f job (length (sd_dispatches (w_side w))) (S budget) k last in
  exists w', run (worker (S budget) (Z.of_nat k)) env w = (Ok tt, w') /\
    sd_dispatches (w_side w') = sd_dispatches (w_side w) ++ replicate (dispatched n v - k) job /\
    (exists row', notification_of w' id = Some row' /\ row_settled n v row') /\
    (exists l, sd_sink (w_side w') = sd_sink (w_side w) ++ l /\
      sd_bullDlq (w_side w') = sd_bullDlq (w_side w) ++
        (if sd_bullUp (w_side w) then RetryQueue.entry_image <$> l else []) /\
      dead_letters job n v l).
Proof using DB HJ Hid Hsink Hsink_ok bull_ok.
  intros Hn. revert k last w row. induction budget as [|b IH]; intros k last w row Hk Hd Hrow v;
    rewrite bull_retries, run_bind, run_attempt;
    destruct (run_process w row k Hd Hrow) as (w1 & row1 & E1 & (A1 & _ & B1 & Q1 & C1 & D1) & Hrow1 & Hp);
    rewrite E1; simpl (_.1); simpl (_.2); cbv iota beta; simpl in v;
    destruct (f (length (sd_dispatches (w_side w))) job) as [[]|err] eqn:Hf.
  - exists w1. split; [done|]. subst v. simpl. replace (S k - k) with 1 by lia.
    split; [done|]. split; [by exists row1|]. exists []. rewrite B1, Q1. rewrite app_nil_r, <- no_letters. by split_and!.
  - rewrite run_bind. unfold RetryQueue.on_failed. rewrite (proj2 (Z.ltb_ge _ _)) by lia.
    rewrite run_bind, run_attempt.
    replace (Z.of_nat k + 1)%Z with (Z.of_nat n) by lia. replace (S k) with n in Hp by lia.
    destruct (run_exhaust w1 row1 n (Some err)) as (w2 & E2 & HA & HR & _ & l & HS & HQ & HD); [by right|lia|done|done|].
    rewrite E2. simpl. rewrite run_bind, run_await. simpl. rewrite bull_exhausted.
    eexists. split; [reflexivity|]. subst v. simpl. replace (n - k) with 1 by lia.
    split; [by rewrite HA|]. split; [done|]. exists l. by rewrite HS, B1, HQ, Q1, D1.
  - exists w1. split; [done|]. subst v. simpl. replace (S k - k) with 1 by lia.
    split; [done|]. split; [by exists row1|]. exists []. rewrite B1, Q1. rewrite app_nil_r, <- no_letters. by split_and!.
  - rewrite run_bind. unfold RetryQueue.on_failed at 1. rewrite (proj2 (Z.ltb_lt _ _)) by lia.
    change (run (Ret tt) env w1) with (Ok (A:=unit) tt, w1). cbv iota beta. rewrite run_bind, run_await. simpl.
    replace (Z.of_nat k + 1)%Z with (Z.of_nat (S k)) by lia.
    destruct (IH (S k) (Some err) (tick w1) row1 ltac:(lia)) as (w' & E' & HA & HR & l & HS & HQ & HD);
      [by rewrite <- Hd; simpl; rewrite C1|done|].
    replace (length (sd_dispatches (w_side (tick w1)))) with (S (length (sd_dispatches (w_side w)))) in *
      by (simpl; rewrite A1, length_app; simpl; lia).
    set (v' := verdict f job (S (length (sd_dispatches (w_side w)))) (S b) (S k) (Some err)) in *.
    assert (Hv : v' = v) by done. rewrite Hv in *. clearbody v.
    pose proof (verdict_dispatched f job _ _ _ _ v Hv) as [_ Hge].
    exists w'. split; [done|]. split; [|split; [done|]].
    { rewrite HA. simpl. rewrite A1, <- app_assoc. f_equal.
      replace (dispatched n v - k) with (1 + (dispatched n v - S k)); [done|]. destruct v; simpl in *; lia. }
    exists l. simpl in HS, HQ. by rewrite HS, B1, HQ, Q1, D1.
Qed.

Lemma run_whole_worker w row n :
  bo_attempts backoff = Z.of_nat n -> 0 < n ->
  sd_dispatchers (w_side w) (rj_channel job) = Some f -> notification_of w id = Some row ->
  settled job id n (verdict f job (length (sd_dispatches (w_side w))) n 0 None) w (run (worker n 0) env w).2.
Proof using DB HJ Hid Hsink Hsink_ok bull_ok.
  intros Hn Hpos Hd Hrow. destruct n as [|b]; [lia|].
  destruct (run_worker b 0 None w row (S b) Hn eq_refl Hd Hrow) as (w' & E & H).
  change 0%Z with (Z.of_nat 0). rewrite E. rewrite Nat.sub_0_r in H. exact H.
Qed.
End queue.

(** *** Both backends *)

Lemma verdict_ext f job job' i budget failures last :
  (forall j, f j job' = f j job) -> verdict f job' i budget failures last = verdict f job i budget failures last.
Proof.
  intros Hf. revert i failures last. induction budget as [|b IH]; intros i failures last; simpl; [done|].
  rewrite Hf. by destruct (f i job).
Qed.

(** C27. A notification enqueued for a channel that has a dispatcher.
    Without Redis it is handed to the dispatcher at once, until it succeeds or
    the attempts are used up, with the computed delay between two attempts.
    With BullMQ connected its JSON image is added to the queue and nothing
    else happens; whenever the worker runs it, the image is handed to the
    dispatcher in the same way.  Either way the row ends SENT with the number
    of retries, or FAILED with the attempts and the last error, and a job that
    failed is dead-lettered exactly once, in the sink and in the dead-letter
    queue when BullMQ is connected.  The verdicts are the same for a dispatcher
    that treats a job and its image alike. *)
Theorem retry_backends_agree backoff env job id f sink (bull : BullMQ) w row n :
  db_reliable env -> rj_notificationId job = Some id -> id <> "" ->
  pv_sink (env_providers env) = Some sink -> (forall t e, sink t e = Ok tt) ->
  (forall t, pv_bull (env_providers env) t = Ok tt) ->
  bo_attempts backoff = Z.of_nat n -> 0 < n ->
  sd_dispatchers (w_side w) (rj_channel job) = Some f -> notification_of w id = Some row ->
  let live := RetryQueue.enrich job (coalesce (rj_requestId job) (env_uuid env (w_tick w))) in
  let stored := RetryQueue.job_image live in
  let w' := (run (RetryQueue.enqueue backoff job) env w).2 in
  (sd_bullUp (w_side w) = false ->
   let v := verdict f live (length (sd_dispatches (w_side w))) n 0 None in
   settled live id n v w w' /\ paced backoff env (dispatched n v - 1) w w') /\
  (sd_bullUp (w_side w) = true ->
   sd_bull (w_side w') = sd_bull (w_side w) ++ [stored] /\
   sd_dispatches (w_side w') = sd_dispatches (w_side w) /\ sd_sink (w_side w') = sd_sink (w_side w) /\
   notification_of w' id = Some row /\
   forall w1 row1, sd_dispatchers (w_side w1) (rj_channel job) = Some f -> notification_of w1 id = Some row1 ->
     settled stored id n (verdict f stored (length (sd_dispatches (w_side w1))) n 0 None) w1
       (run (bull_work (RetryQueue.process stored) (RetryQueue.on_failed backoff stored) n 0) env w1).2) /\
  ((forall i, f i stored = f i live) -> forall i, verdict f stored i n 0 None = verdict f live i n 0 None).
Proof.
  intros DB HJ Hid Hsink Hsink_ok Hbull Hn Hpos Hd Hrow live stored w'.
  set (w0 := match rj_requestId job with Some _ => w | None => tick w end).
  assert (Hw' : w' = (run (if sd_bullUp (w_side w) then await (RetryQueue.bull_add live)
      else RetryQueue.processInProcess backoff live) env w0).2).
  { subst w' w0 live. unfold RetryQueue.enqueue. rewrite run_bind.
    destruct (rj_requestId job) as [r|].
    - change (run (Ret r) env w) with (Ok (A:=string) r, w). cbv iota beta. by rewrite run_bind, run_await.
    - unfold Notifications.randomUUID. rewrite run_await. cbv iota beta. by rewrite run_bind, run_await. }
  assert (H0 : w_side w0 = w_side w /\ w_db w0 = w_db w) by (subst w0; by destruct (rj_requestId job)).
  destruct H0 as [Hs0 Hdb0].
  assert (Hrow0 : notification_of w0 id = Some row) by (unfold notification_of; by rewrite Hdb0).
  clearbody w' w0. subst w'. split; [|split].
  - intros Hup v. rewrite Hup.
    destruct (run_processInProcess backoff env live id f DB HJ Hid sink Hsink Hsink_ok w0 row n)
      as (w2 & -> & Hset); [done|done|by rewrite Hs0|by rewrite Hs0|done|].
    unfold settled, paced in Hset |- *. rewrite Hs0 in Hset. exact Hset.
  - intros Hup. rewrite Hup, run_await. unfold RetryQueue.bull_add. rewrite Hbull. cbn [snd]. rewrite <- Hs0.
    split_and!; [done..|]. intros w1 row1 Hd1 Hrow1. by eapply run_whole_worker.
  - intros Hf i. by apply verdict_ext.
Qed.

(** ** Instances *)

(** A worker that does what is relied on. *)
Fixpoint simple_work (processor : Z -> Prog unit) (failed : Z -> exn -> Prog unit) (n : nat) (made : Z) : Prog unit :=
  match n with
  | O => Ret tt
  | S n =>
      let* r := attempt (processor made) in
      match r with
      | Ok _ => Ret tt
      | Throw e => failed (made + 1)%Z e ;;; await sleep ;;; simple_work processor failed n (made + 1)
      end
  end.

Definition simple_bull : BullMQ :=
  {| bull_work := simple_work; bull_exhausted _ _ _ := eq_refl; bull_retries _ _ _ _ := eq_refl |}.

(** A dispatcher that fails twice, then delivers. *)
Definition flaky (i : nat) (_ : RetryJob) : outcome unit :=
  if Nat.ltb i 2 then Throw (JsError "503") else Ok tt.

Definition demo_job : RetryJob :=
  mkJob EMAIL NShipped (LiveEscrow (toEscrowRecord (demo_row "e1" SHIPPED))) "a@b.co" (Some "r1") (Some "n1").

Definition demo_notification : NotificationRow := NotificationRepository.new_notification
  (mkNotificationInput "e1" NShipped EMAIL "a@b.co" "SHIPPED: Camera" None 0 None) demo_now "n1".

Definition demo_queue_world : World :=
  set_side (set_dispatcher EMAIL flaky demo_side)
    (world_of (set_account_notifications {["n1" := demo_notification]} (demo_db [demo_row "e1" SHIPPED]))).

Definition demo_sink_env : Env :=
  mkEnv (fun _ => demo_now) (fun _ => None) demo_uuid true false (fun _ => false) true
    false demo_config (fun _ => 0%Z) None demo_sdk (fun s => s) (fun _ m => m) (fun _ => "0")
    (fun _ _ => Ok []) (fun _ => Ok 100%Z) (fun _ _ => Ok []) 30 None (fun _ => true)
    (mkProviders (fun _ => false) true (fun _ => None) None None (fun _ => Ok tt) (Some (fun _ _ => Ok tt))
      (fun _ => 0%Z) (fun _ => "") (fun _ => []) (fun _ _ _ => ([], [])) (fun _ _ _ _ => None) demo_webauth None
      (fun _ => 0%Z)).

Lemma retry_backends_agree_witness :
  settled demo_job "n1" 5 (Delivered 2) demo_queue_world
    (run (RetryQueue.enqueue DEFAULT_BACKOFF demo_job) demo_sink_env demo_queue_world).2.
Proof.
  destruct (retry_backends_agree DEFAULT_BACKOFF demo_sink_env demo_job "n1" flaky (fun _ _ => Ok tt) simple_bull
    demo_queue_world demo_notification 5 (fun _ => eq_refl) eq_refl ltac:(discriminate) eq_refl
    (fun _ _ => eq_refl) (fun _ => eq_refl) eq_refl ltac:(lia) eq_refl eq_refl) as [H _].
  exact (proj1 (H eq_refl)).
Defined.

Lemma retry_delay_within_a_quarter_witness :
  (225000 <= computeBackoffDelay 7 20 DEFAULT_BACKOFF <= 375000)%Z.
Proof.
  pose proof (retry_delay_within_a_quarter 7 20 DEFAULT_BACKOFF ltac:(lia) ltac:(lia) ltac:(simpl; lia)
    ltac:(intros cap [= <-]; lia) ltac:(vm_compute; discriminate)) as [H _]. exact H.
Defined.

Example schedule_without_jitter :
  (fun n => computeBackoffDelay (2 ^ 52) n DEFAULT_BACKOFF) <$> [1; 2; 3; 4; 5; 20]%Z =
    [0; 1000; 2000; 4000; 8000; 300000]%Z.
Proof. vm_compute. reflexivity. Qed.
