(* ===== verification/NotifySpec.v ===== *)
(** * Properties of notifications

    How often a provider is called, with which recipient, what row records it,
    and that the contact a buyer saves is the one that is written to. *)
From S2P Require Import Prelude Records Dates Text Tables Crypto Effects Logistics Cache Prisma EscrowRepo Coherence Demo LogisticsSpec Contract Lifecycle EscrowSvc EscrowSound EscrowSpec Vendor Notify.
Local Open Scope prog_scope.

Abbreviation calls w := (sd_calls (w_side w)).
Abbreviation sleeps w := (sd_sleeps (w_side w)).
Abbreviation rows w := (ac_notifications (db_accounts (w_db w))).

(** ** The retry loop *)

(** A failure the code tries again after. *)
Definition retryable {R} (r : R + ProviderError) : bool :=
  match r with inl _ => false | inr e => Notifications.isRetryableProviderError (Notifications.extractResponseCode e) end.

(** How a loop of at most [budget] attempts reads the provider's answers: every
    one but the last is a retryable failure, and it stops before the budget is
    used up only on an answer that is not. *)
Definition stops_right {R} (budget : nat) (replies : list (R + ProviderError)) : Prop :=
  match reverse replies with
  | [] => budget = 0
  | r :: earlier => Forall (fun x => retryable x = true) earlier /\
      (length replies = budget \/ length replies < budget /\ retryable r = false)
  end.

Lemma stops_one {R} b (r : R + ProviderError) : b = 0 \/ retryable r = false -> stops_right (S b) [r].
Proof.
  intros H. split; [constructor|]. simpl. destruct b; [by left|]. right. destruct H as [?|H]; [lia|]. split; [lia|done].
Qed.

Lemma stops_cons {R} b (r : R + ProviderError) replies :
  replies <> [] -> retryable r = true -> stops_right b replies -> stops_right (S b) (r :: replies).
Proof.
  intros Hne Hr. unfold stops_right. rewrite reverse_cons. destruct (reverse replies) as [|x earlier] eqn:Hrev.
  { apply (f_equal reverse) in Hrev. by rewrite reverse_involutive in Hrev. }
  intros [Hf Hl]. simpl. split; [apply Forall_app; split; [done|by repeat constructor]|].
  destruct Hl as [Hl|[Hl Hx]]; [left|right; split]; [lia|lia|done].
Qed.

(** The waits of a loop: one second, then two, and so on. *)
Definition waits (k n : nat) : list Z := (fun i => 1000 * 2 ^ Z.of_nat i)%Z <$> seq k n.

Section loop.
Context {R : Type} (env : Env) (send : Action (R + ProviderError)) (c : ProviderCall)
  (id_of : R -> option string) (code_of : R -> option Z -> option Z).
Context (Hsend : forall w, exists r, send env w = (Ok r, set_side (add_call c (w_side w)) (tick w))).

Lemma run_attempt_loop budget k last w :
  exists d (replies : list (R + ProviderError)) w', run (Notifications.attempt_loop send id_of code_of budget k last) env w = (Ok d, w') /\
    Notifications.dv_attemptCount d = k + length replies /\ length replies <= budget /\
    stops_right budget replies /\
    calls w' = calls w ++ replicate (length replies) c /\
    sleeps w' = sleeps w ++ waits k (length replies - 1) /\
    w_db w' = w_db w /\ w_tick w <= w_tick w'.
Proof using Hsend.
  revert k last w. induction budget as [|b IH]; intros k last w.
  { exists (Notifications.mkDelivery None k last), ([] : list (R + ProviderError)), w. simpl.
    rewrite !app_nil_r, Nat.add_0_r. split_and!; done. }
  simpl. rewrite run_bind, run_await. destruct (Hsend w) as [r Hr]. rewrite Hr.
  set (w1 := set_side _ _). destruct r as [response|error].
  { eexists _, [inl response], w1. split; [reflexivity|]. simpl. rewrite app_nil_r.
    split; [lia|]. split; [lia|]. split; [apply stops_one; by right|]. repeat split; lia. }
  destruct (Notifications.isRetryableProviderError (Notifications.extractResponseCode error)) eqn:Hre; simpl.
  2: { eexists _, [inr error], w1. split; [reflexivity|]. simpl. rewrite app_nil_r.
       split; [lia|]. split; [lia|]. split; [apply stops_one; by right|]. repeat split; lia. }
  rewrite run_bind. destruct b as [|b].
  { change (run (Ret tt) env w1) with (Ok (A:=unit) tt, w1). cbv iota beta.
    eexists _, [inr error], w1. split; [reflexivity|]. simpl. rewrite app_nil_r.
    split; [lia|]. split; [lia|]. split; [apply stops_one; by left|]. repeat split; lia. }
  rewrite run_await. unfold Notifications.pause. set (w2 := set_side (add_sleep _ _) _).
  destruct (IH (S k) (Notifications.extractResponseCode error) w2)
    as (d & replies & w' & E & Hn & Hb & Hstop & Hc & Hs & Hdb & Ht).
  assert (Hne : replies <> []) by (intros ->; done).
  exists d, (inr error :: replies), w'. split; [exact E|]. simpl.
  split; [lia|]. split; [lia|]. split; [|split; [|split; [|split; [done|simpl in Ht; lia]]]].
  - by apply stops_cons.
  - rewrite Hc. simpl. by rewrite <- app_assoc.
  - rewrite Hs. simpl. rewrite <- app_assoc. f_equal. rewrite Nat.sub_0_r.
    destruct replies as [|x replies]; [done|]. cbn [length app]. rewrite Nat.sub_succ, Nat.sub_0_r. unfold waits. simpl.
    f_equal. do 2 f_equal. lia.
Qed.
End loop.

(** ** One notification *)

(** The row of a notification about [escrow], freshly created. *)
Definition recorded (t : NotificationType) (escrow : EscrowRecord) (ch : NotificationChannel) (rcpt : string)
    (attempts : nat) (w w' : World) : Prop :=
  exists id row, rows w !! id = None /\ rows w' = <[id := row]> (rows w) /\
    nt_status row = NPending /\ ni_type (nt_input row) = t /\ ni_channel (nt_input row) = ch /\
    ni_escrowId (nt_input row) = e_id escrow /\ ni_recipientAddress (nt_input row) = rcpt /\
    ni_attemptCount (nt_input row) = Z.of_nat attempts.

Section dispatch.
Context (env : Env) (DB : db_reliable env) (t : NotificationType) (escrow : EscrowRecord) (rcpt : string).

(** The escrow exists and the ids to be drawn are free. *)
Definition ready (w : World) : Prop :=
  is_Some (db_escrows (w_db w) !! e_id escrow) /\
  forall k, w_tick w <= k -> rows w !! env_uuid env k = None.

Lemma ready_later w w' : w_db w' = w_db w -> w_tick w <= w_tick w' -> ready w -> ready w'.
Proof using Type. intros E Ht [H1 H2]. unfold ready. rewrite E. split; [done|]. intros k Hk. apply H2. lia. Qed.

Lemma run_create w w1 input :
  ready w -> w_db w1 = w_db w -> w_tick w <= w_tick w1 -> ni_escrowId input = e_id escrow ->
  exists row w', run (NotificationRepository.create input) env w1 = (Ok row, w') /\
    nt_input row = input /\ nt_status row = NPending /\
    (exists id, rows w !! id = None /\ rows w' = <[id := row]> (rows w)) /\
    calls w' = calls w1 /\ sleeps w' = sleeps w1.
Proof using DB.
  intros Hr Hdb Ht Hin. pose proof (ready_later _ _ Hdb Ht Hr) as [He Hf].
  unfold NotificationRepository.create. rewrite run_await, db_call_reliable by done.
  rewrite (Hf (w_tick w1)) by done. rewrite bool_decide_eq_false_2 by (by intros [? ?]).
  rewrite Hin, bool_decide_eq_true_2 by done. cbn [fst snd].
  eexists _, _. split; [reflexivity|]. split; [done|]. split; [done|]. split; [|done].
  eexists. rewrite <- Hdb. split; [by apply Hf|done].
Qed.

Lemma run_undeliverable w w1 ch :
  ready w -> w_db w1 = w_db w -> w_tick w <= w_tick w1 ->
  exists w', run (Notifications.recordUndeliverable t escrow ch rcpt) env w1 = (Ok tt, w') /\
    recorded t escrow ch rcpt 0 w w' /\ calls w' = calls w1 /\ sleeps w' = sleeps w1.
Proof using DB.
  intros Hr Hdb Ht. unfold Notifications.recordUndeliverable. rewrite run_bind.
  set (input := mkNotificationInput _ _ _ _ _ _ _ _).
  destruct (run_create w w1 input Hr Hdb Ht eq_refl) as (row & w' & -> & Hi & Hs & (id & Hn & E) & Hc & Hl).
  exists w'. split; [done|]. split; [|done]. exists id, row. by rewrite Hi.
Qed.

Lemma run_record w w1 ch d :
  ready w -> w_db w1 = w_db w -> w_tick w <= w_tick w1 ->
  exists w', run (Notifications.record_delivery t escrow ch rcpt d) env w1 = (Ok tt, w') /\
    recorded t escrow ch rcpt (Notifications.dv_attemptCount d) w w' /\ calls w' = calls w1 /\ sleeps w' = sleeps w1.
Proof using DB.
  intros Hr Hdb Ht. unfold Notifications.record_delivery. rewrite run_bind.
  set (input := mkNotificationInput _ _ _ _ _ _ _ _).
  destruct (run_create w w1 input Hr Hdb Ht eq_refl) as (row & w' & -> & Hi & Hs & (id & Hn & E) & Hc & Hl).
  exists w'. split; [done|]. split; [|done]. exists id, row. by rewrite Hi.
Qed.

End dispatch.

(** ** Who is written to *)

Definition adds (P : ProviderCall -> Prop) (w w' : World) : Prop :=
  exists new, calls w' = calls w ++ new /\ Forall P new.

#[export] Instance adds_preorder P : PreOrder (adds P).
Proof.
  split; [intros w; exists []; by rewrite app_nil_r|].
  intros w1 w2 w3 (n1 & E1 & H1) (n2 & E2 & H2). exists (n1 ++ n2). rewrite E2, E1, app_assoc.
  split; [done|by apply Forall_app].
Qed.

Lemma adds_none P w w' : calls w' = calls w -> adds P w w'.
Proof. intros E. exists []. by rewrite app_nil_r. Qed.

Lemma adds_db {X} P (f : Z -> string -> Db -> outcome X * Db) : every (adds P) (await (db_call f)).
Proof. apply every_await. intros env w. apply adds_none. by destruct (db_call_cases f env w) as [(e & _ & ->)| ->]. Qed.

Ltac adds_atom :=
  first [ apply adds_db | apply every_await; intros; apply adds_none; reflexivity ].

Lemma loop_adds {R} P (send : Action (R + ProviderError)) id_of code_of budget k last :
  (forall env w, adds P w (send env w).2) -> every (adds P) (Notifications.attempt_loop send id_of code_of budget k last).
Proof.
  intros Hs. revert k last. induction budget as [|b IH]; intros k last; simpl; [done|].
  apply every_bind; [by apply every_await|]. intros [r|e]; [done|]. case_match; [done|].
  apply every_bind; [|intros _; apply IH]. destruct b; [done|adds_atom].
Qed.

Lemma email_adds t escrow rcpt :
  every (adds (fun c => exists m, c = SendGridSend m /\ em_to m = rcpt)) (Notifications.dispatchEmail t escrow rcpt).
Proof.
  unfold Notifications.dispatchEmail, Notifications.recordUndeliverable, Notifications.record_delivery,
    NotificationRepository.create, Notifications.randomUUID, ask.
  walk_every ltac:(idtac; first [ apply loop_adds; intros env w; unfold Notifications.send_email;
    destruct (pv_sendgrid _); [eexists [_]; split; [done|constructor; [by eexists|done]]|by apply adds_none]
    | adds_atom]).
Qed.

Lemma sms_adds t escrow rcpt :
  every (adds (fun c => exists m, c = TwilioCreate m /\ sm_to m = rcpt)) (Notifications.dispatchSms t escrow rcpt).
Proof.
  unfold Notifications.dispatchSms, Notifications.recordUndeliverable, Notifications.record_delivery,
    NotificationRepository.create, Notifications.randomUUID, ask.
  walk_every ltac:(idtac; first [ apply loop_adds; intros env w; unfold Notifications.send_sms;
    destruct (pv_twilio _); [eexists [_]; split; [done|constructor; [by eexists|done]]|by apply adds_none]
    | adds_atom]).
Qed.

(** The contact a call of a provider is addressed to. *)
Definition addressed (email phone : option string) (c : ProviderCall) : Prop :=
  match c with
  | SendGridSend m => email = Some (em_to m)
  | TwilioCreate m => phone = Some (sm_to m)
  end.

Lemma adds_mono (P Q : ProviderCall -> Prop) w w' : (forall c, P c -> Q c) -> adds P w w' -> adds Q w w'.
Proof. intros H (new & E & Hn). exists new. split; [done|]. eapply Forall_impl; eauto. Qed.

(** A run of [dispatchToBuyer], given what the stored contacts decrypt to. *)
Lemma buyer_adds env w t escrow email phone :
  Notifications.tryDecrypt env (e_buyerContactEmail escrow) = email ->
  Notifications.tryDecrypt env (e_buyerContactPhone escrow) = phone ->
  adds (addressed email phone) w (run (Notifications.dispatchToBuyer t escrow) env w).2.
Proof.
  intros He Hp. unfold Notifications.dispatchToBuyer, ask. rewrite run_bind, run_await. cbn [fst snd].
  rewrite run_bind, run_await. cbn [fst snd]. rewrite He, Hp.
  apply (every_run (adds (addressed email phone))). apply every_bind.
  { destruct email as [e|]; simpl; [|done]. case_bool_decide; [done|]. simpl.
    eapply every_mono; [|apply email_adds]. intros w1 w2. apply adds_mono. by intros c (m & -> & <-). }
  intros _. apply every_bind.
  { destruct phone as [p|]; simpl; [|done]. case_bool_decide; [done|]. simpl.
    eapply every_mono; [|apply sms_adds]. intros w1 w2. apply adds_mono. by intros c (m & -> & <-). }
  intros _. case_match; [|done].
  unfold Notifications.recordUndeliverable, NotificationRepository.create. walk_every ltac:(idtac; adds_atom).
Qed.

(** ** The saved contact *)

Definition given (o : option string) : option string := if truthy o then o else None.

Section contact.
Context (env : Env) (w : World) (HE : good_env env) (HI : Inv env w) (DB : db_reliable env)
  (HG : gcm_ok (env_providers env)).

(** What is stored for a contact decrypts to it; nothing is stored for none. *)
Lemma wp_encrypt_opt w1 o (Q : outcome (option string) -> World -> Prop) :
  (forall r, Notifications.tryDecrypt env r = given o -> Q (Ok r) (if truthy o then tick w1 else w1)) ->
  (forall e, Q (Throw e) (tick w1)) ->
  wp (EscrowService.encrypt_opt o) env w1 Q.
Proof using HG.
  intros Hok Herr. unfold EscrowService.encrypt_opt, given in *. destruct o as [s|]; [|by apply wp_ret, Hok].
  destruct (truthy (Some s)) eqn:Ht; [|by apply wp_ret, Hok]. apply wp_await. cbn [coalesce].
  destruct (encryptContact _ _ _ _) as [c|e] eqn:Hc; [|apply Herr]. cbn [fst snd]. apply Hok.
  unfold Notifications.tryDecrypt.
  assert (Hct : truthy (Some c) = true).
  { unfold encryptContact in Hc. destruct (resolveKey _) as [key|]; [|done]. injection Hc as <-. apply seal_text_truthy. }
  rewrite Hct. cbn [coalesce]. by rewrite (contact_round_trip _ HG _ _ _ _ Hc).
Qed.

Lemma inv_tick w1 : Inv env w1 -> Inv env (tick w1).
Proof using Type. intros H. by apply (off_escrow_inv env w1). Qed.

Lemma unchanged_tick w1 : unchanged w w1 -> unchanged w (tick w1).
Proof using Type. intros [H1 H2]. split; [exact H1|]. etrans; [exact H2|done]. Qed.

(** Once a buyer contact is saved, every e-mail and text message that is
    later sent to the buyer about that record goes to exactly the address and
    the number that were given, whatever the state of the backend and of the
    providers by then. *)
Theorem saved_contact_is_where_the_buyer_is_reached id dto msg w1 :
  run (EscrowService.updateBuyerContact id dto) env w = (Ok msg, w1) ->
  exists row, escrow_of w1 id = Some row /\
    forall t w2, adds (addressed (given (EscrowService.bc_email dto)) (given (EscrowService.bc_phone dto))) w2
      (run (Notifications.dispatchToBuyer t (toEscrowRecord row)) env w2).2.
Proof using HE HI DB HG.
  intros Hrun.
  assert (HW : wp (EscrowService.updateBuyerContact id dto) env w (fun r w' =>
    match r with
    | Ok _ => exists row, escrow_of w' id = Some row /\
        Notifications.tryDecrypt env (e_buyerContactEmail row) = given (EscrowService.bc_email dto) /\
        Notifications.tryDecrypt env (e_buyerContactPhone row) = given (EscrowService.bc_phone dto)
    | Throw _ => True
    end)).
  { unfold EscrowService.updateBuyerContact. apply (wp_load env w HE HI DB).
    destruct (escrow_of w id) as [row|] eqn:Hrow; [|done]. intros w2 HI2 Hun. destruct (TERMINAL_STATES _); [done|].
    apply wp_bind, wp_await. cbn [fst snd]. destruct (EscrowService.isContactEncryptionConfigured env); [|done]. cbn [negb].
    apply wp_bind, wp_encrypt_opt; [|done]. intros r1 Hr1. apply wp_bind, wp_encrypt_opt; [|done]. intros r2 Hr2.
    set (w3 := if truthy (EscrowService.bc_phone dto) then _ else _).
    assert (H3 : Inv env w3 /\ unchanged w w3).
    { subst w3. destruct (truthy (EscrowService.bc_phone dto)), (truthy (EscrowService.bc_email dto)); split;
        repeat first [apply inv_tick|apply unchanged_tick]; done. }
    destruct H3 as [HI3 Hun3]. unfold saveBuyerContact. apply wp_bind.
    eapply (wp_write env w HE DB); [done|done|exact Hrow|solve_update|].
    intros now w' row' _ Hw _. apply wp_ret. exists row'. split; [|by split].
    unfold escrow_of. rewrite Hw. exact (lookup_insert_eq (db_escrows (w_db w)) id row'). }
  apply (wp_run _ _ _ _ _ _ Hrun) in HW as (row & Hrow & He & Hp). exists row. split; [done|].
  intros t w2. by apply buyer_adds.
Qed.
End contact.

(** ** Instances *)

Definition mail_env : Env :=
  mkEnv (fun _ => demo_now) (fun _ => None) (fun t => bigint_toString (Z.of_nat t)) true false (fun _ => false) true
    false (fun key => if bool_decide (key = "SENDGRID_FROM_EMAIL") then Some "from@trustlink.dev"
                      else if bool_decide (key = "SENDGRID_TEMPLATE_SHIPPED") then Some "d-1"
                      else if bool_decide (key = "CONTACT_ENCRYPTION_KEY")
                      then Some "000102030405060708090a0b0c0d0e0f101112131415161718191a1b1c1d1e1f" else None)
    (fun _ => 0%Z) None demo_sdk (fun s => s) (fun _ m => m) (fun _ => "0")
    (fun _ _ => Ok []) (fun _ => Ok 100%Z) (fun _ _ => Ok []) 30 None (fun _ => true) demo_providers.


Lemma saved_contact_is_where_the_buyer_is_reached_witness :
  exists w1 row, run (EscrowService.updateBuyerContact "e1"
      (EscrowService.mkContactDto (Some "a@b.co") None)) mail_env (demo_world [demo_row "e1" SHIPPED]) =
      (Ok "Buyer contact information saved.", w1) /\ escrow_of w1 "e1" = Some row /\
    adds (addressed (Some "a@b.co") None) w1
      (run (Notifications.dispatchToBuyer NShipped (toEscrowRecord row)) mail_env w1).2.
Proof.
  destruct (run (EscrowService.updateBuyerContact "e1" (EscrowService.mkContactDto (Some "a@b.co") None))
    mail_env (demo_world [demo_row "e1" SHIPPED])) as [[msg|e] w1] eqn:H.
  2: { apply (f_equal (fun x => is_ok x.1)) in H. vm_compute in H. discriminate. }
  assert (msg = "Buyer contact information saved.") as ->.
  { apply (f_equal fst) in H. vm_compute in H. by injection H as <-. }
  destruct (saved_contact_is_where_the_buyer_is_reached mail_env (demo_world [demo_row "e1" SHIPPED])
    ltac:(split; [intros; apply demo_now_ok|done]) ltac:(apply demo_inv; repeat constructor; apply demo_row_dates)
    (fun _ => eq_refl) demo_gcm _ _ _ _ H) as (row & Hrow & Hadds).
  exists w1, row. split; [done|]. split; [done|]. apply Hadds.
Defined.
