(* ===== verification/AuthSpec.v ===== *)
(** * Properties of authentication

    Which bearer tokens the guard accepts; that an issued token is accepted
    exactly until it expires; that a challenge is redeemed once and refresh
    tokens rotate, with reuse revoking every session, when requests are served
    one at a time, each a step that adds at most one session; and the two races an interleaving allows. *)
From Stdlib Require Import Ascii.
From S2P Require Import Prelude Records Dates Text Tables Crypto Json Stringify Effects Demo Cache Prisma EscrowRepo Coherence Contract Lifecycle EscrowSvc EscrowSound SyncSpec Disputes Workers WorkersSound Dlq Webhook Poller Backend Concurrency Auth.
Local Open Scope prog_scope.

(** ** Text *)

Lemma split_on_join c s ps : split_on c s = ps -> s = join (String c EmptyString) ps.
Proof.
  intros <-. induction s as [|x s IH]; [done|]. simpl. case_bool_decide; subst.
  - destruct (split_on c s) eqn:E; [by destruct s; simpl in E; repeat case_match|].
    simpl. rewrite IH at 1. done.
  - destruct (split_on c s) as [|p [|q ps]] eqn:E; simpl in *; [by rewrite IH|by rewrite IH|by rewrite IH].
Qed.

Lemma hex_val_small c n : hex_val c = Some n -> (n < 16)%nat.
Proof.
  unfold hex_val. destruct (char_in 48 57 c) eqn:E1; [|destruct (char_in 97 102 c) eqn:E2; [|destruct (char_in 65 70 c) eqn:E3]];
    intros [= <-]; unfold char_in in *; rewrite andb_true_iff, !Nat.leb_le in *; lia.
Qed.

Lemma hex_bytes_small s : Forall is_byte (hex_bytes s).
Proof.
  assert (H : forall n t, String.length t <= n -> Forall is_byte (hex_bytes t)); [|by eapply H].
  induction n as [|n IH]; intros t Ht; destruct t as [|a [|b t]]; simpl in *; try constructor; [lia|].
  destruct (hex_val a) as [x|] eqn:Ea, (hex_val b) as [y|] eqn:Eb; constructor.
  - unfold is_byte. apply hex_val_small in Ea, Eb. lia.
  - apply IH. lia.
Qed.

(** An ASCII character that is not white space. *)
Definition plain (c : Ascii.ascii) : Prop := is_space c = false /\ Ascii.nat_of_ascii c < 128.

(** The characters of base64url text. *)
Definition b64_text (s : string) : Prop :=
  Forall (fun c => plain c /\ c <> "."%char) (String.list_ascii_of_string s).

Lemma b64_char_text n : (n < 64)%nat -> plain (b64_char n) /\ b64_char n <> "."%char.
Proof. revert n. enumerate_below. Qed.

Lemma base64url_text l : Forall is_byte l -> b64_text (base64url l).
Proof.
  intros Hl. unfold b64_text, base64url. rewrite String.list_ascii_of_string_of_list_ascii.
  apply Forall_fmap. eapply Forall_impl; [by apply sextets_small|]. intros n Hn. by apply b64_char_text.
Qed.

Lemma b64_no_dot s : b64_text s -> has_char "." s = false.
Proof.
  unfold b64_text. induction s as [|c s IH]; [done|]. simpl. inversion 1 as [|? ? [_ Hc] Hs]; subst.
  rewrite bool_decide_eq_false_2 by done. by apply IH.
Qed.

Definition no_space (s : string) : Prop := Forall plain (String.list_ascii_of_string s).

(** No white space starts with a plain character. *)
Lemma plain_lead c k : plain c -> 128 <= k -> Nat.eqb (Ascii.nat_of_ascii c) k = false.
Proof. intros [_ Hc] Hk. apply Nat.eqb_neq. lia. Qed.

Lemma plain_space2 c c2 : plain c -> is_space2 c c2 = false.
Proof. intros Hc. unfold is_space2. by rewrite plain_lead by (done || lia). Qed.

Lemma plain_space3 c c2 c3 : plain c -> is_space3 c c2 c3 = false.
Proof.
  intros Hc. unfold is_space3. cbv zeta. rewrite !(plain_lead c) by (done || (apply Nat.leb_le; reflexivity)). done.
Qed.

Lemma trim_start_plain c s : plain c -> trim_start (String c s) = String c s.
Proof.
  intros Hc. cbn [trim_start]. rewrite (proj1 Hc). destruct s as [|c2 s]; [done|].
  rewrite plain_space2 by done. destruct s as [|c3 s]; [done|]. by rewrite plain_space3.
Qed.

Lemma trim_no_space s : no_space s -> trim s = s.
Proof.
  unfold no_space, trim. intros H. assert (Hs : trim_start s = s).
  { destruct s as [|c s]; [done|]. inversion H; subst. by apply trim_start_plain. }
  rewrite Hs. clear Hs. induction s as [|c s IH]; [done|]. inversion H; subst. cbn [trim_end].
  rewrite trim_start_plain by done. rewrite bool_decide_eq_false_2 by done. by rewrite IH.
Qed.

Lemma list_of_app (a b : string) :
  String.list_ascii_of_string (a +:+ b) = String.list_ascii_of_string a ++ String.list_ascii_of_string b.
Proof. induction a as [|c a IH]; [done|]. simpl. by f_equal. Qed.

Lemma no_space_app a b : no_space a -> no_space b -> no_space (a +:+ b).
Proof. unfold no_space. rewrite list_of_app. apply Forall_app_2. Qed.

Lemma b64_no_space s : b64_text s -> no_space s.
Proof. intros H. eapply Forall_impl; [exact H|]. by intros c [? _]. Qed.

(** ** Access tokens *)

(** The payload of a token, as the text is read back. *)
Lemma parse_payload sub iat exp admin :
  (0 <= iat)%Z -> (0 <= exp)%Z ->
  JSON_parse (Sep10.payload_text sub iat exp admin) =
    Some (JObj ([("sub", Some (JStr sub)); ("iat", Some (JNum (ratio_to_number iat 1)));
                 ("exp", Some (JNum (ratio_to_number exp 1)))] ++
                (if admin : bool then [("role", Some (JStr "admin"))] else []))).
Proof.
  intros Hi He. set (text := Sep10.payload_text sub iat exp admin).
  assert (Hlen : exists n, S (String.length text) = S (S (S (S (S (S (S n))))))).
  { exists (String.length text - 6). unfold text, Sep10.payload_text. simpl. lia. }
  destruct Hlen as [n Hn]. unfold JSON_parse. rewrite Hn.
  assert (Htext : text = String "{" (quote "sub" +:+ String ":" (quote sub +:+ String "," (quote "iat" +:+
    String ":" (bigint_toString iat +:+ String "," (quote "exp" +:+ String ":" (bigint_toString exp +:+
      (if admin then String "," (quote "role" +:+ String ":" (quote "admin" +:+ String "}" "")) else String "}" "")))))))).
  { unfold text, Sep10.payload_text. by destruct admin. }
  rewrite Htext. clear text Hn Htext. rewrite parse_object.
  rewrite (parse_members_cons _ _ _ (JStr sub)) by apply parse_value_string.
  rewrite (parse_members_cons _ _ _ (JNum (ratio_to_number iat 1))) by (apply parse_value_int; [done|by left]).
  destruct admin.
  - rewrite (parse_members_cons _ _ _ (JNum (ratio_to_number exp 1))) by (apply parse_value_int; [done|by left]).
    by rewrite (parse_members_last _ _ _ (JStr "admin")) by apply parse_value_string.
  - by rewrite (parse_members_last _ _ _ (JNum (ratio_to_number exp 1)))
      by (apply parse_value_int; [done|by right; left]).
Qed.

Lemma extract_dots env t a b c :
  has_char "." a = false -> has_char "." b = false -> has_char "." c = false ->
  JwtGuard.extractUser env t (a +:+ "." +:+ b +:+ "." +:+ c) =
    let secret := env_config env "SEP10_JWT_SECRET" in
    if negb (truthy secret) then None
    else
      let expected := base64url (hmac_bytes env (coalesce secret "") (a +:+ "." +:+ b)) in
      if bool_decide (base64url_bytes c = base64url_bytes expected) then
        match JSON_parse (text_of (base64url_bytes b)) with
        | Some payload => JwtGuard.user_of_payload t payload
        | None => None
        end
      else None.
Proof.
  intros Ha Hb Hc. unfold JwtGuard.extractUser.
  change (a +:+ "." +:+ b +:+ "." +:+ c) with (a +:+ String "." (b +:+ String "." c)).
  by rewrite split_app, split_app, split_plain.
Qed.

(** What a payload with the four claims means to the guard. *)
Lemma user_of_issued t sub iat exp admin :
  sub <> "" -> (0 <= exp < 2 ^ 53)%Z ->
  JwtGuard.user_of_payload t (JObj ([("sub", Some (JStr sub)); ("iat", Some (JNum (ratio_to_number iat 1)));
      ("exp", Some (JNum (ratio_to_number exp 1)))] ++ (if admin : bool then [("role", Some (JStr "admin"))] else []))) =
    if (exp <=? t / 1000)%Z then None else Some (mkAuthUser sub (if admin then Some "admin" else None)).
Proof.
  intros Hs He. unfold JwtGuard.user_of_payload. destruct admin; simpl;
    rewrite number_le_integer by done; case_match; try done; by rewrite bool_decide_eq_false_2.
Qed.

Lemma issued_parts env t sub token :
  Sep10.issueJwt env t sub = Ok token ->
  exists secret, env_config env "SEP10_JWT_SECRET" = Some secret /\ secret <> "" /\
    let iat := (t / 1000)%Z in
    let header := base64url (bytes_of Sep10.JWT_HEADER) in
    let body := base64url (bytes_of (Sep10.payload_text sub iat (iat + Sep10.access_ttl env) (Sep10.is_admin env sub))) in
    token = header +:+ "." +:+ body +:+ "." +:+ base64url (hmac_bytes env secret (header +:+ "." +:+ body)).
Proof.
  unfold Sep10.issueJwt, Sep10.jwtSecret. destruct (env_config env "SEP10_JWT_SECRET") as [secret|]; [|done].
  simpl. case_bool_decide; [done|]. intros [= <-]. eauto.
Qed.

Lemma extract_issued env t t' sub token :
  Sep10.issueJwt env t sub = Ok token -> sub <> "" -> (0 <= t)%Z ->
  (0 <= Sep10.access_ttl env)%Z -> (t / 1000 + Sep10.access_ttl env < 2 ^ 53)%Z ->
  JwtGuard.extractUser env t' token =
    if (t / 1000 + Sep10.access_ttl env <=? t' / 1000)%Z then None
    else Some (mkAuthUser sub (if Sep10.is_admin env sub then Some "admin" else None)).
Proof.
  intros Htok Hsub Ht Httl Hmax. destruct (issued_parts _ _ _ _ Htok) as (secret & Hsec & Hne & ->).
  assert (H0 : (0 <= t / 1000)%Z) by (apply Z.div_pos; lia).
  assert (HB : forall l, Forall is_byte l -> has_char "." (base64url l) = false)
    by (intros; by apply b64_no_dot, base64url_text).
  rewrite extract_dots; [|apply HB, bytes_of_bytes|apply HB, bytes_of_bytes|apply HB, hex_bytes_small].
  rewrite Hsec. simpl. rewrite bool_decide_eq_false_2 by done. simpl. rewrite bool_decide_eq_true_2 by done.
  rewrite base64url_round_trip, text_of_bytes, parse_payload by (try apply bytes_of_bytes; lia).
  apply user_of_issued; [done|lia].
Qed.

(** A bearer header with a token made of base64url segments. *)
Lemma activate_bearer env t token :
  no_space token -> token <> "" ->
  JwtGuard.canActivate env t (HOne ("Bearer " +:+ token)) =
    match JwtGuard.extractUser env t token with Some u => Ok u | None => Throw AUTH_REQUIRED end.
Proof.
  intros Hs Hne. unfold JwtGuard.canActivate, JwtGuard.bearer. cbn [first_header mbind option_bind].
  by rewrite after_prefix_app, trim_no_space, bool_decide_eq_false_2.
Qed.

Lemma activate_issued env t t' sub token :
  Sep10.issueJwt env t sub = Ok token -> sub <> "" -> (0 <= t)%Z ->
  (0 <= Sep10.access_ttl env)%Z -> (t / 1000 + Sep10.access_ttl env < 2 ^ 53)%Z ->
  JwtGuard.canActivate env t' (HOne ("Bearer " +:+ token)) =
    if (t / 1000 + Sep10.access_ttl env <=? t' / 1000)%Z then Throw AUTH_REQUIRED
    else Ok (mkAuthUser sub (if Sep10.is_admin env sub then Some "admin" else None)).
Proof.
  intros Htok Hsub Ht Httl Hmax. rewrite activate_bearer.
  - rewrite (extract_issued env t t' sub token) by done. by destruct (_ <=? _)%Z.
  - destruct (issued_parts _ _ _ _ Htok) as (secret & Hsec & Hne & ->).
    assert (HB : forall l, Forall is_byte l -> no_space (base64url l))
      by (intros; by apply b64_no_space, base64url_text).
    assert (Hdot : no_space ".") by repeat constructor.
    repeat apply no_space_app; first [exact Hdot|apply HB; first [apply bytes_of_bytes|apply hex_bytes_small]].
  - by destruct (issued_parts _ _ _ _ Htok) as (secret & Hsec & Hne & ->).
Qed.

(** A token the service issues is accepted by the guard, as the user it
    was issued for and with the admin role exactly when that user is the
    configured admin, until [exp], and refused from then on. *)
Theorem issued_token_round_trip env t t' sub token :
  Sep10.issueJwt env t sub = Ok token -> sub <> "" -> (0 <= t)%Z ->
  (0 <= Sep10.access_ttl env)%Z -> (t / 1000 + Sep10.access_ttl env < 2 ^ 53)%Z ->
  JwtGuard.canActivate env t' (HOne ("Bearer " +:+ token)) =
    if (t / 1000 + Sep10.access_ttl env <=? t' / 1000)%Z then Throw AUTH_REQUIRED
    else Ok (mkAuthUser sub (if bool_decide (env_config env "ADMIN_ADDRESS" = Some sub) then Some "admin" else None)).
Proof.
  intros Htok Hsub Ht Httl Hmax. rewrite (activate_issued env t t' sub token) by done.
  destruct (_ <=? _)%Z; [done|]. do 2 f_equal.
  unfold Sep10.is_admin. destruct (env_config env "ADMIN_ADDRESS") as [a|]; [|by rewrite bool_decide_eq_false_2]. simpl.
  destruct (decide (a = sub)) as [->|Hne].
  - rewrite bool_decide_eq_false_2 by done. by rewrite !bool_decide_eq_true_2.
  - rewrite (bool_decide_eq_false_2 (Some sub = Some a)), (bool_decide_eq_false_2 (Some a = Some sub)) by congruence.
    by rewrite andb_false_r.
Qed.

(** A header that carries a token of [user]: three parts, the third the
    HMAC-SHA256 of the first two under the configured secret, the second the
    base64url image of a JSON object that has not expired and names the user. *)
Definition bears_token (env : Env) (t : Z) (h : HeaderValue) (user : AuthUser) : Prop :=
  exists secret header body signature payload exp,
    first_header h <> None /\
    env_config env "SEP10_JWT_SECRET" = Some secret /\ secret <> "" /\
    trim (coalesce (first_header h ≫= JwtGuard.bearer) "") = header +:+ "." +:+ body +:+ "." +:+ signature /\
    base64url_bytes signature = hmac_bytes env secret (header +:+ "." +:+ body) /\
    JSON_parse (text_of (base64url_bytes body)) = Some payload /\
    json_get "exp" payload = Some (JNum exp) /\ number_le exp (t / 1000) = false /\
    json_get "sub" payload = Some (JStr (au_address user)) /\ au_address user <> "" /\
    au_role user = match json_get "role" payload with Some (JStr r) => Some r | _ => None end.

Lemma activate_bears_token env t h user : JwtGuard.canActivate env t h = Ok user -> bears_token env t h user.
Proof.
  unfold JwtGuard.canActivate, bears_token. destruct (first_header h) as [s|] eqn:Hh; [|done]. simpl.
  destruct (JwtGuard.bearer s) as [rest|] eqn:Hb; [|done]. case_bool_decide; [done|].
  unfold JwtGuard.extractUser. destruct (split_on "." (trim rest)) as [|a [|b [|c [|]]]] eqn:Hsplit; try done.
  destruct (env_config env "SEP10_JWT_SECRET") as [secret|] eqn:Hsec; [|done]. simpl.
  case_bool_decide as Hne; [done|]. simpl. case_bool_decide as Hsig; [|done].
  destruct (JSON_parse _) as [payload|] eqn:Hp; [|done]. unfold JwtGuard.user_of_payload.
  destruct (json_get "exp" payload) as [[| |exp| | |]|] eqn:He; try done.
  destruct (number_le exp (t / 1000)) eqn:Hle; [done|].
  destruct (json_get "sub" payload) as [[| | |sub| |]|] eqn:Hs; try done.
  case_bool_decide as Hsub; [done|]. intros [= <-].
  exists secret, a, b, c, payload, exp. apply split_on_join in Hsplit. cbn [join] in Hsplit.
  rewrite base64url_round_trip in Hsig by apply hex_bytes_small. simpl. split_and!; done.
Qed.

Lemma activate_throws env t h e : JwtGuard.canActivate env t h = Throw e -> e = AUTH_REQUIRED.
Proof. unfold JwtGuard.canActivate. repeat case_match; congruence. Qed.

(** The admin guard lets in exactly the callers whose authenticated
    address is the configured admin's; a role claim in the token does not
    matter. *)
Theorem admin_is_by_address env user :
  AdminGuard.canActivate env user = Ok tt <->
  exists u a, user = Some u /\ env_config env "ADMIN_ADDRESS" = Some a /\ a <> "" /\ au_address u = a.
Proof.
  unfold AdminGuard.canActivate. split.
  - destruct user as [u|]; [|done]. destruct (env_config env "ADMIN_ADDRESS") as [a|] eqn:Ha; simpl; [|done].
    destruct (decide (a = "")) as [->|Hne]; [by rewrite bool_decide_eq_true_2|].
    rewrite bool_decide_eq_false_2 by done. simpl. case_bool_decide as Hu; [|done]. injection Hu as Hu. eauto 6.
  - intros (u & a & -> & -> & Hne & <-). simpl. rewrite bool_decide_eq_false_2 by done.
    by rewrite bool_decide_eq_true_2.
Qed.

(** ** Sessions *)

Lemma find_row_some {V} (P : V -> bool) m r :
  find_row P m = Some r -> P r = true /\ exists k, m !! k = Some r.
Proof. intros H%head_Some_elem_of. by apply elem_of_rows in H. Qed.

Lemma find_row_none {V} (P : V -> bool) m k r : find_row P m = None -> m !! k = Some r -> P r = false.
Proof.
  intros H%head_None Hk. destruct (P r) eqn:HP; [|done].
  assert (Hin : r ∈ List.filter P (map_to_list m).*2) by (apply elem_of_rows; eauto).
  rewrite H in Hin. by apply not_elem_of_nil in Hin.
Qed.

Lemma run_sync {X} (f : Env -> Z -> outcome X) env w : run (Sep10.sync f) env w = (f env (env_now env (w_tick w)), w).
Proof. unfold Sep10.sync. by rewrite run_await. Qed.

Lemma run_now env w : run (await now) env w = (Ok (env_now env (w_tick w)), w).
Proof. by rewrite run_await. Qed.

Section sessions.
Context (env : Env) (DB : db_reliable env).

Abbreviation tokens w := (db_tokens (w_db w)).
Abbreviation nonces w := (db_nonces (w_db w)).

Lemma run_db {X} (f : Z -> string -> Db -> outcome X * Db) w :
  run (await (db_call f)) env w =
    ((f (env_now env (w_tick w)) (env_uuid env (w_tick w)) (w_db w)).1,
     set_db (f (env_now env (w_tick w)) (env_uuid env (w_tick w)) (w_db w)).2 (tick w)).
Proof using DB. rewrite run_await. unfold db_call. rewrite DB. by destruct (f _ _ _). Qed.

(** The row a rotation or a login adds. *)
Definition new_session (w : World) (user hash : string) (parent : option string) (t0 : Z) : RefreshTokenRow :=
  mkToken (env_uuid env (w_tick w)) user hash parent false
    (t0 + Sep10.refresh_ttl env * MILLISECONDS_PER_SECOND) (env_now env (w_tick w)).

(** The id and the hash of a new session are not taken. *)
Definition room (w : World) (m : gmap string RefreshTokenRow) (hash : string) : Prop :=
  m !! env_uuid env (w_tick w) = None /\ find_row (has_hash hash) m = None.

Lemma run_generate w user parent secret :
  env_config env "SEP10_JWT_SECRET" = Some secret -> secret <> "" ->
  let fresh := pv_randomHex (env_providers env) (w_tick w) in
  let hash := env_hmac env secret fresh in
  room w (tokens w) hash ->
  exists token w', run (Sep10.generateAuthTokens user parent) env w = (Ok (mkTokens token fresh), w') /\
    Sep10.issueJwt env (env_now env (w_tick w)) user = Ok token /\
    tokens w' = <[env_uuid env (w_tick w) := new_session w user hash parent (env_now env (w_tick w))]> (tokens w) /\
    nonces w' = nonces w /\ w_tick w' = S (w_tick w).
Proof using DB.
  intros Hsec Hne fresh hash [Hid Hhash]. unfold Sep10.generateAuthTokens. rewrite run_bind, run_sync.
  destruct (Sep10.issueJwt env (env_now env (w_tick w)) user) as [token|e] eqn:Hj.
  2: { exfalso. unfold Sep10.issueJwt, Sep10.jwtSecret in Hj. rewrite Hsec in Hj. simpl in Hj.
       by rewrite bool_decide_eq_false_2 in Hj. }
  rewrite run_bind, run_await. simpl. rewrite run_bind, run_sync. unfold Sep10.hashToken, Sep10.jwtSecret.
  rewrite Hsec. simpl. rewrite bool_decide_eq_false_2 by done. simpl. rewrite run_bind, run_sync.
  rewrite run_bind. unfold token_create. rewrite run_db. fold fresh. fold hash.
  rewrite Hid, Hhash, !bool_decide_eq_false_2 by (by intros [? ?]). simpl.
  by eexists token, _.
Qed.

(** Ids and hashes drawn from now on are not taken. *)
Definition draws_fresh (w : World) (secret : string) : Prop :=
  forall t, w_tick w <= t -> tokens w !! env_uuid env t = None /\
    find_row (has_hash (env_hmac env secret (pv_randomHex (env_providers env) t))) (tokens w) = None.

Lemma find_row_insert_same (P : RefreshTokenRow -> bool) m id row :
  m !! id = Some row -> P (revoke row) = P row -> find_row P m = None -> find_row P (<[id := revoke row]> m) = None.
Proof using Type.
  intros Hid HP Hnone. destruct (find_row P (<[id := revoke row]> m)) as [r|] eqn:E; [|done].
  apply find_row_some in E as (Hr & k & Hk). apply lookup_insert_Some in Hk as [[<- <-]|[_ Hk]].
  - rewrite HP in Hr. by rewrite (find_row_none _ _ _ _ Hnone Hid) in Hr.
  - by rewrite (find_row_none _ _ _ _ Hnone Hk) in Hr.
Qed.

(** C15. Rotation, on every branch: an unknown token is refused; a revoked one
    is refused and every session of its user is revoked; an expired one is
    refused; a live one is revoked and replaced by one new live session of the
    same user, its child, under the token that is returned. *)
Theorem refresh_rotation_correct w tok secret :
  env_config env "SEP10_JWT_SECRET" = Some secret -> secret <> "" ->
  map_Forall (fun id r => tk_id r = id) (tokens w) -> draws_fresh w secret ->
  let r := (run (Sep10.rotateRefreshToken tok) env w).1 in
  let w' := (run (Sep10.rotateRefreshToken tok) env w).2 in
  match find_row (has_hash (env_hmac env secret tok)) (tokens w) with
  | None => r = Throw (UnauthorizedException "Invalid refresh token") /\ tokens w' = tokens w
  | Some row =>
      if tk_revoked row then r = Throw Sep10.REUSED /\ tokens w' = revoke_user (tk_userId row) <$> tokens w
      else if (tk_expiresAt row <? env_now env (S (w_tick w)))%Z
      then r = Throw (UnauthorizedException "Refresh token expired") /\ tokens w' = tokens w
      else exists access fresh id new,
        r = Ok (mkTokens access fresh) /\ tokens w !! id = None /\
        tokens w' = <[id := new]> (<[tk_id row := revoke row]> (tokens w)) /\
        tk_userId new = tk_userId row /\ tk_revoked new = false /\ tk_parentTokenId new = Some (tk_id row) /\
        tk_tokenHash new = env_hmac env secret fresh
  end.
Proof using DB.
  intros Hsec Hne Hkeys Hfresh r w'. subst r w'. unfold Sep10.rotateRefreshToken.
  rewrite run_bind, run_sync. unfold Sep10.hashToken, Sep10.jwtSecret. rewrite Hsec. simpl.
  rewrite bool_decide_eq_false_2 by done. simpl. rewrite run_bind. unfold token_findByHash. rewrite run_db. cbn [fst snd].
  destruct (find_row _ (tokens w)) as [row|] eqn:Hrow; [|done].
  apply find_row_some in Hrow as (Hh & k & Hk). pose proof (Hkeys _ _ Hk) as Hid. simpl in Hid. subst k.
  destruct (tk_revoked row) eqn:Hrev.
  { unfold Sep10.revokeTokenFamily, token_findById, token_revokeUser.
    rewrite run_bind, run_bind, run_db. cbn [fst snd]. change (w_db (set_db (w_db w) (tick w))) with (w_db w).
    rewrite Hk. rewrite run_db. done. }
  rewrite run_bind, run_now. cbn [w_tick set_db tick].
  destruct (_ <? _)%Z; [done|].
  unfold token_revoke. rewrite run_bind, run_db. cbn [w_db set_db tick]. rewrite Hk. cbn [fst snd].
  set (w2 := set_db _ _).
  destruct (run_generate w2 (tk_userId row) (Some (tk_id row)) secret Hsec Hne) as (token & w3 & E & _ & Ht & _).
  { destruct (Hfresh (S (S (w_tick w))) ltac:(lia)) as [F1 F2]. split.
    - change (tokens w2) with (<[tk_id row := revoke row]> (tokens w)). simpl.
      rewrite lookup_insert_ne; [done|]. intros E. rewrite E in Hk. congruence.
    - change (tokens w2) with (<[tk_id row := revoke row]> (tokens w)). by apply find_row_insert_same. }
  rewrite E. cbn [fst snd]. change (tokens w2) with (<[tk_id row := revoke row]> (tokens w)) in Ht.
  do 4 eexists. split; [reflexivity|]. split; [exact (proj1 (Hfresh (S (S (w_tick w))) ltac:(lia)))|].
  split; [exact Ht|]. done.
Qed.

End sessions.

(** ** The session tables as invariants *)

(** Refresh tokens: filed under their id, one per hash, a token that was
    rotated is revoked and was rotated once, and ids still to be drawn appear
    nowhere. *)
Record tokens_ok (env : Env) (t : nat) (m : gmap string RefreshTokenRow) : Prop := {
  to_key : forall id r, m !! id = Some r -> tk_id r = id;
  to_hash : forall i j r s, m !! i = Some r -> m !! j = Some s -> tk_tokenHash r = tk_tokenHash s -> i = j;
  to_parent : forall c r p rp, m !! c = Some r -> tk_parentTokenId r = Some p -> m !! p = Some rp -> tk_revoked rp = true;
  to_child : forall c c' r r' p, m !! c = Some r -> m !! c' = Some r' ->
    tk_parentTokenId r = Some p -> tk_parentTokenId r' = Some p -> c = c';
  to_fresh : forall u, t <= u -> m !! env_uuid env u = None /\
    forall c r, m !! c = Some r -> tk_parentTokenId r <> Some (env_uuid env u)
}.

Record nonces_ok (m : gmap string NonceRow) : Prop := {
  nk_key : forall id r, m !! id = Some r -> no_id r = id;
  nk_unique : forall i j r s, m !! i = Some r -> m !! j = Some s -> no_nonce r = no_nonce s -> i = j
}.

(** No row would let the challenge of hash [h] be redeemed. *)
Definition redeemed (h : string) (m : gmap string NonceRow) : Prop :=
  forall id r, m !! id = Some r -> no_nonce r = h -> no_used r = true.

Lemma tokens_ok_later env t t' m : t <= t' -> tokens_ok env t m -> tokens_ok env t' m.
Proof. intros Ht [K H P C F]. split; try done. intros u Hu. apply F. lia. Qed.

(** Rows revoked in place. *)
Lemma tokens_ok_fmap env t m (f : RefreshTokenRow -> RefreshTokenRow) :
  (forall r, f r = r \/ f r = revoke r) -> tokens_ok env t m -> tokens_ok env t (f <$> m).
Proof.
  intros Hf [K H P C F].
  assert (Hl : forall i r, (f <$> m) !! i = Some r -> exists r0, m !! i = Some r0 /\ r = f r0).
  { intros i r (r0 & <- & Hr)%lookup_fmap_Some. eauto. }
  assert (Hs : forall r, tk_id (f r) = tk_id r /\ tk_tokenHash (f r) = tk_tokenHash r /\
    tk_parentTokenId (f r) = tk_parentTokenId r /\ (tk_revoked r = true -> tk_revoked (f r) = true)).
  { intros r. by destruct (Hf r) as [-> | ->]. }
  split.
  - intros id r (r0 & Hr & ->)%Hl. destruct (Hs r0) as (-> & _). eauto.
  - intros i j r q (r0 & Hr & ->)%Hl (q0 & Hq & ->)%Hl. destruct (Hs r0) as (_ & -> & _), (Hs q0) as (_ & -> & _). eauto.
  - intros c r p rp (r0 & Hr & ->)%Hl Hp (rp0 & Hrp & ->)%Hl. apply Hs. destruct (Hs r0) as (_ & _ & E & _).
    rewrite E in Hp. eauto.
  - intros c c' r r' p (r0 & Hr & ->)%Hl (r0' & Hr' & ->)%Hl.
    destruct (Hs r0) as (_ & _ & -> & _), (Hs r0') as (_ & _ & -> & _). eauto.
  - intros u Hu. destruct (F u Hu) as [F1 F2]. split; [by rewrite lookup_fmap, F1|].
    intros c r (r0 & Hr & ->)%Hl. destruct (Hs r0) as (_ & _ & -> & _). eauto.
Qed.

Lemma tokens_ok_revoke env t m id r : m !! id = Some r -> tokens_ok env t m -> tokens_ok env t (<[id := revoke r]> m).
Proof.
  intros Hr Hok.
  replace (<[id := revoke r]> m) with ((fun x => if bool_decide (tk_id x = id) then revoke x else x) <$> m).
  { apply tokens_ok_fmap; [|done]. intros x. case_bool_decide; auto. }
  apply map_eq. intros i. rewrite lookup_fmap. destruct (decide (i = id)) as [->|Hne].
  - rewrite Hr, lookup_insert_eq. simpl. by rewrite bool_decide_eq_true_2 by by eapply to_key.
  - rewrite lookup_insert_ne by done. destruct (m !! i) as [x|] eqn:Hx; [|done]. simpl.
    rewrite bool_decide_eq_false_2; [done|]. pose proof (to_key _ _ _ Hok _ _ Hx). congruence.
Qed.

Lemma tokens_ok_filter env t m (P : string * RefreshTokenRow -> Prop) `{!forall x, Decision (P x)} :
  tokens_ok env t m -> tokens_ok env t (filter P m).
Proof.
  intros [K HU Q C F].
  assert (Hl : forall i r, filter P m !! i = Some r -> m !! i = Some r)
    by (intros i r [? _]%map_lookup_filter_Some; done).
  split; [eauto..|].
  intros u Hu. destruct (F u Hu) as [F1 F2]. split; [|by eauto].
  destruct (filter P m !! env_uuid env u) as [r|] eqn:E; [|done]. apply Hl in E. congruence.
Qed.

(** A row with a fresh id and hash whose parent is revoked and childless. *)
Lemma tokens_ok_create env t m new :
  (forall u u', env_uuid env u = env_uuid env u' -> u = u') ->
  tokens_ok env t m -> tk_id new = env_uuid env t -> find_row (has_hash (tk_tokenHash new)) m = None ->
  (forall p, tk_parentTokenId new = Some p ->
    (exists rp, m !! p = Some rp /\ tk_revoked rp = true) /\
    forall c r, m !! c = Some r -> tk_parentTokenId r <> Some p) ->
  tokens_ok env (S t) (<[env_uuid env t := new]> m).
Proof.
  intros Hinj [K H P C F] Hid Hhash Hpar. destruct (F t ltac:(lia)) as [F1 F2].
  assert (Hh : forall j s, m !! j = Some s -> tk_tokenHash s <> tk_tokenHash new).
  { intros j q Hq E. pose proof (find_row_none _ _ _ _ Hhash Hq) as HP. unfold has_hash in HP. by b2p. }
  split.
  - intros id r [[<- <-]|[_ Hr]]%lookup_insert_Some; eauto.
  - intros i j r q [[<- <-]|[Hi Hr]]%lookup_insert_Some [[<- <-]|[Hj Hq]]%lookup_insert_Some E; [done| | |eauto].
    + by apply Hh in Hq.
    + by apply Hh in Hr.
  - intros c r p rp [[<- <-]|[Hc Hr]]%lookup_insert_Some E [[<- <-]|[Hp Hrp]]%lookup_insert_Some.
    + destruct (Hpar _ E) as [(rp & Hrp & _) _]. congruence.
    + destruct (Hpar _ E) as [(rp' & Hrp' & Hrev) _]. congruence.
    + by apply F2 in Hr.
    + eauto.
  - intros c c' r r' p [[<- <-]|[Hc Hr]]%lookup_insert_Some [[<- <-]|[Hc' Hr']]%lookup_insert_Some E E'; [done| | |eauto].
    + destruct (Hpar _ E) as [_ Hno]. by apply Hno in Hr'.
    + destruct (Hpar _ E') as [_ Hno]. by apply Hno in Hr.
  - intros u Hu. destruct (F u ltac:(lia)) as [G1 G2]. split.
    + rewrite lookup_insert_ne; [done|]. intros E%Hinj. lia.
    + intros c r [[<- <-]|[_ Hr]]%lookup_insert_Some; [|eauto]. intros E.
      destruct (Hpar _ E) as [(rp & Hrp & _) _]. congruence.
Qed.

(** ** Serving authentication requests *)

Inductive AuthRequest : Type :=
| AChallengeGet (account : string)
| AChallengePost (account : string)
| AVerify (transaction : string)
| ARefresh (refreshToken : string)
| ACleanupNonces
| ACleanupTokens.

Definition handle_auth (r : AuthRequest) : Prog unit :=
  match r with
  | AChallengeGet a => ignore (Sep10Controller.challengeGet a)
  | AChallengePost a => ignore (Sep10Controller.challengePost a)
  | AVerify tx => ignore (Sep10Controller.verify tx)
  | ARefresh tok => ignore (Sep10Controller.refresh tok)
  | ACleanupNonces => cleanupExpiredNonces
  | ACleanupTokens => cleanupExpiredRefreshTokens
  end.

Fixpoint serve_auth (env : Env) (rs : list AuthRequest) (w : World) : World :=
  match rs with
  | [] => w
  | r :: rs => serve_auth env rs (run (handle_auth r) env w).2
  end.

Definition sessions_ok (env : Env) (w : World) : Prop :=
  tokens_ok env (w_tick w) (db_tokens (w_db w)) /\ nonces_ok (db_nonces (w_db w)).

(** Steps that leave one of the two tables alone. *)
Definition off_tokens (w w' : World) : Prop := db_tokens (w_db w') = db_tokens (w_db w) /\ w_tick w <= w_tick w'.
Definition off_nonces (w w' : World) : Prop := db_nonces (w_db w') = db_nonces (w_db w) /\ w_tick w <= w_tick w'.

#[export] Instance off_tokens_preorder : PreOrder off_tokens.
Proof. split; [by intros w|intros w1 w2 w3 [? ?] [? ?]; split; [congruence|lia]]. Qed.

#[export] Instance off_nonces_preorder : PreOrder off_nonces.
Proof. split; [by intros w|intros w1 w2 w3 [? ?] [? ?]; split; [congruence|lia]]. Qed.

Ltac off_auth :=
  apply every_await; intros env w;
  first [ by split; [|simpl; lia]
        | match goal with |- context [db_call ?f env w] => destruct (db_call_cases f env w) as [(e & _ & ->)| ->] end;
          split; simpl; repeat case_match; simpl; done || lia ].

Lemma generate_off_nonces user parent : every off_nonces (Sep10.generateAuthTokens user parent).
Proof. unfold Sep10.generateAuthTokens, Sep10.sync, token_create. walk_every ltac:(idtac; off_auth). Qed.

Lemma rotate_off_nonces tok : every off_nonces (Sep10.rotateRefreshToken tok).
Proof.
  unfold Sep10.rotateRefreshToken, Sep10.revokeTokenFamily, Sep10.sync, token_findByHash, token_findById,
    token_revokeUser, token_revoke.
  walk_every ltac:(idtac; first [apply generate_off_nonces | off_auth]).
Qed.

Lemma cleanup_off_nonces : every off_nonces cleanupExpiredRefreshTokens.
Proof.
  unfold cleanupExpiredRefreshTokens, RefreshTokenRepository.deleteExpired. walk_every ltac:(idtac; off_auth).
Qed.

Lemma challenge_off_tokens account timeout : every off_tokens (Sep10.buildChallenge account timeout).
Proof. unfold Sep10.buildChallenge, Sep10.sync, nonce_create. walk_every ltac:(idtac; off_auth). Qed.

(** A database call, failed or performed. *)
Lemma wp_db {X} (f : Z -> string -> Db -> outcome X * Db) env w (Q : outcome X -> World -> Prop) :
  (forall e, Q (Throw e) (tick w)) ->
  Q (f (env_now env (w_tick w)) (env_uuid env (w_tick w)) (w_db w)).1
    (set_db (f (env_now env (w_tick w)) (env_uuid env (w_tick w)) (w_db w)).2 (tick w)) ->
  wp (await (db_call f)) env w Q.
Proof. intros Hf Ho. apply wp_await. destruct (db_call_cases f env w) as [(e & _ & ->)| ->]; [apply Hf|exact Ho]. Qed.

Lemma wp_sync {X} (f : Env -> Z -> outcome X) env w (Q : outcome X -> World -> Prop) :
  Q (f env (env_now env (w_tick w))) w -> wp (Sep10.sync f) env w Q.
Proof. intros H. by apply wp_await. Qed.

Section serving.
Context (env : Env) (uuid_inj : forall u u', env_uuid env u = env_uuid env u' -> u = u').

Lemma sessions_tick w : sessions_ok env w -> sessions_ok env (tick w).
Proof using Type. intros [H1 H2]. split; [|done]. eapply tokens_ok_later; [|exact H1]. simpl. lia. Qed.

Lemma sessions_nonces w w' :
  off_tokens w w' -> nonces_ok (db_nonces (w_db w')) -> sessions_ok env w -> sessions_ok env w'.
Proof using Type. intros [E Ht] Hn [H1 _]. split; [|done]. rewrite E. by eapply tokens_ok_later. Qed.

(** A session is added under a parent that is revoked and childless. *)
Lemma wp_generate w user parent :
  sessions_ok env w ->
  (forall p, parent = Some p ->
    (exists rp, db_tokens (w_db w) !! p = Some rp /\ tk_revoked rp = true) /\
    forall c r, db_tokens (w_db w) !! c = Some r -> tk_parentTokenId r <> Some p) ->
  wp (Sep10.generateAuthTokens user parent) env w (fun _ w' => sessions_ok env w').
Proof using uuid_inj.
  intros Hok Hpar. unfold Sep10.generateAuthTokens.
  apply wp_bind, wp_sync. destruct (Sep10.issueJwt _ _ _); [|done]. apply wp_bind, wp_await. simpl.
  apply wp_bind, wp_sync. destruct (Sep10.hashToken _ _) as [hash|]; [|done]. apply wp_bind, wp_sync.
  apply wp_bind, wp_db; [by intros; apply sessions_tick|].
  cbv beta zeta; destruct (_ || _) eqn:E; simpl; [by apply sessions_tick|]. b2p.
  apply wp_ret. destruct Hok as [Ht Hn]. split; [|done]. simpl. apply tokens_ok_create; try done.
  by apply eq_None_not_Some.
Qed.

Lemma wp_rotate w tok : sessions_ok env w -> wp (Sep10.rotateRefreshToken tok) env w (fun _ w' => sessions_ok env w').
Proof using uuid_inj.
  intros Hok. unfold Sep10.rotateRefreshToken. apply wp_bind, wp_sync.
  destruct (Sep10.hashToken _ _) as [hash|]; [|done].
  apply wp_bind, wp_db; [by intros; apply sessions_tick|]. cbn [fst snd].
  apply sessions_tick in Hok. destruct (find_row _ _) as [row|] eqn:Hrow; [|by apply wp_raise].
  apply find_row_some in Hrow as (_ & k & Hk). set (w1 := set_db _ _). change (sessions_ok env w1) in Hok.
  change (db_tokens (w_db w1) !! k = Some row) in Hk. clearbody w1.
  pose proof (to_key _ _ _ (proj1 Hok) _ _ Hk) as Hid. subst k. destruct (tk_revoked row) eqn:Hrev.
  - apply wp_bind. unfold Sep10.revokeTokenFamily. apply wp_bind, wp_db; [by intros; apply sessions_tick|]. cbn [fst snd].
    rewrite Hk. apply wp_db; [by intros; do 2 apply sessions_tick|]. cbn [fst snd]. apply wp_raise.
    do 2 apply sessions_tick in Hok. destruct Hok as [Ht Hn]. split; [|done]. apply tokens_ok_fmap; [|done].
    intros r. unfold revoke_user. case_match; auto.
  - apply wp_bind, wp_await. cbn. destruct (_ <? _)%Z; [by apply wp_raise|].
    apply wp_bind, wp_db; [by intros; apply sessions_tick|]. cbn [fst snd]. rewrite Hk. cbn [fst snd].
    apply wp_generate.
    + apply sessions_tick in Hok as [Ht Hn]. split; [|done]. by apply tokens_ok_revoke.
    + intros p [= <-]. change (db_tokens _) with (<[tk_id row := revoke row]> (db_tokens (w_db w1))). split.
      * eexists. by rewrite lookup_insert_eq.
      * assert (Hno : forall c r, db_tokens (w_db w1) !! c = Some r -> tk_parentTokenId r <> Some (tk_id row)).
        { intros c r Hc E. pose proof (to_parent _ _ _ (proj1 Hok) _ _ _ _ Hc E Hk). congruence. }
        intros c r [[<- <-]|[_ Hc]]%lookup_insert_Some; [|eauto]. simpl. by apply (Hno (tk_id row)).
Qed.

Lemma nonces_ok_create m u new :
  nonces_ok m -> no_id new = u -> m !! u = None -> find_row (has_nonce (no_nonce new)) m = None ->
  nonces_ok (<[u := new]> m).
Proof using Type.
  intros [K U] Hid Hu Hf.
  assert (Hn : forall j s, m !! j = Some s -> no_nonce s <> no_nonce new).
  { intros j q Hq E. pose proof (find_row_none _ _ _ _ Hf Hq) as HP. unfold has_nonce in HP. by b2p. }
  split.
  - intros id r [[<- <-]|[_ Hr]]%lookup_insert_Some; eauto.
  - intros i j r q [[<- <-]|[Hi Hr]]%lookup_insert_Some [[<- <-]|[Hj Hq]]%lookup_insert_Some E; [done| | |eauto].
    + by apply Hn in Hq.
    + by apply Hn in Hr.
Qed.

Lemma nonces_ok_use m id r : m !! id = Some r -> nonces_ok m -> nonces_ok (<[id := use_nonce r]> m).
Proof using Type.
  intros Hr [K U]. split.
  - intros i q [[<- <-]|[_ Hq]]%lookup_insert_Some; [|eauto]. simpl. eauto.
  - intros i j q s [[<- <-]|[Hi Hq]]%lookup_insert_Some [[<- <-]|[Hj Hs]]%lookup_insert_Some E; eauto.
Qed.

Lemma redeemed_use h m id r : redeemed h m -> redeemed h (<[id := use_nonce r]> m).
Proof using Type. intros H i q [[<- <-]|[_ Hq]]%lookup_insert_Some E; eauto. Qed.

Lemma nonces_set m d w : db_nonces (w_db (set_db (set_account_nonces m d) w)) = m.
Proof using Type. done. Qed.

(** What every authentication request keeps, given the hashes of challenges
    built from now on differ from [h]. *)
Definition keeps (h : string) (w : World) : Prop := sessions_ok env w /\ redeemed h (db_nonces (w_db w)).

Definition never_built (h : string) (t0 : nat) : Prop :=
  forall t account timeout tx, t0 <= t -> wa_build (pv_webauth (env_providers env)) t account timeout = Ok tx ->
    wa_hash (pv_webauth (env_providers env)) tx <> Ok h.

Lemma wp_challenge w account timeout (h : option string) :
  (forall h0, h = Some h0 -> never_built h0 (w_tick w) /\ redeemed h0 (db_nonces (w_db w))) -> sessions_ok env w ->
  wp (Sep10.buildChallenge account timeout) env w (fun _ w' =>
    sessions_ok env w' /\ forall h0, h = Some h0 -> redeemed h0 (db_nonces (w_db w'))).
Proof using Type.
  intros Hh Hok. unfold Sep10.buildChallenge.
  assert (Hr : forall h0, h = Some h0 -> redeemed h0 (db_nonces (w_db w))) by (intros h0 E; apply (Hh _ E)).
  apply wp_bind, wp_await. cbn [fst snd].
  destruct (wa_build _ _ _ _) as [tx|] eqn:Hb; [|done]. apply wp_bind, wp_sync.
  destruct (wa_hash _ _) as [hash|] eqn:Hx; [|done]. apply wp_bind, wp_sync. apply wp_bind, wp_db.
  { intros _. by split; [apply sessions_tick|]. }
  cbv beta zeta. destruct (_ || _) eqn:E; cbn [fst snd]; [by split; [apply sessions_tick|]|]. b2p. apply wp_ret. split.
  - eapply sessions_nonces; [..|by apply sessions_tick]; [done|].
    apply nonces_ok_create; [apply Hok|done|by apply eq_None_not_Some|by apply eq_None_not_Some].
  - intros h0 E. destruct (Hh _ E) as [Hnb Hred].
    rewrite nonces_set. intros id r [[<- <-]|[_ Hq]]%lookup_insert_Some Hn; [|by eapply Hred].
    simpl in Hn. subst hash. destruct (Hnb (w_tick w) account timeout tx); [done|done|done].
Qed.

Lemma run_generate_nonces w user parent :
  db_nonces (w_db (run (Sep10.generateAuthTokens user parent) env w).2) = db_nonces (w_db w).
Proof using Type. exact (proj1 (every_run off_nonces _ env w (generate_off_nonces user parent))). Qed.

Lemma wp_verify w tx (h : option string) :
  (forall h0, h = Some h0 -> redeemed h0 (db_nonces (w_db w))) -> sessions_ok env w ->
  wp (Sep10.verifyAndIssueToken tx) env w (fun r w' =>
    sessions_ok env w' /\ (forall h0, h = Some h0 -> redeemed h0 (db_nonces (w_db w'))) /\
    (forall tok, r = Ok tok -> exists h0, wa_hash (pv_webauth (env_providers env)) tx = Ok h0 /\
       redeemed h0 (db_nonces (w_db w')))).
Proof using uuid_inj.
  intros Hh Hok. unfold Sep10.verifyAndIssueToken.
  apply wp_bind, wp_sync. destruct (Sep10.read_challenge env tx) as [[client hash]|] eqn:Hread; [|done].
  assert (Hhash : wa_hash (pv_webauth (env_providers env)) tx = Ok hash).
  { unfold Sep10.read_challenge in Hread. destruct (wa_read _ _); [|done].
    destruct (wa_hash _ _); [|done]. by injection Hread as _ ->. }
  apply wp_bind, wp_db; cbn [fst snd]; [by intros e; split; [apply sessions_tick|]|].
  apply sessions_tick in Hok. destruct (find_row _ _) as [row|] eqn:Hrow; [|by apply wp_raise].
  apply find_row_some in Hrow as (Hn & k & Hk). unfold has_nonce in Hn. b2p.
  set (w1 := set_db _ _). change (sessions_ok env w1) in Hok. change (db_nonces (w_db w1) !! k = Some row) in Hk.
  change (forall h0, h = Some h0 -> redeemed h0 (db_nonces (w_db w1))) in Hh. clearbody w1.
  pose proof (nk_key _ (proj2 Hok) _ _ Hk) as Hid. subst k.
  destruct (no_used row); [by apply wp_raise|]. apply wp_bind, wp_await. cbn. destruct (_ <? _)%Z; [by apply wp_raise|].
  apply wp_bind, wp_sync. destruct (Sep10.unauthorized _); [|done].
  apply wp_bind, wp_db; cbn [fst snd]; [by intros e; split; [apply sessions_tick|]|].
  rewrite Hk. cbn [fst snd]. set (w2 := set_db _ _).
  assert (Hok2 : sessions_ok env w2).
  { apply sessions_tick in Hok as [Ht Hno]. split; [done|]. by apply nonces_ok_use. }
  pose proof (wp_generate w2 client None Hok2 ltac:(done)) as HG. unfold wp in HG |- *.
  split; [done|]. rewrite run_generate_nonces.
  change (db_nonces (w_db w2)) with (<[no_id row := use_nonce row]> (db_nonces (w_db w1))). split.
  - intros h0 E. by apply redeemed_use, Hh.
  - intros tok _. exists hash. split; [done|].
    intros i r [[<- <-]|[Hi Hr]]%lookup_insert_Some E; [done|]. destruct Hi.
    eapply (nk_unique _ (proj2 Hok)); [exact Hk|exact Hr|congruence].
Qed.

(** Filtering drops challenges only. *)
Lemma cleanup_nonces_ok w (h : option string) :
  (forall h0, h = Some h0 -> redeemed h0 (db_nonces (w_db w))) -> sessions_ok env w ->
  wp cleanupExpiredNonces env w (fun _ w' =>
    sessions_ok env w' /\ forall h0, h = Some h0 -> redeemed h0 (db_nonces (w_db w'))).
Proof using Type.
  intros Hh Hok. unfold cleanupExpiredNonces, NonceRepository.deleteExpired. apply wp_bind, wp_await. cbn.
  apply wp_db; [by intros e; split; [apply sessions_tick|]|]. apply sessions_tick in Hok as [Ht [K U]].
  cbn [fst snd]. rewrite nonces_set. split; [split; [done|rewrite nonces_set; split]|].
  - intros id r [Hr _]%map_lookup_filter_Some. eauto.
  - intros i j r s [Hr _]%map_lookup_filter_Some [Hs _]%map_lookup_filter_Some. eauto.
  - intros h0 E id r [Hr _]%map_lookup_filter_Some. by eapply Hh.
Qed.

Lemma cleanup_tokens_ok w : sessions_ok env w -> wp cleanupExpiredRefreshTokens env w (fun _ w' => sessions_ok env w').
Proof using Type.
  intros Hok. unfold cleanupExpiredRefreshTokens, RefreshTokenRepository.deleteExpired. apply wp_bind, wp_await. cbn.
  apply wp_db; [by intros _; apply sessions_tick|]. apply sessions_tick in Hok as [Ht Hn].
  split; [|done]. by apply tokens_ok_filter.
Qed.
End serving.

Lemma wp_ignore {A} (m : Prog A) env w (Q : World -> Prop) :
  wp m env w (fun _ w' => Q w') -> wp (ignore m) env w (fun _ w' => Q w').
Proof. intros H. apply wp_bind. eapply wp_mono; [exact H|]. by intros [a|e] w'. Qed.

Lemma wp_validated {X} valid (m : Prog X) env w (Q : World -> Prop) :
  Q w -> wp m env w (fun _ w' => Q w') -> wp (Sep10Controller.validated valid m) env w (fun _ w' => Q w').
Proof.
  intros Hw Hm. unfold Sep10Controller.validated. apply wp_bind, wp_await. cbn. by destruct (valid env).
Qed.

(** Every request keeps the tables consistent and spent challenges spent. *)
Lemma handle_auth_ok env w r (h : option string) :
  (forall u u', env_uuid env u = env_uuid env u' -> u = u') ->
  (forall h0, h = Some h0 -> never_built env h0 (w_tick w) /\ redeemed h0 (db_nonces (w_db w))) ->
  sessions_ok env w ->
  wp (handle_auth r) env w (fun _ w' =>
    sessions_ok env w' /\ forall h0, h = Some h0 -> redeemed h0 (db_nonces (w_db w'))).
Proof.
  intros Hinj Hh Hok.
  assert (Hr : forall h0, h = Some h0 -> redeemed h0 (db_nonces (w_db w))) by (intros h0 E; apply (Hh _ E)).
  pose proof (fun account timeout => wp_challenge env w account timeout h Hh Hok) as HC.
  destruct r as [a|a|tx|tok| |]; simpl.
  - by apply wp_ignore, wp_validated.
  - apply wp_ignore, wp_validated; [done|]. apply wp_bind. eapply wp_mono; [apply HC|]. by intros [x|e] w'.
  - apply wp_ignore, wp_validated; [done|]. eapply wp_mono; [by apply (wp_verify env Hinj w tx h)|]. by intros r w' (? & ? & _).
  - apply wp_ignore, wp_validated; [done|].
    pose proof (wp_rotate env Hinj w tok Hok) as HT. unfold wp in *. split; [done|]. intros h0 E.
    rewrite (proj1 (every_run off_nonces _ env w (rotate_off_nonces tok))). auto.
  - by apply cleanup_nonces_ok.
  - pose proof (cleanup_tokens_ok env w Hok) as HT. unfold wp in *. split; [done|]. intros h0 E.
    rewrite (proj1 (every_run off_nonces _ env w cleanup_off_nonces)). auto.
Qed.

(** The clock of atoms only moves forward. *)
Definition later (w w' : World) : Prop := w_tick w <= w_tick w'.

#[export] Instance later_preorder : PreOrder later.
Proof. unfold later. split; [by intros w|intros w1 w2 w3; lia]. Qed.

Lemma handle_auth_later r : every later (handle_auth r).
Proof.
  assert (Hn : forall w w', off_nonces w w' -> later w w') by (by intros w w' [_ H]).
  assert (Ht : forall w w', off_tokens w w' -> later w w') by (by intros w w' [_ H]).
  destruct r; simpl; unfold ignore, Sep10Controller.challengeGet, Sep10Controller.challengePost, Sep10Controller.verify,
    Sep10Controller.refresh, Sep10Controller.validated, ask, cleanupExpiredNonces, cleanupExpiredRefreshTokens,
    Sep10.verifyAndIssueToken, Sep10.sync, nonce_findUnique, nonce_setUsed, NonceRepository.deleteExpired,
    RefreshTokenRepository.deleteExpired;
  walk_every ltac:(idtac; first
    [ apply (every_mono off_tokens later _ Ht), challenge_off_tokens
    | apply (every_mono off_nonces later _ Hn); first [apply rotate_off_nonces | apply generate_off_nonces]
    | apply every_await; intros env w; unfold later; first [simpl; lia|
        match goal with |- context [db_call ?f env w] => destruct (db_call_cases f env w) as [(e & _ & ->)| ->] end;
        simpl; lia] ]).
Qed.

(** *** What one request does to the two tables *)

(** A new session was granted: to a client that presented a signed, unspent
    challenge of its own, which is spent now; or for a live refresh token of
    the same user, which is revoked now. *)
Definition granted (env : Env) (w w' : World) (row : RefreshTokenRow) : Prop :=
  let wa := pv_webauth (env_providers env) in
  match tk_parentTokenId row with
  | None => exists tx id n,
      wa_read wa tx = Ok (tk_userId row) /\ wa_hash wa tx = Ok (no_nonce n) /\ wa_verify wa tx (tk_userId row) = Ok tt /\
      db_nonces (w_db w) !! id = Some n /\ no_used n = false /\ db_nonces (w_db w') !! id = Some (use_nonce n)
  | Some p => exists rp,
      db_tokens (w_db w) !! p = Some rp /\ tk_revoked rp = false /\ tk_userId rp = tk_userId row /\
      db_tokens (w_db w') !! p = Some (revoke rp)
  end.

(** One request adds at most one session, live and granted; the other sessions
    are kept, revoked or deleted; and a challenge is kept, spent or deleted,
    or new and unspent. *)
Record auth_step (env : Env) (w w' : World) : Prop := {
  st_session : forall k row row0, db_tokens (w_db w') !! k = Some row -> db_tokens (w_db w) !! k = Some row0 ->
    row = row0 \/ row = revoke row0;
  st_granted : forall k row, db_tokens (w_db w') !! k = Some row -> db_tokens (w_db w) !! k = None ->
    tk_revoked row = false /\ granted env w w' row /\
    forall k', is_Some (db_tokens (w_db w') !! k') -> db_tokens (w_db w) !! k' = None -> k' = k;
  st_challenge : forall k n, db_nonces (w_db w') !! k = Some n ->
    match db_nonces (w_db w) !! k with Some n0 => n = n0 \/ n = use_nonce n0 | None => no_used n = false end
}.

Section steps.
Context (env : Env).

(** Requests that add no session. *)
Lemma step_plain w w' :
  (forall k row, db_tokens (w_db w') !! k = Some row ->
    exists row0, db_tokens (w_db w) !! k = Some row0 /\ (row = row0 \/ row = revoke row0)) ->
  (forall k n, db_nonces (w_db w') !! k = Some n ->
    match db_nonces (w_db w) !! k with Some n0 => n = n0 \/ n = use_nonce n0 | None => no_used n = false end) ->
  auth_step env w w'.
Proof using Type.
  intros Ht Hn. split; [| |done].
  - intros k row row0 H H0. destruct (Ht _ _ H) as (row1 & H1 & Hor). congruence.
  - intros k row H H0. destruct (Ht _ _ H) as (row1 & H1 & _). congruence.
Qed.

Lemma step_tokens w w' :
  db_nonces (w_db w') = db_nonces (w_db w) ->
  (forall k row, db_tokens (w_db w') !! k = Some row ->
    exists row0, db_tokens (w_db w) !! k = Some row0 /\ (row = row0 \/ row = revoke row0)) ->
  auth_step env w w'.
Proof using Type. intros E Ht. apply step_plain; [done|]. intros k n. rewrite E. intros ->. by left. Qed.

Lemma step_nonces w w' :
  db_tokens (w_db w') = db_tokens (w_db w) ->
  (forall k n, db_nonces (w_db w') !! k = Some n ->
    match db_nonces (w_db w) !! k with Some n0 => n = n0 \/ n = use_nonce n0 | None => no_used n = false end) ->
  auth_step env w w'.
Proof using Type. intros E Hn. apply step_plain; [|done]. intros k row. rewrite E. eauto. Qed.

Lemma step_refl w w' : w_db w' = w_db w -> auth_step env w w'.
Proof using Type. intros E. apply step_tokens; rewrite E; [done|]. eauto. Qed.

(** The two shapes a request that adds a session ends with. *)
Lemma step_granted w w' k row :
  db_tokens (w_db w) !! k = None -> tk_revoked row = false -> granted env w w' row ->
  (forall i r, db_tokens (w_db w') !! i = Some r ->
    i = k /\ r = row \/ exists r0, db_tokens (w_db w) !! i = Some r0 /\ (r = r0 \/ r = revoke r0)) ->
  (forall i n, db_nonces (w_db w') !! i = Some n ->
    exists n0, db_nonces (w_db w) !! i = Some n0 /\ (n = n0 \/ n = use_nonce n0)) ->
  auth_step env w w'.
Proof using Type.
  intros Hk Hr Hg Ht Hn. split.
  - intros i r r0 [[-> _]|(r1 & H1 & Hor)]%Ht H0; congruence.
  - intros i r Hi H0. destruct (Ht _ _ Hi) as [[-> ->]|(r1 & H1 & _)]; [|congruence].
    split_and!; [done..|]. intros i' [r' [[-> _]|(r1 & H1 & _)]%Ht] H0'; congruence.
  - intros i n (n0 & -> & Hor)%Hn. exact Hor.
Qed.

(** Issuing tokens writes at most one row, live and fresh. *)
Lemma wp_generate_row w user parent (Q : World -> Prop) :
  (forall w', w_db w' = w_db w -> Q w') ->
  (forall w' k row, db_nonces (w_db w') = db_nonces (w_db w) -> db_tokens (w_db w) !! k = None ->
    db_tokens (w_db w') = <[k := row]> (db_tokens (w_db w)) -> tk_userId row = user ->
    tk_parentTokenId row = parent -> tk_revoked row = false -> Q w') ->
  wp (Sep10.generateAuthTokens user parent) env w (fun _ w' => Q w').
Proof using Type.
  intros Hsame Hnew. unfold Sep10.generateAuthTokens.
  apply wp_bind, wp_sync. destruct (Sep10.issueJwt _ _ _); [|by apply Hsame]. apply wp_bind, wp_await. simpl.
  apply wp_bind, wp_sync. destruct (Sep10.hashToken _ _) as [hash|]; [|by apply Hsame]. apply wp_bind, wp_sync.
  apply wp_bind, wp_db; [by intros; apply Hsame|].
  cbv beta zeta; destruct (_ || _) eqn:E; simpl; [by apply Hsame|]. b2p.
  apply wp_ret. eapply Hnew; [done|by apply eq_None_not_Some|done|done|done|done].
Qed.

Lemma step_verify w tx :
  nonces_ok (db_nonces (w_db w)) -> wp (Sep10.verifyAndIssueToken tx) env w (fun _ w' => auth_step env w w').
Proof using Type.
  intros Hok. unfold Sep10.verifyAndIssueToken. apply wp_bind, wp_sync. unfold Sep10.read_challenge.
  destruct (wa_read _ _) as [client|] eqn:Hread; [|by apply step_refl].
  destruct (wa_hash _ _) as [hash|] eqn:Hhash; [|by apply step_refl]. cbn [Sep10.unauthorized fst snd].
  apply wp_bind, wp_db; cbn [fst snd]; [by intros; apply step_refl|].
  destruct (find_row _ _) as [row|] eqn:Hrow; [|by apply wp_raise, step_refl].
  apply find_row_some in Hrow as (Hn & k & Hk). unfold has_nonce in Hn. b2p.
  pose proof (nk_key _ Hok _ _ Hk) as Hid. subst k.
  destruct (no_used row) eqn:Hu; [by apply wp_raise, step_refl|]. apply wp_bind, wp_await. cbn.
  destruct (_ <? _)%Z; [by apply wp_raise, step_refl|].
  apply wp_bind, wp_sync. destruct (wa_verify _ _ _) as [[]|] eqn:Hv; cbn [Sep10.unauthorized]; [|by apply step_refl].
  apply wp_bind, wp_db; cbn [fst snd]; [by intros; apply step_refl|].
  change (db_nonces (w_db (set_db (w_db w) (tick w)))) with (db_nonces (w_db w)). rewrite Hk. cbn [fst snd].
  assert (Hkept : forall i n, <[no_id row := use_nonce row]> (db_nonces (w_db w)) !! i = Some n ->
    exists n0, db_nonces (w_db w) !! i = Some n0 /\ (n = n0 \/ n = use_nonce n0)).
  { intros i n [[<- <-]|[_ Hi]]%lookup_insert_Some; eauto. }
  set (w2 := set_db _ _). assert (Hn2 : db_nonces (w_db w2) = <[no_id row := use_nonce row]> (db_nonces (w_db w))) by done.
  assert (Ht2 : db_tokens (w_db w2) = db_tokens (w_db w)) by done. clearbody w2. apply wp_generate_row.
  - intros w' E. rewrite <- E in Hn2, Ht2. apply step_nonces; [done|]. rewrite Hn2.
    by intros i n (n0 & -> & Hor)%Hkept.
  - intros w' k new En Hfresh Et Huser Hpar Hrev. rewrite Hn2 in En. rewrite Ht2 in Hfresh, Et.
    apply (step_granted w w' k new); [done|done| | |by rewrite En].
    + unfold granted. rewrite Hpar. exists tx, (no_id row), row. rewrite Huser, En, lookup_insert_eq.
      split_and!; congruence.
    + intros i r. rewrite Et. intros [[<- <-]|[_ Hi]]%lookup_insert_Some; eauto.
Qed.

Lemma step_rotate w tok :
  (forall id r, db_tokens (w_db w) !! id = Some r -> tk_id r = id) ->
  wp (Sep10.rotateRefreshToken tok) env w (fun _ w' => auth_step env w w').
Proof using Type.
  intros Hkey. unfold Sep10.rotateRefreshToken. apply wp_bind, wp_sync.
  destruct (Sep10.hashToken _ _) as [hash|]; [|by apply step_refl].
  apply wp_bind, wp_db; [by intros; apply step_refl|]. cbn [fst snd].
  destruct (find_row _ _) as [row|] eqn:Hrow; [|by apply wp_raise, step_refl].
  apply find_row_some in Hrow as (_ & k & Hk). pose proof (Hkey _ _ Hk) as Hid. subst k.
  destruct (tk_revoked row) eqn:Hrev.
  - apply wp_bind. unfold Sep10.revokeTokenFamily. apply wp_bind, wp_db; [by intros; apply step_refl|]. cbn [fst snd].
    change (db_tokens (w_db (set_db (w_db w) (tick w)))) with (db_tokens (w_db w)). rewrite Hk.
    apply wp_db; [by intros; apply step_refl|]. cbn [fst snd]. apply wp_raise, step_tokens; [done|].
    intros i r. change (db_tokens _) with (revoke_user (tk_userId row) <$> db_tokens (w_db w)) at 1.
    intros (r0 & <- & Hr)%lookup_fmap_Some. exists r0. split; [done|]. unfold revoke_user. case_match; auto.
  - apply wp_bind, wp_await. cbn. destruct (_ <? _)%Z; [by apply wp_raise, step_refl|].
    apply wp_bind, wp_db; [by intros; apply step_refl|]. cbn [fst snd].
    change (db_tokens (w_db (set_db (w_db w) (tick w)))) with (db_tokens (w_db w)). rewrite Hk. cbn [fst snd].
    set (w2 := set_db _ _). assert (Ht2 : db_tokens (w_db w2) = <[tk_id row := revoke row]> (db_tokens (w_db w))) by done.
    assert (Hn2 : db_nonces (w_db w2) = db_nonces (w_db w)) by done. clearbody w2.
    assert (Hkept : forall i r, <[tk_id row := revoke row]> (db_tokens (w_db w)) !! i = Some r ->
      exists r0, db_tokens (w_db w) !! i = Some r0 /\ (r = r0 \/ r = revoke r0)).
    { intros i r [[<- <-]|[_ Hi]]%lookup_insert_Some; eauto. }
    apply wp_generate_row.
    + intros w' E. rewrite <- E in Hn2, Ht2. apply step_tokens; [done|]. by rewrite Ht2.
    + intros w' k new En Hfresh Et Huser Hpar Hlive. rewrite Hn2 in En. rewrite Ht2 in Hfresh, Et.
      apply lookup_insert_None in Hfresh as [Hfresh Hne].
      apply (step_granted w w' k new); [done|done| | |rewrite En; eauto].
      * unfold granted. rewrite Hpar. exists row.
        rewrite Et, lookup_insert_ne, lookup_insert_eq by done. split_and!; congruence.
      * intros i r. rewrite Et. intros [[<- <-]|[_ Hi]]%lookup_insert_Some; eauto.
Qed.

Lemma step_challenge w account timeout :
  wp (Sep10.buildChallenge account timeout) env w (fun _ w' => auth_step env w w').
Proof using Type.
  unfold Sep10.buildChallenge. apply wp_bind, wp_await. cbn [fst snd].
  destruct (wa_build _ _ _ _) as [tx|]; [|by apply step_refl]. apply wp_bind, wp_sync.
  destruct (wa_hash _ _) as [hash|]; [|by apply step_refl]. apply wp_bind, wp_sync.
  apply wp_bind, wp_db; [by intros; apply step_refl|].
  cbv beta zeta. destruct (_ || _) eqn:E; cbn [fst snd]; [by apply step_refl|]. b2p.
  apply wp_ret, step_nonces; [done|]. rewrite nonces_set. apply eq_None_not_Some in H.
  intros i n [[<- <-]|[_ Hi]]%lookup_insert_Some; [|rewrite Hi; by left].
  change (db_nonces (w_db (tick w))) with (db_nonces (w_db w)) in H. by rewrite H.
Qed.

Lemma step_cleanup_nonces w : wp cleanupExpiredNonces env w (fun _ w' => auth_step env w w').
Proof using Type.
  unfold cleanupExpiredNonces, NonceRepository.deleteExpired. apply wp_bind, wp_await. cbn.
  apply wp_db; [by intros; apply step_refl|]. cbn [fst snd]. apply step_nonces; [done|]. rewrite nonces_set.
  intros i n [Hi _]%map_lookup_filter_Some. change (db_nonces (w_db w) !! i = Some n) in Hi. rewrite Hi. by left.
Qed.

Lemma step_cleanup_tokens w : wp cleanupExpiredRefreshTokens env w (fun _ w' => auth_step env w w').
Proof using Type.
  unfold cleanupExpiredRefreshTokens, RefreshTokenRepository.deleteExpired. apply wp_bind, wp_await. cbn.
  apply wp_db; [by intros; apply step_refl|]. cbn [fst snd]. apply step_tokens; [done|].
  intros i r [Hi _]%map_lookup_filter_Some. eauto.
Qed.

Lemma handle_auth_step w r : sessions_ok env w -> wp (handle_auth r) env w (fun _ w' => auth_step env w w').
Proof using Type.
  intros Hok. pose proof (step_challenge w) as HC. pose proof (step_refl w w eq_refl) as HR.
  destruct r as [a|a|tx|tok| |]; simpl.
  - by apply wp_ignore, wp_validated.
  - apply wp_ignore, wp_validated; [done|]. apply wp_bind. eapply wp_mono; [apply HC|]. by intros [x|e] w'.
  - apply wp_ignore, wp_validated; [done|]. apply step_verify, Hok.
  - apply wp_ignore, wp_validated; [done|]. apply step_rotate, (to_key _ _ _ (proj1 Hok)).
  - apply step_cleanup_nonces.
  - apply step_cleanup_tokens.
Qed.
End steps.

Section served.
Context (env : Env) (uuid_inj : forall u u', env_uuid env u = env_uuid env u' -> u = u').

Lemma serve_auth_ok rs w (h : option string) :
  (forall h0, h = Some h0 -> never_built env h0 (w_tick w) /\ redeemed h0 (db_nonces (w_db w))) ->
  sessions_ok env w ->
  sessions_ok env (serve_auth env rs w) /\
  forall h0, h = Some h0 -> redeemed h0 (db_nonces (w_db (serve_auth env rs w))).
Proof using uuid_inj.
  revert w. induction rs as [|r rs IH]; intros w Hh Hok; simpl; [split; [done|]; intros h0 E; apply (Hh _ E)|].
  pose proof (handle_auth_ok env w r h uuid_inj Hh Hok) as [Hok1 Hr1]. apply IH; [|done].
  intros h0 E. split; [|by apply Hr1]. intros t account timeout tx Ht. apply (proj1 (Hh _ E)).
  pose proof (every_run later _ env w (handle_auth_later r)) as HL. unfold later in HL. lia.
Qed.

Lemma serve_auth_app rs1 rs2 w : serve_auth env (rs1 ++ rs2) w = serve_auth env rs2 (serve_auth env rs1 w).
Proof using Type. revert w. induction rs1 as [|r rs1 IH]; intros w; [done|]. apply IH. Qed.

(** C28. Served one at a time, authentication requests keep the session and
    challenge tables consistent whatever fails: one row per token and per
    challenge, and a refresh token that was rotated is revoked and has exactly
    one successor.  Each request of the sequence adds at most one session: for
    a signed challenge of the client that was unspent before the request and
    is spent after it, or for a live refresh token of the same user that is
    revoked after it.  Nothing makes a session live or a challenge unspent
    again. *)
Theorem sessions_stay_consistent rs w :
  sessions_ok env w ->
  sessions_ok env (serve_auth env rs w) /\
  forall before r after, rs = before ++ r :: after ->
    auth_step env (serve_auth env before w) (serve_auth env (before ++ [r]) w).
Proof using uuid_inj.
  intros Hok. assert (H : forall rs, sessions_ok env (serve_auth env rs w)) by (intros l; by apply (serve_auth_ok l w None)).
  split; [done|]. intros before r after _. rewrite serve_auth_app. exact (handle_auth_step env _ r (H before)).
Qed.

(** C14. A challenge that was redeemed is never redeemed again: after any
    further authentication requests, including the cleanup of old challenges,
    presenting it is refused and changes nothing.  The challenges built since
    are assumed to differ from it (they carry random bytes). *)
Theorem challenge_is_single_use w tx tok w1 rs h :
  sessions_ok env w -> run (Sep10.verifyAndIssueToken tx) env w = (Ok tok, w1) ->
  wa_hash (pv_webauth (env_providers env)) tx = Ok h -> never_built env h (w_tick w1) ->
  exists e, (run (Sep10.verifyAndIssueToken tx) env (serve_auth env rs w1)).1 = Throw e /\
    w_db (run (Sep10.verifyAndIssueToken tx) env (serve_auth env rs w1)).2 = w_db (serve_auth env rs w1).
Proof using uuid_inj.
  intros Hok Hrun Hh Hnb. pose proof (wp_verify env uuid_inj w tx None ltac:(done) Hok) as HV.
  apply (wp_run _ _ _ _ _ _ Hrun) in HV as (Hok1 & _ & Hred).
  destruct (Hred tok eq_refl) as (h0 & Hh0 & Hred1). rewrite Hh in Hh0. injection Hh0 as <-.
  destruct (serve_auth_ok rs w1 (Some h)) as [_ Hred2]; [by intros h0 [= <-]|done|].
  specialize (Hred2 h eq_refl). set (w2 := serve_auth env rs w1) in *. clearbody w2.
  unfold Sep10.verifyAndIssueToken. rewrite run_bind, run_sync. unfold Sep10.read_challenge. rewrite Hh.
  destruct (wa_read _ _) as [client|e]; [|by eexists]. cbn [Sep10.unauthorized fst snd].
  unfold nonce_findUnique. rewrite run_bind, run_await. cbn [fst snd].
  destruct (db_call_cases (fun _ _ d => (Ok (find_row (has_nonce h) (db_nonces d)), d)) env w2) as [(e & _ & ->)| ->].
  { by eexists. }
  cbn [fst snd]. destruct (find_row _ _) as [row|] eqn:Hrow; [|by eexists].
  apply find_row_some in Hrow as (Hn & k & Hk). unfold has_nonce in Hn. b2p.
  rewrite (Hred2 _ _ Hk Hn). by eexists.
Qed.
End served.

(** ** Interleavings *)

Definition auth_config (key : string) : option string :=
  if bool_decide (key = "SEP10_JWT_SECRET") then Some "jwt-secret" else demo_config key.

Definition auth_uuid (t : nat) : string := bigint_toString (Z.of_nat t).

Definition auth_webauth : WebAuth := mkWebAuth (fun _ account _ => Ok ("+" +:+ account))
  (wa_read demo_webauth) (wa_hash demo_webauth) (wa_verify demo_webauth).

Definition auth_providers : Providers := mkProviders
  (pv_strkey demo_providers) true (fun _ => None) None None (fun _ => Ok tt) None (fun _ => 0%Z)
  (pv_randomHex demo_providers) (fun _ => []) (fun _ _ _ => ([], [])) (fun _ _ _ _ => None) auth_webauth None (fun _ => 0%Z).

Definition auth_env : Env :=
  mkEnv (fun _ => demo_now) (fun _ => None) auth_uuid true false (fun _ => false) true
    false auth_config (fun _ => 0%Z) None demo_sdk (fun s => s) (fun _ m => m) (fun _ => "0")
    (fun _ _ => Ok []) (fun _ => Ok 100%Z) (fun _ _ => Ok []) 30 None (fun _ => true) auth_providers.

(** A challenge for [GBUYER] that was built and not yet redeemed. *)
Definition demo_nonce : NonceRow := mkNonce "n0" "*GBUYER" "GBUYER" "*GBUYER" false (demo_now + 300000) demo_now.

Definition challenged : World :=
  world_of (set_account_nonces {["n0" := demo_nonce]} (demo_db [])).

(** A live session of [GBUYER], under the refresh token [tok0]. *)
Definition demo_session : RefreshTokenRow := mkToken "s0" "GBUYER" "tok0" None false (demo_now + 1000) demo_now.

Definition logged_in : World := world_of (set_account_tokens {["s0" := demo_session]} (demo_db [])).

(** The nonce is read in one call and marked used in another, so two
    concurrent submissions of one signed challenge can both pass the check and
    both be issued tokens. *)
Theorem concurrent_challenge_is_redeemed_twice :
  exists w' t1 t2, rtc (pool_step auth_env)
    (challenged, replicate 2 (Sep10.verifyAndIssueToken "*GBUYER")) (w', [Ret t1; Ret t2]) /\
    tok_refreshToken t1 <> tok_refreshToken t2.
Proof.
  destruct (settled2 (run_pool auth_env ([0; 0; 1; 1] ++ replicate 8 0 ++ replicate 8 1)%nat
    (challenged, replicate 2 (Sep10.verifyAndIssueToken "*GBUYER")))) as [[[w' t1] t2]|] eqn:H.
  2: { apply (f_equal (fun o => if o is Some _ then true else false)) in H. vm_compute in H. discriminate. }
  exists w', t1, t2. split; [by eapply run_pool_rtc, settled2_inv|].
  apply (f_equal (option_map (fun x => bool_decide (tok_refreshToken x.1.2 = tok_refreshToken x.2)))) in H.
  intros E. cbn [option_map fst snd] in H. rewrite (bool_decide_eq_true_2 _ E) in H. vm_compute in H. discriminate.
Qed.

(** Likewise two concurrent uses of one refresh token both succeed: the
    rotated token ends up with two live successors, and the reuse goes
    undetected. *)
Theorem concurrent_rotation_forks_a_session :
  exists w' t1 t2, rtc (pool_step auth_env)
    (logged_in, replicate 2 (Sep10.rotateRefreshToken "tok0")) (w', [Ret t1; Ret t2]) /\
    length (List.filter (fun r => bool_decide (tk_parentTokenId r = Some "s0") && negb (tk_revoked r))
      (map_to_list (db_tokens (w_db w'))).*2) = 2.
Proof.
  destruct (settled2 (run_pool auth_env ([0; 0; 1; 1] ++ replicate 7 0 ++ replicate 7 1)%nat
    (logged_in, replicate 2 (Sep10.rotateRefreshToken "tok0")))) as [[[w' t1] t2]|] eqn:H.
  2: { apply (f_equal (fun o => if o is Some _ then true else false)) in H. vm_compute in H. discriminate. }
  exists w', t1, t2. split; [by eapply run_pool_rtc, settled2_inv|].
  apply (f_equal (option_map (fun x => bool_decide (length (List.filter
    (fun r => bool_decide (tk_parentTokenId r = Some "s0") && negb (tk_revoked r))
    (map_to_list (db_tokens (w_db x.1.1))).*2) = 2)))) in H.
  cbn [option_map fst snd] in H. case_bool_decide as E; [done|]. vm_compute in H. discriminate.
Qed.

(** ** Instances *)

Lemma auth_uuid_inj u u' : auth_uuid u = auth_uuid u' -> u = u'.
Proof.
  unfold auth_uuid. intros E%(f_equal BigInt_parse). rewrite !BigInt_parse_toString in E. injection E as E. lia.
Qed.

Lemma auth_uuid_ne u s : BigInt_parse s = None -> s <> auth_uuid u.
Proof. intros H ->. unfold auth_uuid in H. by rewrite BigInt_parse_toString in H. Qed.

Lemma issued_token_round_trip_witness :
  exists token, Sep10.issueJwt auth_env demo_now "GADMIN" = Ok token /\
    JwtGuard.canActivate auth_env (demo_now + 3599000) (HOne ("Bearer " +:+ token)) =
      Ok (mkAuthUser "GADMIN" (Some "admin")) /\
    JwtGuard.canActivate auth_env (demo_now + 3600000) (HOne ("Bearer " +:+ token)) = Throw AUTH_REQUIRED.
Proof.
  destruct (Sep10.issueJwt auth_env demo_now "GADMIN") as [token|e] eqn:H; [|vm_compute in H; discriminate].
  exists token. split; [done|]. split.
  - rewrite (issued_token_round_trip auth_env demo_now (demo_now + 3599000) "GADMIN" token);
      [vm_compute; reflexivity|exact H|done|vm_compute; discriminate|vm_compute; discriminate|vm_compute; reflexivity].
  - rewrite (issued_token_round_trip auth_env demo_now (demo_now + 3600000) "GADMIN" token);
      [vm_compute; reflexivity|exact H|done|vm_compute; discriminate|vm_compute; discriminate|vm_compute; reflexivity].
Defined.


Lemma logged_tokens : db_tokens (w_db logged_in) = {["s0" := demo_session]}.
Proof. done. Qed.
Lemma logged_nonces : db_nonces (w_db logged_in) = ∅.
Proof. done. Qed.
Lemma challenged_tokens : db_tokens (w_db challenged) = ∅.
Proof. done. Qed.
Lemma challenged_nonces : db_nonces (w_db challenged) = {["n0" := demo_nonce]}.
Proof. done. Qed.

Lemma logged_in_ok : sessions_ok auth_env logged_in.
Proof.
  split; split; rewrite ?logged_tokens, ?logged_nonces; try (by intros ? ? H; apply lookup_empty_Some in H).
  - intros id r [<- <-]%lookup_singleton_Some. done.
  - intros i j r s [<- <-]%lookup_singleton_Some [<- <-]%lookup_singleton_Some. done.
  - intros c r p rp [<- <-]%lookup_singleton_Some. done.
  - intros c c' r r' p [<- <-]%lookup_singleton_Some. done.
  - intros u _. split.
    + apply lookup_singleton_ne. apply auth_uuid_ne. vm_compute. reflexivity.
    + intros c r [<- <-]%lookup_singleton_Some. done.
  - intros i j r s H. by apply lookup_empty_Some in H.
Qed.

Lemma sessions_stay_consistent_witness :
  sessions_ok auth_env (serve_auth auth_env [ARefresh "tok0"; ARefresh "tok0"; ACleanupTokens] logged_in) /\
  auth_step auth_env logged_in (serve_auth auth_env [ARefresh "tok0"] logged_in).
Proof.
  destruct (sessions_stay_consistent auth_env auth_uuid_inj [ARefresh "tok0"; ARefresh "tok0"; ACleanupTokens]
    logged_in logged_in_ok) as [H1 H2].
  split; [exact H1|]. exact (H2 [] _ _ eq_refl).
Defined.

Lemma refresh_rotation_correct_witness :
  exists access fresh id new,
    (run (Sep10.rotateRefreshToken "tok0") auth_env logged_in).1 = Ok (mkTokens access fresh) /\
    db_tokens (w_db (run (Sep10.rotateRefreshToken "tok0") auth_env logged_in).2) =
      <[id := new]> {["s0" := revoke demo_session]} /\ tk_revoked new = false.
Proof.
  assert (Hk : map_Forall (fun id r => tk_id r = id) (db_tokens (w_db logged_in)))
    by (rewrite logged_tokens; intros id r [<- <-]%lookup_singleton_Some; done).
  assert (Hf : draws_fresh auth_env logged_in "jwt-secret").
  { intros t _. rewrite logged_tokens. split; [apply lookup_singleton_ne, auth_uuid_ne; vm_compute; reflexivity|].
    destruct (find_row _ _) as [r|] eqn:E; [|done]. apply find_row_some in E as (E & k & HT).
    rewrite ?logged_tokens in HT. apply lookup_singleton_Some in HT as [<- <-]. unfold has_hash in E. b2p.
    change ("tok0" = String (ascii_of_nat (65 + t)) "") in E. discriminate E. }
  pose proof (refresh_rotation_correct auth_env (fun _ => eq_refl) logged_in "tok0" "jwt-secret" eq_refl
    ltac:(discriminate) Hk Hf) as H. cbv zeta in H.
  replace (find_row _ _) with (Some demo_session) in H by (vm_compute; reflexivity).
  change (tk_revoked demo_session) with false in H.
  replace (_ <? _)%Z with false in H by (vm_compute; reflexivity). cbv iota in H.
  destruct H as (access & fresh & id & new & H1 & _ & H2 & _ & H3 & _).
  exists access, fresh, id, new. split; [exact H1|]. split; [|exact H3]. by rewrite H2.
Defined.

Lemma challenged_ok : sessions_ok auth_env challenged.
Proof.
  split; split; rewrite ?challenged_tokens, ?challenged_nonces; try (by intros ? ? ? ? H; apply lookup_empty_Some in H);
    try (by intros ? ? H; apply lookup_empty_Some in H).
  - intros c c' r r' p H. by apply lookup_empty_Some in H.
  - intros u _. split; [apply lookup_empty|]. intros c r H. by apply lookup_empty_Some in H.
  - intros id r [<- <-]%lookup_singleton_Some. done.
  - intros i j r s [<- <-]%lookup_singleton_Some [<- <-]%lookup_singleton_Some. done.
Qed.

Lemma challenge_is_single_use_witness :
  exists tok w1 e, run (Sep10.verifyAndIssueToken "*GBUYER") auth_env challenged = (Ok tok, w1) /\
    (run (Sep10.verifyAndIssueToken "*GBUYER") auth_env (serve_auth auth_env [ACleanupNonces] w1)).1 = Throw e.
Proof.
  destruct (run (Sep10.verifyAndIssueToken "*GBUYER") auth_env challenged) as [[tok|e] w1] eqn:H.
  2: { apply (f_equal (fun x => is_ok x.1)) in H. vm_compute in H. discriminate. }
  destruct (challenge_is_single_use auth_env (fun u u' => auth_uuid_inj u u') challenged "*GBUYER" tok w1
    [ACleanupNonces] "*GBUYER" challenged_ok H eq_refl) as (e & He & _).
  { intros t account timeout tx _ [= <-]. discriminate. }
  by exists tok, w1, e.
Defined.
