(* ===== verification/Seed.v ===== *)
(** * Seeding a development database

    [prisma/seed.ts]: vendors, escrows, disputes and notifications with fixed
    references, each created only when it is missing; and the escrows of
    [scripts/db-seed.ts], which are created when the table holds fewer than
    ten. *)
From S2P Require Import Prelude Records Dates Text Tables Effects Prisma Notify.
Local Open Scope prog_scope.

(** A loop that carries what it has collected. *)
Fixpoint forFold {A S} (xs : list A) (s : S) (f : S -> A -> Prog S) : Prog S :=
  match xs with
  | [] => Ret s
  | x :: xs => let* s := f s x in forFold xs s f
  end.

Module PrismaSeed.

Definition VENDORS : list string :=
  ["GD3W57WQA63W6V5P2K7G2RD4M4JYZ736H72Z5TQX6Z62S7H3L2B2J5V6";
   "GBRPDO4JDHPUC253QA46TQX6S7D67V72Z5TQX6Z62S7H3L2B2J5V6VND";
   "GC2Y4F5HJK56TQX6S7D67V72Z5TQX6Z62S7H3L2B2J5V6VND782L5N"].

Definition BUYERS : list string :=
  ["GDBW53QA46TQX6S7D67V72Z5TQX6Z62S7H3L2B2J5V6BUY18274L2P";
   "GDC46TQX6S7D67V72Z5TQX6Z62S7H3L2B2J5V6BUY28274L2P981N";
   "GDDQX6S7D67V72Z5TQX6Z62S7H3L2B2J5V6BUY38274L2P981N2893";
   "GDE6S7D67V72Z5TQX6Z62S7H3L2B2J5V6BUY48274L2P981N289311";
   "GDF7D67V72Z5TQX6Z62S7H3L2B2J5V6BUY58274L2P981N28931102"].

Record Counts : Type := mkCounts { c_escrows : nat; c_disputes : nat; c_notifications : nat }.

Definition EXPECTED_COUNTS : Counts := mkCounts 15 3 10.

Definition vendor_profile (address : string) (now : Z) : VendorProfileRecord :=
  mkVendor address ("Vendor " +:+ String.substring 0 6 address) None None None now now.

Definition seedVendors : Prog unit :=
  forEach VENDORS (fun address => let* _ := await (vendor_upsert address (vendor_profile address)) in Ret tt).

(** ** Escrows *)

Definition states : list EscrowState := [CREATED; FUNDED; SHIPPED; DELIVERED; COMPLETED].

Definition text_of (n : nat) : string := bigint_toString (Z.of_nat n).

Definition state_at (i : nat) : EscrowState := nth (i / 3) states CREATED.
Definition vendor_at (i : nat) : string := nth (i mod length VENDORS) VENDORS "".
Definition buyer_at (i : nat) : string := nth (i mod length BUYERS) BUYERS "".
Definition itemRef_at (i : nat) : string := "REF-DET-" +:+ text_of (1000 + i).

(** [Number((100.5 + i * 50).toFixed(4))]. *)
Definition amount_at (i : nat) : number := Number_of_string (text_of (100 + i * 50) +:+ ".5000").

Definition is_shipped (s : EscrowState) : bool := match s with SHIPPED | DELIVERED | COMPLETED => true | _ => false end.

Definition escrow_row (i : nat) (amount : Z) (now : Z) (uuid : string) : PrismaEscrow :=
  mkEscrow uuid None ("Item #" +:+ text_of (i + 1)) (itemRef_at i) amount "USD" (buyer_at i) (vendor_at i) (state_at i)
    (if is_shipped (state_at i) then Some ("TRK-" +:+ text_of (2000 + i)) else None) None
    (if is_shipped (state_at i) then Some now else None) None None None None None None None None now now.

(** [findUnique({ where: { vendorAddress_itemRef } })]. *)
Definition has_ref (vendorAddress itemRef : string) (r : PrismaEscrow) : bool :=
  bool_decide (e_vendorAddress r = vendorAddress) && bool_decide (e_itemRef r = itemRef).

Definition escrow_findUniqueByRef (vendorAddress itemRef : string) : Action (option PrismaEscrow) :=
  db_call (fun _ _ d => (Ok (List.find (has_ref vendorAddress itemRef) (escrow_rows d)), d)).

(** What a seeding function answers. *)
Record Seeded : Type := mkSeeded { created : nat; updated : nat; ids : list string }.

Definition seedEscrow (s : Seeded) (i : nat) : Prog Seeded :=
  let* existing := await (escrow_findUniqueByRef (vendor_at i) (itemRef_at i)) in
  match existing with
  | Some row => Ret (mkSeeded (created s) (S (updated s)) (ids s ++ [e_id row]))
  | None =>
      let* result := await (fun env => escrow_create (escrow_row i (env_decimal env (amount_at i))) env) in
      Ret (mkSeeded (S (created s)) (updated s) (ids s ++ [e_id result]))
  end.

Definition seedEscrows : Prog Seeded := forFold (seq 0 15) (mkSeeded 0 0 []) seedEscrow.

(** ** Disputes *)

Definition dispute_seeds : list (nat * DisputeState * string) :=
  [(0, OPEN, "Item not received"); (1, OPEN, "Damaged packaging"); (2, RESOLVED, "Defective item, resolved by refund")].

(** [description] and [evidenceUrls] take the defaults of the schema. *)
Definition dispute_row (escrowId : string) (status : DisputeState) (reason : string) (now : Z) (cuid : string) : DisputeRecord :=
  mkDispute cuid escrowId reason "" [] status None now now.

Definition seedDispute (escrowIds : list string) (s : Seeded) (dispute : nat * DisputeState * string) : Prog Seeded :=
  let '(i, status, reason) := dispute in
  let escrowId := nth i escrowIds "" in
  let* existing := await (dispute_findFirst (fun r => bool_decide (d_escrowId r = escrowId))) in
  match existing with
  | Some _ => Ret (mkSeeded (created s) (S (updated s)) (ids s))
  | None =>
      let* _ := await (dispute_create (dispute_row escrowId status reason)) in
      Ret (mkSeeded (S (created s)) (updated s) (ids s))
  end.

Definition seedDisputes (escrowIds : list string) : Prog Seeded :=
  forFold dispute_seeds (mkSeeded 0 0 []) (seedDispute escrowIds).

(** ** Notifications *)

Definition notification_rows (d : Db) : list NotificationRow := (map_to_list (ac_notifications (db_accounts d))).*2.

Definition notification_findMany : Action (list NotificationRow) :=
  db_call (fun _ _ d => (Ok (notification_rows d), d)).

Definition message_at (i : nat) : string := "Notification for Escrow state change event #" +:+ text_of (i + 1).

Definition notification_input (escrowId : string) (i : nat) : NotificationInput :=
  mkNotificationInput escrowId NShipped EMAIL (buyer_at i) (message_at i) None 0 None.

Definition same_notification (escrowId : string) (i : nat) (n : NotificationRow) : bool :=
  bool_decide (ni_escrowId (nt_input n) = escrowId) &&
  bool_decide (ni_recipientAddress (nt_input n) = buyer_at i) &&
  bool_decide (ni_message (nt_input n) = message_at i).

Definition seedNotification (escrowIds : list string) (existing : list NotificationRow) (s : Seeded) (i : nat) : Prog Seeded :=
  let escrowId := nth (i mod length escrowIds) escrowIds "" in
  if existsb (same_notification escrowId i) existing
  then Ret (mkSeeded (created s) (S (updated s)) (ids s))
  else
    let* _ := NotificationRepository.create (notification_input escrowId i) in
    Ret (mkSeeded (S (created s)) (updated s) (ids s)).

Definition seedNotifications (escrowIds : list string) : Prog Seeded :=
  let* existingNotifications := await notification_findMany in
  forFold (seq 0 10) (mkSeeded 0 0 []) (seedNotification escrowIds existingNotifications).

(** ** The seed *)

(** What it logs: the rows created and the totals at the end. *)
Record Summary : Type := mkSummary { s_created : Counts; s_updated : Counts; s_total : Counts }.

Definition main : Prog Summary :=
  seedVendors ;;;
  let* escrows := seedEscrows in
  let* disputes := seedDisputes (ids escrows) in
  let* notifications := seedNotifications (ids escrows) in
  let* escrow_total := await (escrow_findMany (fun _ => true) (asc e_createdAt) id) in
  let* dispute_total := await (db_call (fun _ _ d => (Ok (dispute_rows d), d))) in
  let* notification_total := await notification_findMany in
  Ret (mkSummary
    (mkCounts (created escrows) (created disputes) (created notifications))
    (mkCounts (updated escrows) (updated disputes) (updated notifications))
    (mkCounts (length escrow_total) (length dispute_total) (length notification_total))).

End PrismaSeed.

(** ** The escrows of [db-seed.ts] *)

Module DbSeed.

Definition ESCROW_STATES : list EscrowState :=
  [CREATED; FUNDED; SHIPPED; DELIVERED; DISPUTED; COMPLETED; CREATED; FUNDED; SHIPPED; DELIVERED].

Definition shipped (state : EscrowState) : bool :=
  match state with SHIPPED | DELIVERED | COMPLETED | DISPUTED => true | _ => false end.

(** [amount] is the text of [(50 + i * 75).toFixed(4)], read exactly. *)
Definition escrow_row (i : nat) (state : EscrowState) (shippedAt : Z) (now : Z) (uuid : string) : PrismaEscrow :=
  mkEscrow uuid None ("Sample Item " +:+ PrismaSeed.text_of (i + 1)) ("REF-SEED-" +:+ PrismaSeed.text_of (1000 + i))
    (Z.of_nat (50 + i * 75) * DECIMAL_SCALE)%Z "USDC" (PrismaSeed.buyer_at i) (PrismaSeed.vendor_at i) state
    (if shipped state then Some ("TRK-SEED-" +:+ PrismaSeed.text_of (2000 + i)) else None) None
    (if shipped state then Some shippedAt else None) None None None None None None None None now now.

Definition seedEscrows : Prog (list string) :=
  let* existing := await (escrow_count (fun _ => true)) in
  if (Z.of_nat (length ESCROW_STATES) <=? existing)%Z then
    let* rows := await (escrow_findMany (fun _ => true) (asc_str e_id) (take (length ESCROW_STATES))) in
    Ret (e_id <$> rows)
  else
    let* started := await now in
    forFold (zip (seq 0 10) ESCROW_STATES) [] (fun ids entry =>
      let* escrow := await (escrow_create (escrow_row entry.1 entry.2 started)) in
      Ret (ids ++ [e_id escrow])).

End DbSeed.
