(* ===== verification/Benchmark.v ===== *)
(** * The chart aggregation benchmark

    [scripts/benchmark-chart-aggregation.ts] runs an aggregation in the program
    against the aggregation of the database the analytics service uses.  Times
    and memory are measurements and are left out; the random states and amounts
    of the test data are parameters. *)
From Stdlib Require Import Ascii.
From S2P Require Import Prelude Records Doubles Dates Text Tables Crypto Effects Prisma Auth Analytics Seed Connection.
Local Open Scope prog_scope.

Module ChartAggregationBenchmark.
Import AnalyticsRepository AnalyticsService.
Section benchmark.
Context {TZ : TimeZones}.

(** The [DailyData] of the script has the fields of the service's entries. *)
Abbreviation DailyData := DailyVolumeDataDto.

Record Chart : Type := mkBench { data : list DailyData; recordCount : nat }.

(** [toISOString().split('T')[0]]. *)
Definition formatDate (date : Z) : string :=
  match split_on "T"%char (toISOString date) with d :: _ => d | [] => "" end.

(** ** The old approach *)

(** One round of the loop over the escrows. *)
Definition add_escrow (dailyMap : gmap string DailyData) (escrow : PrismaEscrow) : gmap string DailyData :=
  let dateKey := formatDate (e_createdAt escrow) in
  let daily := coalesce (dailyMap !! dateKey) (empty_day dateKey) in
  let amount := ratio_to_number (e_amount escrow) DECIMAL_SCALE in
  <[dateKey := mkDaily (dd_date daily) (number_add (dd_totalVolume daily) amount) (dd_transactionCount daily + 1)
    (if is_completed escrow then dd_completedCount daily + 1 else dd_completedCount daily)
    (if in_state DISPUTED escrow then dd_disputedCount daily + 1 else dd_disputedCount daily)
    (dd_averageTransactionValue daily)]> dailyMap.

Definition with_average (daily : DailyData) : DailyData :=
  mkDaily (dd_date daily) (dd_totalVolume daily) (dd_transactionCount daily) (dd_completedCount daily) (dd_disputedCount daily)
    (if (0 <? dd_transactionCount daily)%Z then number_div (dd_totalVolume daily) (dd_transactionCount daily) else zero).

Definition old_map (escrows : list PrismaEscrow) : gmap string DailyData := with_average <$> foldl add_escrow ∅ escrows.

Definition oldApproach (vendorAddress : string) (days : Z) : Prog Chart :=
  let* endDate := await now in
  let* started := await now in
  let startDate := (started - days * MS_PER_DAY)%Z in
  let* escrows := await (db_call (fun _ _ d => (Ok (List.filter (in_window vendorAddress startDate endDate) (escrow_rows d)), d))) in
  Ret (mkBench (sort_by (asc_str dd_date) (map_to_list (old_map escrows)).*2) (length escrows)).

(** ** The new approach *)

(** The keys of the [Map]: the driver returns a [date] as an object, which is
    its own key (its place in the result stands for its identity), and the days
    of the chart are texts. *)
Inductive MapKey : Type := DateObject (row : nat) | Text (s : string).

#[export] Instance MapKey_eq_dec : EqDecision MapKey.
Proof. solve_decision. Defined.

Definition new_map (rows : list DailyVolumeAggRow) : list (MapKey * DailyVolumeAggRow) := imap (fun i row => (DateObject i, row)) rows.

Definition map_get (m : list (MapKey * DailyVolumeAggRow)) (key : MapKey) : option DailyVolumeAggRow :=
  snd <$> List.find (fun kv => bool_decide (kv.1 = key)) m.

(** The loop of [fillDateGaps], a day at a time; [fuel] bounds its rounds. *)
Fixpoint fill (fuel : nat) (m : list (MapKey * DailyVolumeAggRow)) (currentDate endDate : Z) (timezone : string)
    : list DailyData :=
  match fuel with
  | O => []
  | S fuel =>
      if (currentDate <=? endDate)%Z then
        let dateKey := formatDateInTimezone currentDate timezone in
        match map_get m (Text dateKey) with Some row => to_daily row | None => empty_day dateKey end
          :: fill fuel m (currentDate + MS_PER_DAY) endDate timezone
      else []
  end.

Definition fillDateGaps (m : list (MapKey * DailyVolumeAggRow)) (startDate endDate : Z) (timezone : string) : list DailyData :=
  fill (Z.to_nat ((endDate - startDate) / MS_PER_DAY + 1)) m startDate endDate timezone.

Definition newApproach (vendorAddress : string) (days : Z) (timezone : string) : Prog Chart :=
  let* endDate := await now in
  let* started := await now in
  let startDate := (started - days * MS_PER_DAY)%Z in
  let* rows := aggregateDailyVolume vendorAddress startDate endDate timezone in
  Ret (mkBench (sort_by (asc_str dd_date) (fillDateGaps (new_map rows) startDate endDate timezone)) (length rows)).

(** ** The benchmark *)

(** [Math.floor(Math.random() * 4)] and [Math.random() * 1000 + 50] of the
    row with an index. *)
Context (random_state : nat -> nat) (random_amount : nat -> number).

Definition states : list EscrowState := [COMPLETED; RELEASED; DISPUTED; FUNDED].

(** [createdAt] is computed but not stored: the column takes its default. *)
Definition test_row (vendorAddress : string) (i : nat) (amount : Z) (now : Z) (uuid : string) : PrismaEscrow :=
  mkEscrow uuid None ("Test Item " +:+ PrismaSeed.text_of i) ("ref-" +:+ PrismaSeed.text_of i) amount "USD"
    ("0xBuyer" +:+ PrismaSeed.text_of i) vendorAddress (nth (random_state i) states COMPLETED)
    None None None None None None None None None None None now now.

Definition generateTestData (vendorAddress : string) (recordCount : nat) : Prog unit :=
  forEach (seq 0 recordCount) (fun i =>
    let* _ := await (fun env => escrow_create (test_row vendorAddress i (env_decimal env (random_amount i))) env) in Ret tt).

Definition runBenchmark (process_env : string -> option string) (vendorAddress : string) (recordCount : nat) (days : Z)
    : Prog (Chart * Chart) :=
  PrismaService.reset process_env ;;;
  generateTestData vendorAddress recordCount ;;;
  let* oldResult := oldApproach vendorAddress days in
  let* newResult := newApproach vendorAddress days "UTC" in
  Ret (oldResult, newResult).

Definition recordCounts : list nat := [100; 500; 1000; 5000].

Definition run (process_env : string -> option string) : Prog unit :=
  forEach recordCounts (fun count => let* _ := runBenchmark process_env "0xBenchmarkVendor" count 30 in Ret tt) ;;;
  PrismaService.reset process_env.

End benchmark.
End ChartAggregationBenchmark.
