(* ===== verification/Tracing.v ===== *)
(** * Tracing

    [src/src/tracing] and [common/interceptors/sentry.interceptor.ts]: spans
    around handlers and database calls, and the reports of unexpected errors.
    What the code hands to OpenTelemetry and Sentry is a log of calls; the
    exporters behind them are not modelled.  A [Traced] computation is a
    program that also threads its tracing context, so the theorems of
    TracingSpec can say that taking the tracing out ([erase]) gives the program
    the other files model. *)
From Stdlib Require Import Ascii.
From S2P Require Import Prelude Records Text Tables Effects Auth Http.
Local Open Scope prog_scope.

(** ** Calls to OpenTelemetry *)

Inductive SpanKind : Type := INTERNAL | CLIENT.
Inductive SpanStatusCode : Type := STATUS_OK | STATUS_ERROR.
Inductive AttributeValue : Type := AttrString (s : string) | AttrNumber (n : Z) | AttrBool (b : bool).

Abbreviation Attributes := (list (string * AttributeValue)).

Inductive SpanCall : Type :=
| StartSpan (id : nat) (parent : option nat) (name : string) (kind : SpanKind) (attributes : Attributes)
| SetStatus (id : nat) (code : SpanStatusCode) (message : option string)
| RecordException (id : nat) (e : exn)
| SetAttributes (id : nat) (attributes : Attributes)
| EndSpan (id : nat).

(** The context of one asynchronous flow: the next span id, the active span
    and the calls made so far. *)
Record Tracer : Type := mkTracer { tr_next : nat; tr_active : option nat; tr_log : list SpanCall }.

Definition log_spans (calls : list SpanCall) (tr : Tracer) : Tracer :=
  mkTracer (tr_next tr) (tr_active tr) (tr_log tr ++ calls).

Definition Traced (A : Type) : Type := Tracer -> Prog (outcome A * Tracer).

(** A program that traces nothing. *)
Definition untraced {A} (m : Prog A) : Traced A := fun tr => let* r := attempt m in Ret (r, tr).

Definition traced_bind {A B} (t : Traced A) (f : A -> Traced B) : Traced B := fun tr =>
  let* x := t tr in
  match x.1 with Ok a => f a x.2 | Throw e => Ret (Throw e, x.2) end.

Definition traced_catch {A} (t : Traced A) (h : exn -> Traced A) : Traced A := fun tr =>
  let* x := t tr in
  match x.1 with Ok a => Ret x | Throw e => h e x.2 end.

(** The program without its tracing. *)
Definition erase {A} (t : Traced A) (tr : Tracer) : Prog A := let* x := t tr in settle x.1.

(** ** Bootstrap *)

Definition isTracingEnabled (process_env : string -> option string) : bool :=
  negb (bool_decide (process_env "NODE_ENV" = Some "test")) &&
  negb (bool_decide (process_env "OTEL_ENABLED" = Some "false")).

(** ** TracingService *)

Module TracingService.

Section service.
Context (isEnabled : bool).

Definition close_span (id : nat) {A} (r : outcome A) : list SpanCall :=
  match r with
  | Ok _ => [SetStatus id STATUS_OK None; EndSpan id]
  | Throw error => [RecordException id error; SetStatus id STATUS_ERROR (Some (exn_message error)); EndSpan id]
  end.

Definition withSpan {A} (name : string) (kind : option SpanKind) (attributes : Attributes) (fn : Traced A) : Traced A :=
  if negb isEnabled then fn
  else fun tr =>
    let id := tr_next tr in
    let started := mkTracer (S id) (Some id)
      (tr_log tr ++ [StartSpan id (tr_active tr) name (coalesce kind INTERNAL) attributes]) in
    let* x := fn started in
    Ret (x.1, mkTracer (tr_next x.2) (tr_active tr) (tr_log x.2 ++ close_span id x.1)).

Definition withDbSpan {A} (model operation : string) (fn : Traced A) : Traced A :=
  withSpan ("db." +:+ model +:+ "." +:+ operation) (Some CLIENT)
    [("db.system", AttrString "postgresql"); ("db.operation", AttrString operation); ("db.sql.table", AttrString model)] fn.

Definition withWorkflowSpan {A} (workflow : string) (fn : Traced A) (attributes : Attributes) : Traced A :=
  withSpan ("workflow." +:+ workflow) (Some INTERNAL) (("trustlink.workflow", AttrString workflow) :: attributes) fn.

Definition setSpanAttributes (attributes : Attributes) : Traced unit := fun tr =>
  match tr_active tr with
  | Some span => Ret (Ok tt, log_spans [SetAttributes span attributes] tr)
  | None => Ret (Ok tt, tr)
  end.
End service.

End TracingService.

(** ** The traced database client *)

Module PrismaTracing.
Import TracingService.

Definition TRACED_MODELS : list string :=
  ["escrow"; "dispute"; "notification"; "vendorProfile"; "processedWebhookEvent"].

Definition isTracedModel (key : string) : bool := bool_decide (key ∈ TRACED_MODELS).

Section wrapper.
(** The arguments and results of the client's methods, and its other values. *)
Context {Args Val Other : Type}.
Context (enabled : bool).

Inductive Member : Type :=
| Method (fn : Args -> Traced Val)
| Constant (v : Other).

(** A property of the client: an object with members, in the order of
    [Object.entries], a function, or another value ([None]: falsy). *)
Inductive Property : Type :=
| Delegate (members : list (string * Member))
| ClientMethod (fn : Args -> Traced Val)
| ClientValue (v : option Other).

Definition wrap_member (modelName method : string) (m : Member) : Member :=
  match m with
  | Method fn => Method (fun args => withDbSpan enabled modelName method (fn args))
  | Constant v => Constant v
  end.

Definition wrapModelDelegate (model : list (string * Member)) (modelName : string) : list (string * Member) :=
  (fun entry => (entry.1, wrap_member modelName entry.1 entry.2)) <$> model.

(** The [get] trap of the proxy: the methods of the client itself are bound to
    it and otherwise unchanged. *)
Definition wrapPrismaWithTracing (prisma : string -> Property) : string -> Property := fun prop =>
  match prisma prop with
  | Delegate members => if isTracedModel prop then Delegate (wrapModelDelegate members prop) else Delegate members
  | value => value
  end.

(** [PrismaModule]: the client the repositories are given. *)
Definition providePrismaService (prisma : string -> Property) : string -> Property :=
  if enabled then wrapPrismaWithTracing prisma else prisma.

(** [client[model][method](...args)]; [None] when there is no such method. *)
Definition call (client : string -> Property) (model method : string) (args : Args) : option (Traced Val) :=
  match client model with
  | Delegate members =>
      match snd <$> List.find (fun entry => bool_decide (entry.1 = method)) members with
      | Some (Method fn) => Some (fn args)
      | _ => None
      end
  | _ => None
  end.
End wrapper.
Arguments Member : clear implicits.
Arguments Property : clear implicits.

End PrismaTracing.

(** ** Workflows of requests *)

(** The path of a URL: the text before the first ["?"]. *)
Fixpoint url_path (url : string) : string :=
  match url with
  | EmptyString => EmptyString
  | String c rest => if bool_decide (c = "?"%char) then EmptyString else String c (url_path rest)
  end.

Definition resolveWorkflow (method url : string) : string :=
  let path := url_path url in
  let verb := toLowerCase method in
  if String.prefix "/escrow" path then "escrow." +:+ verb
  else if String.prefix "/vendor" path then "vendor." +:+ verb
  else if String.prefix "/auth" path then "sep10." +:+ verb
  else if String.prefix "/webhooks/stellar" path then "webhook.stellar"
  else if String.prefix "/admin/queues" path then "admin.queues"
  else if String.prefix "/admin/disputes" path then "admin.disputes"
  else if String.prefix "/admin/audit-log" path then "admin.audit_log"
  else if String.prefix "/admin/stats" path then "admin.stats"
  else if String.prefix "/admin/credentials" path then "admin.api_keys"
  else if String.prefix "/admin/dlq" path then "admin.dlq"
  else if String.prefix "/stress-test" path then "stress_test." +:+ verb
  else if bool_decide (path = "/health") then "health.check"
  else if bool_decide (path = "/health/live") then "health.live"
  else if bool_decide (path = "/health/ready") then "health.ready"
  else if bool_decide (path = "/version") then "version.check"
  else "http." +:+ verb.

Record TracedRequest : Type := mkTracedRequest {
  tq_method : string; tq_originalUrl : string; tq_requestId : HeaderValue;
  tq_handler : string; tq_className : string }.

(** [TracingInterceptor.intercept]. *)
Definition intercept {A} (enabled : bool) (req : TracedRequest) (handle : Traced A) : Traced A :=
  if negb enabled then handle
  else TracingService.withWorkflowSpan enabled (resolveWorkflow (tq_method req) (tq_originalUrl req)) handle
    [("code.function", AttrString (tq_handler req)); ("code.namespace", AttrString (tq_className req));
     ("http.method", AttrString (tq_method req)); ("http.target", AttrString (tq_originalUrl req))].

(** [String(header)] when the header is truthy. *)
Definition header_text (h : HeaderValue) : option string :=
  match h with
  | HNone => None
  | HOne s => if bool_decide (s = "") then None else Some s
  | HMany l => Some (String.concat "," l)
  end.

(** [TracingMiddleware.use]: the calls on the span of the HTTP
    instrumentation before the request is routed, and when it has finished. *)
Definition middleware_use (enabled : bool) (span : option nat) (req : TracedRequest) : list SpanCall :=
  match span with
  | Some id =>
      if negb enabled then []
      else
        SetAttributes id [("trustlink.workflow", AttrString (resolveWorkflow (tq_method req) (tq_originalUrl req)))]
        :: match header_text (tq_requestId req) with
           | Some s => [SetAttributes id [("trustlink.request_id", AttrString s)]]
           | None => []
           end
  | None => []
  end.

Definition middleware_finish (enabled : bool) (span : option nat) (statusCode : Z) : list SpanCall :=
  match span with
  | Some id => if negb enabled then [] else [SetAttributes id [("http.response.status_code", AttrNumber statusCode)]]
  | None => []
  end.

(** ** Sentry *)

(** [SentryInterceptor.intercept]: the errors captured, and the error passed on. *)
Definition sentry_intercept {A} (r : outcome A) : list exn * outcome A :=
  match r with
  | Ok a => ([], Ok a)
  | Throw err => (if isServerError err then [err] else [], Throw err)
  end.
