(* ===== verification/HttpSpec.v ===== *)
(** * Properties of the HTTP edge

    What sanitised bodies contain, how every class of error is answered and
    logged and what the answer reveals, and which
    sources the content security policy admits. *)
From Stdlib Require Import Ascii.
From S2P Require Import Prelude Records Dates Text Tables Crypto Json Stringify Effects Auth Http.

(** ** Sanitisation *)

Definition chars (s : string) : list ascii := String.list_ascii_of_string s.

(** What sanitised text may hold, by code: tab, newline, carriage return and
    everything from the space on, except ['<'] (60), ['>'] (62) and DEL (127). *)
Definition harmless (c : ascii) : Prop :=
  let n := nat_of_ascii c in n = 9 \/ n = 10 \/ n = 13 \/ (32 <= n /\ n <> 60 /\ n <> 62 /\ n <> 127).

#[export] Instance harmless_dec c : Decision (harmless c).
Proof. unfold harmless. cbv zeta. apply _. Defined.

(** Text without angle brackets or control characters. *)
Definition clean (s : string) : Prop := Forall harmless (chars s).

(** The string values of a body, at any depth. *)
Fixpoint strings_of (value : json) : list string :=
  match value with
  | JStr s => [s]
  | JArr items => mjoin (strings_of <$> items)
  | JObj fields => mjoin ((fun kv => match kv.2 with Some v => strings_of v | None => [] end) <$> fields)
  | _ => []
  end.

Definition clean_json (value : json) : Prop := Forall clean (strings_of value).

Lemma chars_filter P s : chars (filter_string P s) = List.filter P (chars s).
Proof. induction s as [|c s IH]; [done|]. simpl. destruct (P c); [|done]. change (chars (String c ?x)) with (c :: chars x). by rewrite <- IH. Qed.

Lemma filter_string_id P s : Forall (fun c => P c = true) (chars s) -> filter_string P s = s.
Proof. induction s as [|c s IH]; [done|]. simpl. inversion 1; subst. rewrite H2. f_equal. by apply IH. Qed.

Lemma chars_app a b : chars (a +:+ b) = chars a ++ chars b.
Proof. induction a as [|c a IH]; [done|]. exact (f_equal (cons c) IH). Qed.

(** Stripping tags only drops characters. *)
Lemma strip_tags_sub pending s : chars (strip_tags pending s) `sublist_of` chars (coalesce pending EmptyString +:+ s).
Proof.
  revert pending. induction s as [|c s IH]; intros pending; simpl.
  - destruct pending as [t|]; simpl; [|constructor]. rewrite chars_app, app_nil_r. done.
  - destruct pending as [t|]; simpl.
    + rewrite chars_app. change (chars (String c s)) with (c :: chars s). case_bool_decide.
      * apply sublist_inserts_l, sublist_cons, (IH None).
      * etrans; [apply IH|]. simpl. rewrite !chars_app, <- app_assoc. done.
    + case_bool_decide; [apply (IH (Some (String c EmptyString)))|]. apply sublist_skip, (IH None).
Qed.

Lemma strip_tags_none s : chars (strip_tags None s) `sublist_of` chars s.
Proof. apply (strip_tags_sub None). Qed.

Lemma Forall_sublist {A} (P : A -> Prop) l k : l `sublist_of` k -> Forall P k -> Forall P l.
Proof. induction 1; inversion 1; subst; auto. Qed.

Lemma strip_tags_id s : Forall (fun c => is_angle c = false) (chars s) -> strip_tags None s = s.
Proof.
  induction s as [|c s IH]; [done|]. inversion 1 as [|? ? Hc Hs]; subst. unfold is_angle in Hc. b2p. simpl.
  rewrite bool_decide_eq_false_2 by done. f_equal. by apply IH.
Qed.

Lemma is_angle_spec c : is_angle c = true <-> nat_of_ascii c = 60 \/ nat_of_ascii c = 62.
Proof.
  unfold is_angle. rewrite orb_true_iff, !bool_decide_eq_true. split; [by intros [-> | ->]; [left|right]|].
  intros [H|H]; [left|right]; rewrite <- (ascii_nat_embedding c), H; reflexivity.
Qed.

Lemma is_control_spec c : is_control c = true <->
  (nat_of_ascii c < 32 /\ nat_of_ascii c <> 9 /\ nat_of_ascii c <> 10 /\ nat_of_ascii c <> 13) \/ nat_of_ascii c = 127.
Proof.
  unfold is_control. cbv zeta. rewrite orb_true_iff, !andb_true_iff, !negb_true_iff, Nat.leb_le, !Nat.eqb_neq, Nat.eqb_eq. lia.
Qed.

(** The code keeps exactly the harmless characters. *)
Lemma harmless_spec c : harmless c <-> is_angle c = false /\ is_control c = false.
Proof.
  rewrite <- !not_true_iff_false, is_angle_spec, is_control_spec. unfold harmless. cbv zeta. lia.
Qed.

Lemma sanitize_clean s : clean (sanitizeString s).
Proof.
  unfold clean, sanitizeString. rewrite chars_filter.
  assert (H : Forall (fun c => is_control c = false) (chars (strip_tags None (stripControlChars s)))).
  { eapply Forall_sublist; [apply strip_tags_none|]. unfold stripControlChars. rewrite chars_filter.
    apply Forall_forall. intros c [_ Hc]%list_elem_of_In%filter_In. by b2p. }
  apply Forall_forall. intros c [Hin Hc]%list_elem_of_In%filter_In. apply list_elem_of_In in Hin.
  apply harmless_spec. split; [by b2p|]. by eapply Forall_forall in H.
Qed.

Lemma sanitize_id s : clean s -> sanitizeString s = s.
Proof.
  intros H. unfold sanitizeString, stripControlChars.
  rewrite (filter_string_id _ s) by (eapply Forall_impl; [exact H|]; intros c [_ ->]%harmless_spec; done).
  rewrite strip_tags_id by (eapply Forall_impl; [exact H|]; by intros c [? _]%harmless_spec).
  apply filter_string_id. eapply Forall_impl; [exact H|]. by intros c [-> _]%harmless_spec.
Qed.

Lemma sanitize_sub s : chars (sanitizeString s) `sublist_of` chars s.
Proof.
  unfold sanitizeString, stripControlChars. rewrite chars_filter.
  assert (HF : forall P (l : list ascii), List.filter P l `sublist_of` l).
  { intros P l. induction l as [|x l IH]; simpl; [done|]. destruct (P x); by constructor. }
  etrans; [apply HF|]. etrans; [apply strip_tags_none|]. rewrite chars_filter. apply HF.
Qed.

(** *** What is removed *)

Lemma string_app_nil_r s : s +:+ EmptyString = s.
Proof. induction s as [|c s IH]; [done|]. exact (f_equal (String c) IH). Qed.

Lemma filter_string_app P a b : filter_string P (a +:+ b) = filter_string P a +:+ filter_string P b.
Proof. induction a as [|c a IH]; [done|]. simpl. destruct (P c); [exact (f_equal (String c) IH)|exact IH]. Qed.

Lemma filter_string_free P c s : c ∉ chars s -> c ∉ chars (filter_string P s).
Proof. rewrite chars_filter. intros H Hc. apply H. apply list_elem_of_In, filter_In in Hc as [Hc _]. by apply list_elem_of_In. Qed.

Lemma filter_filter_string P Q s :
  filter_string P (filter_string Q s) = filter_string (fun c => Q c && P c) s.
Proof. induction s as [|c s IH]; [done|]. simpl. destruct (Q c); simpl; [destruct (P c); by rewrite IH|done]. Qed.

Lemma filter_string_ext P Q s : (forall c, P c = Q c) -> filter_string P s = filter_string Q s.
Proof. intros H. induction s as [|c s IH]; [done|]. simpl. by rewrite H, IH. Qed.

Lemma strip_tags_before a s : "<"%char ∉ chars a -> strip_tags None (a +:+ s) = a +:+ strip_tags None s.
Proof.
  induction a as [|c a IH]; [done|]. change (chars (String c a)) with (c :: chars a). intros [Hc Ha]%not_elem_of_cons.
  simpl. rewrite bool_decide_eq_false_2 by done. exact (f_equal (String c) (IH Ha)).
Qed.

Lemma strip_tags_open t s : ">"%char ∉ chars s -> strip_tags (Some t) s = t +:+ s.
Proof.
  revert t. induction s as [|c s IH]; intros t; simpl; [by rewrite string_app_nil_r|].
  change (chars (String c s)) with (c :: chars s). intros [Hc Hs]%not_elem_of_cons.
  rewrite bool_decide_eq_false_2 by done. rewrite IH by done. by rewrite string_app_assoc.
Qed.

Lemma strip_tags_closed t s r : ">"%char ∉ chars s -> strip_tags (Some t) (s +:+ String ">"%char r) = strip_tags None r.
Proof.
  revert t. induction s as [|c s IH]; intros t; [done|].
  change (chars (String c s)) with (c :: chars s). intros [Hc Hs]%not_elem_of_cons.
  simpl. rewrite bool_decide_eq_false_2 by done. by apply IH.
Qed.

Lemma strip_tags_unclosed s : ">"%char ∉ chars s -> strip_tags None s = s.
Proof.
  induction s as [|c s IH]; [done|]. change (chars (String c s)) with (c :: chars s). intros [Hc Hs]%not_elem_of_cons.
  simpl. case_bool_decide; [by rewrite strip_tags_open|]. by rewrite IH.
Qed.

(** A complete tag goes, whatever it holds. *)
Lemma sanitize_tag a tag b : "<"%char ∉ chars a -> ">"%char ∉ chars tag ->
  sanitizeString (a +:+ String "<"%char tag +:+ String ">"%char b) = sanitizeString a +:+ sanitizeString b.
Proof.
  intros Ha Ht. unfold sanitizeString, stripControlChars. rewrite !filter_string_app.
  set (P := fun c => negb (is_control c)).
  assert (E1 : filter_string P (String "<"%char tag) = String "<"%char (filter_string P tag)) by done.
  assert (E2 : filter_string P (String ">"%char b) = String ">"%char (filter_string P b)) by done.
  rewrite E1, E2. rewrite strip_tags_before by (by apply filter_string_free).
  simpl. rewrite strip_tags_closed by (by apply filter_string_free). rewrite filter_string_app. f_equal. f_equal.
  rewrite <- (string_app_nil_r (filter_string P a)) at 2. rewrite strip_tags_before by (by apply filter_string_free).
  simpl. by rewrite string_app_nil_r.
Qed.

(** Text without a complete tag loses its harmful characters and nothing else. *)
Lemma sanitize_untagged a b : "<"%char ∉ chars a -> ">"%char ∉ chars b ->
  sanitizeString (a +:+ b) = filter_string (fun c => bool_decide (harmless c)) (a +:+ b).
Proof.
  intros Ha Hb. unfold sanitizeString, stripControlChars. rewrite filter_string_app, strip_tags_before by (by apply filter_string_free).
  rewrite strip_tags_unclosed by (by apply filter_string_free). rewrite <- filter_string_app, filter_filter_string.
  apply filter_string_ext. intros c. symmetry. destruct (is_control c) eqn:E1, (is_angle c) eqn:E2; simpl;
    first [apply bool_decide_eq_true_2|apply bool_decide_eq_false_2]; rewrite harmless_spec, E1, E2; naive_solver.
Qed.

(** C37. Every string value of a sanitised body, at any depth, holds only
    harmless characters: no angle bracket, no DEL, and no control character but
    tab, newline and carriage return.  A body that already was so is left as it
    is, so sanitising twice changes nothing.  Of a string, the characters left
    are characters of it, in order: every complete tag goes with all it holds,
    and of text without a complete tag just the harmful characters go. *)
Theorem sanitised_bodies_are_clean body :
  clean_json (sanitizeDeep body) /\ sanitizeDeep (sanitizeDeep body) = sanitizeDeep body /\
  (clean_json body -> sanitizeDeep body = body) /\
  (forall s, chars (sanitizeString s) `sublist_of` chars s) /\
  (forall a tag b, "<"%char ∉ chars a -> ">"%char ∉ chars tag ->
     sanitizeString (a +:+ String "<"%char tag +:+ String ">"%char b) = sanitizeString a +:+ sanitizeString b) /\
  (forall a b, "<"%char ∉ chars a -> ">"%char ∉ chars b ->
     sanitizeString (a +:+ b) = filter_string (fun c => bool_decide (harmless c)) (a +:+ b)).
Proof.
  assert (Hid : forall v, clean_json v -> sanitizeDeep v = v).
  { intros v. unfold clean_json. induction v as [|b|n|s|l IH|l IH] using json_rect_deep; simpl; intros H; [done|done|done| | |].
    - inversion H; subst. by rewrite sanitize_id.
    - f_equal. induction IH as [|v l Hv _ IHl]; [done|]. simpl in *. apply Forall_app in H as [H1 H2].
      f_equal; [exact (Hv H1)|exact (IHl H2)].
    - f_equal. induction IH as [|[k [v|]] l Hv _ IHl]; [done| |]; simpl in *.
      + apply Forall_app in H as [H1 H2]. f_equal; [by rewrite (Hv H1)|exact (IHl H2)].
      + f_equal. exact (IHl H). }
  assert (Hclean : clean_json (sanitizeDeep body)).
  { unfold clean_json. induction body as [|b|n|s|l IH|l IH] using json_rect_deep; simpl; try constructor.
    - apply sanitize_clean.
    - done.
    - induction IH as [|v l Hv _ IHl]; [constructor|]. simpl. by apply Forall_app.
    - induction IH as [|[k [v|]] l Hv _ IHl]; [constructor| |]; simpl in *; [by apply Forall_app|done]. }
  split_and!; [done|by apply Hid|apply Hid|apply sanitize_sub|apply sanitize_tag|apply sanitize_untagged].
Qed.

(** ** Errors *)

(** What went wrong, as the filter is meant to tell errors apart: Prisma's
    are known by a code that starts with P, failed validations by their name. *)
Inductive ErrorClass : Type :=
| HttpError (status : Z) | UniqueViolation | MissingRecord | DatabaseFailure | ValidationFailure | UnknownFailure.

Definition starts_with_P (code : string) : bool := match code with String "P" _ => true | _ => false end.

(** The class of an error by its name. *)
Definition by_name (t : Exception) : ErrorClass :=
  match t with
  | ThrownError name _ _ _ _ => if decide (name = "ValidationError"%string) then ValidationFailure else UnknownFailure
  | _ => UnknownFailure
  end.

Definition by_code (t : Exception) : ErrorClass :=
  match thrown_code t with
  | Some code =>
      if decide (code = "P2002"%string) then UniqueViolation
      else if decide (code = "P2025"%string) then MissingRecord
      else if starts_with_P code then DatabaseFailure else by_name t
  | None => by_name t
  end.

Definition classify (t : Exception) : ErrorClass :=
  match t with ThrownHttp status _ _ _ => HttpError status | _ => by_code t end.

Definition status_of (c : ErrorClass) : Z :=
  match c with
  | HttpError status => status
  | UniqueViolation => 409 | MissingRecord => 404 | ValidationFailure => 400
  | DatabaseFailure | UnknownFailure => 500
  end.

Definition is_http (t : Exception) : bool := match t with ThrownHttp _ _ _ _ => true | _ => false end.

Lemma prefix_P code : String.prefix "P" code = starts_with_P code.
Proof.
  destruct code as [|a code]; [done|]. cbn [String.prefix]. destruct (ascii_dec "P" a) as [<-|H]; [by destruct code|].
  unfold starts_with_P. destruct a as [[][][][][][][][]]; first [reflexivity | exfalso; apply H; reflexivity | idtac].
Qed.

(** What the client is told of an error that is not an [HttpException]:
    outside development, a function of its class. *)
Definition answer (node_env : NodeEnv) (c : ErrorClass) (unknown : Message) : Message * string :=
  match c with
  | UniqueViolation => (OneMessage "A record with this data already exists", "ConflictError"%string)
  | MissingRecord => (OneMessage "Record not found", "NotFoundError"%string)
  | DatabaseFailure => (OneMessage "Database error", "DatabaseError"%string)
  | ValidationFailure => (OneMessage "Validation failed", "ValidationError"%string)
  | _ => (if decide (node_env = Production) then OneMessage "Internal server error" else unknown, "InternalServerError"%string)
  end.

(** The response a class of errors that are not [HttpException]s gets. *)
Definition class_response (node_env : NodeEnv) (t : Exception) (now : Z) (path requestId : string) (details : option json)
    : StandardErrorResponse :=
  let a := answer node_env (classify t) (thrown_message t) in
  mkErrorResponse (status_of (classify t)) a.1 a.2 now path requestId (when_development node_env details).

Lemma otherError_by_name node_env t now path id : is_http t = false -> classify t = by_name t ->
  exists details, otherError node_env t now path id = class_response node_env t now path id details.
Proof.
  intros Ht Hc. unfold otherError, class_response, isValidationError. rewrite Hc. unfold by_name, answer.
  rewrite bool_decide_decide. destruct t as [|name m c d st|v]; [done| |].
  - rewrite bool_decide_decide. destruct (decide (name = "ValidationError"%string)); [by exists d|].
    exists (JStr <$> st). by destruct (decide (node_env = Production)).
  - exists (Some v). by destruct (decide (node_env = Production)).
Qed.

Lemma response_by_class node_env t now req : is_http t = false ->
  exists details, buildErrorResponse node_env t now req =
    class_response node_env t now (fr_url req) (coalesce (fr_requestId req) "unknown"%string) details.
Proof.
  intros Ht. set (path := fr_url req). set (id := coalesce (fr_requestId req) "unknown"%string).
  assert (Hn : when_development node_env None = None) by (unfold when_development; by case_bool_decide).
  assert (E : buildErrorResponse node_env t now req =
    match isPrismaError t with
    | Some code => handlePrismaError node_env t code now path id
    | None => otherError node_env t now path id
    end) by (by destruct t).
  rewrite E. assert (Hcl : classify t = by_code t) by (by destruct t). unfold isPrismaError.
  destruct (thrown_code t) as [code|] eqn:Hcode.
  2: { apply otherError_by_name; [done|]. rewrite Hcl. unfold by_code. by rewrite Hcode. }
  rewrite prefix_P. destruct (starts_with_P code) eqn:HP.
  - unfold handlePrismaError, class_response. rewrite !bool_decide_decide, Hcl. unfold by_code. rewrite Hcode, HP.
    destruct (decide (code = "P2002"%string)); [exists None; by rewrite Hn|].
    destruct (decide (code = "P2025"%string)); [exists None; by rewrite Hn|]. by eexists.
  - apply otherError_by_name; [done|]. rewrite Hcl. unfold by_code. rewrite Hcode, HP.
    by rewrite !decide_False by (intros ->; discriminate).
Qed.

(** C40. An error is answered by its class: an [HttpException] with its own
    status and name and the message, or list of messages, of its response; a
    unique-key violation with 409, a missing record with 404, a failed
    validation with 400 and every other error with 500.  Details are sent in
    development only; in production two errors of a class that are not
    [HttpException]s get the same response, whatever they say.  The filter logs
    each response with its status and messages, at error level exactly when
    the status is 500 or more. *)
Theorem error_responses node_env t now req :
  let (r, log) := filter_catch node_env t now req in
  er_statusCode r = status_of (classify t) /\
  (forall status name message o, t = ThrownHttp status name message (ResponseObject o) ->
     er_error r = name /\ er_message r = coalesce (body_message o) (OneMessage message)) /\
  (forall status name message s, t = ThrownHttp status name message (ResponseText s) ->
     er_error r = name /\ er_message r = OneMessage s) /\
  (is_http t = false -> (er_message r, er_error r) = answer node_env (classify t) (thrown_message t)) /\
  (node_env <> Development -> er_details r = None) /\
  (node_env = Production -> forall t', is_http t = false -> is_http t' = false -> classify t = classify t' ->
     (filter_catch node_env t' now req).1 = r) /\
  (fl_level log = "error"%string <-> (500 <= er_statusCode r)%Z) /\
  (fl_level log = "warn"%string <-> (er_statusCode r < 500)%Z) /\
  fl_message log = (fr_method req +:+ " " +:+ fr_url req +:+ " - " +:+ bigint_toString (er_statusCode r) +:+ " - " +:+
                    formatMessage (er_message r))%string.
Proof.
  unfold filter_catch. cbv zeta. set (r := buildErrorResponse node_env t now req).
  assert (Hw : node_env <> Development -> forall d, when_development node_env d = None).
  { intros H d. unfold when_development. by rewrite bool_decide_eq_false_2. }
  split_and!.
  - destruct (is_http t) eqn:Ht; [by destruct t|]. destruct (response_by_class node_env t now req Ht) as [d Hd].
    subst r. by rewrite Hd.
  - intros status name message o ->. done.
  - intros status name message s ->. done.
  - intros Ht. destruct (response_by_class node_env t now req Ht) as [d Hd]. subst r. rewrite Hd.
    cbn [class_response er_message er_error]. by destruct (answer _ _ _).
  - intros H. destruct (is_http t) eqn:Ht; [destruct t; [by apply Hw|done..]|].
    destruct (response_by_class node_env t now req Ht) as [d Hd]. subst r. rewrite Hd. by apply Hw.
  - intros -> t' Ht Ht' Hc. destruct (response_by_class Production t now req Ht) as [d Hd].
    destruct (response_by_class Production t' now req Ht') as [d' Hd']. subst r. cbn [fst]. rewrite Hd, Hd'. unfold class_response. rewrite Hc.
    rewrite !Hw by done. destruct (classify t'); reflexivity.
  - unfold logError. cbn [fl_level]. destruct (500 <=? er_statusCode r)%Z eqn:E; b2p; split; (done || lia).
  - unfold logError. cbn [fl_level]. destruct (500 <=? er_statusCode r)%Z eqn:E; b2p; split; (done || lia).
  - done.
Qed.

(** ** Content security policy *)

Section csp.
Context (URL : string -> option (string * string)).

(** The origin of an http or https URL. *)
Definition web_origin (raw origin : string) : Prop :=
  exists protocol, URL raw = Some (protocol, origin) /\ (protocol = "https:"%string \/ protocol = "http:"%string).

Definition admits (urls : list string) (s : string) : Prop := s = SELF \/ exists raw, raw ∈ urls /\ web_origin raw s.

Lemma add_source_ok P sources s : NoDup sources -> Forall P sources -> P s ->
  NoDup (add_source sources s) /\ Forall P (add_source sources s) /\ forall x, x ∈ sources -> x ∈ add_source sources s.
Proof.
  intros Hn Hf Hs. unfold add_source. case_bool_decide; [done|]. split_and!.
  - apply NoDup_app. split_and!; [done| |by apply NoDup_singleton]. intros x Hx [= ->]%list_elem_of_singleton. done.
  - apply Forall_app. by split; [|constructor].
  - intros x Hx. apply elem_of_app. by left.
Qed.

Lemma addOrigin_ok urls sources raw :
  (forall r, raw = Some r -> r ∈ urls) -> NoDup sources -> Forall (admits urls) sources ->
  NoDup (addOrigin URL sources raw) /\ Forall (admits urls) (addOrigin URL sources raw) /\
  forall x, x ∈ sources -> x ∈ addOrigin URL sources raw.
Proof.
  intros Hr Hn Hf. unfold addOrigin. destruct raw as [r|]; [|done]. case_bool_decide; [done|].
  destruct (URL r) as [[protocol origin]|] eqn:HU; [|done].
  destruct (_ || _) eqn:Hp; [|done]. apply add_source_ok; [done|done|]. right. exists r. split; [by apply Hr|].
  exists protocol. split; [done|]. apply orb_true_iff in Hp as [Hp|Hp]; b2p; auto.
Qed.

(** The URLs a configuration names. *)
Definition configured_urls (c : CspConnectSourceConfig) : list string :=
  coalesce (cs_stellarHorizonUrl c) (HORIZON_URL (cs_mainnet c)) ::
  omap id [cs_sentryDsn c; cs_otelExporterOtlpEndpoint c; cs_logisticsApiBaseUrl c] ++ parseCsv (cs_extraConnectSrc c).

(** The sources scripts may connect to are the server itself and origins
    of http or https URLs of the configuration, each once: an unparsable value
    or another scheme never widens the policy. *)
Theorem csp_sources_are_configured c :
  NoDup (buildCspConnectSrc URL c) /\ SELF ∈ buildCspConnectSrc URL c /\
  Forall (admits (configured_urls c)) (buildCspConnectSrc URL c).
Proof.
  set (urls := configured_urls c).
  assert (H0 : NoDup [SELF] /\ Forall (admits urls) [SELF] /\ SELF ∈ [SELF]).
  { split_and!; [apply NoDup_singleton|by repeat constructor|by apply list_elem_of_singleton]. }
  assert (Hstep : forall sources raw, (forall r, raw = Some r -> r ∈ urls) ->
    NoDup sources /\ Forall (admits urls) sources /\ SELF ∈ sources ->
    NoDup (addOrigin URL sources raw) /\ Forall (admits urls) (addOrigin URL sources raw) /\ SELF ∈ addOrigin URL sources raw).
  { intros sources raw Hr (A & B & D). destruct (addOrigin_ok urls sources raw Hr A B) as (A' & B' & D'). auto. }
  assert (Hopt : forall r, r ∈ [cs_sentryDsn c; cs_otelExporterOtlpEndpoint c; cs_logisticsApiBaseUrl c] ->
    forall x, r = Some x -> x ∈ urls).
  { intros r Hr x ->. unfold urls, configured_urls. apply list_elem_of_further, elem_of_app. left.
    apply list_elem_of_omap. by exists (Some x). }
  unfold buildCspConnectSrc. cbv zeta.
  assert (H4 := Hstep _ (cs_logisticsApiBaseUrl c) ltac:(apply Hopt; rewrite !elem_of_cons; auto)
    (Hstep _ (cs_otelExporterOtlpEndpoint c) ltac:(apply Hopt; rewrite !elem_of_cons; auto)
    (Hstep _ (cs_sentryDsn c) ltac:(apply Hopt; rewrite !elem_of_cons; auto)
    (Hstep _ (Some (coalesce (cs_stellarHorizonUrl c) (HORIZON_URL (cs_mainnet c))))
      ltac:(intros r [= <-]; apply list_elem_of_here) H0)))).
  assert (Hextra : forall l sources, (forall x, x ∈ l -> x ∈ urls) ->
    NoDup sources /\ Forall (admits urls) sources /\ SELF ∈ sources ->
    NoDup (foldl (add_extra URL) sources l) /\ Forall (admits urls) (foldl (add_extra URL) sources l) /\
    SELF ∈ foldl (add_extra URL) sources l).
  { induction l as [|x l IH]; intros sources Hl Hs; [done|]. simpl. apply IH; [intros y Hy; apply Hl; by apply list_elem_of_further|].
    unfold add_extra. case_bool_decide as Hx.
    - destruct Hs as (A & B & D). destruct (add_source_ok (admits urls) sources x A B) as (A' & B' & D'); [by left|auto].
    - apply Hstep; [|done]. intros r [= <-]. apply Hl, list_elem_of_here. }
  destruct (Hextra (parseCsv (cs_extraConnectSrc c)) _ ltac:(intros x Hx; unfold urls, configured_urls;
    apply list_elem_of_further, elem_of_app; by right) H4) as (A & B & D). done.
Qed.
End csp.

(** ** Limits and ids *)

(** Whatever the environment holds, a throttle has a positive window and a
    positive limit. *)
Lemma toPositiveInt_positive raw fallback : (0 < fallback)%Z -> (0 < toPositiveInt raw fallback)%Z.
Proof.
  intros H. unfold toPositiveInt. destruct raw as [s|]; [|done]. destruct (integer_of _) as [n|]; [|done].
  by destruct (0 <? n)%Z eqn:E; b2p.
Qed.

Example tags_removed : sanitizeString "a<script>x</script>b<c" = "axbc"%string.
Proof. reflexivity. Qed.

Example ipv6_forms : isIPv6 <$> ["::1"; "fe80::1%eth0"; "1:2:3:4:5:6:7:8"; "::ffff:10.0.0.1"; "1::2::3"; "1:2:3:4:5:6:7"]%string
  = [true; true; true; true; false; false].
Proof. vm_compute. reflexivity. Qed.

Example trust_proxy_forms : parseTrustProxy <$> ["1"; "0"; "10.0.0.0/8, loopback"; "10.0.0.0/33"; ""]%string
  = [Some (Hops 1); None; Some (Entries ["10.0.0.0/8"; "loopback"]%string); None; None].
Proof. vm_compute. reflexivity. Qed.
