(* ===== verification/LoggingSpec.v ===== *)
(** * Properties of the log

    A log line is one line whatever the texts in it, and a log aggregator reads
    from it the fields that were logged; which requests are logged. *)
From Stdlib Require Import Ascii.
From S2P Require Import Prelude Records Doubles Dates Text Tables Crypto Json Stringify Effects Auth Http Logging.
Local Open Scope string_scope.

(** ** Lines *)

(** A number is printed on one line, as a text that is read back. *)
Definition well_printed (nts : number -> string) (n : number) : Prop := printable nts n /\ plain (nts n).

(** The one line an entry is written as, and what is read from it. *)
Definition line_of (out : string) (entry : entry_of) : Prop :=
  exists line, out = line +:+ LF /\ plain line /\ JSON_parse line = Some (reread (JObj entry)).

Lemma write_line_ok p entry :
  Forall (well_printed (ps_nts p)) (numbers_of (JObj entry)) -> line_of (write_line p entry) entry.
Proof.
  intros Hn. exists (JSON_stringify (ps_nts p) (JObj entry)). split; [done|].
  split; [apply stringify_plain|apply JSON_round_trip]; (eapply Forall_impl; [exact Hn|]); by intros n [].
Qed.

(** Every method of the logger writes nothing or one line, which holds the
    message as it was given. *)
Lemma emitted_line p level message context stack now out :
  well_printed (ps_nts p) (of_Z (ps_pid p)) -> emit p level message context stack now = Some out ->
  exists entry, line_of out entry /\ json_get "msg" (reread (JObj entry)) = Some (JStr message) /\
    json_get "level" (reread (JObj entry)) = Some (JStr level).
Proof.
  intros Hp. apply (Forall_singleton (well_printed (ps_nts p))) in Hp. unfold emit. destruct (negb _); [done|].
  intros [= <-]. eexists. split; [apply write_line_ok|]; by destruct stack as [s|]; [destruct (truthy (Some s))|].
Qed.

Lemma of_Z_not_nan n : of_Z n <> NaN.
Proof.
  assert (Hp : forall n d, pos_ratio_to_number n d <> NaN) by (intros; unfold pos_ratio_to_number; cbv zeta; by case_match).
  unfold of_Z, ratio_to_number. destruct (n =? 0)%Z; [done|]. destruct (n <? 0)%Z; [|apply Hp].
  specialize (Hp (- n)%Z 1%Z). by destruct (pos_ratio_to_number (- n) 1).
Qed.

Lemma reread_number n : n <> NaN -> reread (JNum n) = JNum n.
Proof. by destruct n. Qed.

(** ** Requests *)

Import LoggerMiddleware.

(** The path of a URL: what precedes its query. *)
Definition has_path (url path : string) : Prop :=
  (forall c, c ∈ String.list_ascii_of_string path -> c <> "?"%char) /\
  (url = path \/ exists query, url = path +:+ "?" +:+ query).

Lemma split_path url : exists path rest, split_on "?" url = path :: rest /\ has_path url path.
Proof.
  induction url as [|c url (path & rest & Hs & Hc & Hu)].
  - exists "", []. split; [done|]. split; [set_solver|by left].
  - simpl. case_bool_decide as E.
    + subst. exists "", (split_on "?" url). split; [done|]. split; [set_solver|right; by exists url].
    + rewrite Hs. exists (String c path), rest. split; [done|]. split; [set_solver|].
      destruct Hu as [->|[query ->]]; [by left|right]. by exists query.
Qed.

Lemma path_unique url path path' : has_path url path -> has_path url path' -> path = path'.
Proof.
  revert url path'. induction path as [|c path IH]; intros url path' [Hc Hu] [Hc' Hu'].
  - destruct path' as [|c' path']; [done|]. specialize (Hc' c' ltac:(set_solver)).
    destruct Hu as [->|[q ->]], Hu' as [H|[q' H]]; try discriminate H; by injection H.
  - destruct path' as [|c' path'].
    + specialize (Hc c ltac:(set_solver)). destruct Hu as [->|[q ->]], Hu' as [H|[q' H]]; try discriminate H; by injection H.
    + destruct url as [|x url]; [destruct Hu as [H|[q H]]; discriminate H|].
      assert (Hx : c = x /\ has_path url path).
      { unfold has_path. destruct Hu as [H|[q H]]; injection H as -> ->; (split; [done|split; [set_solver|eauto]]). }
      assert (Hx' : c' = x /\ has_path url path').
      { unfold has_path. destruct Hu' as [H|[q H]]; injection H as -> ->; (split; [done|split; [set_solver|eauto]]). }
      destruct Hx as [-> Hp], Hx' as [-> Hp']. f_equal. by apply (IH url).
Qed.

Definition PROBES : list string :=
  ["/health"; "/health/"; "/health/live"; "/health/live/"; "/health/ready"; "/health/ready/"].

(** The level of a finished request, and the threshold it has to reach. *)
Definition expected_level (status : Z) (url level : string) : Prop :=
  (500 <= status -> level = "error")%Z /\ (400 <= status < 500 -> level = "warn")%Z /\
  ((status < 400)%Z -> (exists path, has_path url path /\ path ∈ PROBES) -> level = "debug") /\
  ((status < 400)%Z -> (forall path, has_path url path -> path ∉ PROBES) -> level = "info").

Lemma request_level_ok status url : expected_level status url (request_level status url).
Proof.
  unfold expected_level, request_level. destruct (split_path url) as (path & rest & -> & Hp).
  repeat split; intros; repeat match goal with |- context [Z.leb ?a ?b] => destruct (Z.leb_spec a b); try lia end; try done;
    unfold HEALTH_PROBE_PATH.
  - destruct H0 as (path' & Hp' & Hin). rewrite (path_unique _ _ _ Hp' Hp) in Hin. by rewrite bool_decide_true.
  - rewrite bool_decide_false; [done|]. by apply H0.
Qed.

(** A finished request is logged when its level reaches the threshold, as one
    line: no text a client sends, in the URL or in a header, can break it or
    change another field. *)
Theorem request_log_correct p req startTime endTime now status contentLength :
  Forall (well_printed (ps_nts p))
    [of_Z (ps_pid p); of_Z status; of_Z (endTime - startTime); contentLength_of contentLength] ->
  exists level, expected_level status (rq_originalUrl req) level /\
  match on_finish p req startTime endTime now status contentLength with
  | None => shouldLog (ps_env p "LOG_LEVEL") level = false
  | Some out =>
      shouldLog (ps_env p "LOG_LEVEL") level = true /\
      exists line v, out = line +:+ LF /\ plain line /\ JSON_parse line = Some v /\
        json_get "level" v = Some (JStr level) /\ json_get "time" v = Some (JStr (toISOString now)) /\
        json_get "msg" v =
          Some (JStr (rq_method req +:+ " " +:+ rq_originalUrl req +:+ " " +:+ bigint_toString status)) /\
        json_get "requestId" v = JStr <$> rq_requestId req /\ json_get "method" v = Some (JStr (rq_method req)) /\
        json_get "url" v = Some (JStr (rq_originalUrl req)) /\ json_get "ip" v = JStr <$> rq_ip req /\
        json_get "statusCode" v = Some (JNum (of_Z status)) /\
        json_get "responseTime" v = Some (JNum (of_Z (endTime - startTime))) /\
        json_get "userAgent" v = Some (JStr (coalesce (rq_userAgent req) ""))
  end.
Proof.
  intros Hn. exists (request_level status (rq_originalUrl req)). split; [apply request_level_ok|].
  unfold on_finish, JsonLoggerService.structured. set (level := request_level status (rq_originalUrl req)).
  destruct (shouldLog (ps_env p "LOG_LEVEL") level); cbn [negb]; [split; [done|]|done].
  assert (Hl : bool_decide (level = "log") = false).
  { apply bool_decide_false. unfold level, request_level. by repeat case_match. }
  cbv zeta. rewrite Hl. cbv iota.
  destruct (write_line_ok p (base_entry p level "HTTP" (rq_method req +:+ " " +:+ rq_originalUrl req +:+ " " +:+ bigint_toString status) now
    ++ request_fields req status contentLength (endTime - startTime))) as (line & Hline & Hplain & Hparse).
  { unfold request_fields. destruct (rq_requestId req), (rq_ip req); exact Hn. }
  exists line, (reread (JObj (base_entry p level "HTTP" (rq_method req +:+ " " +:+ rq_originalUrl req +:+ " " +:+ bigint_toString status) now
    ++ request_fields req status contentLength (endTime - startTime)))).
  split; [exact Hline|]. split; [done|]. split; [done|].
  clear. pose proof (fun n => reread_number (of_Z n) (of_Z_not_nan n)) as Hr.
  unfold request_fields. destruct (rq_requestId req), (rq_ip req); repeat match goal with |- _ /\ _ => split end; try reflexivity; exact (f_equal Some (Hr _)).
Qed.

(** With the default threshold every request is logged, except the probes of
    the orchestrator that succeed. *)
Lemma default_logs_all_but_probes p req startTime endTime now status contentLength :
  ps_env p "LOG_LEVEL" = None ->
  (on_finish p req startTime endTime now status contentLength = None <->
   (status < 400)%Z /\ exists path, has_path (rq_originalUrl req) path /\ path ∈ PROBES).
Proof.
  intros Hlog. unfold on_finish, JsonLoggerService.structured. rewrite Hlog.
  destruct (split_path (rq_originalUrl req)) as (path & rest & Hs & Hp). unfold request_level. rewrite Hs. unfold HEALTH_PROBE_PATH.
  destruct (Z.leb_spec 500 status); [split; [done|lia]|]. destruct (Z.leb_spec 400 status); [split; [done|lia]|].
  destruct (decide (path ∈ PROBES)) as [Hin|Hin].
  - rewrite bool_decide_true by done. split; [eauto|done].
  - rewrite bool_decide_false by done. split; [done|]. intros (_ & path' & Hp' & Hin').
    by rewrite (path_unique _ _ _ Hp Hp') in Hin.
Qed.

(** Errors of the server are logged at every threshold but [fatal]. *)
Lemma server_errors_are_logged p req startTime endTime now status contentLength :
  (500 <= status)%Z ->
  (forall l, ps_env p "LOG_LEVEL" = Some l -> toLowerCase l <> "fatal") ->
  on_finish p req startTime endTime now status contentLength <> None.
Proof.
  intros Hs Hl. unfold on_finish, JsonLoggerService.structured, request_level. rewrite (proj2 (Z.leb_le _ _) Hs).
  assert (Hlog : shouldLog (ps_env p "LOG_LEVEL") "error" = true); [|by rewrite Hlog].
  unfold shouldLog. apply Nat.leb_le. change (coalesce (LEVEL_PRIORITY (toLowerCase "error")) 2) with 4.
  assert (Hne : toLowerCase (coalesce (ps_env p "LOG_LEVEL") "info") <> "fatal").
  { destruct (ps_env p "LOG_LEVEL") as [l|]; [by apply Hl|done]. }
  unfold LEVEL_PRIORITY. repeat case_bool_decide; simpl; lia || done.
Qed.

(** ** Instances *)

(** Integers with their digits. *)
Definition demo_nts (x : number) : string := match integer_of x with Some n => bigint_toString n | None => "null" end.

Lemma demo_printed n : (0 <= n)%Z -> integer_of (of_Z n) = Some n -> plain (bigint_toString n) -> well_printed demo_nts (of_Z n).
Proof. intros Hn Hi Hp. unfold well_printed. split; [apply printable_integer; [done|]|]; unfold demo_nts; fold (of_Z n); by rewrite Hi. Qed.

Lemma plain_dec s : forallb (fun c => Nat.leb 32 (nat_of_ascii c)) (String.list_ascii_of_string s) = true -> plain s.
Proof. intros H. apply Forall_forall. intros c Hc. rewrite forallb_forall in H. by apply Nat.leb_le, H, list_elem_of_In. Qed.

(** A request whose URL and agent try to forge a second line. *)
Definition forged : Req :=
  mkReq "GET" ("/escrow/1" +:+ LF +:+ "{}") (Some "::1") (Some (LF +:+ "{" +:+ DQ +:+ "level" +:+ DQ)) None.

Lemma request_log_correct_witness :
  exists out line, on_finish (mkProcess 7 (fun _ => None) demo_nts) forged 1000 1042 1042 200 (Some "512") = Some out /\
    out = line +:+ LF /\ plain line.
Proof.
  destruct (request_log_correct (mkProcess 7 (fun _ => None) demo_nts) forged 1000 1042 1042 200 (Some "512")) as (level & _ & H).
  { assert (Hlen : contentLength_of (Some "512") = of_Z 512) by (by vm_compute). rewrite Hlen. cbn [ps_nts ps_pid].
    repeat (apply Forall_cons_2; [apply demo_printed; [done|by vm_compute|apply plain_dec; by vm_compute]|]). by apply Forall_nil. }
  destruct (on_finish _ _ _ _ _ _ _) as [out|] eqn:E; [|discriminate E].
  destruct H as (_ & line & v & Hout & Hplain & _). by exists out, line.
Defined.
