(* ===== verification/SeedSpec.v ===== *)
(** * The seed is idempotent

    On a database that works, [PrismaSeed.main] creates what is missing, changes
    nothing that is there, and a second run creates nothing and leaves the
    database as it is.  [DbSeed] is not: a run that was interrupted cannot be
    completed by another one. *)
From S2P Require Import Prelude Records Dates Text Tables Crypto Effects Cache Prisma EscrowRepo Coherence Demo Notify Seed.
Local Open Scope prog_scope.
Import PrismaSeed.

(** ** Total correctness of a run *)

Definition total {A} (m : Prog A) (env : Env) (w : World) (P : A -> World -> Prop) : Prop :=
  wp m env w (fun r w' => exists a, r = Ok a /\ P a w').

Lemma total_ret {A} (a : A) env w (P : A -> World -> Prop) : P a w -> total (Ret a) env w P.
Proof. intros H. apply wp_ret. by exists a. Qed.

Lemma total_bind {A B} (m : Prog A) (f : A -> Prog B) env w P :
  total m env w (fun a w' => total (f a) env w' P) -> total (bind m f) env w P.
Proof.
  unfold total. intros H. apply wp_bind. eapply wp_mono; [exact (H : wp m env w _)|].
  by intros r w' (a & -> & Ha).
Qed.

Lemma total_mono {A} (m : Prog A) env w (P Q : A -> World -> Prop) :
  total m env w P -> (forall a w', P a w' -> Q a w') -> total m env w Q.
Proof.
  unfold total. intros H HPQ. eapply wp_mono; [exact (H : wp m env w _)|]. intros r w' (a & -> & Ha). eauto.
Qed.

Lemma total_db {X} (f : Z -> string -> Db -> outcome X * Db) env w P :
  db_reliable env ->
  (let r := f (env_now env (w_tick w)) (env_uuid env (w_tick w)) (w_db w) in
   exists a, r.1 = Ok a /\ P a (set_db r.2 (tick w))) ->
  total (await (db_call f)) env w P.
Proof. intros Hr H. apply wp_await. rewrite db_call_reliable by done. exact H. Qed.

Lemma total_run {A} (m : Prog A) env w P :
  total m env w P -> exists a w', run m env w = (Ok a, w') /\ P a w'.
Proof.
  unfold total, wp. destruct (run m env w) as [r w'] eqn:Hrun. simpl. intros (a & -> & Ha). eauto.
Qed.

(** The loop rule: [J] of the elements done. *)
Lemma total_forFold {A S} (xs : list A) (s : S) (f : S -> A -> Prog S) env w (J : list A -> S -> World -> Prop) :
  J [] s w ->
  (forall before x after s w, xs = before ++ x :: after -> J before s w -> total (f s x) env w (J (before ++ [x]))) ->
  total (forFold xs s f) env w (J xs).
Proof.
  intros H0 Hstep. enough (forall before after s w, xs = before ++ after -> J before s w ->
    total (forFold after s f) env w (J xs)) as H by by apply (H [] xs).
  intros before after. revert before. induction after as [|x after IH]; intros before s' w' Hxs HJ; simpl.
  - apply total_ret. rewrite Hxs, app_nil_r in *. exact HJ.
  - apply total_bind. eapply total_mono; [by eapply Hstep|]. intros s2 w2 H2. apply (IH (before ++ [x])); [|done].
    by rewrite <- app_assoc.
Qed.

Lemma total_forEach {A} (xs : list A) (f : A -> Prog unit) env w (J : list A -> World -> Prop) :
  J [] w ->
  (forall before x after w, xs = before ++ x :: after -> J before w -> total (f x) env w (fun _ => J (before ++ [x]))) ->
  total (forEach xs f) env w (fun _ => J xs).
Proof.
  intros H0 Hstep. enough (forall before after w, xs = before ++ after -> J before w ->
    total (forEach after f) env w (fun _ => J xs)) as H by by apply (H [] xs).
  intros before after. revert before. induction after as [|x after IH]; intros before w' Hxs HJ; simpl.
  - apply total_ret. rewrite Hxs, app_nil_r in *. exact HJ.
  - apply total_bind. eapply total_mono; [by eapply Hstep|]. intros u w2 H2. apply (IH (before ++ [x])); [|done].
    by rewrite <- app_assoc.
Qed.

(** ** What a seed may do *)

(** Rows are added; none is changed. *)
Record adds (d d' : Db) : Prop := {
  ad_vendors : db_vendors d ⊆ db_vendors d';
  ad_escrows : db_escrows d ⊆ db_escrows d';
  ad_disputes : db_disputes d ⊆ db_disputes d';
  ad_notifications : ac_notifications (db_accounts d) ⊆ ac_notifications (db_accounts d');
  ad_rest : (db_failed d', db_webhooks d', db_cursors d', db_events d', db_audit d') =
            (db_failed d, db_webhooks d, db_cursors d, db_events d, db_audit d)
}.

#[export] Instance adds_preorder : PreOrder adds.
Proof.
  split; [intros d; by split|]. intros d1 d2 d3 [V1 E1 D1 N1 R1] [V2 E2 D2 N2 R2].
  split; by etrans.
Qed.

(** Rows are filed under their id, and a reference is used once per vendor. *)
Record store_ok (d : Db) : Prop := {
  st_ids : forall id r, db_escrows d !! id = Some r -> e_id r = id;
  st_refs : forall id1 id2 r1 r2, db_escrows d !! id1 = Some r1 -> db_escrows d !! id2 = Some r2 ->
    e_vendorAddress r1 = e_vendorAddress r2 -> e_itemRef r1 = e_itemRef r2 -> id1 = id2
}.

(** The ids still to be generated are not in use. *)
Definition unused (d : Db) (id : string) : Prop :=
  db_escrows d !! id = None /\ db_disputes d !! id = None /\ ac_notifications (db_accounts d) !! id = None.

Definition fresh_ids (env : Env) (w : World) : Prop := forall t, w_tick w <= t -> unused (w_db w) (env_uuid env t).

(** The escrow with the reference of the [i]-th seed, a dispute of an escrow, a
    seeded notification. *)
Definition row_at (d : Db) (i : nat) (id : string) : Prop :=
  exists r, db_escrows d !! id = Some r /\ e_vendorAddress r = vendor_at i /\ e_itemRef r = itemRef_at i.
Definition dispute_at (d : Db) (id : string) : Prop := exists k r, db_disputes d !! k = Some r /\ d_escrowId r = id.
Definition notification_at (d : Db) (i : nat) (id : string) : Prop :=
  exists k n, ac_notifications (db_accounts d) !! k = Some n /\ same_notification id i n = true.

Lemma row_at_adds d d' i id : adds d d' -> row_at d i id -> row_at d' i id.
Proof. intros H (r & Hr & Hk). exists r. split; [|done]. by eapply lookup_weaken; [exact Hr|apply H]. Qed.

Lemma dispute_at_adds d d' id : adds d d' -> dispute_at d id -> dispute_at d' id.
Proof. intros H (k & r & Hr & Hk). exists k, r. split; [|done]. by eapply lookup_weaken; [exact Hr|apply H]. Qed.

Lemma notification_at_adds d d' i id : adds d d' -> notification_at d i id -> notification_at d' i id.
Proof. intros H (k & n & Hn & Hk). exists k, n. split; [|done]. by eapply lookup_weaken; [exact Hn|apply H]. Qed.

(** A fully seeded database, with the ids of its seeded escrows. *)
Record seeded (d : Db) (escrowIds : list string) : Prop := {
  sd_vendors : forall a, a ∈ VENDORS -> is_Some (db_vendors d !! a);
  sd_length : length escrowIds = 15;
  sd_rows : forall i id, escrowIds !! i = Some id -> row_at d i id;
  sd_disputes : forall i, i < 3 -> dispute_at d (nth i escrowIds "");
  sd_notifications : forall i, i < 10 -> notification_at d i (nth (i mod 15) escrowIds "")
}.

(** ** Finding what is there *)

Lemma find_rows {V} (m : gmap string V) (P : V -> bool) k v :
  m !! k = Some v -> P v = true -> exists k' v', List.find P (map_to_list m).*2 = Some v' /\ m !! k' = Some v' /\ P v' = true.
Proof.
  intros Hk HP. destruct (List.find P (map_to_list m).*2) as [v'|] eqn:Hf.
  - apply find_some in Hf as [Hin HP']. apply list_elem_of_In, list_elem_of_fmap in Hin as ([k' v2] & -> & Hin).
    apply elem_of_map_to_list in Hin. by exists k', v2.
  - exfalso. assert (Hin : v ∈ (map_to_list m).*2).
    { apply list_elem_of_fmap. exists (k, v). by rewrite elem_of_map_to_list. }
    eapply find_none in Hf; [|by apply list_elem_of_In]. congruence.
Qed.

Lemma find_rows_none {V} (m : gmap string V) (P : V -> bool) k v :
  List.find P (map_to_list m).*2 = None -> m !! k = Some v -> P v = false.
Proof.
  intros Hf Hk. apply (find_none _ _ Hf), list_elem_of_In, list_elem_of_fmap. exists (k, v).
  by rewrite elem_of_map_to_list.
Qed.

Lemma find_rows_some {V} (m : gmap string V) (P : V -> bool) v :
  List.find P (map_to_list m).*2 = Some v -> P v = true /\ exists k, m !! k = Some v.
Proof.
  intros Hf. apply find_some in Hf as [Hin HP]. split; [done|].
  apply list_elem_of_In, list_elem_of_fmap in Hin as ([k v'] & -> & Hin%elem_of_map_to_list). eauto.
Qed.

Lemma has_ref_true v r e : has_ref v r e = true <-> e_vendorAddress e = v /\ e_itemRef e = r.
Proof. unfold has_ref. rewrite andb_true_iff, !bool_decide_eq_true. done. Qed.

(** Looking the [i]-th reference up finds the row under it. *)
Lemma find_row_at d i id :
  store_ok d -> row_at d i id ->
  exists r, List.find (has_ref (vendor_at i) (itemRef_at i)) (escrow_rows d) = Some r /\ e_id r = id.
Proof.
  intros [Hids Hrefs] (r & Hr & Hv & Hi).
  destruct (find_rows (db_escrows d) (has_ref (vendor_at i) (itemRef_at i)) id r Hr) as (k & r' & Hf & Hk & HP);
    [by apply has_ref_true|]. apply has_ref_true in HP as [Hv' Hi'].
  exists r'. split; [done|]. rewrite (Hids _ _ Hk). eapply Hrefs; [done..|congruence|congruence].
Qed.

(** ** A second run *)

Section again.
Context (env : Env) (d : Db) (escrowIds : list string).
Context (Hrel : db_reliable env) (Hok : store_ok d) (Hseeded : seeded d escrowIds).

Lemma vendors_again w : w_db w = d -> total seedVendors env w (fun _ w' => w_db w' = d).
Proof using Hrel Hok Hseeded.
  intros Hw. apply (total_forEach _ _ _ _ (fun _ w' => w_db w' = d)); [done|].
  intros before a after w1 Ha Hw1. apply total_bind. apply total_db; [done|].
  destruct (sd_vendors _ _ Hseeded a) as [v Hv]; [rewrite Ha; set_solver|]. simpl. rewrite Hw1, Hv.
  eexists. split; [done|]. by apply total_ret.
Qed.

Lemma escrows_again w :
  w_db w = d -> total seedEscrows env w (fun s w' => s = mkSeeded 0 15 escrowIds /\ w_db w' = d).
Proof using Hrel Hok Hseeded.
  intros Hw. pose proof (sd_length _ _ Hseeded) as Hlen.
  eapply total_mono; [apply (total_forFold _ _ _ _ _
    (fun before s w' => s = mkSeeded 0 (length before) (take (length before) escrowIds) /\ w_db w' = d)); [done|]|].
  - intros before i after s w1 Hi [-> Hw1].
    assert (i = length before /\ length before < 15) as [-> Hlt].
    { split.
      - assert (Hl : seq 0 15 !! length before = Some i) by (rewrite Hi; by apply list_lookup_middle).
        by apply lookup_seq in Hl as [-> _].
      - apply (f_equal length) in Hi. rewrite length_app, length_seq in Hi. simpl in Hi. lia. }
    destruct (lookup_lt_is_Some_2 escrowIds (length before)) as [id Hid]; [lia|].
    destruct (find_row_at d (length before) id Hok) as (r & Hf & Hr); [by eapply sd_rows|].
    apply total_bind, total_db; [done|]. simpl. rewrite Hw1, Hf. eexists. split; [done|].
    apply total_ret. rewrite Hr, length_app, Nat.add_1_r. cbn [created updated ids].
    by rewrite (take_S_r _ _ _ Hid).
  - intros s w' [-> Hw']. split; [|done]. rewrite length_seq, take_ge; [done|lia].
Qed.

Lemma disputes_again w :
  w_db w = d -> total (seedDisputes escrowIds) env w (fun s w' => created s = 0 /\ updated s = 3 /\ w_db w' = d).
Proof using Hrel Hok Hseeded.
  intros Hw. apply (total_forFold dispute_seeds (mkSeeded 0 0 []) (seedDispute escrowIds) env w
    (fun before s w' => created s = 0 /\ updated s = length before /\ w_db w' = d)); [done|].
  intros before [[i status] reason] after s w1 Hi (Hc & Hu & Hw1).
  assert (Hlt : i < 3).
  { assert (Hin : (i, status, reason) ∈ dispute_seeds) by (rewrite Hi; set_solver).
    apply list_elem_of_In in Hin. simpl in Hin. destruct Hin as [Hin|[Hin|[Hin|[]]]]; injection Hin; lia. }
  destruct (sd_disputes _ _ Hseeded i Hlt) as (k & r & Hr & Hid).
  destruct (find_rows (db_disputes d) (fun r => bool_decide (d_escrowId r = nth i escrowIds "")) k r Hr) as (k' & r' & Hf & _);
    [by apply bool_decide_eq_true|].
  apply total_bind, total_db; [done|]. simpl. rewrite Hw1. unfold dispute_rows. rewrite Hf. eexists. split; [done|].
  apply total_ret. rewrite length_app, Hc, Hu. simpl. split_and!; [done|lia|done].
Qed.

Lemma notifications_again w :
  w_db w = d -> total (seedNotifications escrowIds) env w (fun s w' => created s = 0 /\ updated s = 10 /\ w_db w' = d).
Proof using Hrel Hok Hseeded.
  intros Hw. apply total_bind, total_db; [done|]. simpl. rewrite Hw. eexists. split; [done|].
  apply (total_forFold (seq 0 10) (mkSeeded 0 0 []) (seedNotification escrowIds (notification_rows d)) env _
    (fun before s w' => created s = 0 /\ updated s = length before /\ w_db w' = d)); [done|].
  intros before i after s w1 Hi (Hc & Hu & Hw1). unfold seedNotification.
  assert (Hlt : i < 10).
  { assert (Hin : i ∈ seq 0 10) by (rewrite Hi; set_solver). apply elem_of_seq in Hin. lia. }
  destruct (sd_notifications _ _ Hseeded i Hlt) as (k & n & Hn & Hsame). rewrite (sd_length _ _ Hseeded).
  rewrite (proj2 (existsb_exists _ _)).
  - apply total_ret. rewrite length_app, Hc, Hu. simpl. split_and!; [done|lia|done].
  - exists n. split; [|done]. apply list_elem_of_In, list_elem_of_fmap. exists (k, n). by rewrite elem_of_map_to_list.
Qed.

Lemma main_again w :
  w_db w = d -> total main env w (fun s w' =>
    s_created s = mkCounts 0 0 0 /\ s_updated s = EXPECTED_COUNTS /\ w_db w' = d).
Proof using Hrel Hok Hseeded.
  intros Hw. apply total_bind. eapply total_mono; [by apply vendors_again|]. intros u w1 H1.
  apply total_bind. eapply total_mono; [by apply escrows_again|]. intros s w2 [-> H2].
  apply total_bind. eapply total_mono; [by apply disputes_again|]. intros s3 w3 (C3 & U3 & H3).
  apply total_bind. eapply total_mono; [by apply notifications_again|]. intros s4 w4 (C4 & U4 & H4).
  do 3 (apply total_bind, total_db; [done|]; eexists; split; [done|]; simpl).
  apply total_ret. simpl. rewrite C3, U3, C4, U4. by split_and!.
Qed.
End again.

(** ** A first run *)

Section first.
Context (env : Env).
Context (Hrel : db_reliable env).
Context (Huuid : forall t t', env_uuid env t = env_uuid env t' -> t = t').
Context (Hsmall : forall i, i < 15 -> (Z.abs (env_decimal env (amount_at i)) < 10 ^ 18)%Z).

(** What every step keeps. *)
Record progress (d0 : Db) (w : World) : Prop := {
  pg_ok : store_ok (w_db w);
  pg_fresh : fresh_ids env w;
  pg_adds : adds d0 (w_db w)
}.

Lemma unused_now d0 w : progress d0 w -> unused (w_db w) (env_uuid env (w_tick w)).
Proof using. intros H. by apply H. Qed.

(** A step that touches neither escrows, disputes nor notifications. *)
Lemma progress_same d0 w d :
  progress d0 w -> adds (w_db w) d ->
  db_escrows d = db_escrows (w_db w) -> db_disputes d = db_disputes (w_db w) ->
  ac_notifications (db_accounts d) = ac_notifications (db_accounts (w_db w)) ->
  progress d0 (set_db d (tick w)).
Proof using.
  intros [[Hi Hr] Hf Ha] Hd He Hdi Hn. split; simpl.
  - by split; rewrite He.
  - intros t Ht. simpl in Ht. unfold unused. simpl. rewrite He, Hdi, Hn. apply Hf. lia.
  - by etrans.
Qed.

(** One that files a row under the id of the current tick. *)
Lemma fresh_after (d : Db) w :
  fresh_ids env w ->
  (forall k, k <> env_uuid env (w_tick w) -> unused (w_db w) k -> unused d k) ->
  fresh_ids env (set_db d (tick w)).
Proof using All.
  intros Hf Hd t Ht. simpl in *. apply Hd; [|apply Hf; lia]. intros E%Huuid. lia.
Qed.

Lemma vendors_first w :
  progress (w_db w) w ->
  total seedVendors env w (fun _ w' => progress (w_db w) w' /\ forall a, a ∈ VENDORS -> is_Some (db_vendors (w_db w') !! a)).
Proof using All.
  intros H0. apply (total_forEach VENDORS _ env w (fun before w' => progress (w_db w) w' /\
    forall a, a ∈ before -> is_Some (db_vendors (w_db w') !! a))); [split; [done|set_solver]|].
  intros before a after w1 _ [H1 Hb]. apply total_bind, total_db; [done|]. simpl.
  destruct (db_vendors (w_db w1) !! a) as [v|] eqn:Hv; eexists; (split; [done|]); apply total_ret; split.
  - by apply progress_same.
  - intros b [Hb'| ->%list_elem_of_singleton]%elem_of_app; [by apply Hb|by exists v].
  - apply progress_same; try done. split; try done. by apply insert_subseteq.
  - intros b Hb'. simpl. apply elem_of_app in Hb' as [Hb'| ->%list_elem_of_singleton];
      [|rewrite lookup_insert_eq; by eexists].
    destruct (decide (a = b)) as [->|Hne]; [rewrite lookup_insert_eq; by eexists|].
    rewrite lookup_insert_ne by done. by apply Hb.
Qed.

(** The row of the [i]-th seed, when no row has its reference. *)
Lemma progress_escrow d0 w i amount :
  progress d0 w ->
  List.find (has_ref (vendor_at i) (itemRef_at i)) (escrow_rows (w_db w)) = None ->
  let row := escrow_row i amount (env_now env (w_tick w)) (env_uuid env (w_tick w)) in
  let d := set_escrows (<[e_id row := row]> (db_escrows (w_db w))) (w_db w) in
  progress d0 (set_db d (tick w)) /\ adds (w_db w) d /\ row_at d i (e_id row).
Proof using All.
  intros [[Hi Hr] Hf Ha] Hnone row d. pose proof (Hf (w_tick w) (le_n _)) as (Hu & _ & _).
  assert (Hadds : adds (w_db w) d) by (split; try done; by apply insert_subseteq).
  assert (Hnew : forall k r, db_escrows (w_db w) !! k = Some r ->
    ~ (e_vendorAddress r = vendor_at i /\ e_itemRef r = itemRef_at i)).
  { intros k r Hk Hsame%has_ref_true. by rewrite (find_rows_none _ _ k r Hnone Hk) in Hsame. }
  split_and!; [split| |].
  - split; simpl; [intros id r; rewrite lookup_insert_Some; intros [[<- <-]|[_ H]]; [done|by apply Hi]|].
    intros id1 id2 r1 r2. rewrite !lookup_insert_Some.
    intros [[<- <-]|[_ H1]] [[<- <-]|[_ H2]] Hv Hitem; [done|..].
    + by destruct (Hnew _ _ H2).
    + by destruct (Hnew _ _ H1).
    + by eapply Hr.
  - apply fresh_after; [done|]. intros k Hk (H1 & H2 & H3). split; [|done]. simpl. by rewrite lookup_insert_ne.
  - by etrans.
  - done.
  - exists row. split; [apply lookup_insert_eq|done].
Qed.

Lemma vendor_listed i : vendor_at i ∈ VENDORS.
Proof using.
  unfold vendor_at. apply list_elem_of_In, nth_In. apply Nat.mod_upper_bound. done.
Qed.

Lemma seedEscrow_first d0 w s i :
  i < 15 -> progress d0 w -> (forall a, a ∈ VENDORS -> is_Some (db_vendors (w_db w) !! a)) ->
  total (seedEscrow s i) env w (fun s' w' =>
    progress d0 w' /\ adds (w_db w) (w_db w') /\ exists id, ids s' = ids s ++ [id] /\ row_at (w_db w') i id).
Proof using All.
  intros Hlt Hp Hv. apply total_bind, total_db; [done|]. simpl.
  assert (Hp' : progress d0 (set_db (w_db w) (tick w))) by by apply progress_same.
  destruct (List.find _ (escrow_rows (w_db w))) as [row|] eqn:Hf; eexists; (split; [done|]).
  - apply total_ret. split_and!; [done|done|]. exists (e_id row). split; [done|].
    apply find_rows_some in Hf as [[H1 H2]%has_ref_true [k Hk]]. exists row.
    by rewrite (st_ids _ (pg_ok _ _ Hp) _ _ Hk).
  - apply total_bind, total_db; [done|]. set (w1 := set_db (w_db w) (tick w)).
    destruct (progress_escrow d0 w1 i (env_decimal env (amount_at i)) Hp' Hf) as (Hp2 & Ha & Hrow).
    destruct (unused_now _ w1 Hp') as (Hu & _ & _). cbv zeta in Hp2, Ha, Hrow |- *.
    cbn [e_amount e_id e_vendorAddress e_itemRef escrow_row].
    rewrite (proj2 (Z.leb_gt _ _)) by auto. rewrite (bool_decide_false (is_Some _)) by (rewrite Hu; by intros [? ?]).
    destruct (existsb _ (escrow_rows (w_db w1))) eqn:Hex.
    { apply existsb_exists in Hex as (r & Hin & Hsame). change (has_ref (vendor_at i) (itemRef_at i) r = true) in Hsame.
      eapply find_none in Hf; [|exact Hin]. congruence. }
    rewrite bool_decide_true by apply Hv, vendor_listed. eexists. split; [done|]. apply total_ret.
    split_and!; [exact Hp2|exact Ha|]. eexists. split; [done|exact Hrow].
Qed.

Lemma escrows_first w :
  progress (w_db w) w -> (forall a, a ∈ VENDORS -> is_Some (db_vendors (w_db w) !! a)) ->
  total seedEscrows env w (fun s w' => progress (w_db w) w' /\ length (ids s) = 15 /\
    forall i id, ids s !! i = Some id -> row_at (w_db w') i id).
Proof using All.
  intros H0 Hv. apply (total_forFold (seq 0 15) _ _ env w (fun before s w' => progress (w_db w) w' /\
    length (ids s) = length before /\ forall i id, ids s !! i = Some id -> row_at (w_db w') i id)); [done|].
  intros before i after s w1 Hi (H1 & Hlen & Hrows).
  assert (Hin : seq 0 15 !! length before = Some i) by (rewrite Hi; by apply list_lookup_middle).
  apply lookup_seq in Hin as [-> Hlt]. simpl.
  eapply total_mono; [apply (seedEscrow_first (w_db w)); [done|done|]|].
  { intros a [v Hav]%Hv. exists v. eapply lookup_weaken; [exact Hav|apply H1]. }
  intros s' w' (H2 & Ha & id & Hids & Hrow). rewrite Hids, !length_app, Hlen. split_and!; [done|done|].
  intros j jd. rewrite lookup_app_Some. intros [Hj|[Hge Hj]]; [by eapply row_at_adds, Hrows|].
  apply list_lookup_singleton_Some in Hj as [Hj <-]. replace j with (length before) by lia. done.
Qed.

(** Creating a row of another table. *)
Lemma progress_dispute d0 w row :
  progress d0 w -> let id := env_uuid env (w_tick w) in
  progress d0 (set_db (set_disputes (<[id := row]> (db_disputes (w_db w))) (w_db w)) (tick w)) /\
  adds (w_db w) (set_disputes (<[id := row]> (db_disputes (w_db w))) (w_db w)).
Proof using All.
  intros Hp id. destruct (unused_now _ _ Hp) as (_ & Hu & _).
  assert (Ha : adds (w_db w) (set_disputes (<[id := row]> (db_disputes (w_db w))) (w_db w)))
    by (split; try done; by apply insert_subseteq).
  split; [|done]. destruct Hp as [Hok Hf Hd]. split; [destruct Hok; by split| |by etrans].
  apply fresh_after; [done|]. intros k Hk (H1 & H2 & H3). split_and!; [done| |done]. simpl. by rewrite lookup_insert_ne.
Qed.

Lemma progress_notification d0 w row :
  progress d0 w -> let id := env_uuid env (w_tick w) in
  let d := set_account_notifications (<[id := row]> (ac_notifications (db_accounts (w_db w)))) (w_db w) in
  progress d0 (set_db d (tick w)) /\ adds (w_db w) d.
Proof using All.
  intros Hp id d. destruct (unused_now _ _ Hp) as (_ & _ & Hu).
  assert (Ha : adds (w_db w) d) by (split; try done; by apply insert_subseteq).
  split; [|done]. destruct Hp as [Hok Hf Hd]. split; [destruct Hok; by split| |by etrans].
  apply fresh_after; [done|]. intros k Hk (H1 & H2 & H3). split_and!; [done|done|]. simpl. by rewrite lookup_insert_ne.
Qed.

Lemma disputes_first w escrowIds :
  progress (w_db w) w -> (forall i, i < 3 -> is_Some (db_escrows (w_db w) !! nth i escrowIds "")) ->
  total (seedDisputes escrowIds) env w (fun _ w' => progress (w_db w) w' /\
    forall i, i < 3 -> dispute_at (w_db w') (nth i escrowIds "")).
Proof using All.
  intros H0 Hrows. eapply total_mono; [apply (total_forFold dispute_seeds _ _ env w (fun before _ w' => progress (w_db w) w' /\
    forall entry, entry ∈ before -> dispute_at (w_db w') (nth entry.1.1 escrowIds ""))); [split; [done|set_solver]|]|].
  - intros before [[i status] reason] after s w1 Hi [H1 Hb].
    assert (Hlt : i < 3).
    { assert (Hin : (i, status, reason) ∈ dispute_seeds) by (rewrite Hi; set_solver).
      apply list_elem_of_In in Hin. simpl in Hin. destruct Hin as [Hin|[Hin|[Hin|[]]]]; injection Hin; lia. }
    assert (Hgrow : forall w', adds (w_db w1) (w_db w') -> dispute_at (w_db w') (nth i escrowIds "") ->
      forall entry, entry ∈ before ++ [(i, status, reason)] -> dispute_at (w_db w') (nth entry.1.1 escrowIds "")).
    { intros w' Ha Hd entry [He| ->%list_elem_of_singleton]%elem_of_app; [by eapply dispute_at_adds, Hb|done]. }
    apply total_bind, total_db; [done|]. simpl.
    assert (H1' : progress (w_db w) (set_db (w_db w1) (tick w1))) by by apply progress_same.
    destruct (List.find _ (dispute_rows (w_db w1))) as [r|] eqn:Hf; eexists; (split; [done|]).
    + apply total_ret. split; [done|]. apply Hgrow; [done|].
      apply find_rows_some in Hf as [Hr%bool_decide_eq_true [k Hk]]. by exists k, r.
    + apply total_bind, total_db; [done|]. cbv zeta. set (w2 := set_db (w_db w1) (tick w1)).
      destruct (unused_now _ w2 H1') as (_ & Hu & _). cbn [d_id d_escrowId dispute_row].
      rewrite bool_decide_false by (rewrite Hu; by intros [? ?]).
      destruct (existsb _ (dispute_rows (w_db w2))) eqn:Hex.
      { apply existsb_exists in Hex as (r & Hin & Hsame). eapply find_none in Hf; [|exact Hin]. congruence. }
      destruct (Hrows i Hlt) as [row Hrow].
      rewrite bool_decide_true by (exists row; eapply lookup_weaken; [exact Hrow|apply H1]).
      eexists. split; [done|]. apply total_ret.
      destruct (progress_dispute (w_db w) w2 (dispute_row (nth i escrowIds "") status reason (env_now env (w_tick w2))
        (env_uuid env (w_tick w2))) H1') as [H2 Ha2].
      split; [exact H2|]. apply Hgrow; [exact Ha2|]. eexists _, _. split; [apply lookup_insert_eq|done].
  - intros s w' [H1 Hb]. split; [done|]. intros i Hi.
    destruct i as [|[|[|i]]]; [apply (Hb (0, OPEN, "Item not received"))|apply (Hb (1, OPEN, "Damaged packaging"))|
      apply (Hb (2, RESOLVED, "Defective item, resolved by refund"))|lia]; set_solver.
Qed.

Lemma notifications_first w escrowIds :
  progress (w_db w) w -> length escrowIds = 15 ->
  (forall i id, escrowIds !! i = Some id -> is_Some (db_escrows (w_db w) !! id)) ->
  total (seedNotifications escrowIds) env w (fun _ w' => progress (w_db w) w' /\
    forall i, i < 10 -> notification_at (w_db w') i (nth (i mod 15) escrowIds "")).
Proof using All.
  intros H0 Hlen Hrows. apply total_bind, total_db; [done|]. eexists. split; [done|]. cbn [snd].
  eapply total_mono; [apply (total_forFold (seq 0 10) _ _ env _ (fun before _ w' => progress (w_db w) w' /\
    forall i, i ∈ before -> notification_at (w_db w') i (nth (i mod 15) escrowIds "")))|].
  - split; [by apply progress_same|set_solver].
  - intros before i after s w1 Hi [H1 Hb]. unfold seedNotification. rewrite Hlen.
    set (id := nth (i mod 15) escrowIds "").
    assert (Hgrow : forall w', adds (w_db w1) (w_db w') -> notification_at (w_db w') i id ->
      forall j, j ∈ before ++ [i] -> notification_at (w_db w') j (nth (j mod 15) escrowIds "")).
    { intros w' Ha Hn j [Hj| ->%list_elem_of_singleton]%elem_of_app; [by eapply notification_at_adds, Hb|done]. }
    destruct (existsb _ _) eqn:Hex.
    + apply total_ret. split; [done|]. apply Hgrow; [done|].
      apply existsb_exists in Hex as (n & Hin & Hsame).
      apply list_elem_of_In, list_elem_of_fmap in Hin as ([k n'] & -> & Hk%elem_of_map_to_list).
      exists k, n'. split; [|done]. eapply lookup_weaken; [exact Hk|apply H1].
    + apply total_bind. unfold NotificationRepository.create. apply total_db; [done|]. cbv zeta.
      destruct (unused_now _ w1 H1) as (_ & _ & Hu). rewrite bool_decide_false by (rewrite Hu; by intros [? ?]).
      assert (Hid : is_Some (db_escrows (w_db w1) !! id)).
      { destruct (Hrows (i mod 15) id) as [row Hrow]; [|exists row; eapply lookup_weaken; [exact Hrow|apply H1]].
        unfold id. destruct (nth_lookup_or_length escrowIds (i mod 15) "") as [->|Hge]; [done|].
        pose proof (Nat.mod_upper_bound i 15). lia. }
      cbn [ni_escrowId notification_input]. rewrite bool_decide_true by done. eexists. split; [done|]. apply total_ret.
      destruct (progress_notification (w_db w) w1 (NotificationRepository.new_notification (notification_input id i)
        (env_now env (w_tick w1)) (env_uuid env (w_tick w1))) H1) as [H2 Ha2].
      split; [exact H2|]. apply Hgrow; [exact Ha2|]. eexists _, _. split; [apply lookup_insert_eq|].
      unfold same_notification. by rewrite !bool_decide_true.
  - intros s w' [H1 Hb]. split; [done|]. intros i Hi. apply Hb, elem_of_seq. lia.
Qed.

Lemma main_first w :
  progress (w_db w) w ->
  total main env w (fun _ w' => progress (w_db w) w' /\ exists escrowIds, seeded (w_db w') escrowIds).
Proof using All.
  intros H0. apply total_bind. eapply total_mono; [by apply vendors_first|]. intros u w1 [H1 V1].
  assert (Hphase : forall w2, progress (w_db w) w2 -> progress (w_db w2) w2) by (intros w2 []; by split).
  apply total_bind. eapply total_mono; [apply escrows_first; [by apply Hphase|done]|]. intros s w2 (H2 & Hlen & Hrows).
  apply total_bind. eapply total_mono; [apply disputes_first; [destruct H2; by split|]|].
  { intros i Hi. destruct (nth_lookup_or_length (ids s) i "") as [Hl|Hge]; [|lia].
    destruct (Hrows _ _ Hl) as (r & Hr & _). by exists r. }
  intros s3 w3 [H3 D3]. apply total_bind. eapply total_mono; [apply notifications_first; [destruct H3; by split|done|]|].
  { intros i id (r & Hr & _)%Hrows. exists r. eapply lookup_weaken; [exact Hr|apply H3]. }
  intros s4 w4 [H4 N4]. do 3 (apply total_bind, total_db; [done|]; eexists; split; [done|]; cbn [snd]).
  apply total_ret. pose proof (pg_adds _ _ H1). pose proof (pg_adds _ _ H2). pose proof (pg_adds _ _ H3).
  pose proof (pg_adds _ _ H4). split.
  - do 3 (apply progress_same; try done). destruct H4. split; [done|done|]. simpl. do 3 (etrans; [done|]). done.
  - exists (ids s). split; [|done| | |done].
    + intros a [v Hv]%V1. exists v. eapply lookup_weaken; [exact Hv|]. simpl. apply (ad_vendors (w_db w1)).
      do 2 (etrans; [done|]). done.
    + intros i id Hi%Hrows. eapply row_at_adds; [|exact Hi]. simpl. by etrans.
    + intros i Hi%D3. by eapply dispute_at_adds.
Qed.
End first.

(** ** Interrupted runs *)

(** Under any faults a seed only adds rows, and keeps the store consistent. *)
Definition grows (w w' : World) : Prop := adds (w_db w) (w_db w') /\ (store_ok (w_db w) -> store_ok (w_db w')).

#[export] Instance grows_preorder : PreOrder grows.
Proof. unfold grows. split; [by intros w|]. intros w1 w2 w3 [A1 S1] [A2 S2]. split; [by etrans|auto]. Qed.

Lemma grows_db_call {X} (f : Z -> string -> Db -> outcome X * Db) :
  (forall now u d, adds d (f now u d).2 /\ (store_ok d -> store_ok (f now u d).2)) -> every grows (await (db_call f)).
Proof.
  intros Hf. apply every_await. intros env w. destruct (db_call_cases f env w) as [(e & _ & ->)| ->]; [by split|].
  apply Hf.
Qed.

Lemma grows_vendor a mk : every grows (await (vendor_upsert a mk)).
Proof.
  apply grows_db_call. intros now u d. destruct (db_vendors d !! a) eqn:Hv; [done|]. simpl. split.
  - split; try done. by apply insert_subseteq.
  - intros []. by split.
Qed.

Lemma grows_escrow (amount : Env -> Z) i :
  every grows (await (fun env => escrow_create (escrow_row i (amount env)) env)).
Proof.
  apply every_await. intros env w. unfold escrow_create.
  match goal with |- context [db_call ?g env w] => destruct (db_call_cases g env w) as [(e & _ & ->)| ->] end; [by split|].
  cbn [snd]. cbv zeta. set (now := env_now _ _). set (u := env_uuid _ _). set (d := w_db w).
  repeat case_match; try by split. b2p.
  match goal with H : existsb _ _ = false |- _ => rename H into Hex end. split.
  - split; try done. simpl. apply insert_subseteq. destruct (db_escrows d !! u) eqn:Hu; [|done].
    match goal with H : ~ is_Some _ |- _ => destruct H; by eexists end.
  - intros [Hi Hr]. assert (Hnew : forall k r, db_escrows d !! k = Some r ->
      ~ (e_vendorAddress r = vendor_at i /\ e_itemRef r = itemRef_at i)).
    { intros k r Hk Hsame%has_ref_true. apply not_true_iff_false in Hex. apply Hex, existsb_exists. exists r.
      split; [|done]. apply list_elem_of_In, list_elem_of_fmap. exists (k, r). by rewrite elem_of_map_to_list. }
    split; simpl; [intros id r; rewrite lookup_insert_Some; intros [[<- <-]|[_ Hid]]; [done|by apply Hi]|].
    intros id1 id2 r1 r2. rewrite !lookup_insert_Some. intros [[<- <-]|[_ L1]] [[<- <-]|[_ L2]] Hv Hitem; [done|..].
    + by destruct (Hnew _ _ L2).
    + by destruct (Hnew _ _ L1).
    + by eapply Hr.
Qed.

Lemma grows_dispute mk : every grows (await (dispute_create mk)).
Proof.
  apply grows_db_call. intros now u d. cbv zeta. repeat case_match; try done. b2p. split.
  - split; try done. simpl. apply insert_subseteq. destruct (db_disputes d !! _) eqn:Hu; [|done].
    match goal with H : ~ is_Some (Some _) |- _ => destruct H; by eexists end.
  - intros []. by split.
Qed.

Lemma grows_notification input : every grows (NotificationRepository.create input).
Proof.
  apply grows_db_call. intros now u d. cbv zeta. repeat case_match; try done. b2p. split.
  - split; try done. simpl. apply insert_subseteq. destruct (ac_notifications (db_accounts d) !! u) eqn:Hu; [|done].
    match goal with H : ~ is_Some (Some _) |- _ => destruct H; by eexists end.
  - intros []. by split.
Qed.

Lemma every_forFold {A S} (R : World -> World -> Prop) (xs : list A) (s : S) (f : S -> A -> Prog S) :
  (forall s x, every R (f s x)) -> every R (forFold xs s f).
Proof. intros Hf. revert s. induction xs as [|x xs IH]; intros s; [done|]. by apply every_bind. Qed.

Ltac grows_walk :=
  walk_every ltac:(idtac; first
    [ apply grows_vendor | apply grows_escrow | apply grows_dispute | apply grows_notification | by apply grows_db_call ]).

Lemma seedEscrow_grows s i : every grows (seedEscrow s i).
Proof. unfold seedEscrow. grows_walk. Qed.
Lemma seedDispute_grows escrowIds s entry : every grows (seedDispute escrowIds s entry).
Proof. unfold seedDispute. grows_walk. Qed.
Lemma seedNotification_grows escrowIds existing s i : every grows (seedNotification escrowIds existing s i).
Proof. unfold seedNotification. grows_walk. Qed.

Lemma main_grows : every grows main.
Proof.
  apply every_bind; [unfold seedVendors; grows_walk|intros _].
  apply every_bind; [apply every_forFold, seedEscrow_grows|intros s].
  apply every_bind; [apply every_forFold, seedDispute_grows|intros s'].
  apply every_bind; [apply every_bind; [by apply grows_db_call|intros l; apply every_forFold, seedNotification_grows]|intros s2].
  grows_walk.
Qed.

(** ** The theorems *)

(** A seed that was interrupted, whatever failed, leaves what was there; the
    next one, on a database that works, completes it, and from then on seeding
    creates nothing and changes nothing. *)
Theorem seed_idempotent env0 env w :
  store_ok (w_db w) ->
  db_reliable env -> (forall t t', env_uuid env t = env_uuid env t' -> t = t') ->
  (forall i, i < 15 -> (Z.abs (env_decimal env (amount_at i)) < 10 ^ 18)%Z) ->
  let w0 := (run main env0 w).2 in
  fresh_ids env w0 ->
  adds (w_db w) (w_db w0) /\
  exists s w1, run main env w0 = (Ok s, w1) /\ adds (w_db w0) (w_db w1) /\
    forall env2 w2, db_reliable env2 -> w_db w2 = w_db w1 ->
      exists s2 w3, run main env2 w2 = (Ok s2, w3) /\ s_created s2 = mkCounts 0 0 0 /\ w_db w3 = w_db w1.
Proof.
  intros Hok Hrel Huuid Hsmall w0 Hfresh. destruct (every_run grows main env0 w main_grows) as [Ha Hs].
  split; [exact Ha|].
  destruct (total_run _ _ _ _ (main_first env Hrel Huuid Hsmall w0 ltac:(split; [by apply Hs|done|done])))
    as (s & w1 & Hrun & Hp & escrowIds & Hseeded).
  exists s, w1. split_and!; [done|apply Hp|]. intros env2 w2 Hrel2 Hw2.
  destruct (total_run _ _ _ _ (main_again env2 (w_db w1) escrowIds Hrel2 (pg_ok _ _ _ Hp) Hseeded w2 Hw2))
    as (s2 & w3 & Hrun2 & Hc & _ & Hdb). eauto 6.
Qed.

Lemma filter_everything {A} (l : list A) : List.filter (fun _ => true) l = l.
Proof. induction l as [|x l IH]; simpl; congruence. Qed.

(** [DbSeed] is not resumable: once its first escrow is stored but fewer than
    ten are, every run fails on the unique key and stores nothing. *)
Theorem db_seed_is_not_resumable env w r :
  db_reliable env -> (length (escrow_rows (w_db w)) < 10) -> r ∈ escrow_rows (w_db w) ->
  e_vendorAddress r = vendor_at 0 -> e_itemRef r = "REF-SEED-" +:+ text_of 1000 ->
  (run DbSeed.seedEscrows env w).1 = Throw (PrismaError "P2002") /\
  w_db (run DbSeed.seedEscrows env w).2 = w_db w.
Proof.
  intros Hrel Hfew Hr Hv Href.
  change (wp DbSeed.seedEscrows env w (fun o w' => o = Throw (PrismaError "P2002") /\ w_db w' = w_db w)).
  apply wp_bind, wp_await. unfold escrow_count. rewrite db_call_reliable by done. cbn [fst snd].
  rewrite (filter_everything (escrow_rows (w_db w))).
  rewrite (proj2 (Z.leb_gt _ _)) by (simpl; lia).
  apply wp_bind, wp_await. cbn [now fst snd]. apply wp_bind, wp_bind, wp_await.
  unfold escrow_create. rewrite db_call_reliable by done. cbv zeta. cbn [w_db set_db].
  rewrite (proj2 (Z.leb_gt _ _)) by (vm_compute; done).
  destruct (bool_decide (is_Some _)); [done|].
  rewrite (proj2 (existsb_exists _ _)); [done|]. exists r. split; [by apply list_elem_of_In|].
  cbn [e_vendorAddress e_itemRef DbSeed.escrow_row]. by rewrite !bool_decide_true.
Qed.

(** ** A concrete database *)

(** Ids are a prefix and the tick; the database fails from tick [n] on. *)
Definition seed_env (prefix : string) (faults : nat -> option exn) : Env :=
  mkEnv (fun _ => demo_now) faults (fun t => prefix +:+ text_of t) true false (fun _ => false) true
    true demo_config (fun _ => 25000000000%Z)
    None demo_sdk (fun s => s) (fun _ m => m) (fun _ => "0")
    (fun _ _ => Ok []) (fun _ => Ok 100%Z) (fun _ _ => Ok []) 30 None (fun _ => true) demo_providers.

Definition fails_from (n t : nat) : option exn := if Nat.leb n t then Some (JsError "connection lost") else None.

Definition sizes (d : Db) : nat * nat * nat * nat :=
  (size (db_vendors d), size (db_escrows d), size (db_disputes d), size (ac_notifications (db_accounts d))).

(** What an interrupted run, and then a complete one, leave. *)
Example seed_counts :
  let w0 := (run main (seed_env "A" (fails_from 12)) (demo_world [])).2 in
  let r := run main (seed_env "B" (fun _ => None)) w0 in
  sizes (w_db w0) = (3, 4, 0, 0) /\ sizes (w_db r.2) = (3, 15, 3, 10) /\
  r.1 = Ok (mkSummary (mkCounts 11 3 10) (mkCounts 4 0 0) EXPECTED_COUNTS).
Proof. vm_compute. done. Qed.

Lemma text_of_inj t t' : text_of t = text_of t' -> t = t'.
Proof.
  intros H%(f_equal BigInt_parse). unfold text_of in H. rewrite !BigInt_parse_toString in H.
  injection H as H. lia.
Qed.

(** No key of the tables starts with [prefix]. *)
Definition no_prefix (prefix : string) (d : Db) : bool :=
  forallb (fun k => negb (String.prefix prefix k))
    ((map_to_list (db_escrows d)).*1 ++ (map_to_list (db_disputes d)).*1 ++ (map_to_list (ac_notifications (db_accounts d))).*1).

Lemma prefix_app p s : String.prefix p (p +:+ s) = true.
Proof. induction p as [|c p IH]; [by destruct s|]. simpl. by destruct (Ascii.ascii_dec c c). Qed.

Lemma absent_key {V} (m : gmap string V) prefix s :
  forallb (fun k => negb (String.prefix prefix k)) (map_to_list m).*1 = true -> m !! (prefix +:+ s) = None.
Proof.
  intros H. destruct (m !! _) as [v|] eqn:Hv; [|done]. rewrite forallb_forall in H.
  specialize (H (prefix +:+ s)). rewrite prefix_app in H. discriminate H.
  apply list_elem_of_In, list_elem_of_fmap. exists (prefix +:+ s, v). by rewrite elem_of_map_to_list.
Qed.

Lemma no_prefix_unused prefix d s : no_prefix prefix d = true -> unused d (prefix +:+ s).
Proof.
  unfold no_prefix. rewrite !forallb_app, !andb_true_iff. intros (H1 & H2 & H3). split_and!; by apply absent_key.
Qed.

Lemma seed_idempotent_witness :
  let w0 := (run main (seed_env "A" (fails_from 12)) (demo_world [])).2 in
  exists s w1, run main (seed_env "B" (fun _ => None)) w0 = (Ok s, w1) /\
    exists s2 w3, run main (seed_env "C" (fun _ => None)) w1 = (Ok s2, w3) /\ w_db w3 = w_db w1.
Proof.
  intros w0.
  destruct (seed_idempotent (seed_env "A" (fails_from 12)) (seed_env "B" (fun _ => None)) (demo_world []))
    as [_ (s & w1 & Hrun & _ & Hagain)].
  - split; intros; done.
  - done.
  - intros t t' H. apply string_app_inj_l in H. by apply text_of_inj.
  - intros i _. vm_compute. done.
  - intros t _. apply no_prefix_unused. vm_compute. done.
  - exists s, w1. split; [exact Hrun|].
    destruct (Hagain (seed_env "C" (fun _ => None)) w1 (fun _ => eq_refl) eq_refl) as (s2 & w3 & Hrun2 & _ & Hdb).
    exists s2, w3. split; [exact Hrun2|exact Hdb].
Defined.

(** The first run of [DbSeed] stops after four escrows; no later one succeeds. *)
Lemma db_seed_is_not_resumable_witness :
  exists w, length (escrow_rows (w_db w)) = 4 /\
    (run DbSeed.seedEscrows (seed_env "B" (fun _ => None)) w).1 = Throw (PrismaError "P2002").
Proof.
  set (rows := escrow_rows (w_db (run (seedVendors ;;; DbSeed.seedEscrows) (seed_env "A" (fails_from 8)) (demo_world [])).2)).
  assert (Hrows : exists r, r ∈ rows /\ length rows = 4 /\ e_vendorAddress r = vendor_at 0 /\
    e_itemRef r = "REF-SEED-" +:+ text_of 1000).
  { exists (DbSeed.escrow_row 0 CREATED demo_now demo_now ("A" +:+ text_of 4)). split_and!; try by vm_compute.
    apply list_elem_of_In. vm_compute. tauto. }
  destruct Hrows as (r & Hr & Hlen & Hv & Href).
  exists (run (seedVendors ;;; DbSeed.seedEscrows) (seed_env "A" (fails_from 8)) (demo_world [])).2. split; [exact Hlen|].
  apply (db_seed_is_not_resumable (seed_env "B" (fun _ => None)) _ r (fun _ => eq_refl)); [|exact Hr|exact Hv|exact Href].
  unfold rows in Hlen. rewrite Hlen. lia.
Defined.
