(* ===== verification/TracingSpec.v ===== *)
(** * Tracing changes nothing

    Two programs are equal atom by atom ([prog_eq]) when they perform the same
    actions and settle alike; equal programs run alike, alone and in a pool.
    Erasing the spans of a traced program gives, up to this equality, the
    program itself; the calls to OpenTelemetry are balanced: every span is
    ended once, after the spans it encloses, and has the status of what it
    encloses. *)
From Stdlib Require Import Ascii.
From S2P Require Import Prelude Records Text Tables Effects Auth Http Tracing.
Local Open Scope prog_scope.

(** ** Equality of programs *)

Fixpoint prog_eq {A} (m m' : Prog A) : Prop :=
  match m, m' with
  | Ret a, Ret a' => a = a'
  | Raise e, Raise e' => e = e'
  | Atom X f k, Atom X' f' k' =>
      exists E : X = X', eq_rect X Action f X' E = f' /\
        forall r, prog_eq (k r) (k' (eq_rect X outcome r X' E))
  | _, _ => False
  end.

Lemma prog_eq_atom {A X} (f : Action X) (k k' : outcome X -> Prog A) :
  (forall r, prog_eq (k r) (k' r)) -> prog_eq (Atom X f k) (Atom X f k').
Proof. intros H. by exists eq_refl. Qed.

#[export] Instance prog_eq_equivalence {A} : Equivalence (@prog_eq A).
Proof.
  split.
  - intros m. induction m as [a|e|X f k IH]; [done..|]. by apply prog_eq_atom.
  - intros m. induction m as [a|e|X f k IH]; intros [a'|e'|X' f' k']; simpl; try done.
    intros (E & <- & Hk). destruct E. simpl in *. apply prog_eq_atom. intros r. apply IH, Hk.
  - intros m. induction m as [a|e|X f k IH]; intros [a2|e2|X2 f2 k2] [a3|e3|X3 f3 k3]; simpl; try done; try congruence.
    intros (E & <- & Hk) (E' & <- & Hk'). destruct E, E'. simpl in *. apply prog_eq_atom. intros r. by eapply IH.
Qed.

#[export] Instance bind_proper {A B} :
  Proper (prog_eq ==> pointwise_relation A prog_eq ==> prog_eq) (@bind A B).
Proof.
  intros m. induction m as [a|e|X f k IH]; intros [a'|e'|X' f' k'] Heq g g' Hg; simpl in Heq; try done.
  - subst. apply Hg.
  - destruct Heq as (E & <- & Hk). destruct E. unfold bind; fold (@bind A B). simpl in Hk.
    apply prog_eq_atom. intros r. by apply IH.
Qed.

#[export] Instance catch_proper {A} :
  Proper (prog_eq ==> pointwise_relation exn prog_eq ==> prog_eq) (@catch A).
Proof.
  intros m. induction m as [a|e|X f k IH]; intros [a'|e'|X' f' k'] Heq g g' Hg; simpl in Heq; try done.
  - subst. apply Hg.
  - destruct Heq as (E & <- & Hk). destruct E. unfold catch; fold (@catch A). simpl in Hk.
    apply prog_eq_atom. intros r. by apply IH.
Qed.

Lemma bind_ret_r {A} (m : Prog A) : prog_eq (bind m Ret) m.
Proof. induction m as [a|e|X f k IH]; [done..|]. by apply prog_eq_atom. Qed.

Lemma bind_assoc {A B C} (m : Prog A) (f : A -> Prog B) (g : B -> Prog C) :
  prog_eq (bind (bind m f) g) (bind m (fun a => bind (f a) g)).
Proof. induction m as [a|e|X h k IH]; [done..|]. by apply prog_eq_atom. Qed.

(** Settling what was caught gives the program back. *)
Lemma bind_attempt_settle {A} (m : Prog A) : prog_eq (bind (attempt m) settle) m.
Proof. unfold attempt. induction m as [a|e|X f k IH]; [done..|]. by apply prog_eq_atom. Qed.

(** Equal programs run alike... *)
Lemma prog_eq_run {A} (m m' : Prog A) env w : prog_eq m m' -> run m env w = run m' env w.
Proof.
  revert m' w. induction m as [a|e|X f k IH]; intros [a'|e'|X' f' k'] w; simpl; try done.
  - by intros ->.
  - by intros ->.
  - intros (E & <- & Hk). destruct E. unfold run; fold (@run A). simpl in *. destruct (f env w) as [r w']. auto.
Qed.

(** ...and step alike in a pool. *)
Lemma prog_eq_pool {A} env w (ps ps' : list (Prog A)) w1 qs :
  Forall2 prog_eq ps ps' -> pool_step env (w, ps) (w1, qs) ->
  exists qs', pool_step env (w, ps') (w1, qs') /\ Forall2 prog_eq qs qs'.
Proof.
  intros Hps Hstep. inversion Hstep as [w0 ps0 i X f k r w2 Hi Hf]; subst.
  destruct (Forall2_lookup_l _ _ _ _ _ Hps Hi) as ([a|e|X' f' k'] & Hi' & Heq); simpl in Heq; try done.
  destruct Heq as (E & <- & Hk). destruct E. simpl in *. exists (<[i := k' r]> ps'). split.
  - by econstructor.
  - apply Forall2_insert; [done|]. apply Hk.
Qed.

(** ** Balanced calls *)

(** The calls made on [id] when what it encloses has settled. *)
Definition closes (id : nat) (calls : list SpanCall) : Prop :=
  calls = [SetStatus id STATUS_OK None; EndSpan id] \/
  exists e, calls = [RecordException id e; SetStatus id STATUS_ERROR (Some (exn_message e)); EndSpan id].

(** Under the active span [p], the calls start and end the spans [n] to [m]. *)
Inductive balanced : option nat -> nat -> nat -> list SpanCall -> Prop :=
| balanced_nil p n : balanced p n n []
| balanced_attributes id n attrs : balanced (Some id) n n [SetAttributes id attrs]
| balanced_span p n m name kind attrs inner last :
    balanced (Some n) (S n) m inner -> closes n last ->
    balanced p n m (StartSpan n p name kind attrs :: inner ++ last)
| balanced_app p n m k l1 l2 : balanced p n m l1 -> balanced p m k l2 -> balanced p n k (l1 ++ l2).

Definition starts (id : nat) (calls : list SpanCall) : nat :=
  length (List.filter (fun c => match c with StartSpan i _ _ _ _ => Nat.eqb i id | _ => false end) calls).
Definition ends (id : nat) (calls : list SpanCall) : nat :=
  length (List.filter (fun c => match c with EndSpan i => Nat.eqb i id | _ => false end) calls).

Lemma starts_app id l1 l2 : starts id (l1 ++ l2) = starts id l1 + starts id l2.
Proof. unfold starts. by rewrite List.filter_app, length_app. Qed.
Lemma ends_app id l1 l2 : ends id (l1 ++ l2) = ends id l1 + ends id l2.
Proof. unfold ends. by rewrite List.filter_app, length_app. Qed.

Lemma closes_counts n last id : closes n last -> starts id last = 0 /\ ends id last = (if Nat.eqb n id then 1 else 0).
Proof. unfold starts, ends. intros [-> | [e ->]]; simpl; by destruct (Nat.eqb n id). Qed.

Lemma starts_cons_span id n p name kind attrs l :
  starts id (StartSpan n p name kind attrs :: l) = (if Nat.eqb n id then 1 else 0) + starts id l.
Proof. unfold starts. simpl. by destruct (Nat.eqb n id). Qed.

Lemma ends_cons_span id n p name kind attrs l : ends id (StartSpan n p name kind attrs :: l) = ends id l.
Proof. done. Qed.

(** Every span is started once and ended once. *)
Lemma balanced_counts p n m calls :
  balanced p n m calls ->
  n <= m /\ forall id, starts id calls = (if Nat.leb n id && Nat.ltb id m then 1 else 0) /\ ends id calls = starts id calls.
Proof.
  induction 1 as [p n|id0 n attrs|p n m name kind attrs inner last Hin IH Hlast|p n m k l1 l2 H1 IH1 H2 IH2].
  - split; [done|]. intros id. unfold starts, ends. simpl. destruct (Nat.leb_spec n id), (Nat.ltb_spec id n); simpl; lia.
  - split; [done|]. intros id. unfold starts, ends. simpl. destruct (Nat.leb_spec n id), (Nat.ltb_spec id n); simpl; lia.
  - destruct IH as [Hle IH]. split; [lia|]. intros id. destruct (IH id) as [Hs He].
    destruct (closes_counts n last id Hlast) as [Hs' He'].
    rewrite starts_cons_span, ends_cons_span, starts_app, ends_app, He, Hs, Hs', He'.
    destruct (Nat.eqb_spec n id), (Nat.leb_spec (S n) id), (Nat.leb_spec n id), (Nat.ltb_spec id m); simpl; lia.
  - destruct IH1 as [Hle1 IH1], IH2 as [Hle2 IH2]. split; [lia|]. intros id.
    destruct (IH1 id) as [Hs1 He1], (IH2 id) as [Hs2 He2]. rewrite starts_app, ends_app, He1, He2, Hs1, Hs2.
    split; [|done].
    destruct (Nat.leb_spec n id), (Nat.ltb_spec id m), (Nat.leb_spec m id), (Nat.ltb_spec id k); simpl; lia.
Qed.

(** ** Traced programs refine programs *)

(** Every leaf is a value in [Q]; the program raises nothing itself. *)
Fixpoint returns {A} (Q : A -> Prop) (m : Prog A) : Prop :=
  match m with
  | Ret a => Q a
  | Raise _ => False
  | Atom X f k => forall r, returns Q (k r)
  end.

Lemma returns_bind {A B} (P : A -> Prop) (Q : B -> Prop) (m : Prog A) (f : A -> Prog B) :
  returns P m -> (forall a, P a -> returns Q (f a)) -> returns Q (bind m f).
Proof.
  intros Hm Hf. induction m as [a|e|X g k IH]; simpl in Hm; [by apply Hf|done|].
  change (forall r, returns Q (bind (k r) f)). auto.
Qed.

Lemma returns_attempt {A} (m : Prog A) : returns (fun _ => True) (attempt m).
Proof. unfold attempt. induction m as [a|e|X g k IH]; [done..|]. exact IH. Qed.

(** What a traced program leaves behind: the same active span, and balanced
    calls. *)
Definition extends_by (tr tr' : Tracer) : Prop :=
  tr_active tr' = tr_active tr /\
  exists calls, tr_log tr' = tr_log tr ++ calls /\ balanced (tr_active tr) (tr_next tr) (tr_next tr') calls.

#[export] Instance extends_by_preorder : PreOrder extends_by.
Proof.
  split.
  - intros tr. split; [done|]. exists []. split; [by rewrite app_nil_r|constructor].
  - intros tr1 tr2 tr3 [A1 (l1 & L1 & B1)] [A2 (l2 & L2 & B2)]. split; [congruence|]. exists (l1 ++ l2).
    split; [by rewrite L2, L1, app_assoc|]. eapply balanced_app; [done|]. by rewrite <- A1.
Qed.

(** [t] is the program [m] with tracing. *)
Class Traces {A} (t : Traced A) (m : Prog A) : Prop := {
  traces_erase : forall tr, prog_eq (erase t tr) m;
  traces_balanced : forall tr, returns (fun x => extends_by tr x.2) (t tr)
}.

(** Continuations that agree on what the tracing program returns. *)
Lemma bind_returns {A B} (P : A -> Prop) (m : Prog A) (f g : A -> Prog B) :
  returns P m -> (forall a, P a -> prog_eq (f a) (g a)) -> prog_eq (bind m f) (bind m g).
Proof.
  intros Hm Hf. induction m as [a|e|X h k IH]; simpl in Hm; [by apply Hf|done|].
  apply prog_eq_atom. intros r. by apply IH.
Qed.

#[export] Instance traces_untraced {A} (m : Prog A) : Traces (untraced m) m.
Proof.
  split; intros tr.
  - unfold erase, untraced. rewrite bind_assoc. apply bind_attempt_settle.
  - eapply returns_bind; [apply returns_attempt|]. intros r _. simpl. reflexivity.
Qed.

#[export] Instance traces_bind {A B} (t : Traced A) (m : Prog A) (f : A -> Traced B) (g : A -> Prog B) :
  Traces t m -> (forall a, Traces (f a) (g a)) -> Traces (traced_bind t f) (bind m g).
Proof.
  intros Ht Hf. split; intros tr.
  - unfold erase, traced_bind. rewrite bind_assoc, <- (traces_erase (t := t) tr). unfold erase. rewrite bind_assoc.
    apply bind_proper; [done|]. intros [[a|e] tr']; simpl; [apply traces_erase|done].
  - eapply returns_bind; [apply traces_balanced|]. intros [[a|e] tr'] Hx; simpl in *; [|done].
    pose proof (traces_balanced (t := f a) tr') as Hb. revert Hb. generalize (f a tr'). intros p.
    induction p as [x|e|X h k IH]; simpl; [by intros; etrans|done|auto].
Qed.

#[export] Instance traces_catch {A} (t : Traced A) (m : Prog A) (h : exn -> Traced A) (h' : exn -> Prog A) :
  Traces t m -> (forall e, Traces (h e) (h' e)) -> Traces (traced_catch t h) (catch m h').
Proof.
  intros Ht Hh. split; intros tr.
  - pose proof (traces_balanced (t := t) tr) as Hb. rewrite <- (traces_erase (t := t) tr).
    unfold erase, traced_catch. rewrite bind_assoc. revert Hb. generalize (t tr). intros p.
    induction p as [[[a|e] tr']|e|X f k IH]; intros Hb; [done| |done|].
    + apply (traces_erase (t := h e) tr').
    + apply prog_eq_atom. intros r. apply IH, Hb.
  - eapply returns_bind; [apply traces_balanced|]. intros [[a|e] tr'] Hx; simpl in *; [done|].
    pose proof (traces_balanced (t := h e) tr') as Hb. revert Hb. generalize (h e tr'). intros p.
    induction p as [x|e'|X f k IH]; simpl; [by intros; etrans|done|auto].
Qed.

Lemma closes_span {A} id (r : outcome A) : closes id (TracingService.close_span id r).
Proof. destruct r; [by left|right; by eexists]. Qed.

#[export] Instance traces_withSpan {A} enabled name kind attrs (t : Traced A) (m : Prog A) :
  Traces t m -> Traces (TracingService.withSpan enabled name kind attrs t) m.
Proof.
  intros Ht. unfold TracingService.withSpan. destruct enabled; simpl; [|done]. split; intros tr.
  - unfold erase. rewrite bind_assoc. simpl. rewrite <- (traces_erase (t := t)). unfold erase. reflexivity.
  - eapply returns_bind; [apply traces_balanced|]. intros [r tr'] [Hact (calls & Hlog & Hbal)]. simpl in *.
    split; [done|]. eexists. split; [by rewrite Hlog, <- !app_assoc|]. simpl.
    apply balanced_span; [done|apply closes_span].
Qed.

#[export] Instance traces_setSpanAttributes attrs : Traces (TracingService.setSpanAttributes attrs) (Ret tt).
Proof.
  split; intros tr; unfold erase, TracingService.setSpanAttributes; destruct (tr_active tr) as [id|] eqn:Hid; simpl; try done.
  split; [by simpl|]. exists [SetAttributes id attrs]. split; [done|]. rewrite Hid. constructor.
Qed.

(** ** The client *)

Section client.
Context {Args Val Other : Type} (enabled : bool).
Abbreviation Client := (string -> PrismaTracing.Property Args Val Other).

(** A method found on a wrapped delegate is the wrapped method. *)
Lemma find_wrapped (members : list (string * PrismaTracing.Member Args Val Other)) model method :
  List.find (fun entry => bool_decide (entry.1 = method)) (PrismaTracing.wrapModelDelegate enabled members model) =
  (fun entry => (entry.1, PrismaTracing.wrap_member enabled model entry.1 entry.2)) <$>
    List.find (fun entry => bool_decide (entry.1 = method)) members.
Proof.
  unfold PrismaTracing.wrapModelDelegate. induction members as [|[n v] members IH]; [done|]. simpl.
  by case_bool_decide.
Qed.

(** The client the repositories are given has the methods of the plain client
    and each behaves, action by action, as the plain one, whatever it traces. *)
Theorem traced_client_agrees (prisma : Client) (program : string -> string -> Args -> Prog Val) :
  (forall model method args t, PrismaTracing.call prisma model method args = Some t -> Traces t (program model method args)) ->
  forall model method args,
    match PrismaTracing.call prisma model method args,
          PrismaTracing.call (PrismaTracing.providePrismaService enabled prisma) model method args with
    | Some _, Some t' => Traces t' (program model method args)
    | None, None => True
    | _, _ => False
    end.
Proof.
  intros Hp model method args. specialize (Hp model method args).
  unfold PrismaTracing.providePrismaService, PrismaTracing.wrapPrismaWithTracing, PrismaTracing.call in *.
  destruct (prisma model) as [members|fn|v] eqn:Hmodel.
  - assert (Hplain : match snd <$> List.find (fun entry => bool_decide (entry.1 = method)) members with
      | Some (PrismaTracing.Method fn) => Traces (fn args) (program model method args) | _ => True end).
    { destruct (snd <$> _) as [[fn|c]|]; [by apply Hp|done..]. }
    pose proof (find_wrapped members model method) as Hfind. revert Hfind.
    destruct enabled; intros Hfind; rewrite ?Hmodel; [destruct (PrismaTracing.isTracedModel model)|];
      [rewrite Hfind| |];
      destruct (List.find _ members) as [[n [fn|c]]|]; simpl in *; try done; by apply traces_withSpan.
  - destruct enabled; by rewrite ?Hmodel.
  - destruct enabled; by rewrite ?Hmodel.
Qed.
End client.

(** ** Requests *)

Lemma url_path_app path query : url_path path = path -> url_path (path +:+ String "?" query) = path.
Proof.
  induction path as [|c path IH]; simpl; [done|]. case_bool_decide; [done|]. intros [= Hp]. by rewrite IH.
Qed.

(** The workflow of a request does not depend on its query string. *)
Lemma workflow_ignores_query method path query :
  url_path path = path -> resolveWorkflow method (path +:+ String "?" query) = resolveWorkflow method path.
Proof. intros Hp. unfold resolveWorkflow. by rewrite url_path_app, Hp. Qed.

(** A request served inside an interceptor span gets the answer of its handler. *)
Lemma intercepted_request_agrees {A} enabled req (handle : Traced A) (m : Prog A) :
  Traces handle m -> Traces (intercept enabled req handle) m.
Proof.
  intros Hh. unfold intercept. destruct enabled; simpl; [|done]. apply (traces_withSpan true), Hh.
Qed.

(** Sentry is told of every error the exception filter answers with a status
    of 500 or more, and the error goes on to the filter. *)
Lemma sentry_reports_server_errors node_env stack (e : exn) now req :
  (500 <= er_statusCode (buildErrorResponse node_env (thrown_of stack e) now req))%Z ->
  sentry_intercept (A := unit) (Throw e) = ([e], Throw e).
Proof.
  unfold sentry_intercept, isServerError, buildErrorResponse, thrown_of. destruct (exn_status e) as [status|]; [|done].
  cbn [er_statusCode]. intros H. by rewrite (proj2 (Z.leb_le _ _) H).
Qed.

(** The converse fails: a unique-key violation is answered 409 and reported. *)
Lemma sentry_reports_conflicts node_env stack now req :
  er_statusCode (buildErrorResponse node_env (thrown_of stack (PrismaError "P2002")) now req) = 409%Z /\
  (sentry_intercept (A := unit) (Throw (PrismaError "P2002"))).1 = [PrismaError "P2002"].
Proof. done. Qed.

(** The route that resolves a dispute is under [/admin/dispute], which is not
    one of the prefixes: its spans are grouped with the unknown routes. *)
Lemma resolve_has_no_workflow id : resolveWorkflow "PATCH" ("/admin/dispute/" +:+ id) = "http.patch".
Proof. reflexivity. Qed.
