(* ===== verification/HealthSpec.v ===== *)
(** * What the probes and the outbound requests guarantee

    The readiness probe against the state of the components it checks, the
    confirmation loop of Horizon, the classification of JSON-RPC answers, and
    the queue dashboard. *)
From S2P Require Import Prelude Records Doubles Dates Text Tables Crypto Json Effects Cache Prisma Coherence Demo Contract ContractSpec RetryQueue Analytics Auth Http Health.
Local Open Scope prog_scope.

(** ** Readiness *)

Section readiness.
Context {P : Probes} (env : Env).

(** Horizon answers the request made at this tick in time and with success. *)
Definition horizon_answers (t : nat) : Prop :=
  exists d status, pb_get t (Horizon.horizonUrl env) = (d, Ok status) /\ (d < 150 /\ 200 <= status < 300)%Z.

(** The RPC server passes its health check in time, if it has one. *)
Definition rpc_passes (t : nat) : Prop :=
  pb_sorobanHealth = true /\
  forall getHealth, pb_getHealth = Some getHealth -> exists d, getHealth t = (d, Ok (Some "pass")) /\ (d < 150)%Z.

(** A check of a component: it never rejects, changes nothing but the clock,
    and says [ok] exactly when [up]. *)
Definition checks (up : Prop) (r : outcome ComponentHealth) (w w' : World) : Prop :=
  exists c, r = Ok c /\ (ch_status c = STATUS_ok <-> up) /\ (w' = w \/ w' = tick w) /\
    (ch_status c = STATUS_down -> exists msg, ch_error c = Some msg).

(** The message of a component that is down. *)
Ltac says_why := let H := fresh in intros H; first [discriminate H | by eexists].

Lemma in_time_spec {A} limit (reply : Z * outcome A) r :
  in_time limit reply = Some r <-> exists d, reply = (d, r) /\ (d < limit)%Z.
Proof.
  destruct reply as [d r']. unfold in_time. cbn [fst snd]. destruct (Z.ltb_spec d limit) as [H|H]; split.
  - intros [= ->]. by exists d.
  - by intros (? & [= -> ->] & _).
  - done.
  - intros (? & [= -> ->] & ?). lia.
Qed.

Lemma checkDatabase_checks w :
  checks (env_db env (w_tick w) = None) (run AppController.checkDatabase env w).1 w (run AppController.checkDatabase env w).2 /\
  (run AppController.checkDatabase env w).2 = tick w.
Proof.
  unfold AppController.checkDatabase. rewrite run_catch, run_bind, run_await. unfold escrow_findMany, db_call.
  destruct (env_db env (w_tick w)) as [e|]; cbn.
  - split; [|done]. eexists. split_and!; [done|done|by right|]. intros _. by eexists.
  - split; [|by destruct w as [[] ? ? ? ? ? ? ? ? ? ? ? ?]]. eexists.
    split_and!; [done|done| |done]. right. by destruct w as [[] ? ? ? ? ? ? ? ? ? ? ? ?].
Qed.

Lemma response_ok_spec status : Horizon.response_ok status = true <-> (200 <= status < 300)%Z.
Proof. unfold Horizon.response_ok. rewrite andb_true_iff, Z.leb_le, Z.ltb_lt. done. Qed.

Lemma checkHorizon_checks w :
  checks (horizon_answers (w_tick w)) (run AppController.checkHorizon env w).1 w (run AppController.checkHorizon env w).2 /\
  (run AppController.checkHorizon env w).2 = tick w.
Proof.
  unfold AppController.checkHorizon, Horizon.checkHealth, ask. rewrite run_catch, run_bind, run_await. cbn [fst snd].
  rewrite run_bind, run_await. unfold Horizon.fetch, horizon_answers.
  destruct (in_time _ _) as [[status|e]|] eqn:Ht; cbn [coalesce].
  - apply in_time_spec in Ht as (d & -> & Hd). destruct (Horizon.response_ok status) eqn:Hs; cbn; (split; [|done]);
      eexists; (split_and!; [done| |by right|says_why]).
    + apply response_ok_spec in Hs. split; [intros _|done]. by exists d, status.
    + split; [done|]. intros (? & ? & [= <- <-] & _ & Hs'). apply response_ok_spec in Hs'. congruence.
  - apply in_time_spec in Ht as (d & -> & Hd). split; [|done]. eexists. split_and!; [done| |by right|says_why].
    split; [done|]. by intros (? & ? & [=] & _).
  - split; [|done]. eexists. split_and!; [done| |by right|says_why]. split; [done|].
    intros (d & status & Hg & Hd & _). rewrite (proj2 (in_time_spec _ _ (Ok status))) in Ht; [done|]. by exists d.
Qed.

Lemma race_spec getHealth w :
  run (await (SorobanHealth.race getHealth)) env w =
    (match in_time 150 (getHealth (w_tick w)) with
     | Some (Ok status) => Ok (Some status) | Some (Throw e) => Throw e | None => Ok None end, tick w).
Proof. by rewrite run_await. Qed.

Lemma checkSoroban_checks w :
  checks (rpc_passes (w_tick w)) (run AppController.checkSoroban env w).1 w (run AppController.checkSoroban env w).2.
Proof.
  unfold AppController.checkSoroban, rpc_passes. destruct pb_sorobanHealth; cbn.
  2: { eexists. split_and!; [done|by split; [|intros []]|by left|says_why]. }
  unfold SorobanHealth.checkHealth. destruct pb_getHealth as [f|]; cbn.
  2: { eexists. split_and!; [done|done|by left|done]. }
  rewrite run_catch, run_bind, race_spec.
  assert (Hpass : (true = true /\ forall g, Some f = Some g -> exists d, g (w_tick w) = (d, Ok (Some "pass"%string)) /\ (d < 150)%Z) <->
    in_time 150 (f (w_tick w)) = Some (Ok (Some "pass"%string))).
  { rewrite in_time_spec. split; [by intros [_ H]; apply H|]. intros H. split; [done|]. by intros g [= <-]. }
  destruct (in_time 150 (f (w_tick w))) as [[[status|]|e]|]; cbn; try unfold SorobanHealth.HEALTHY_STATUSES;
    repeat case_bool_decide; subst; cbn;
    (eexists; split_and!; [done|rewrite Hpass|by right|says_why]); (split; [done|]); intros; first [done|congruence].
Qed.
End readiness.

Import AppController.

Section probes.
Context {P : Probes} (env : Env).

Lemma checkRedis_status w :
  exists h, (run AppController.checkRedis env w).1 = Ok h /\
    AppController.redis_status h = (if env_redis env then
      Required (if env_redis_down env (w_tick w) || negb (bool_decide (pb_ping (w_tick w) = "PONG"%string)) then STATUS_down else STATUS_ok)
      else STATUS_disabled) /\
    ((run AppController.checkRedis env w).2 = w \/ (run AppController.checkRedis env w).2 = tick w).
Proof.
  unfold AppController.checkRedis. rewrite run_catch, run_bind, run_await. unfold ping.
  destruct (env_redis env); cbn [negb fst snd]; [|eexists; split_and!; [reflexivity|by vm_compute|by left]].
  destruct (env_redis_down env (w_tick w)); cbn [fst snd orb]; [eexists; split_and!; [reflexivity|by vm_compute|by right]|].
  destruct (bool_decide (pb_ping (w_tick w) = "PONG"%string)); cbn [negb]; (eexists; split_and!; [reflexivity|by vm_compute|by right]).
Qed.

(** C38. The readiness probe never rejects and writes nothing.  It answers 200
    exactly when the database answered, Horizon answered with success within
    150 ms and the RPC server passed its health check within 150 ms, and 503
    otherwise, with an entry that gives a reason for exactly the components
    that are down; the state of Redis is reported and decides nothing.  The
    liveness probe answers whatever the dependencies do. *)
Theorem readiness_correct w :
  let t := w_tick w in
  let db_up := env_db env t = None in
  let horizon_up := horizon_answers env (S t) in
  let rpc_up := rpc_passes (S (S t)) in
  (exists r w', run AppController.getReadiness env w = (Ok r, w') /\
    w_db w' = w_db w /\ w_memory w' = w_memory w /\ w_redis w' = w_redis w /\ w_side w' = w_side w /\
    (rr_httpStatus r = 200 \/ rr_httpStatus r = 503)%Z /\
    (rr_httpStatus r = 200%Z <-> db_up /\ horizon_up /\ rpc_up) /\
    (rr_details r = None <-> rr_httpStatus r = 200%Z) /\
    (forall d, rr_details r = Some d ->
       (rd_db d = None <-> db_up) /\ (rd_horizon d = None <-> horizon_up) /\ (rd_soroban d = None <-> rpc_up) /\
       forall c, Some c ∈ [rd_db d; rd_horizon d; rd_soroban d] -> exists msg, ch_error c = Some msg) /\
    (rr_redis r = STATUS_disabled <-> env_redis env = false)) /\
  exists l, run AppController.getLiveness env w = (Ok l, w).
Proof.
  intros t db_up horizon_up rpc_up. split; [|by eexists].
  unfold AppController.getReadiness, AppController.runReadinessCheck, AppController.checkAllDependencies.
  rewrite run_bind, run_await. cbn [now]. rewrite !run_bind.
  destruct (checkDatabase_checks env w) as [(db & Hdb & Hdbu & _ & Hdbm) Hw1].
  destruct (run AppController.checkDatabase env w) as [rdb w1]. cbn in Hdb, Hw1. subst rdb w1. cbn [fst snd].
  rewrite run_bind. destruct (checkHorizon_checks env (tick w)) as [(hz & Hhz & Hhzu & _ & Hhzm) Hw2].
  destruct (run AppController.checkHorizon env (tick w)) as [rhz w2]. cbn in Hhz, Hw2. subst rhz w2.
  rewrite run_bind. destruct (checkSoroban_checks env (tick (tick w))) as (so & Hso & Hsou & Hw3 & Hsom).
  destruct (run AppController.checkSoroban env (tick (tick w))) as [rso w3]. cbn in Hso, Hw3. subst rso.
  rewrite run_bind. destruct (checkRedis_status w3) as (rd & Hrd & Hred & Hw4).
  destruct (run AppController.checkRedis env w3) as [rrd w4]. cbn in Hrd, Hw4. subst rrd.
  eexists _, _. split; [reflexivity|].
  assert (Hsame : w_db w4 = w_db w /\ w_memory w4 = w_memory w /\ w_redis w4 = w_redis w /\ w_side w4 = w_side w).
  { by destruct Hw4 as [->| ->], Hw3 as [->| ->]. }
  destruct Hsame as (-> & -> & -> & ->). do 4 (split; [done|]).
  change (env_db env (w_tick w) = None) with db_up in Hdbu. change (horizon_answers env (w_tick (tick w))) with horizon_up in Hhzu.
  change (rpc_passes (w_tick (tick (tick w)))) with rpc_up in Hsou. clearbody db_up horizon_up rpc_up.
  destruct db as [db edb], hz as [hz ehz], so as [so eso]. cbn in *.
  unfold is_up, detail. cbn [ch_status ch_error rr_httpStatus rr_details rr_redis].
  destruct db, hz, so; cbn; repeat first [rewrite bool_decide_eq_true_2 by done | rewrite bool_decide_eq_false_2 by done]; cbn.
  all: (split; [by auto|]; split; [split; [discriminate || (intros _; tauto)|intuition discriminate]|]).
  all: (split; [by split|]; split; [intros d Hd; simplify_eq; cbn [rd_db rd_horizon rd_soroban]; (split_and!; [intuition discriminate..|])|]).
  all: try (rewrite Hred; destruct (env_redis env); by split).
  all: intros c Hc; rewrite !elem_of_cons in Hc; destruct Hc as [Hc|[Hc|[Hc|Hc]]];
    [..|by apply not_elem_of_nil in Hc]; simplify_eq; cbn; auto.
Qed.
End probes.

(** ** The confirmation loop *)

Section confirm.
Context {P : Probes} (env : Env).
Context (Hmono : forall t, (env_now env t <= env_now env (S t))%Z).
(** A round is a request and a sleep of one interval. *)
Context (Hpace : forall t, (env_now env t + Horizon.pollIntervalMs <= env_now env (S (S t)))%Z).

Definition CONFIRM_TIMED_OUT : exn := JsError "Horizon confirmation timed out".

(** Horizon reported enough confirmations of the transaction, before the
    deadline, or the deadline has passed. *)
Definition confirm_outcome (hash : string) (target timeoutMs start : Z) (r : outcome Horizon.Confirmation) (w' : World) : Prop :=
  match r with
  | Ok c => Horizon.cf_hash c = hash /\ Horizon.number_ge (Horizon.cf_confirmations c) target = true /\
      exists t data, (env_now env t - start < timeoutMs)%Z /\
        pb_transaction t (Horizon.horizonUrl env +:+ "/transactions/" +:+ encodeURIComponent hash) = Ok (200%Z, data) /\
        Horizon.cf_confirmations c = coalesce data zero
  | Throw e => e = CONFIRM_TIMED_OUT /\ (timeoutMs <= env_now env (w_tick w') - start)%Z
  end.

Lemma poll_rounds_outcome fuel hash target timeoutMs start w :
  (timeoutMs + start <= env_now env (w_tick w) + Z.of_nat fuel * Horizon.pollIntervalMs - Horizon.pollIntervalMs)%Z ->
  0 < fuel ->
  confirm_outcome hash target timeoutMs start
    (run (Horizon.poll_rounds fuel hash target timeoutMs start) env w).1
    (run (Horizon.poll_rounds fuel hash target timeoutMs start) env w).2.
Proof using Hmono Hpace.
  revert w. induction fuel as [|fuel IH]; intros w Hfuel Hpos; [lia|]. cbn [Horizon.poll_rounds].
  rewrite run_bind, run_await. cbn [now]. destruct (Z.ltb_spec (env_now env (w_tick w) - start) timeoutMs) as [Hlt|Hge].
  2: { split; [done|]. exact Hge. }
  unfold ask. rewrite run_bind, run_await. rewrite run_bind, run_attempt, run_await. cbn [ext_call fst snd].
  set (path := (_ +:+ _)%string).
  assert (Hnext : confirm_outcome hash target timeoutMs start
    (run (await sleep ;;; Horizon.poll_rounds fuel hash target timeoutMs start) env (tick w)).1
    (run (await sleep ;;; Horizon.poll_rounds fuel hash target timeoutMs start) env (tick w)).2).
  { rewrite run_bind, run_await. cbn [sleep]. specialize (Hpace (w_tick w)). unfold Horizon.pollIntervalMs in *.
    apply IH; cbn [w_tick tick]; lia. }
  assert (Hfailed : confirm_outcome hash target timeoutMs start
    (run (let* t := await now in if (timeoutMs <=? t - start)%Z then Raise CONFIRM_TIMED_OUT
          else await sleep ;;; Horizon.poll_rounds fuel hash target timeoutMs start) env (tick w)).1
    (run (let* t := await now in if (timeoutMs <=? t - start)%Z then Raise CONFIRM_TIMED_OUT
          else await sleep ;;; Horizon.poll_rounds fuel hash target timeoutMs start) env (tick w)).2).
  { rewrite run_bind, run_await. cbn [now].
    destruct (Z.leb_spec timeoutMs (env_now env (w_tick (tick w)) - start)) as [Hle|]; [|done]. by split. }
  destruct (pb_transaction (w_tick w) path) as [[status data]|e] eqn:Hreply; cbn [fst snd]; [|exact Hfailed].
  destruct (Z.eqb_spec status 200) as [->|]; cbn [negb]; [|exact Hfailed].
  destruct (Horizon.number_ge (coalesce data zero) target) eqn:Hn; [|exact Hnext].
  split_and!; [done|done|]. by exists (w_tick w), data.
Qed.

(** Waiting for the confirmation of a transaction ends within the timeout
    plus one round, with a count Horizon reported for that transaction in time
    and that reaches the target, or with the timeout error once the deadline has
    passed, never by running out of rounds. *)
Theorem horizon_confirmation_terminates hash target timeoutMs w :
  (0 <= timeoutMs)%Z ->
  confirm_outcome hash target timeoutMs (env_now env (w_tick w))
    (run (Horizon.pollConfirmation hash target timeoutMs) env w).1
    (run (Horizon.pollConfirmation hash target timeoutMs) env w).2.
Proof using Hmono Hpace.
  intros H. unfold Horizon.pollConfirmation. rewrite run_bind, run_await. cbn [now].
  pose proof (Z.div_pos timeoutMs 100). pose proof (Z.div_mod timeoutMs 100). pose proof (Z.mod_pos_bound timeoutMs 100).
  apply poll_rounds_outcome; unfold Horizon.CONFIRM_FUEL, Horizon.pollIntervalMs; lia.
Qed.
End confirm.

(** ** The JSON-RPC requests *)

Section rpc.
Import SorobanRpc.

(** The text matches [/start.?ledger/]. *)
Definition mentions_start_ledger (s : string) : Prop :=
  exists before gap after, s = before +:+ "start" +:+ gap +:+ "ledger" +:+ after /\
    (gap = "" \/ exists c, gap = String c "" /\ is_newline c = false).

Lemma prefix_iff p s : String.prefix p s = true <-> exists rest, s = p +:+ rest.
Proof.
  revert s. induction p as [|c p IH]; intros s.
  - split; [intros _; by exists s|by intros _; destruct s].
  - destruct s as [|c' s]; [by split; [|intros [? [=]]]|].
    change (String.prefix (String c p) (String c' s)) with (if Ascii.ascii_dec c c' then String.prefix p s else false).
    destruct (Ascii.ascii_dec c c') as [->|Hne].
    + etrans; [exact (IH s)|]. split; intros [rest H]; exists rest; [by rewrite H|by injection H].
    + split; [done|]. intros [rest [= ? _]]. congruence.
Qed.

Lemma substring_all n s : String.length s <= n -> String.substring 0 n s = s.
Proof.
  revert n. induction s as [|c s IH]; intros [|n] H; simpl in *; [done|done|lia|]. by rewrite IH by lia.
Qed.

Lemma start_ledger_here_iff s : start_ledger_here s = true <->
  exists gap after, s = "start" +:+ gap +:+ "ledger" +:+ after /\
    (gap = "" \/ exists c, gap = String c "" /\ is_newline c = false).
Proof.
  unfold start_ledger_here. rewrite orb_true_iff, andb_true_iff, !prefix_iff. split.
  - intros [[rest ->]|[[rest ->] H]].
    + exists "", rest. by split; [|left].
    + change (String.substring 5 _ _) with (String.substring 0 (5 + String.length rest) rest) in H.
      rewrite substring_all in H by lia. destruct rest as [|c rest]; [done|].
      apply andb_true_iff in H as [Hc [after ->]%prefix_iff]. exists (String c ""), after.
      split; [done|]. right. exists c. by apply negb_true_iff in Hc.
  - intros (gap & after & -> & [->|(c & -> & Hc)]); [left; by exists after|right].
    split; [by eexists|].
    change (String.substring 5 _ _) with (String.substring 0 (5 + String.length (String c ("ledger" +:+ after))) (String c ("ledger" +:+ after))).
    rewrite substring_all by lia. rewrite Hc. by apply prefix_iff; exists after.
Qed.

Lemma start_ledger_iff s : start_ledger s = true <-> mentions_start_ledger s.
Proof.
  unfold mentions_start_ledger. induction s as [|c s IH].
  - simpl. split; [done|]. intros (b & gap & a & H & _). by destruct b.
  - cbn [start_ledger]. rewrite orb_true_iff, start_ledger_here_iff, IH. split.
    + intros [(gap & a & H & Hg)|(b & gap & a & -> & Hg)].
      * by exists "", gap, a.
      * by exists (String c b), gap, a.
    + intros (b & gap & a & H & Hg). destruct b as [|c' b].
      * left. by exists gap, a.
      * injection H as -> H. right. by exists b, gap, a.
Qed.

Definition mentions (part s : string) : Prop := exists before after, s = before +:+ part +:+ after.

Lemma includes_iff part s : includes part s = true <-> mentions part s.
Proof.
  unfold mentions. induction s as [|c s IH]; cbn [includes].
  - rewrite orb_false_r, prefix_iff. split; [intros [after H]; by exists "", after|].
    intros (b & a & H). exists a. by destruct b.
  - rewrite orb_true_iff, prefix_iff, IH. split.
    + intros [[a H]|(b & a & ->)]; [by exists "", a|by exists (String c b), a].
    + intros (b & a & H). destruct b as [|c' b]; [left; by exists a|]. injection H as -> H. right. by exists b, a.
Qed.

(** The error is about the ledgers the node retains. *)
Definition about_retention (message : string) : Prop :=
  let m := toLowerCase message in
  mentions_start_ledger m \/ mentions "ledger range" m \/ mentions "retention" m.

(** A JSON-RPC request of the poller succeeds exactly with the result of an
    answer that arrived before the limit with a successful status and no error
    member; an answer that comes later is a timeout naming the method; an error
    member is reported with its message, as a retention error exactly when it
    speaks of the start ledger, the ledger range or the retention window. *)
Theorem rpc_request_correct {A} limit method (reply : Z * outcome (RpcAnswer A)) :
  (forall r, rpcRequest limit method reply = Ok r <->
     exists d a, reply = (d, Ok a) /\ (d < limit)%Z /\ (200 <= ra_status a < 300)%Z /\ ra_body a = Ok (RpcResult r)) /\
  ((limit <= reply.1)%Z -> exists text, rpcRequest limit method reply = Throw (JsError text) /\ mentions method text) /\
  (forall d a message, reply = (d, Ok a) -> (d < limit)%Z -> (200 <= ra_status a < 300)%Z ->
     ra_body a = Ok (RpcError message) ->
     exists class, rpcRequest limit method reply = Throw (JsError (class +:+ ": " +:+ message)) /\
       (class = "Soroban RPC retention error — requested ledger is outside the node's retention window" /\ about_retention message \/
        class = "Soroban RPC error" /\ ~ about_retention message)).
Proof.
  assert (Hret : forall m, is_retention m = true <-> about_retention m).
  { intros m. unfold is_retention, about_retention. rewrite !orb_true_iff, start_ledger_iff, !includes_iff. tauto. }
  unfold rpcRequest. split_and!.
  - intros r. destruct (in_time limit reply) as [r'|] eqn:Hin.
    2: { split; [done|]. intros (d & a & -> & Hd & _). by rewrite (proj2 (in_time_spec limit _ (Ok a)) ltac:(eauto)) in Hin. }
    apply in_time_spec in Hin as (d & -> & Hd). destruct r' as [a|e]; [|by split; [|intros (? & ? & [=] & _)]].
    destruct (Horizon.response_ok (ra_status a)) eqn:Hs; cbn [negb].
    + apply response_ok_spec in Hs. destruct (ra_body a) as [[m|r']|e] eqn:Hb; split; try done.
      all: try (intros (? & ? & [= <- <-] & _ & _ & H); congruence).
      intros [= ->]. by exists d, a.
    + split; [done|]. intros (? & ? & [= <- <-] & _ & H & _). apply response_ok_spec in H. congruence.
  - intros Hd. destruct (in_time limit reply) as [r'|] eqn:Hin.
    + apply in_time_spec in Hin as (d & -> & Hd'). cbn in Hd. lia.
    + eexists. split; [done|]. unfold quoted. exists ("Soroban RPC request " +:+ DQ), (DQ +:+ " timed out after " +:+ ms_text limit +:+ "ms").
      by rewrite !string_app_assoc.
  - intros d a message -> Hd Hs Hb. rewrite (proj2 (in_time_spec limit _ (Ok a)) ltac:(eauto)).
    apply response_ok_spec in Hs. rewrite Hs, Hb. cbn [negb].
    destruct (is_retention message) eqn:Hr.
    + eexists. split; [|left; split; [reflexivity|by apply Hret]]. done.
    + eexists. split; [|right; split; [reflexivity|]]; [done|]. rewrite <- Hret. congruence.
Qed.
End rpc.

(** ** The queue dashboard *)

Section dashboard.
Context {Q : QueueDashboard.Queues} (env : Env).
Import QueueDashboard.

(** What the dashboard says of a queue: what BullMQ reported, with a missing
    count as zero, or zeros. *)
Definition reported (name : string) (s : QueueStatsDto) : Prop :=
  qs_name s = name /\
  ((exists t raw, bq_getJobCounts t name = Ok raw /\ bq_isPaused (S t) name = Ok (qs_isPaused s) /\
      qs_counts s = mkCounts (coalesce (rc_waiting raw) 0%Z) (coalesce (rc_active raw) 0%Z) (coalesce (rc_completed raw) 0%Z)
        (coalesce (rc_failed raw) 0%Z) (coalesce (rc_delayed raw) 0%Z) (coalesce (rc_paused raw) 0%Z)) \/
   ((exists t e, bq_getJobCounts t name = Throw e \/ bq_isPaused t name = Throw e) /\
    qs_counts s = no_jobs /\ qs_isPaused s = false)).

Lemma queue_stats_reported name w :
  exists s, (run (queue_stats name) env w).1 = Ok s /\ reported name s /\ w_db (run (queue_stats name) env w).2 = w_db w.
Proof.
  unfold queue_stats, reported. rewrite run_catch, run_bind, run_await. cbn [ext_call].
  destruct (bq_getJobCounts (w_tick w) name) as [raw|e] eqn:Hc.
  - rewrite run_bind, run_await. cbn [ext_call].
    destruct (bq_isPaused (w_tick (tick w)) name) as [p|e] eqn:Hp; eexists; (split; [reflexivity|]);
      (split; [split; [done|]|done]).
    + left. by exists (w_tick w), raw.
    + right. split; [|done]. exists (w_tick (tick w)), e. by right.
  - eexists. split; [reflexivity|]. split; [split; [done|]|done]. right. split; [|done]. exists (w_tick w), e. by left.
Qed.

Lemma map_queues_reported names w :
  exists l, (run (map_queues names) env w).1 = Ok l /\ Forall2 reported names l /\
    w_db (run (map_queues names) env w).2 = w_db w.
Proof.
  revert w. induction names as [|name names IH]; intros w; cbn [map_queues]; [by exists []|].
  rewrite run_bind. destruct (queue_stats_reported name w) as (s & Hs & Hrep & Hdb).
  destruct (run (queue_stats name) env w) as [r w1]. cbn in Hs, Hdb. subst r.
  rewrite run_bind. destruct (IH w1) as (l & Hl & Hall & Hdb').
  destruct (run (map_queues names) env w1) as [r w2]. cbn in Hl, Hdb'. subst r.
  exists (s :: l). split_and!; [done|by constructor|]. change (w_db w2 = w_db w). by rewrite Hdb'.
Qed.

Definition opens (name : string) : bool := is_ok (bq_new name).

Lemma open_queues s names :
  foldl open_queue s names =
    mkService (sv_queues s ++ List.filter opens names) (sv_redisConnected s || existsb opens names).
Proof.
  revert s. induction names as [|name names IH]; intros [q c]; cbn [foldl List.filter existsb].
  - by rewrite app_nil_r, orb_false_r.
  - rewrite IH. unfold open_queue, opens. destruct (bq_new name); cbn; [|done].
    by rewrite orb_true_r, <- app_assoc.
Qed.

(** The dashboard always answers and writes nothing.  With Redis configured it
    lists the queues that could be opened, in the fixed order, each with what
    BullMQ reports or with zeros when it cannot be asked; otherwise, or when no
    queue could be opened, it lists the three queues as empty. *)
Theorem dashboard_reports_queues w :
  exists d w', run (getDashboard (onModuleInit env)) env w = (Ok d, w') /\ w_db w' = w_db w /\
    let open := List.filter opens ["auto-release"; "tracking-poll"; "notifications-retry"] in
    match truthy (env_config env "REDIS_URL"), open with
    | true, _ :: _ => Forall2 reported open (qd_queues d)
    | _, _ => qs_name <$> qd_queues d = ["auto-release"; "tracking-poll"; "notifications-retry"] /\
        Forall (fun s => qs_counts s = no_jobs /\ qs_isPaused s = false) (qd_queues d)
    end.
Proof.
  cbv zeta. unfold onModuleInit. destruct (truthy (env_config env "REDIS_URL")).
  2: { eexists _, _. split; [reflexivity|]. split; [done|]. split; [done|]. by repeat constructor. }
  rewrite open_queues. cbn [sv_queues sv_redisConnected app orb]. fold queueNames.
  destruct (List.filter opens queueNames) as [|q l] eqn:Hl; unfold getDashboard; cbn [sv_queues sv_redisConnected].
  - rewrite orb_true_r. eexists _, _. split; [reflexivity|]. split; [done|]. split; [done|]. by repeat constructor.
  - replace (existsb opens queueNames) with true.
    2: { symmetry. apply existsb_exists. exists q. apply filter_In. rewrite Hl. by left. }
    cbn [negb orb length Nat.eqb]. rewrite run_bind.
    destruct (map_queues_reported (q :: l) w) as (stats & Hs & Hall & Hdb).
    destruct (run (map_queues (q :: l)) env w) as [r w1]. cbn in Hs, Hdb. subst r.
    rewrite run_bind, run_await. by eexists _, _.
Qed.
End dashboard.

(** ** Instances *)

#[local] Instance demo_probes : Probes := {
  pb_get _ _ := (20%Z, Ok 200%Z);
  pb_getHealth := Some (fun _ => (30%Z, Ok (Some "pass")));
  pb_sorobanHealth := true;
  pb_ping _ := "PONG";
  pb_aborted := "This operation was aborted";
  pb_transaction t _ := if (t <? 4)%nat then Throw (JsError "Request failed with status code 404")
                        else Ok (200%Z, Some (Finite (Z.of_nat t) 0));
  pb_identity := None }.

(** The transaction appears after two rounds and has enough confirmations at
    the third. *)
Lemma horizon_confirmation_terminates_witness :
  confirm_outcome ticking_env "h" 3 10000 demo_now (Ok (Horizon.mkConfirmation (Finite 4 0) "h"))
    (run (Horizon.pollConfirmation "h" 3 10000) ticking_env (demo_world [])).2.
Proof.
  pose proof (horizon_confirmation_terminates ticking_env
    ltac:(intros t; cbn [ticking_env env_now]; lia)
    ltac:(intros t; cbn [ticking_env env_now]; unfold Horizon.pollIntervalMs; lia) "h" 3 10000 (demo_world []) ltac:(lia)) as H.
  assert (Hr : (run (Horizon.pollConfirmation "h" 3 10000) ticking_env (demo_world [])).1 =
    Ok (Horizon.mkConfirmation (Finite 4 0) "h")) by (vm_compute; reflexivity).
  rewrite Hr in H. exact H.
Defined.
