(* ===== verification/AnalyticsSpec.v ===== *)
(** * Properties of the analytics

    The statistics of a vendor and of the platform against sums over the rows
    they summarise, and the days a chart covers. *)
From S2P Require Import Prelude Records Doubles Dates Text Tables Crypto Effects Cache Prisma EscrowRepo Coherence Demo QuerySpec Contract Lifecycle EscrowSvc Vendor Notify Analytics.
Local Open Scope prog_scope.
Local Open Scope Z_scope.

(** Runs a sequence of database calls that all answer. *)
Ltac run_reads :=
  repeat first [rewrite run_bind | rewrite run_await, db_call_reliable by done; cbn [fst snd]
    | match goal with |- context [run (Ret ?a) ?e ?w] => change (run (Ret a) e w) with (@Ok _ a, w); cbn [fst snd] end].

(** ** Maps built in a loop *)

Section foldl_insert.
Context {A V : Type} (key : A -> string) (val : A -> V).

Abbreviation build m l := (foldl (fun m x => <[key x := val x]> m) m l).

Lemma foldl_insert_none l (m : gmap string V) k : (forall y, y ∈ l -> key y <> k) -> build m l !! k = m !! k.
Proof.
  revert m. induction l as [|x l IH]; intros m Hl; [done|]. simpl.
  rewrite IH by (intros y Hy; apply Hl; by right).
  apply lookup_insert_ne, Hl. by left.
Qed.

Lemma foldl_insert_some l (m : gmap string V) x :
  x ∈ l -> (forall y, y ∈ l -> key y = key x -> y = x) -> build m l !! key x = Some (val x).
Proof.
  revert m. induction l as [|z l IH]; intros m Hx Hinj; [by apply not_elem_of_nil in Hx|].
  simpl. destruct (decide (Exists (fun y => key y = key x) l)) as [Hex|Hno].
  - apply Exists_exists in Hex as (y & Hy & Hk).
    assert (y = x) as -> by (apply Hinj; [by right|done]).
    apply IH; [done|]. intros y' Hy'. apply Hinj. by right.
  - rewrite foldl_insert_none.
    + assert (z = x) as ->; [|by rewrite lookup_insert_eq].
      apply elem_of_cons in Hx as [->|Hx]; [done|]. destruct Hno. apply Exists_exists. eauto.
    + intros y Hy Hk. apply Hno. apply Exists_exists. eauto.
Qed.
End foldl_insert.

(** ** Sums over rows *)

(** The weights of the rows whose state satisfies a predicate. *)
Definition wsum (g : PrismaEscrow -> Z) (P : EscrowState -> bool) (rows : list PrismaEscrow) : Z :=
  foldr (fun r a => (if P (e_state r) then g r else 0) + a) 0 rows.

(** The weights over the states of a list that satisfy a predicate. *)
Definition ssum (f : EscrowState -> Z) (P : EscrowState -> bool) (l : list EscrowState) : Z :=
  foldr (fun s a => (if P s then f s else 0) + a) 0 l.

Lemma ssum_cons f P s l : ssum f P (s :: l) = (if P s then f s else 0) + ssum f P l.
Proof. done. Qed.

Lemma ssum_add f g P l : ssum (fun s => f s + g s) P l = ssum f P l + ssum g P l.
Proof. unfold ssum. induction l as [|s l IH]; simpl; [done|]. destruct (P s); lia. Qed.

Lemma ssum_zero f P l : (forall s, s ∈ l -> f s = 0) -> ssum f P l = 0.
Proof.
  induction l as [|s l IH]; intros Hf; [done|]. simpl. rewrite IH by (intros s' Hs; apply Hf; by right).
  rewrite (Hf s) by by left. by destruct (P s).
Qed.

Lemma ssum_indicator n x P l :
  NoDup l -> x ∈ l -> ssum (fun s => if bool_decide (x = s) then n else 0) P l = if P x then n else 0.
Proof.
  induction 1 as [|s l Hs _ IH]; intros Hx; [by apply not_elem_of_nil in Hx|].
  simpl. case_bool_decide as E.
  - subst s. rewrite ssum_zero; [destruct (P x); lia|].
    intros s' Hs'. rewrite bool_decide_eq_false_2; [done|]. by intros ->.
  - apply elem_of_cons in Hx as [->|Hx]; [done|]. rewrite IH by done. destruct (P s); lia.
Qed.

Lemma all_states s : s ∈ ALL_STATES.
Proof. destruct s; unfold ALL_STATES; set_solver. Qed.

Lemma all_states_nodup : NoDup ALL_STATES.
Proof. apply NoDup_ListNoDup. unfold ALL_STATES. repeat constructor; simpl; intuition discriminate. Qed.

Lemma wsum_states g P rows :
  ssum (fun s => wsum g (fun s' => bool_decide (s' = s)) rows) P ALL_STATES = wsum g P rows.
Proof.
  induction rows as [|r rows IH]; [by apply ssum_zero|].
  transitivity (ssum (fun s => (if bool_decide (e_state r = s) then g r else 0) +
    wsum g (fun s' => bool_decide (s' = s)) rows) P ALL_STATES); [done|].
  rewrite ssum_add, ssum_indicator, IH; [done|apply all_states_nodup|apply all_states].
Qed.

Lemma count_wsum P rows : count_where (fun r => P (e_state r)) rows = wsum (fun _ => 1) P rows.
Proof.
  unfold count_where, wsum. induction rows as [|r rows IH]; [done|]. cbn [List.filter foldr].
  destruct (P _); cbn [length]; lia.
Qed.

Lemma total_filter Q P rows :
  (forall r, Q r = P (e_state r)) -> total (List.filter Q rows) = wsum e_amount P rows.
Proof.
  intros HQ. unfold total, wsum. induction rows as [|r rows IH]; csimpl; [done|]. rewrite HQ.
  destruct (P _); csimpl; lia.
Qed.

Lemma total_wsum P rows : total (List.filter (fun r => P (e_state r)) rows) = wsum e_amount P rows.
Proof. by apply total_filter. Qed.

Lemma wsum_nonneg g P rows : Forall (fun r => 0 <= g r) rows -> 0 <= wsum g P rows.
Proof. unfold wsum. induction 1; simpl; [done|]. destruct (P _); lia. Qed.

Lemma wsum_all g rows : wsum g (fun _ => true) rows = foldr Z.add 0 (g <$> rows).
Proof. unfold wsum. induction rows; csimpl; lia. Qed.

Lemma wsum_length rows : wsum (fun _ => 1) (fun _ => true) rows = Z.of_nat (length rows).
Proof. unfold wsum. induction rows; cbn [length foldr]; lia. Qed.

Lemma wsum_le g P rows : Forall (fun r => 0 <= g r) rows -> wsum g P rows <= wsum g (fun _ => true) rows.
Proof. unfold wsum. induction 1; simpl; [done|]. destruct (P _); lia. Qed.

(** The groups, seen as a function of the state. *)
Abbreviation g_count rows := (fun s => wsum (fun _ => 1) (fun s' => bool_decide (s' = s)) rows).
Abbreviation g_total rows := (fun s => wsum e_amount (fun s' => bool_decide (s' = s)) rows).

Lemma group_of_cases rows s :
  (group_of rows s = None /\ g_count rows s = 0 /\ g_total rows s = 0) \/
  (group_of rows s = Some (mkGroup s (g_count rows s) (Some (g_total rows s))) /\ 0 < g_count rows s).
Proof.
  cbv beta. rewrite <- count_wsum, <- total_wsum. unfold count_where, group_of, in_state.
  destruct (List.filter _ rows) as [|r l]; [by left|right]. split; [done|]. cbn [length]. lia.
Qed.

Lemma fold_groups {S} (f : S -> AnalyticsEscrowStateGroup -> S) (m : S -> Z) (P : EscrowState -> bool) rows :
  (forall s g, m (f s g) = m s + (if P (sg_state g) then sg_count g else 0)) ->
  forall s, m (foldl f s (groupBy_state rows)) = m s + wsum (fun _ => 1) P rows.
Proof.
  intros Hf s. rewrite <- (wsum_states (fun _ => 1) P rows). unfold groupBy_state.
  generalize ALL_STATES. intros l. revert s. induction l as [|x l IH]; intros s; [cbn; lia|].
  rewrite ssum_cons. destruct (group_of_cases rows x) as [(Hg & Hc & _)|[Hg _]]; cbn [omap list_omap]; rewrite Hg.
  - rewrite IH, Hc. destruct (P x); lia.
  - cbn [foldl]. rewrite IH, Hf. cbn [sg_state sg_count]. lia.
Qed.

(** ** The statistics of a vendor *)

Section stats.
Context {D : DecimalOps} {X : DecimalExact}.
Import AnalyticsService.

Lemma fold_volume (m : Totals -> Z) (P : EscrowState -> bool) rows :
  (forall t g, m (add_group t g) = if P (sg_state g) then decimalAdd (m t) (sg_sum g) else m t) ->
  Forall (fun r => 0 <= e_amount r) rows -> total rows < 10 ^ 20 ->
  forall t, m t = 0 -> m (foldl add_group t (groupBy_state rows)) = wsum e_amount P rows.
Proof using X.
  intros Hm Hpos Hbig t Ht.
  assert (Hle : m t + wsum e_amount P rows < 10 ^ 20).
  { pose proof (wsum_le e_amount P rows Hpos). rewrite wsum_all in *. unfold total in Hbig. lia. }
  assert (H0 : 0 <= m t) by lia.
  enough (m (foldl add_group t (groupBy_state rows)) = m t + wsum e_amount P rows) by lia. clear Ht.
  rewrite <- (wsum_states e_amount P rows) in *. unfold groupBy_state.
  assert (Hs : forall s, 0 <= g_total rows s) by (intros s; by apply wsum_nonneg).
  revert Hle. generalize ALL_STATES. intros l. revert t H0.
  induction l as [|x l IH]; intros t H0 Hle; [cbn; lia|]. rewrite ssum_cons in *.
  assert (0 <= ssum (g_total rows) P l).
  { clear -Hs. induction l as [|a l IH]; [done|]. rewrite ssum_cons. specialize (Hs a). destruct (P a); lia. }
  specialize (Hs x).
  destruct (group_of_cases rows x) as [(Hg & _ & Hc)|[Hg _]]; cbn [omap list_omap]; rewrite Hg.
  - rewrite IH; destruct (P x); lia.
  - cbn [foldl]. assert (Hadd : m (add_group t (mkGroup x (g_count rows x) (Some (g_total rows x)))) =
        m t + (if P x then g_total rows x else 0)).
    { rewrite Hm. cbn [sg_state sg_sum decimalAdd]. destruct (P x); [|lia]. apply decimal_plus_exact. lia. }
    rewrite IH; rewrite Hadd; destruct (P x); lia.
Qed.
End stats.

(** The rows of a vendor in given states. *)
Definition vendor_rows (vendor : string) (states : list EscrowState) (w : World) : list PrismaEscrow :=
  List.filter (fun r => bool_decide (e_vendorAddress r = vendor) && bool_decide (e_state r ∈ states)) (escrow_rows (w_db w)).

Lemma vendor_rows_filter vendor states w :
  vendor_rows vendor states w =
  List.filter (fun r => bool_decide (e_state r ∈ states)) (List.filter (of_vendor vendor) (escrow_rows (w_db w))).
Proof.
  unfold vendor_rows, of_vendor. induction (escrow_rows (w_db w)) as [|r l IH]; simpl; [done|].
  destruct (bool_decide (e_vendorAddress r = vendor)); simpl; [|done]. by destruct (bool_decide _); rewrite <- IH.
Qed.

Lemma vendor_rows_all vendor w : vendor_rows vendor ALL_STATES w = List.filter (of_vendor vendor) (escrow_rows (w_db w)).
Proof.
  rewrite vendor_rows_filter. generalize (List.filter (of_vendor vendor) (escrow_rows (w_db w))) as l.
  induction l as [|r l IH]; simpl; [done|]. rewrite bool_decide_eq_true_2 by apply all_states. by rewrite IH.
Qed.

Definition volume (rows : list PrismaEscrow) : Z := foldr (fun r a => e_amount r + a) 0 rows.

Lemma total_volume rows : total rows = volume rows.
Proof. unfold total, volume. induction rows; csimpl; lia. Qed.

Section vendor_stats.
Context {D : DecimalOps} {X : DecimalExact}.
Import AnalyticsService.

(** The statistics of a vendor are the numbers and the
    sums of its escrows in the states each figure is about: all of them, the
    active ones, the completed and released, the disputed and the cancelled
    ones.  Volumes are summed exactly, up to twenty digits, and rounded once;
    the channels are those of the preferences, or mail when there are none. *)
Theorem vendor_stats_correct env w vendor :
  db_reliable env ->
  let rows := vendor_rows vendor ALL_STATES w in
  let active := vendor_rows vendor [CREATED; FUNDED; SHIPPED; DELIVERED] w in
  let number_of states := Z.of_nat (length (vendor_rows vendor states w)) in
  Forall (fun r => 0 <= e_amount r) rows -> volume rows < 10 ^ 20 ->
  exists r, (run (getTransactionStats vendor) env w).1 = Ok r /\
    st_totalTransactions (sr_stats r) = number_of ALL_STATES /\
    st_activeTransactions (sr_stats r) = number_of [CREATED; FUNDED; SHIPPED; DELIVERED] /\
    st_completedTransactions (sr_stats r) = number_of [COMPLETED; RELEASED] /\
    st_disputedTransactions (sr_stats r) = number_of [DISPUTED] /\
    st_cancelledTransactions (sr_stats r) = number_of [CANCELLED] /\
    st_totalVolume (sr_stats r) = ratio_to_number (volume rows) DECIMAL_SCALE /\
    st_activeVolume (sr_stats r) = ratio_to_number (volume active) DECIMAL_SCALE /\
    (sr_email r = true <->
       match ac_settings (db_accounts (w_db w)) !! vendor with
       | Some s => "EMAIL"%string ∈ ts_notificationChannels s
       | None => True
       end).
Proof using X.
  intros DB rows active number_of Hpos Hbig. unfold number_of.
  unfold rows in *. rewrite vendor_rows_all in *. rewrite <- total_volume in *.
  unfold active. rewrite <- (total_volume (vendor_rows _ _ _)). rewrite !vendor_rows_filter.
  set (vr := List.filter (of_vendor vendor) (escrow_rows (w_db w))) in *.
  unfold getTransactionStats, AnalyticsRepository.getEscrowStateGroups, AnalyticsRepository.findNotificationChannels, settings_findUnique.
  rewrite run_bind, run_await, db_call_reliable by done. cbn [fst snd].
  rewrite !run_bind, run_await, db_call_reliable by done. cbn [fst snd run]. fold vr.
  set (t0 := mkTotals 0 0 0 0 0 0 0). set (t := foldl add_group t0 (groupBy_state vr)).
  assert (Hc : forall (m : Totals -> Z) (P : EscrowState -> bool), (forall t g, m (add_group t g) = m t + (if P (sg_state g) then sg_count g else 0)) ->
      m t0 = 0 -> m t = wsum (fun _ => 1) P vr).
  { intros m P Hm H0. unfold t. rewrite (fold_groups add_group m P) by done. lia. }
  assert (Hl : forall states : list EscrowState, Z.of_nat (length (List.filter (fun r => bool_decide (e_state r ∈ states)) vr)) =
      wsum (fun _ => 1) (fun s => bool_decide (s ∈ states)) vr).
  { intros states. symmetry. by rewrite <- count_wsum. }
  rewrite !Hl. rewrite (total_filter _ activeStates) by (intros r; by destruct (e_state r)).
  eexists. split; [reflexivity|]. cbn [sr_stats sr_email stats_of st_totalTransactions st_activeTransactions
    st_completedTransactions st_disputedTransactions st_cancelledTransactions st_totalVolume st_activeVolume].
  split_and!.
  - rewrite <- wsum_length. apply Hc; [|done]. by intros u [s n x].
  - apply Hc; [|done]. intros u [s n x]. by destruct s; simpl; lia.
  - apply Hc; [|done]. intros u [s n x]. by destruct s; simpl; lia.
  - apply Hc; [|done]. intros u [s n x]. by destruct s; simpl; lia.
  - apply Hc; [|done]. intros u [s n x]. by destruct s; simpl; lia.
  - unfold decimalToNumber, t. f_equal. trans (wsum e_amount (fun _ => true) vr); [|apply wsum_all].
    apply (fold_volume tt_volume); [by intros u [s n x]|done|done|done].
  - unfold decimalToNumber. f_equal.
    apply (fold_volume tt_activeVolume); [|done|done|done]. intros u [s n x]. by destruct s.
  - rewrite bool_decide_eq_true. cbn [w_db set_db tick]. destruct (_ !! vendor); simpl; [done|].
    unfold DEFAULT_NOTIFICATION_CHANNELS. set_solver.
Qed.
End vendor_stats.

(** ** The platform totals *)

Lemma EscrowState_str_inj s s' : EscrowState_str s = EscrowState_str s' -> s = s'.
Proof. destruct s, s'; done. Qed.

Lemma count_in_state rows s : count_where (in_state s) rows = g_count rows s.
Proof. pose proof (count_wsum (fun s' => bool_decide (s' = s)) rows) as H. exact H. Qed.

Lemma elem_groups rows s n :
  (s, n) ∈ (fun g => (sg_state g, sg_count g)) <$> groupBy_state rows <->
  n = count_where (in_state s) rows /\ 0 < n.
Proof.
  unfold groupBy_state. rewrite list_elem_of_fmap, count_in_state. split.
  - intros (g & [= -> ->] & Hg). apply list_elem_of_omap in Hg as (x & _ & Hx).
    destruct (group_of_cases rows x) as [(Hn & _)|[Hn ?]]; rewrite Hn in Hx; simplify_eq. by simpl.
  - intros [-> Hpos]. destruct (group_of_cases rows s) as [(_ & Hn & _)|[Hg _]]; [lia|].
    exists (mkGroup s (g_count rows s) (Some (g_total rows s))). split; [done|]. apply list_elem_of_omap. exists s. split; [apply all_states|done].
Qed.

Lemma remove_dups_size (l : list string) : Z.of_nat (length (remove_dups l)) = Z.of_nat (size (list_to_set l : gset string)).
Proof.
  f_equal. rewrite <- (size_list_to_set (C := gset string) (remove_dups l)) by apply NoDup_remove_dups.
  f_equal. apply set_eq. intros x. by rewrite !elem_of_list_to_set, elem_of_remove_dups.
Qed.

Lemma foldl_add (l : list (EscrowState * Z)) n : foldl (fun s g => s + g.2) n l = n + foldl (fun s g => s + g.2) 0 l.
Proof. revert n. induction l as [|g l IH]; intros n; simpl; [lia|]. rewrite (IH (n + _)), (IH (0 + _)). lia. Qed.

Lemma sum_groups rows :
  foldl (fun s (g : EscrowState * Z) => s + g.2) 0 ((fun g => (sg_state g, sg_count g)) <$> groupBy_state rows) =
  Z.of_nat (length rows).
Proof.
  rewrite <- wsum_length, <- (Z.add_0_l (wsum _ _ _)).
  rewrite <- (fold_groups (fun n g => n + sg_count g) (fun n => n) (fun _ => true)) by done.
  generalize (groupBy_state rows). intros l. generalize 0. induction l as [|g l IH]; intros n; [done|]. apply IH.
Qed.

(** The dashboard agrees with the tables: the number of
    escrows, their volume and mean, how many are in each state that occurs and
    no other, the number of different vendors and buyers, of disputes, and of
    the disputes that are open or under review. *)
Theorem admin_stats_correct env w :
  db_reliable env ->
  let rows := escrow_rows (w_db w) in
  let disputes P := Z.of_nat (length (List.filter P (dispute_rows (w_db w)))) in
  let people column := Z.of_nat (size (list_to_set (column <$> rows) : gset string)) in
  exists r, (run AdminStats.getStats env w).1 = Ok r /\
    AdminStats.as_totalEscrows r = Z.of_nat (size (db_escrows (w_db w))) /\
    AdminStats.as_totalVolume r = ratio_to_number (volume rows) DECIMAL_SCALE /\
    AdminStats.as_averageEscrowAmount r =
      (if bool_decide (rows = []) then zero
       else number_div (ratio_to_number (volume rows) DECIMAL_SCALE) (Z.of_nat (length rows))) /\
    (forall s n, AdminStats.as_escrowsByState r !! EscrowState_str s = Some n <->
       n = Z.of_nat (length (List.filter (fun e => bool_decide (e_state e = s)) rows)) /\ 0 < n) /\
    AdminStats.as_uniqueVendors r = people e_vendorAddress /\
    AdminStats.as_uniqueBuyers r = people e_buyerAddress /\
    AdminStats.as_totalDisputes r = disputes (fun _ => true) /\
    AdminStats.as_openDisputes r = disputes (fun d => bool_decide (d_status d ∈ [OPEN; UNDER_REVIEW])).
Proof.
  intros DB rows disputes people.
  unfold AdminStats.getStats, AdminStats.collectTotals, AdminStats.escrow_query, AdminStats.countDisputes,
    AdminStats.countOpenDisputes, dispute_count.
  run_reads.
  cbn [w_db set_db tick].
  fold rows. eexists. split; [reflexivity|]. cbn [AdminStats.as_totalEscrows AdminStats.as_totalVolume
    AdminStats.as_averageEscrowAmount AdminStats.as_escrowsByState AdminStats.as_uniqueVendors
    AdminStats.as_uniqueBuyers AdminStats.as_totalDisputes AdminStats.as_openDisputes
    AdminStats.at_stateGroups AdminStats.at_totalVolume AdminStats.at_uniqueVendors AdminStats.at_uniqueBuyers].
  rewrite !sum_groups, total_volume. split_and!.
  - unfold rows, escrow_rows. by rewrite length_fmap, length_map_to_list.
  - done.
  - destruct rows as [|r l]; [done|]. rewrite bool_decide_eq_false_2 by done.
    destruct (Z.ltb_spec 0 (Z.of_nat (length (r :: l)))) as [|Hl]; [done|]. cbn [length] in Hl. lia.
  - intros s n. rewrite <- (elem_groups rows s n). set (groups := _ <$> groupBy_state rows).
    assert (Hu : forall x n1 n2, (x, n1) ∈ groups -> (x, n2) ∈ groups -> n1 = n2).
    { intros x n1 n2 H1 H2. apply elem_groups in H1 as [-> _], H2 as [-> _]. done. }
    split.
    + intros Hm. destruct (decide (Exists (fun g => g.1 = s) groups)) as [Hex|Hno].
      * apply Exists_exists in Hex as ([s' n'] & Hg & Hs). simpl in Hs. subst s'.
        rewrite (foldl_insert_some (fun g => EscrowState_str g.1) snd groups ∅ (s, n')) in Hm.
        -- simpl in Hm. by simplify_eq.
        -- done.
        -- intros [s2 n2] Hy Hk%EscrowState_str_inj. simpl in Hk. subst s2. f_equal. by eapply Hu.
      * rewrite (foldl_insert_none (fun g => EscrowState_str g.1) snd) in Hm; [by rewrite lookup_empty in Hm|].
        intros y Hy Hk%EscrowState_str_inj. apply Hno. apply Exists_exists. eauto.
    + intros Hg. rewrite (foldl_insert_some (fun g => EscrowState_str g.1) snd groups ∅ (s, n)); [done|done|].
      intros [s2 n2] Hy Hk%EscrowState_str_inj. simpl in Hk. subst s2. f_equal. by eapply Hu.
  - apply remove_dups_size.
  - apply remove_dups_size.
  - done.
  - unfold disputes. do 2 f_equal. apply filter_ext. intros d. by destruct (d_status d).
Qed.

(** ** The daily chart *)

#[local] Transparent toISOString.

Lemma day_key_iso d : toISOString (d * MS_PER_DAY) = day_key d +:+ "T00:00:00.000Z".
Proof.
  unfold day_key, date_part, toISOString, MS_PER_DAY.
  rewrite Z.div_mul, Z.mod_mul by lia. by destruct (civil_from_days d) as [[y m] dd].
Qed.

Lemma date_part_day ms : date_part ms = day_key (ms / MS_PER_DAY).
Proof.
  unfold day_key, date_part, toISOString, MS_PER_DAY.
  rewrite Z.div_mul by lia. by destruct (civil_from_days _) as [[y m] dd].
Qed.

#[local] Opaque toISOString.

Definition iso_day (d : Z) : Prop := in_iso_range (d * MS_PER_DAY).

Lemma day_key_inj d d' : iso_day d -> iso_day d' -> day_key d = day_key d' -> d = d'.
Proof.
  intros Hd Hd' Hk. apply parse_toISOString in Hd, Hd'. rewrite day_key_iso in Hd, Hd'.
  rewrite Hk in Hd. rewrite Hd in Hd'. injection Hd'. unfold MS_PER_DAY. lia.
Qed.

Lemma iso_between a b d : iso_day a -> iso_day b -> a <= d <= b -> iso_day d.
Proof. unfold iso_day, in_iso_range, MS_PER_DAY. lia. Qed.

(** Rows created on a day, in UTC. *)
Definition created_on (rows : list PrismaEscrow) (d : Z) : list PrismaEscrow :=
  List.filter (fun r => e_createdAt r / MS_PER_DAY =? d) rows.

Lemma created_sum rows first n :
  Forall (fun r => first <= e_createdAt r / MS_PER_DAY < first + n) rows ->
  foldr (fun d a => Z.of_nat (length (created_on rows d)) + a) 0 (seqZ first n) = Z.of_nat (length rows).
Proof.
  assert (Hmono : forall f l (x : Z), NoDup l ->
    foldr (fun d a => (if x =? d then f d + 1 else f d) + a) 0 l =
    foldr (fun d a => f d + a) 0 l + (if bool_decide (x ∈ l) then 1 else 0)).
  { intros f l x. induction 1 as [|y l Hy _ IH]; [by rewrite bool_decide_eq_false_2 by set_solver|].
    cbn [foldr]. rewrite IH. destruct (Z.eqb_spec x y) as [->|Hxy].
    - rewrite bool_decide_eq_false_2 by done. rewrite bool_decide_eq_true_2 by by left. lia.
    - rewrite (bool_decide_ext (x ∈ y :: l) (x ∈ l)) by (rewrite elem_of_cons; tauto). lia. }
  induction 1 as [|r rows Hr _ IH].
  - induction (seqZ first n) as [|d l IHl]; [done|]. exact IHl.
  - cbn [length]. rewrite Nat2Z.inj_succ, <- IH.
    rewrite (foldr_ext _ (fun d a => (if e_createdAt r / MS_PER_DAY =? d
      then Z.of_nat (length (created_on rows d)) + 1 else Z.of_nat (length (created_on rows d))) + a) 0 0 (seqZ first n) (seqZ first n)); [|..]; try done.
    + rewrite Hmono by apply NoDup_seqZ. rewrite bool_decide_eq_true_2 by (apply elem_of_seqZ; lia). lia.
    + intros d a. unfold created_on. cbn [List.filter]. destruct (_ =? d); cbn [length]; lia.
Qed.

Lemma filter_none {A} (P : A -> bool) l : (forall x, x ∈ l -> P x = false) -> List.filter P l = [].
Proof.
  induction l as [|x l IH]; intros Hl; [done|]. simpl. rewrite (Hl x) by by left. apply IH. intros y Hy. apply Hl. by right.
Qed.

Lemma leb_div a b : (a * MS_PER_DAY <=? b) = (a <=? b / MS_PER_DAY).
Proof.
  apply eq_iff_eq_true. rewrite !Z.leb_le. unfold MS_PER_DAY.
  pose proof (Z.mul_div_le b 86400000). pose proof (Z.mul_succ_div_gt b 86400000). lia.
Qed.

Section chart.
Context {D : DecimalOps} {TZ : TimeZones}.
Import AnalyticsRepository AnalyticsService.

(** The day the chart files the round for the UTC day [d] under. *)
Abbreviation shown timezone d := (local_day timezone (d * MS_PER_DAY)).

Lemma fill_days m first n endDate timezone :
  (first + Z.of_nat n - 1) * MS_PER_DAY <= endDate ->
  fill n m (first * MS_PER_DAY) endDate timezone =
  (fun d => coalesce (m !! day_key (shown timezone d)) (empty_day (day_key (shown timezone d)))) <$> seqZ first (Z.of_nat n).
Proof.
  revert first. induction n as [|n IH]; intros first Hend; [done|].
  rewrite seqZ_cons by lia. cbn [fill]. unfold MS_PER_DAY in *.
  destruct (Z.leb_spec (first * 86400000) endDate) as [_|]; [|lia]. rewrite fmap_cons. f_equal.
  replace (first * 86400000 + 86400000) with (Z.succ first * 86400000) by lia.
  rewrite IH by lia. do 2 f_equal. lia.
Qed.

Lemma daily_map_days (f : Z -> DailyVolumeAggRow) days :
  (forall d, ag_date (f d) = d * MS_PER_DAY) ->
  daily_map (f <$> days) = foldl (fun m d => <[day_key d := to_daily (f d)]> m) ∅ days.
Proof.
  intros Hf. unfold daily_map. generalize (∅ : gmap string DailyVolumeDataDto).
  induction days as [|d days IH]; intros m; [done|]. csimpl. rewrite IH, Hf. done.
Qed.

Lemma elem_days timezone (rows : list PrismaEscrow) d :
  d ∈ sort_by Z.leb (remove_dups ((fun r => local_day timezone (e_createdAt r)) <$> rows)) <->
  exists r, r ∈ rows /\ local_day timezone (e_createdAt r) = d.
Proof.
  rewrite sort_by_perm, elem_of_remove_dups, list_elem_of_fmap. split; intros (r & ? & ?); exists r; by split.
Qed.

Lemma entry_lookup timezone rows d :
  Forall (fun r => iso_day (local_day timezone (e_createdAt r))) rows -> iso_day d ->
  coalesce (daily_map (aggregate timezone rows) !! day_key d) (empty_day (day_key d)) =
  to_daily (daily_row (List.filter (on_day timezone d) rows) d).
Proof.
  intros Hrows Hd. unfold aggregate. rewrite daily_map_days by done.
  set (days := sort_by _ _). rewrite Forall_forall in Hrows.
  assert (Hin : forall y, y ∈ days -> iso_day y).
  { intros y Hy. apply elem_days in Hy as (r & Hr & <-). by apply Hrows. }
  destruct (decide (d ∈ days)) as [Hday|Hno].
  - rewrite foldl_insert_some; [done|done|]. intros y Hy Hk. apply day_key_inj; auto.
  - rewrite foldl_insert_none.
    + replace (List.filter (on_day timezone d) rows) with (@nil PrismaEscrow); [done|].
      symmetry. apply filter_none. intros r Hr. unfold on_day.
      apply Z.eqb_neq. intros Hd'. apply Hno, elem_days. eauto.
    + intros y Hy Hk. apply Hno. assert (y = d) as <- by (apply day_key_inj; auto). done.
Qed.

(** The rows the chart is about, and what it shows of them. *)
Definition charted (vendor : string) (first endDate : Z) (w : World) : list PrismaEscrow :=
  List.filter (fun r => bool_decide (e_vendorAddress r = vendor) && (first <=? e_createdAt r / MS_PER_DAY) &&
    (e_createdAt r <=? endDate)) (escrow_rows (w_db w)).

Lemma run_chart env w vendor days timezone :
  db_reliable env -> 1 <= days ->
  let endDate := env_now env (w_tick w) in
  let today := endDate / MS_PER_DAY in
  let first := today - (days - 1) in
  Forall (fun r => iso_day (local_day timezone (e_createdAt r))) (charted vendor first endDate w) ->
  (forall d, first <= d <= today -> iso_day (shown timezone d)) ->
  exists c, (run (getDailyVolumeChart vendor days timezone) env w).1 = Ok c /\
    cd_data c ≡ₚ (fun d => to_daily (daily_row (List.filter (on_day timezone (shown timezone d))
      (charted vendor first endDate w)) (shown timezone d))) <$> seqZ first days /\
    StronglySorted (fun a b => String.leb (dd_date a) (dd_date b) = true) (cd_data c) /\
    cd_startDate c = day_key first /\ cd_endDate c = day_key today /\
    cd_totalTransactions c = foldl (fun s d => s + dd_transactionCount d) 0 (cd_data c).
Proof.
  intros DB Hdays endDate today first Hrows Hshown. unfold getDailyVolumeChart, aggregateDailyVolume.
  rewrite run_bind, run_await. cbn [now fst snd]. fold endDate. run_reads. fold endDate.
  assert (Hstart : chart_start endDate days = first * MS_PER_DAY).
  { unfold chart_start, first, today. f_equal. unfold MS_PER_DAY.
    replace (endDate - (days - 1) * 86400000) with (endDate + (- (days - 1)) * 86400000) by lia.
    rewrite Z.div_add by lia. lia. }
  rewrite Hstart.
  assert (Hsel : List.filter (in_window vendor (first * MS_PER_DAY) endDate) (escrow_rows (w_db w)) = charted vendor first endDate w).
  { apply filter_ext. intros r. unfold in_window, of_vendor. f_equal. f_equal. apply leb_div. }
  rewrite Hsel. eexists. split; [reflexivity|]. unfold chart_of. cbn [cd_data cd_startDate cd_endDate cd_totalTransactions].
  split_and!.
  - rewrite sort_by_perm. unfold fillDateGaps.
    replace (Z.to_nat ((endDate - first * MS_PER_DAY) / MS_PER_DAY + 1)) with (Z.to_nat days).
    2: { f_equal. replace (endDate - first * MS_PER_DAY) with (endDate + (- first) * MS_PER_DAY) by lia.
         rewrite Z.div_add by done. unfold first, today. lia. }
    rewrite fill_days.
    2: { rewrite Z2Nat.id by lia. unfold first, today, MS_PER_DAY. pose proof (Z.mul_div_le endDate 86400000). lia. }
    rewrite Z2Nat.id by lia. apply Permutation_refl', list_fmap_ext. intros i d Hd.
    apply lookup_seqZ in Hd as [-> Hi]. apply entry_lookup; [done|]. apply Hshown. unfold first in *. lia.
  - apply sort_by_ordered, asc_str_order.
  - done.
  - apply date_part_day.
  - done.
Qed.
End chart.

Definition sum_of {A} (f : A -> Z) (l : list A) : Z := foldr (fun x a => f x + a) 0 l.

Lemma sum_of_perm {A} (f : A -> Z) l l' : l ≡ₚ l' -> sum_of f l = sum_of f l'.
Proof. unfold sum_of. induction 1; simpl; lia. Qed.

Lemma sum_of_foldl {A} (f : A -> Z) l n : foldl (fun s x => s + f x) n l = n + sum_of f l.
Proof. unfold sum_of. revert n. induction l as [|x l IH]; intros n; simpl; [lia|]. rewrite IH. lia. Qed.

Lemma sum_of_fmap {A B} (f : B -> Z) (g : A -> B) l : sum_of f (g <$> l) = sum_of (fun x => f (g x)) l.
Proof. unfold sum_of. induction l as [|x l IH]; csimpl; [done|]. by rewrite IH. Qed.

(** What a chart should say of a day. *)
Definition day_entry (rows : list PrismaEscrow) (d : Z) : AnalyticsService.DailyVolumeDataDto :=
  let today := created_on rows d in
  let number_of states := Z.of_nat (length (List.filter (fun r => bool_decide (e_state r ∈ states)) today)) in
  let sum := ratio_to_number (volume today) DECIMAL_SCALE in
  AnalyticsService.mkDaily (day_key d) sum (Z.of_nat (length today))
    (number_of [COMPLETED; RELEASED]) (number_of [DISPUTED])
    (if bool_decide (today = []) then zero else number_div sum (Z.of_nat (length today))).

Lemma to_daily_entry {TZ : TimeZones} timezone rows d :
  (forall t, zone_offset timezone t = 0) ->
  AnalyticsService.to_daily (AnalyticsRepository.daily_row (List.filter (AnalyticsRepository.on_day timezone d) rows) d) =
  day_entry rows d.
Proof.
  intros Hutc. replace (List.filter (AnalyticsRepository.on_day timezone d) rows) with (created_on rows d).
  2: { apply filter_ext. intros r. unfold AnalyticsRepository.on_day, local_day. by rewrite Hutc, Z.add_0_r. }
  unfold AnalyticsService.to_daily, AnalyticsRepository.daily_row, day_entry, AnalyticsService.toDateKey.
  cbn [AnalyticsRepository.ag_date AnalyticsRepository.ag_totalVolume AnalyticsRepository.ag_transactionCount
    AnalyticsRepository.ag_completedCount AnalyticsRepository.ag_disputedCount].
  rewrite total_volume. f_equal.
  - unfold count_where. do 2 f_equal. apply filter_ext. intros r. unfold AnalyticsRepository.is_completed, in_state.
    by destruct (e_state r).
  - unfold count_where. do 2 f_equal. apply filter_ext. intros r. unfold in_state. by destruct (e_state r).
  - destruct (created_on rows d) as [|r l]; [done|]. rewrite bool_decide_eq_false_2 by done.
    destruct (Z.ltb_spec 0 (Z.of_nat (length (r :: l)))) as [|Hl]; [done|]. cbn [length] in Hl. lia.
Qed.

Section chart_theorems.
Context {D : DecimalOps} {TZ : TimeZones}.
Import AnalyticsRepository AnalyticsService.

(** In UTC the chart of the last [days] days has one
    entry for each of them, in order of date, which counts and sums exactly the
    escrows the vendor created on that day, and their total is the number of
    escrows created in the window up to now. *)
Theorem chart_in_utc_is_complete env w vendor days timezone :
  db_reliable env -> 1 <= days -> (forall t, zone_offset timezone t = 0) ->
  let endDate := env_now env (w_tick w) in
  let today := endDate / MS_PER_DAY in
  let first := today - (days - 1) in
  let rows := charted vendor first endDate w in
  iso_day first -> iso_day today ->
  exists c, (run (getDailyVolumeChart vendor days timezone) env w).1 = Ok c /\
    cd_data c ≡ₚ day_entry rows <$> seqZ first days /\
    StronglySorted (fun a b => String.leb (dd_date a) (dd_date b) = true) (cd_data c) /\
    cd_totalTransactions c = Z.of_nat (length rows) /\
    cd_startDate c = day_key first /\ cd_endDate c = day_key today.
Proof.
  intros DB Hdays Hutc endDate today first rows Hfirst Htoday.
  assert (Hlocal : forall t, local_day timezone t = t / MS_PER_DAY) by (intros t; unfold local_day; by rewrite Hutc, Z.add_0_r).
  assert (Hshown : forall d, local_day timezone (d * MS_PER_DAY) = d).
  { intros d. rewrite Hlocal. unfold MS_PER_DAY. apply Z.div_mul. lia. }
  assert (Hrange : Forall (fun r => first <= e_createdAt r / MS_PER_DAY < first + days) rows).
  { apply Forall_forall. intros r Hr. unfold rows, charted in Hr.
    rewrite list_elem_of_In, filter_In in Hr. destruct Hr as [_ Hr]. b2p.
    assert (e_createdAt r / MS_PER_DAY <= endDate / MS_PER_DAY) by (apply Z.div_le_mono; [done|lia]).
    unfold first, today in *. lia. }
  destruct (run_chart env w vendor days timezone DB Hdays) as (c & Hr & Hp & Hs & Hst & Hen & Ht).
  - eapply Forall_impl; [exact Hrange|]. intros r Hr. rewrite Hlocal.
    apply (iso_between first today); [done|done|]. unfold first in *. lia.
  - intros d Hd. rewrite Hshown. by apply (iso_between first today).
  - exists c. fold endDate today first rows in Hp. split_and!; try done.
    + rewrite Hp. apply Permutation_refl', list_fmap_ext. intros i d _. rewrite Hshown. by apply to_daily_entry.
    + rewrite Ht, sum_of_foldl, (sum_of_perm _ _ _ Hp), sum_of_fmap, <- (created_sum rows first days Hrange).
      unfold sum_of. apply foldr_ext; [|done|done]. intros d a. rewrite Hshown, to_daily_entry by done. done.
Qed.

(** West of UTC the chart stops a day short: once the local
    date has caught up with the UTC date, no entry is filed under the current
    local day, so a vendor whose escrows were all created today sees a chart of
    zeros. *)
Theorem chart_drops_today_west_of_utc env w vendor days timezone behind :
  db_reliable env -> 1 <= days ->
  let endDate := env_now env (w_tick w) in
  let today := endDate / MS_PER_DAY in
  0 < behind -> (forall t, zone_offset timezone t = - behind) -> behind <= endDate mod MS_PER_DAY ->
  iso_day (today - days) -> iso_day today ->
  (forall r, r ∈ escrow_rows (w_db w) -> e_vendorAddress r = vendor -> local_day timezone (e_createdAt r) = today) ->
  exists c, (run (getDailyVolumeChart vendor days timezone) env w).1 = Ok c /\
    local_day timezone endDate = today /\
    Forall (fun e => dd_date e <> day_key today /\ dd_transactionCount e = 0) (cd_data c) /\
    cd_totalTransactions c = 0.
Proof.
  intros DB Hdays endDate today Hpos Hoff Hcaught Hfirst Htoday Hrows.
  assert (Hbehind : behind < MS_PER_DAY) by (pose proof (Z.mod_pos_bound endDate MS_PER_DAY); unfold MS_PER_DAY in *; lia).
  assert (Hshown : forall d, local_day timezone (d * MS_PER_DAY) = d - 1).
  { intros d. unfold local_day. rewrite Hoff. symmetry. apply Z.div_unique with (MS_PER_DAY - behind); lia. }
  assert (Hnow : local_day timezone endDate = today).
  { unfold local_day, today. rewrite Hoff. symmetry. apply Z.div_unique with (endDate mod MS_PER_DAY - behind).
    - pose proof (Z.mod_pos_bound endDate MS_PER_DAY). unfold MS_PER_DAY in *. lia.
    - pose proof (Z.div_mod endDate MS_PER_DAY). unfold MS_PER_DAY in *. lia. }
  assert (Hday : forall r, r ∈ charted vendor (today - (days - 1)) endDate w -> local_day timezone (e_createdAt r) = today).
  { intros r Hr. unfold charted in Hr. rewrite list_elem_of_In, filter_In, <- list_elem_of_In in Hr.
    destruct Hr as [Hr Hb]. b2p. by apply Hrows. }
  destruct (run_chart env w vendor days timezone DB Hdays) as (c & Hr & Hp & _ & _ & _ & Ht).
  - apply Forall_forall. intros r Hr. by rewrite Hday.
  - intros d Hd. rewrite Hshown. apply (iso_between (today - days) today); [done|done|]. fold endDate today in Hd. lia.
  - exists c. fold endDate today in Hp. split; [done|]. split; [done|].
    assert (Hall : Forall (fun e => dd_date e <> day_key today /\ dd_transactionCount e = 0) (cd_data c)).
    { rewrite Hp. apply Forall_fmap, Forall_forall. intros d [Hd Hd']%elem_of_seqZ. cbn.
      rewrite Hshown. split.
      - intros Hk. apply day_key_inj in Hk; [lia| |done]. apply (iso_between (today - days) today); [done|done|lia].
      - rewrite filter_none; [done|]. intros r Hr'. unfold on_day. rewrite Hday by done. apply Z.eqb_neq. lia. }
    split; [done|]. rewrite Ht, sum_of_foldl. clear -Hall.
    induction Hall as [|e l [_ He] _ IH]; [done|]. unfold sum_of in *. cbn [foldr]. lia.
Qed.
End chart_theorems.

(** ** Instances *)

#[local] Instance demo_decimal : DecimalOps := {
  decimal_plus a b := a + b;
  decimal_div_toNumber a n := ratio_to_number a (DECIMAL_SCALE * n) }.

#[local] Instance demo_decimal_exact : DecimalExact.
Proof. by constructor. Qed.

(** UTC, and New York in winter. *)
#[local] Instance demo_zones : TimeZones := {
  zone_offset z _ := if bool_decide (z = "America/New_York"%string) then -18000000 else 0 }.

(** Noon of 2025-01-01 in UTC. *)
Definition noon_env : Env :=
  mkEnv (fun _ => demo_now + 43200000) (fun _ => None) demo_uuid true false (fun _ => false) true
    true demo_config (fun _ => 25000000000) None demo_sdk (fun s => s) (fun _ m => m) (fun _ => "0"%string)
    (fun _ _ => Ok []) (fun _ => Ok 100) (fun _ _ => Ok []) 30 None (fun _ => true) demo_providers.

(** An escrow created at that time. *)
Definition noon_row : PrismaEscrow :=
  mkEscrow "e1" (Some 7) "Camera" "SKU-1" 25000000000 "USDC" "GBUYER" "GVENDOR" FUNDED None
    None None None None None None None None None None (demo_now + 43200000) (demo_now + 43200000).

Lemma vendor_stats_correct_witness :
  exists r, (run (AnalyticsService.getTransactionStats "GVENDOR") demo_env (demo_world [demo_row "e1" FUNDED; demo_row "e2" COMPLETED])).1 = Ok r /\
    AnalyticsService.st_totalTransactions (AnalyticsService.sr_stats r) = 2.
Proof.
  destruct (vendor_stats_correct demo_env (demo_world [demo_row "e1" FUNDED; demo_row "e2" COMPLETED]) "GVENDOR")
    as (r & Hr & Hn & _).
  - apply demo_reliable.
  - vm_compute. repeat constructor; done.
  - vm_compute. done.
  - exists r. split; [exact Hr|]. rewrite Hn. vm_compute. reflexivity.
Defined.

Lemma admin_stats_correct_witness :
  exists r, (run AdminStats.getStats demo_env (demo_world [demo_row "e1" FUNDED; demo_row "e2" COMPLETED])).1 = Ok r /\
    AdminStats.as_totalEscrows r = 2.
Proof.
  destruct (admin_stats_correct demo_env (demo_world [demo_row "e1" FUNDED; demo_row "e2" COMPLETED]))
    as (r & Hr & Hn & _); [apply demo_reliable|].
  exists r. split; [exact Hr|]. rewrite Hn. vm_compute. reflexivity.
Defined.

Lemma chart_in_utc_is_complete_witness :
  exists c, (run (AnalyticsService.getDailyVolumeChart "GVENDOR" 7 "UTC") noon_env (demo_world [noon_row])).1 = Ok c /\
    AnalyticsService.cd_totalTransactions c = 1.
Proof.
  destruct (chart_in_utc_is_complete noon_env (demo_world [noon_row]) "GVENDOR" 7 "UTC") as (c & Hc & _ & _ & Hn & _).
  - done.
  - done.
  - done.
  - vm_compute. by split.
  - vm_compute. by split.
  - exists c. split; [exact Hc|]. rewrite Hn. vm_compute. reflexivity.
Defined.

Lemma chart_drops_today_west_of_utc_witness :
  exists c, (run (AnalyticsService.getDailyVolumeChart "GVENDOR" 7 "America/New_York") noon_env (demo_world [noon_row])).1 = Ok c /\
    AnalyticsService.cd_totalTransactions c = 0.
Proof.
  destruct (chart_drops_today_west_of_utc noon_env (demo_world [noon_row]) "GVENDOR" 7 "America/New_York" 18000000)
    as (c & Hc & _ & _ & Hn).
  - done.
  - done.
  - done.
  - done.
  - by vm_compute.
  - vm_compute. by split.
  - vm_compute. by split.
  - intros r Hr _. assert (r = noon_row) as -> by (vm_compute in Hr; by apply list_elem_of_singleton in Hr).
    vm_compute. reflexivity.
  - by exists c.
Defined.
