(* ===== verification/BenchmarkSpec.v ===== *)
(** * Properties of the benchmark

    Both aggregations count the same escrows on a day, but the chart of the new
    one is blank, and no run of the benchmark completes. *)
From Stdlib Require Import Ascii.
From S2P Require Import Prelude Records Doubles Dates Text Tables Crypto Effects Prisma Auth Analytics Seed Connection AnalyticsSpec Benchmark.
Local Open Scope Z_scope.
Local Open Scope prog_scope.

Module Bench := ChartAggregationBenchmark.

(** ** Keys *)

Lemma digits_no_char c k n : 0 <= n < 10 ^ Z.of_nat k -> (forall i, 0 <= i < 10 -> digit i <> c) -> has_char c (digits k n) = false.
Proof.
  intros Hn Hc. revert n Hn. induction k as [|k IH]; intros n Hn; [done|].
  rewrite Nat2Z.inj_succ, Z.pow_succ_r in Hn by lia.
  assert (Hp : 0 < 10 ^ Z.of_nat k) by (apply Z.pow_pos_nonneg; lia).
  cbn [digits has_char]. rewrite bool_decide_false.
  - apply IH, Z.mod_pos_bound. done.
  - apply Hc. split; [apply Z.div_pos; lia|apply Z.div_lt_upper_bound; lia].
Qed.

Lemma split_on_first c a b : has_char c a = false -> exists rest, split_on c (a +:+ String c b) = a :: rest.
Proof.
  induction a as [|x a IH]; intros Ha.
  - exists (split_on c b). simpl. by rewrite bool_decide_true.
  - simpl in Ha |- *. case_bool_decide; [done|]. destruct (IH Ha) as [rest ->]. by exists rest.
Qed.

Lemma has_char_app c a b : has_char c (a +:+ b) = has_char c a || has_char c b.
Proof. induction a as [|x a IH]; [done|]. simpl. rewrite IH. by case_bool_decide. Qed.

#[local] Transparent toISOString.

Lemma formatDate_day t : in_iso_range t -> Bench.formatDate t = day_key (t / MS_PER_DAY).
Proof.
  intros Ht. rewrite <- date_part_day. unfold Bench.formatDate, date_part, toISOString, in_iso_range, MS_PER_DAY in *.
  assert (Hdays : -719528 <= t / 86400000 < 2932897) by (split; [apply Z.div_le_lower_bound|apply Z.div_lt_upper_bound]; lia).
  pose proof (civil_year_range _ Hdays) as Hy. pose proof (civil_roundtrip (t / 86400000)) as Hc.
  destruct (civil_from_days (t / 86400000)) as [[y m] d]. destruct Hc as (_ & Hm & Hd). cbv zeta.
  set (rest := digits 2 (t mod 86400000 / 3600000) +:+ _).
  pose (day := digits 4 y +:+ String "-" (digits 2 m +:+ String "-" (digits 2 d))).
  assert (Hday : digits 4 y +:+ String "-" (digits 2 m +:+ String "-" (digits 2 d +:+ String "T" rest)) = day +:+ String "T" rest).
  { unfold day. rewrite !string_app_assoc. done. }
  assert (Hno : has_char "T" day = false).
  { assert (Hdig : forall k n, 0 <= n < 10 ^ Z.of_nat k -> has_char "T" (digits k n) = false).
    { intros k n Hn. apply digits_no_char; [done|]. intros i Hi.
      assert (i = 0 \/ i = 1 \/ i = 2 \/ i = 3 \/ i = 4 \/ i = 5 \/ i = 6 \/ i = 7 \/ i = 8 \/ i = 9) as Hcases by lia.
      by repeat destruct Hcases as [->|Hcases]; subst. }
    unfold day. rewrite has_char_app. cbn [has_char]. rewrite has_char_app. cbn [has_char].
    rewrite !Hdig by (simpl; lia). done. }
  rewrite Hday. destruct (split_on_first "T" day rest Hno) as [r ->].
  subst day. reflexivity.
Qed.

#[local] Opaque toISOString.

(** ** The two aggregations *)

Section aggregations.
Context {TZ : TimeZones}.
Import AnalyticsRepository AnalyticsService.

(** What an entry of the chart counts. *)
Definition counts (e : DailyVolumeDataDto) : Z * Z * Z :=
  (dd_transactionCount e, dd_completedCount e, dd_disputedCount e).

Definition counts_of (rows : list PrismaEscrow) : Z * Z * Z :=
  (Z.of_nat (length rows), count_where is_completed rows, count_where (in_state DISPUTED) rows).

Definition plus3 (a b : Z * Z * Z) : Z * Z * Z := (a.1.1 + b.1.1, a.1.2 + b.1.2, a.2 + b.2).

Ltac pairs := cbv iota; cbn [length]; repeat match goal with |- (_, _) = (_, _) => f_equal end; lia.

Lemma counts_of_cons r rows : counts_of (r :: rows) = plus3 (counts_of [r]) (counts_of rows).
Proof.
  unfold counts_of, plus3, count_where. cbn [List.filter fst snd].
  destruct (is_completed r), (in_state DISPUTED r); cbn [length]; pairs.
Qed.

Lemma plus3_assoc a b c : plus3 (plus3 a b) c = plus3 a (plus3 b c).
Proof. unfold plus3. cbn [fst snd]. pairs. Qed.

(** What a map of the old approach shows of a day. *)
Definition shown_at (m : gmap string DailyVolumeDataDto) (d : Z) : Z * Z * Z :=
  counts (coalesce (m !! day_key d) (empty_day (day_key d))).

Lemma iso_day_of t : in_iso_range t -> iso_day (t / MS_PER_DAY).
Proof.
  unfold iso_day, in_iso_range, MS_PER_DAY. intros Ht. pose proof (Z.div_mod t 86400000 ltac:(lia)).
  pose proof (Z.mod_pos_bound t 86400000 ltac:(lia)).
  assert (-719528 <= t / 86400000) by (apply Z.div_le_lower_bound; lia). lia.
Qed.

Lemma add_escrow_counts m r d : in_iso_range (e_createdAt r) -> iso_day d ->
  shown_at (Bench.add_escrow m r) d =
    if e_createdAt r / MS_PER_DAY =? d then plus3 (shown_at m d) (counts_of [r]) else shown_at m d.
Proof.
  intros Hr Hd. unfold shown_at, Bench.add_escrow. rewrite formatDate_day by done.
  pose proof (iso_day_of _ Hr) as Hday.
  destruct (Z.eqb_spec (e_createdAt r / MS_PER_DAY) d) as [->|Hne].
  - rewrite lookup_insert_eq. cbn [coalesce]. unfold counts, counts_of, plus3, count_where. cbn [fst snd List.filter].
    cbn [dd_transactionCount dd_completedCount dd_disputedCount].
    destruct (is_completed r), (in_state DISPUTED r); cbn [length]; pairs.
  - rewrite lookup_insert_ne; [done|]. intros Hk. by apply Hne, day_key_inj.
Qed.

Lemma foldl_counts rows m d : Forall (fun r => in_iso_range (e_createdAt r)) rows -> iso_day d ->
  shown_at (foldl Bench.add_escrow m rows) d = plus3 (shown_at m d) (counts_of (created_on rows d)).
Proof.
  intros Hrows Hd. revert m. induction Hrows as [|r rows Hr _ IH]; intros m.
  - change (counts_of (created_on [] d)) with (0, 0, 0). cbn [foldl]. destruct (shown_at m d) as [[a b] c]. unfold plus3. cbn [fst snd]. pairs.
  - cbn [foldl]. rewrite IH, add_escrow_counts by done. unfold created_on. cbn [List.filter].
    destruct (_ =? d); [|done]. by rewrite plus3_assoc, <- counts_of_cons.
Qed.

(** In UTC the database counts on every day what the loop over all escrows
    counted. *)
Theorem aggregations_agree timezone rows d :
  (forall t, zone_offset timezone t = 0) -> Forall (fun r => in_iso_range (e_createdAt r)) rows ->
  iso_day d ->
  counts (coalesce (Bench.old_map rows !! day_key d) (empty_day (day_key d))) =
  counts (coalesce (daily_map (aggregate timezone rows) !! day_key d) (empty_day (day_key d))).
Proof.
  intros Hutc Hrows Hd.
  assert (Hlocal : forall t, local_day timezone t = t / MS_PER_DAY) by (intros t; unfold local_day; by rewrite Hutc, Z.add_0_r).
  rewrite entry_lookup by (done || (eapply Forall_impl; [exact Hrows|]; intros r Hr; rewrite Hlocal; by apply iso_day_of)).
  transitivity (shown_at (foldl Bench.add_escrow ∅ rows) d).
  - unfold shown_at, Bench.old_map. rewrite lookup_fmap. by destruct (foldl _ _ _ !! _).
  - rewrite foldl_counts by done. change (shown_at ∅ d) with (0, 0, 0).
    replace (created_on rows d) with (List.filter (on_day timezone d) rows).
    + unfold plus3, counts, to_daily. cbn [fst snd]. by rewrite !Z.add_0_l.
    + apply filter_ext. intros r. unfold on_day. by rewrite Hlocal.
Qed.

End aggregations.

(** ** The new chart is blank *)

Section blank.
Context {TZ : TimeZones}.
Import AnalyticsRepository AnalyticsService.

Lemma map_get_text rows s : Bench.map_get (Bench.new_map rows) (Bench.Text s) = None.
Proof.
  unfold Bench.map_get. destruct (List.find _ _) as [[k row]|] eqn:E; [|done].
  apply List.find_some in E as [Hin Hk]. apply bool_decide_eq_true in Hk.
  apply list_elem_of_In, elem_of_lookup_imap in Hin as (i & y & [= -> ->] & _). done.
Qed.

Lemma fill_blank fuel rows currentDate endDate timezone :
  Forall (fun e => e = empty_day (dd_date e)) (Bench.fill fuel (Bench.new_map rows) currentDate endDate timezone).
Proof.
  revert currentDate. induction fuel as [|fuel IH]; intros currentDate; cbn [Bench.fill]; [constructor|].
  destruct (_ <=? _); [|constructor]. rewrite map_get_text. by constructor.
Qed.

(** No row of the database is found under the text of its day: every entry is
    the empty entry of its day, whatever the escrows. *)
Lemma new_approach_is_blank env w vendorAddress days timezone c w' :
  run (Bench.newApproach vendorAddress days timezone) env w = (Ok c, w') ->
  Forall (fun e => e = empty_day (dd_date e)) (Bench.data c).
Proof.
  unfold Bench.newApproach, aggregateDailyVolume. rewrite run_bind, run_await. change (now env w) with (Ok (env_now env (w_tick w)), w).
  cbn [fst snd]. rewrite run_bind, run_await. change (now env w) with (Ok (env_now env (w_tick w)), w).
  cbn [fst snd]. cbv zeta. rewrite run_bind, run_await.
  match goal with |- context [db_call ?f env w] => destruct (db_call_cases f env w) as [(e & _ & ->)| ->] end; [done|].
  cbn [fst snd]. intros [= <- _]. cbn [Bench.data]. rewrite sort_by_perm. apply fill_blank.
Qed.
End blank.

(** ** No run completes *)

Lemma reset_ok process_env env w w' :
  run (PrismaService.reset process_env) env w = (Ok tt, w') -> process_env "NODE_ENV" = Some "test" /\ w_db w' = empty_db.
Proof.
  unfold PrismaService.reset. case_bool_decide as Hnode; cbn [negb]; [|done]. rewrite run_bind, run_await.
  match goal with |- context [db_call ?f env w] => destruct (db_call_cases f env w) as [(e & _ & ->)| ->] end; [done|].
  cbn [fst snd]. cbv zeta. rewrite (bool_decide_false (_ = [])) by done. rewrite run_await.
  match goal with |- context [db_call ?f env ?w1] => destruct (db_call_cases f env w1) as [(e & _ & ->)| ->] end; [done|].
  intros [= <-]. split; [done|]. by destruct (w_db w) as [? ? ? [] ? ? ? ? ?].
Qed.

Section never.
Context {TZ : TimeZones} (random_state : nat -> nat) (random_amount : nat -> number).

(** An escrow needs the profile of its vendor, and there is none after the
    tables were emptied. *)
Lemma test_data_rejected vendorAddress n env w :
  w_db w = empty_db -> exists e w', run (Bench.generateTestData random_state random_amount vendorAddress (S n)) env w = (Throw e, w').
Proof.
  intros Hdb. unfold Bench.generateTestData. cbn [seq forEach]. rewrite !run_bind, run_await. unfold escrow_create.
  match goal with |- context [db_call ?f env w] => destruct (db_call_cases f env w) as [(e & _ & ->)| ->] end.
  { by eexists _, _. }
  rewrite Hdb. cbv zeta. destruct (_ <=? _); [by eexists _, _|].
  rewrite bool_decide_false by (intros [x Hx]; discriminate Hx). 
  change (existsb _ (escrow_rows empty_db)) with false. cbv iota.
  rewrite bool_decide_false by (intros [x Hx]; discriminate Hx). by eexists _, _.
Qed.

(** Outside the tests the benchmark refuses to empty the tables; in the tests it
    fails on its first escrow.  Either way it throws. *)
Theorem benchmark_never_completes process_env env w :
  exists e w', run (Bench.run random_state random_amount process_env) env w = (Throw e, w').
Proof.
  unfold Bench.run, Bench.recordCounts. cbn [forEach]. unfold Bench.runBenchmark at 1. rewrite !run_bind.
  destruct (run (PrismaService.reset process_env) env w) as [[[]|e] w1] eqn:E; [|by eexists _, _].
  apply reset_ok in E as [_ Hdb].
  destruct (test_data_rejected "0xBenchmarkVendor" 99 env w1 Hdb) as (e & w2 & H). rewrite !run_bind, H. by eexists _, _.
Qed.

End never.
