(* ===== verification/ApiSpec.v ===== *)
(** * Properties of the HTTP API

    What holds of any sequence of HTTP requests: the life cycle, who gets
    past the guards, whose escrows a token can change, and what a rotation of
    the logistics key leaves behind. *)
From S2P Require Import Prelude Records Dates Text Tables Crypto Json Effects Logistics Cache Prisma EscrowRepo Coherence Demo LogisticsSpec AuthSpec Contract Lifecycle EscrowSvc Vendor Notify RetryQueue Analytics Auth Http EscrowSound EscrowSpec Disputes Workers WorkersSound Dlq Webhook Api Poller Backend.
Local Open Scope prog_scope.

(** ** Guards *)

Lemma run_with_user {A} auth (handler : AuthUser -> Prog A) env w :
  run (with_user auth handler) env w =
  match JwtGuard.canActivate env (env_now env (w_tick w)) auth with
  | Ok user => run (handler user) env w
  | Throw e => (Throw e, w)
  end.
Proof. unfold with_user. rewrite run_bind, run_await. by destruct (JwtGuard.canActivate _ _ _). Qed.

Lemma run_with_admin {A} auth (handler : AuthUser -> Prog A) env w :
  run (with_admin auth handler) env w =
  match JwtGuard.canActivate env (env_now env (w_tick w)) auth with
  | Ok user =>
      match AdminGuard.canActivate env (Some user) with
      | Ok _ => run (handler user) env w
      | Throw e => (Throw e, w)
      end
  | Throw e => (Throw e, w)
  end.
Proof.
  unfold with_admin. rewrite run_with_user. destruct (JwtGuard.canActivate _ _ _); [|done].
  rewrite run_bind, run_await. by destruct (AdminGuard.canActivate _ _).
Qed.

Lemma sound_with_user {A} auth (handler : AuthUser -> Prog A) :
  (forall user, sound (handler user)) -> sound (with_user auth handler).
Proof.
  intros Hh env w HE HI. unfold wp. rewrite run_with_user.
  destruct (JwtGuard.canActivate _ _ _); [by apply Hh|done].
Qed.

Lemma sound_with_admin {A} auth (handler : AuthUser -> Prog A) :
  (forall user, sound (handler user)) -> sound (with_admin auth handler).
Proof.
  intros Hh. apply sound_with_user. intros user. apply sound_bind; [|done].
  apply sound_off_escrow, every_await. intros env w. done.
Qed.

(** The handlers that only read, or only write the tables of the vendors. *)
Ltac vendor_off :=
  cbv beta delta [EscrowService.generateEvidenceUploadUrl EscrowService.findVendorEscrows EscrowRepo.findVendorEscrows
    VendorProfileService.createProfile VendorProfileService.getProfile VendorProfileService.upsertProfile
    VendorProfileService.updateProfile VendorProfileService.getNotificationPreferences
    VendorProfileService.updateNotificationPreferences VendorProfileRepository.findByAddress
    VendorProfileRepository.create VendorProfileRepository.upsert VendorProfileRepository.update
    VendorProfileRepository.findNotificationPreferences VendorProfileRepository.updateNotificationPreferences
    vendor_create vendor_save VendorAccountDetails.get VendorAccountDetails.getDetails
    VendorAccountDetails.findByVendorAddress VendorAccountDetails.update VendorAccountDetails.upsertDetails
    VendorAccountDetails.upsert AnalyticsService.getTransactionStats AnalyticsRepository.getEscrowStateGroups
    AnalyticsRepository.findNotificationChannels AnalyticsService.getDailyVolumeChart
    AnalyticsRepository.aggregateDailyVolume];
  off_walk.

Section api.
Context {U : UuidChecks} {C : ContractApi} {D : DecimalOps} {TZ : TimeZones}.

Lemma sound_with_uuid {A} id (handler : Prog A) : sound handler -> sound (with_uuid id handler).
Proof. intros Hh. unfold with_uuid. case_match; [done|apply sound_raise]. Qed.

Lemma sound_ignored {A} (m : Prog A) : sound m -> sound (ignored m).
Proof. intros Hm. apply sound_bind; [done|]. intros. apply sound_ret. Qed.

(** ** Handlers off the escrow table *)

Lemma generate_off user parent : every off_escrow (Sep10.generateAuthTokens user parent).
Proof.
  unfold Sep10.generateAuthTokens, Sep10.sync, token_create. off_walk.
Qed.

Lemma challenge_off account timeout : every off_escrow (Sep10.buildChallenge account timeout).
Proof. unfold Sep10.buildChallenge, nonce_create, Sep10.sync. off_walk. Qed.

Lemma verify_off tx : every off_escrow (Sep10.verifyAndIssueToken tx).
Proof.
  unfold Sep10.verifyAndIssueToken, Sep10.sync, nonce_findUnique, nonce_setUsed, Sep10.read_challenge.
  walk_every ltac:(idtac; first [apply generate_off | off_atom]).
Qed.

Lemma rotate_off tok : every off_escrow (Sep10.rotateRefreshToken tok).
Proof.
  unfold Sep10.rotateRefreshToken, Sep10.sync, token_findByHash, token_findById, token_revoke, token_revokeUser, Sep10.revokeTokenFamily.
  walk_every ltac:(idtac; first [apply generate_off | off_atom]).
Qed.

Lemma rotate_key_off key : every off_escrow (Logistics.rotateApiKey key).
Proof. unfold Logistics.rotateApiKey, Logistics.seal_key, Logistics.set_key, ProviderCredential.upsert. off_walk. Qed.

Ltac by_off := apply sound_off_escrow; off_walk.

Lemma sound_user_route auth r : sound (user_route auth r).
Proof.
  destruct r; apply sound_ignored; apply sound_with_user; intros user;
    try (apply sound_off_escrow; solve [vendor_off]).
  - case_match; [|apply sound_raise]. case_match; [apply sound_createIdempotent|apply sound_raise].
  - apply sound_with_uuid, sound_handleShipment.
  - apply sound_with_uuid, sound_cancelEscrow.
  - apply sound_with_uuid, sound_cancelPendingEscrow.
  - apply sound_with_uuid, sound_openDispute.
  - apply sound_with_uuid, sound_getDispute.
Qed.

Lemma sound_admin_route auth r : sound (admin_route auth r).
Proof.
  destruct r; apply sound_ignored; apply sound_with_admin; intros user.
  - unfold AdminDispute.getDisputes, DisputeRepository.findMany, DisputeRepository.count. by_off.
  - apply sound_with_uuid. apply sound_bind; [apply sound_resolve|]. intros result. unfold AuditLog.append. by_off.
  - unfold AuditLog.findAll. by_off.
  - apply sound_bind; [apply sound_off_escrow, rotate_key_off|]. intros _. unfold AuditLog.append. by_off.
  - unfold AdminStats.getStats, AdminStats.collectTotals, AdminStats.countDisputes, AdminStats.countOpenDisputes. by_off.
  - unfold Dlq.list_, FailedTransactions.findMany, FailedTransactions.count. by_off.
  - unfold Dlq.get, FailedTransactions.findById. by_off.
  - apply sound_dlq_replay.
  - apply sound_dlq_abandon.
Qed.

Lemma sound_public_route r : sound (public_route r).
Proof.
  destruct r; apply sound_ignored.
  - apply sound_with_uuid. unfold EscrowService.getPublicEscrow.
    apply sound_bind; [apply sound_service_findById|]. intros rec. by_off.
  - apply sound_with_uuid. unfold EscrowService.getEvents, findEvents. by_off.
  - apply sound_with_uuid, sound_getTracking.
  - apply sound_with_uuid, sound_updateBuyerContact.
  - unfold Sep10Controller.challengeGet, Sep10Controller.validated. apply sound_off_escrow.
    walk_every ltac:(idtac; first [apply challenge_off | off_atom]).
  - unfold Sep10Controller.challengePost, Sep10Controller.validated. apply sound_off_escrow.
    walk_every ltac:(idtac; first [apply challenge_off | off_atom]).
  - unfold Sep10Controller.verify, Sep10Controller.validated. apply sound_off_escrow.
    walk_every ltac:(idtac; first [apply verify_off | off_atom]).
  - unfold Sep10Controller.refresh, Sep10Controller.validated. apply sound_off_escrow.
    walk_every ltac:(idtac; first [apply rotate_off | off_atom]).
  - unfold handleStellarWebhook. case_match; [apply sound_handleEvent|apply sound_raise].
Qed.

Lemma sound_respond r : sound (respond r).
Proof. destruct r; [apply sound_user_route|apply sound_admin_route|apply sound_public_route]. Qed.

Lemma answer_sound env rs w : good_env env -> Inv env w -> Inv env (answer env rs w) /\ evolves w (answer env rs w).
Proof.
  revert w. induction rs as [|r rs IH]; intros w HE HI; simpl; [done|].
  destruct (sound_respond r env w HE HI) as [HI1 Hev1].
  destruct (IH _ HE HI1) as [HI2 Hev2]. split; [done|by etrans].
Qed.
End api.

(** ** Who gets in *)

Section access.
Context {U : UuidChecks} {C : ContractApi} {D : DecimalOps} {TZ : TimeZones}.

Lemma run_ignored {A} (m : Prog A) env w :
  run (ignored m) env w = (match (run m env w).1 with Ok _ => Ok tt | Throw e => Throw e end, (run m env w).2).
Proof. unfold ignored. rewrite run_bind. by destruct (run m env w) as [[a|e] w']. Qed.

Lemma refused_user {A} auth (handler : AuthUser -> Prog A) env w :
  run (ignored (with_user auth handler)) env w = (Throw AUTH_REQUIRED, w) \/
  exists user, JwtGuard.canActivate env (env_now env (w_tick w)) auth = Ok user.
Proof.
  rewrite run_ignored, run_with_user. destruct (JwtGuard.canActivate _ _ _) as [user|e] eqn:H; [by right; exists user|left].
  by apply activate_throws in H as ->.
Qed.

Lemma refused_admin {A} auth (handler : AuthUser -> Prog A) env w :
  run (ignored (with_admin auth handler)) env w = (Throw AUTH_REQUIRED, w) \/
  run (ignored (with_admin auth handler)) env w = (Throw (ForbiddenException "Admin access required"), w) \/
  exists user, JwtGuard.canActivate env (env_now env (w_tick w)) auth = Ok user /\
    env_config env "ADMIN_ADDRESS" = Some (au_address user) /\ au_address user <> "".
Proof.
  rewrite run_ignored, run_with_admin. destruct (JwtGuard.canActivate _ _ _) as [user|e] eqn:H.
  - right. unfold AdminGuard.canActivate. destruct (env_config env "ADMIN_ADDRESS") as [a|]; [|by left].
    simpl. case_bool_decide as Ha; [by left|]. simpl. case_bool_decide as He; [|by left].
    right. exists user. injection He as ->. done.
  - left. by apply activate_throws in H as ->.
Qed.

(** C13. A route behind the guard does nothing and answers
    401 unless the request bears an unexpired token that the configured secret
    signed; an administration route moreover answers 403 and does nothing
    unless that token is the configured administrator's. *)
Theorem api_access_control env w auth :
  let t := env_now env (w_tick w) in
  (forall r, run (user_route auth r) env w = (Throw AUTH_REQUIRED, w) \/ exists user, bears_token env t auth user) /\
  (forall r, run (admin_route auth r) env w = (Throw AUTH_REQUIRED, w) \/
     run (admin_route auth r) env w = (Throw (ForbiddenException "Admin access required"), w) \/
     exists user, bears_token env t auth user /\
       env_config env "ADMIN_ADDRESS" = Some (au_address user) /\ au_address user <> "").
Proof.
  intros t. split; intros r.
  - assert (H : run (user_route auth r) env w = (Throw AUTH_REQUIRED, w) \/
        exists user, JwtGuard.canActivate env t auth = Ok user) by (destruct r; apply refused_user).
    destruct H as [|[user Hu]]; [by left|right]. exists user. by apply activate_bears_token.
  - assert (H : run (admin_route auth r) env w = (Throw AUTH_REQUIRED, w) \/
        run (admin_route auth r) env w = (Throw (ForbiddenException "Admin access required"), w) \/
        exists user, JwtGuard.canActivate env t auth = Ok user /\
          env_config env "ADMIN_ADDRESS" = Some (au_address user) /\ au_address user <> "") by (destruct r; apply refused_admin).
    destruct H as [|[|(user & Hu & ?)]]; [by left|by right; left|right; right].
    exists user. split; [by apply activate_bears_token|done].
Qed.

(** Any sequence of HTTP requests, whatever headers they
    carry, keeps the store invariant and moves every escrow only along the life
    cycle, with its identity intact. *)
Theorem api_follows_lifecycle env rs w :
  good_env env -> Inv env w -> Inv env (answer env rs w) /\ evolves w (answer env rs w).
Proof. apply answer_sound. Qed.

(** ** Whose escrows a token can change *)

(** Someone with no part in the escrow: neither party, not the administrator. *)
Definition stranger (env : Env) (row : PrismaEscrow) (user : AuthUser) : Prop :=
  (au_address user ∉ [e_vendorAddress row; e_buyerAddress row]) /\
  env_config env "ADMIN_ADDRESS" <> Some (au_address user) /\ au_role user <> Some "admin".

(** A step that leaves every escrow but one alone, and one that leaves an
    existing escrow alone. *)
Definition only (id : string) (w w' : World) : Prop := forall k, k <> id -> escrow_of w' k = escrow_of w k.

Definition undisturbed (id : string) (w w' : World) : Prop :=
  forall row, escrow_of w id = Some row -> escrow_of w' id = Some row.

#[export] Instance only_preorder id : PreOrder (only id).
Proof. split; [done|]. intros w1 w2 w3 H1 H2 k Hk. by rewrite H2, H1. Qed.

#[export] Instance undisturbed_preorder id : PreOrder (undisturbed id).
Proof. split; [by intros w row|]. intros w1 w2 w3 H1 H2 row Hrow. auto. Qed.

Definition same_escrows (w w' : World) : Prop := db_escrows (w_db w') = db_escrows (w_db w).

#[export] Instance same_escrows_preorder : PreOrder same_escrows.
Proof. unfold same_escrows. split; [done|]. intros w1 w2 w3. congruence. Qed.

Lemma same_only id w w' : same_escrows w w' -> only id w w'.
Proof. unfold same_escrows, only. by intros ->. Qed.

Lemma same_undisturbed id w w' : same_escrows w w' -> undisturbed id w w'.
Proof. unfold same_escrows, undisturbed. by intros ->. Qed.

Lemma same_off {A} (m : Prog A) : every off_escrow m -> every same_escrows m.
Proof. apply every_mono. by intros w w' []. Qed.

Lemma cache_get_same key : every same_escrows (cache_get key).
Proof. apply every_await. intros env w. unfold cache_get_action, same_escrows. repeat case_match; done. Qed.

Lemma cache_set_same key v ttl : every same_escrows (cache_set key v ttl).
Proof. apply every_await. intros env w. unfold cache_set_action, same_escrows. repeat case_match; done. Qed.

Lemma cache_del_same key : every same_escrows (cache_del key).
Proof. apply every_await. intros env w. unfold cache_del_action, same_escrows. repeat case_match; done. Qed.

Lemma only_write id f : every (only id) (write_through id f).
Proof.
  unfold write_through, invalidate. apply every_bind.
  - apply every_await. intros env w. unfold escrow_update.
    match goal with |- context [db_call ?g] => destruct (db_call_cases g env w) as [(e & _ & ->)| ->] end;
      [by apply same_only|].
    intros k Hk. cbn [fst snd w_db set_db tick].
    destruct (db_escrows (w_db w) !! id); [|done]. cbn [snd db_escrows set_escrows]. by rewrite lookup_insert_ne.
  - intros r. apply every_bind; [|done]. eapply every_mono; [intros ? ?; apply same_only|]. apply cache_del_same.
Qed.

Lemma undisturbed_create id mk : every (undisturbed id) (await (fun env => escrow_create (mk env) env)).
Proof.
  apply every_await. intros env w row Hrow. cbv beta. unfold escrow_create.
  match goal with |- context [db_call ?g] => destruct (db_call_cases g env w) as [(e & _ & ->)| ->] end; [done|].
  cbv zeta. case_match; [done|]. case_match eqn:Hid; [done|]. case_match; [done|]. case_match; [|done].
  b2p. cbn [snd fst w_db set_db tick db_escrows set_escrows]. rewrite lookup_insert_ne; [done|]. intros <-. apply Hid. by eexists.
Qed.
End access.

Ltac same_walk :=
  walk_every ltac:(idtac; first [apply cache_get_same | apply cache_set_same | apply cache_del_same
    | apply same_off; off_atom
    | apply same_off, (every_mono quiet_step); [apply quiet_off_escrow|];
      first [apply getEscrowState_quiet | apply cancelEscrowOnChain_quiet]]).

Ltac only_walk :=
  unfold markCancelled, markShipped, updateState, notify, ask, DisputeRepository.create, BuyerDispute.toResponse;
  walk_every ltac:(idtac; first [apply only_write
    | eapply every_mono; [intros ? ?; apply same_only|]; solve [same_walk]]).

Section stranger.
Context {U : UuidChecks} {C : ContractApi} {D : DecimalOps} {TZ : TimeZones}.
Context (env : Env) (HE : good_env env) (id : string) (row : PrismaEscrow).

(** A program after which the escrow is as it was. *)
Abbreviation spares m w := (wp m env w (fun _ w' => escrow_of w' id = Some row)).

Lemma spares_every {A} (m : Prog A) w : escrow_of w id = Some row -> every (undisturbed id) m -> spares m w.
Proof using Type. intros Hrow Hm. exact (every_run _ m env w Hm row Hrow). Qed.

Lemma spares_off {A} (m : Prog A) w : escrow_of w id = Some row -> every off_escrow m -> spares m w.
Proof using Type.
  intros Hrow Hm. apply spares_every; [done|]. eapply every_mono; [intros ? ?; apply same_undisturbed|by apply same_off].
Qed.

Lemma spares_only {A} (m : Prog A) id' w : escrow_of w id = Some row -> id <> id' -> every (only id') m -> spares m w.
Proof using Type. intros Hrow Hne Hm. etrans; [exact (every_run _ m env w Hm id Hne)|done]. Qed.

(** An operation that reads an escrow first: it may change that escrow alone,
    and raises when it is the one in question. *)
Lemma spares_load {B} id' (k : EscrowRecord -> Prog B) w :
  Inv env w -> escrow_of w id = Some row ->
  (forall r, e_id r = id' -> every (only id') (k (toEscrowRecord r))) ->
  (forall w1, (run (k (toEscrowRecord row)) env w1).2 = w1) ->
  spares (bind (EscrowService.findById id') k) w.
Proof using HE.
  intros HI Hrow Hothers Hthis. apply wp_bind, wp_service_findById; [done|done| |].
  - intros r w1 Hr HI1 [Hdb _]. destruct (decide (id' = id)) as [->|Hne].
    + rewrite Hrow in Hr. injection Hr as <-. unfold wp. by rewrite Hthis, Hdb.
    + apply (spares_only _ id'); [by rewrite Hdb|done|]. apply Hothers. by apply (inv_ids _ _ HI _ _ Hr).
  - intros e w1 _ [Hdb _] _. by rewrite Hdb.
Qed.

Context (user : AuthUser) (Hs : stranger env row user).

Lemma stranger_role : is_admin_role user = false.
Proof using HE Hs. unfold is_admin_role. apply bool_decide_eq_false_2, Hs. Qed.

Lemma stranger_party isAdmin : isAdmin = is_admin_role user -> party isAdmin (au_address user) row = false.
Proof using HE Hs. intros ->. unfold party. rewrite stranger_role. apply bool_decide_eq_false_2, Hs. Qed.

Lemma stranger_vendor : bool_decide (e_vendorAddress row = au_address user) = false.
Proof using HE Hs. apply bool_decide_eq_false_2. intros He. destruct Hs as [Hn _]. rewrite <- He in Hn. set_solver. Qed.

Lemma stranger_involved : BuyerDispute.is_involved (env_config env "ADMIN_ADDRESS") (au_address user) (toEscrowRecord row) = false.
Proof using HE Hs.
  destruct Hs as (Hn & Ha & _). unfold BuyerDispute.is_involved. cbn [toEscrowRecord e_buyerAddress e_vendorAddress].
  rewrite !bool_decide_eq_false_2; [done|..]; try congruence; intros He; rewrite He in Hn; set_solver.
Qed.

Lemma spares_cancel id' w : Inv env w -> escrow_of w id = Some row ->
  spares (EscrowService.cancelEscrow id' (au_address user) (is_admin_role user)) w.
Proof using HE Hs.
  intros HI Hrow. apply spares_load; [done|done| |].
  - intros r Hid. only_walk.
  - intros w1. rewrite party_may_cancel, stranger_party by done. done.
Qed.

Lemma spares_cancelPending id' w : Inv env w -> escrow_of w id = Some row ->
  spares (EscrowService.cancelPendingEscrow id' (au_address user) (is_admin_role user)) w.
Proof using HE Hs.
  intros HI Hrow. apply spares_load; [done|done| |].
  - intros r Hid. only_walk.
  - intros w1. rewrite party_may_cancel, stranger_party by done. done.
Qed.

Lemma spares_ship id' tracking w : Inv env w -> escrow_of w id = Some row ->
  spares (EscrowService.handleShipment id' (au_address user) tracking (is_admin_role user)) w.
Proof using HE Hs.
  intros HI Hrow. unfold EscrowService.handleShipment.
  case_match; [by apply wp_raise|]. case_match; [by apply wp_raise|]. apply spares_load; [done|done| |].
  - intros r Hid. cbn [toEscrowRecord e_id]. rewrite Hid. only_walk.
  - intros w1. cbn [toEscrowRecord e_vendorAddress]. by rewrite stranger_role, stranger_vendor.
Qed.

Lemma spares_openDispute id' dto w : Inv env w -> escrow_of w id = Some row ->
  spares (BuyerDispute.openDispute id' (au_address user) dto) w.
Proof using HE Hs.
  intros HI Hrow. unfold BuyerDispute.openDispute. apply wp_bind, wp_findById; [done|done|].
  intros [[rec|]|e] w1 HI1 Hdb _ Hf.
  - destruct Hf as (r & Hr & ->). destruct (decide (id' = id)) as [->|Hne].
    + assert (r = row) as -> by congruence. apply wp_bind, wp_await. cbn [fst snd].
      rewrite stranger_involved. apply wp_raise. simpl. by rewrite Hdb.
    + apply (spares_only _ id'); [by rewrite Hdb|done|]. only_walk.
  - apply wp_raise. by rewrite Hdb.
  - by rewrite Hdb.
Qed.

Lemma spares_getDispute id' w : Inv env w -> escrow_of w id = Some row ->
  spares (BuyerDispute.getDispute id' (au_address user)) w.
Proof using HE.
  intros HI Hrow. unfold BuyerDispute.getDispute. apply wp_bind, wp_findById; [done|done|].
  intros [[rec|]|e] w1 HI1 Hdb _ Hf; [|apply wp_raise; by rewrite Hdb|by rewrite Hdb].
  apply spares_off; [by rewrite Hdb|]. unfold DisputeRepository.findByEscrow, BuyerDispute.toResponse. off_walk.
Qed.

Lemma create_undisturbed dto vendor : every (undisturbed id) (EscrowService.createEscrow dto vendor).
Proof using Type.
  unfold EscrowService.createEscrow, findByVendorAndItem, EscrowService.ensureVendorProfile, create.
  walk_every ltac:(idtac; first [apply (undisturbed_create id (fun env => new_escrow_row dto vendor (env_decimal env (dto_amount dto))))
    | eapply every_mono; [intros ? ?; apply same_undisturbed|]; solve [same_walk]]).
Qed.
End stranger.

Section foreign.
Context {U : UuidChecks} {C : ContractApi} {D : DecimalOps} {TZ : TimeZones}.
Context (env : Env) (HE : good_env env) (id : string) (row : PrismaEscrow).

Lemma spares_uuid {A} id' (m : Prog A) w :
  escrow_of w id = Some row -> wp m env w (fun _ w' => escrow_of w' id = Some row) ->
  wp (with_uuid id' m) env w (fun _ w' => escrow_of w' id = Some row).
Proof using Type. intros Hrow Hm. unfold with_uuid. case_match; [done|by apply wp_raise]. Qed.

(** A route behind the guard, for a token of a stranger. *)
Lemma user_route_spares auth r w :
  Inv env w -> escrow_of w id = Some row ->
  (forall t user, JwtGuard.canActivate env t auth = Ok user -> stranger env row user) ->
  escrow_of (run (user_route auth r) env w).2 id = Some row.
Proof using HE.
  intros HI Hrow Hs.
  assert (Hguard : forall A (handler : AuthUser -> Prog A),
    (forall user, stranger env row user -> wp (handler user) env w (fun _ w' => escrow_of w' id = Some row)) ->
    escrow_of (run (ignored (with_user auth handler)) env w).2 id = Some row).
  { intros A handler Hh. rewrite run_ignored, run_with_user. destruct (JwtGuard.canActivate _ _ _) eqn:Ha; [|done].
    eapply Hh, Hs, Ha. }
  destruct r; apply Hguard; intros user Hu;
    try (apply (spares_off env id row); [done|]; solve [vendor_off]).
  - case_match; [|by apply wp_raise]. case_match; [|by apply wp_raise].
    apply (spares_every env id row); [done|]. unfold EscrowService.createIdempotent.
    walk_every ltac:(idtac; first [apply create_undisturbed
      | eapply every_mono; [intros ? ?; apply same_undisturbed|]; solve [same_walk]]).
  - apply spares_uuid; [done|]. by apply spares_ship.
  - apply spares_uuid; [done|]. by apply spares_cancel.
  - apply spares_uuid; [done|]. by apply spares_cancelPending.
  - apply spares_uuid; [done|]. by apply spares_openDispute.
  - apply spares_uuid; [done|]. by apply spares_getDispute.
Qed.

(** No sequence of typed requests to the guarded routes by people with no part
    in an escrow changes anything of it. *)
Lemma strangers_spare_the_escrow rs w :
  Inv env w -> escrow_of w id = Some row ->
  Forall (fun r => match r with
    | ToUser auth _ => forall t user, JwtGuard.canActivate env t auth = Ok user -> stranger env row user
    | _ => False
    end) rs ->
  escrow_of (answer env rs w) id = Some row.
Proof using HE.
  intros HI Hrow Hrs. revert w HI Hrow. induction Hrs as [|r rs Hr _ IH]; intros w HI Hrow; [done|]. simpl.
  apply IH; [by apply sound_respond|]. destruct r; [|done..]. by apply user_route_spares.
Qed.
End foreign.

(** ** The logistics key *)

(** A rotation that answers success was asked for by the
    configured administrator, left the key sealed under the master key both in
    memory and in the credentials table, and appended exactly one audit entry,
    which names the administrator and the provider and no key.  One that fails
    leaves no audit entry, and with the database up changes no table. *)
Theorem rotation_is_audited env w auth key r w' :
  run (AdminControllers.rotateLogisticsKey auth key) env w = (r, w') ->
  match r with
  | Ok _ => exists user entry s t,
      bears_token env (env_now env (w_tick w)) auth user /\
      env_config env "ADMIN_ADDRESS" = Some (au_address user) /\
      db_audit (w_db w') = db_audit (w_db w) ++ [entry] /\
      al_action entry = "CREDENTIAL_ROTATED" /\ al_adminAddress entry = au_address user /\
      al_details entry = [("provider", Some "logistics")] /\
      ac_credentials (db_accounts (w_db w')) !! "logistics" = Some s /\ sd_apiKey (w_side w') = Some s /\
      encryptCredential (env_providers env) (coalesce (env_config env "CREDENTIAL_ENCRYPTION_KEY") "") t key = Ok s
  | Throw _ => db_audit (w_db w') = db_audit (w_db w) /\ (db_reliable env -> w_db w' = w_db w)
  end.
Proof.
  unfold AdminControllers.rotateLogisticsKey. rewrite run_with_admin.
  destruct (JwtGuard.canActivate _ _ _) as [user|e] eqn:Hu; [|by intros [= <- <-]].
  destruct (AdminGuard.canActivate _ _) eqn:Ha; [|by intros [= <- <-]].
  assert (Hadmin : env_config env "ADMIN_ADDRESS" = Some (au_address user)).
  { revert Ha. unfold AdminGuard.canActivate. case_match eqn:Hc; [|done]. intros _. by b2p. }
  apply activate_bears_token in Hu. unfold Logistics.rotateApiKey, Logistics.seal_key, Logistics.set_key.
  rewrite run_bind, run_bind, run_await. cbv zeta.
  destruct (truthy (env_config env "CREDENTIAL_ENCRYPTION_KEY")); [|by intros [= <- <-]].
  destruct (encryptCredential _ _ _ _) as [s|e] eqn:He; [|by intros [= <- <-]].
  rewrite run_bind, run_await. cbn [fst snd local]. unfold ProviderCredential.upsert. rewrite run_await.
  match goal with |- context [db_call ?g env ?w1] => destruct (db_call_cases g env w1) as [(e & Hf & ->)| ->] end.
  - intros [= <- <-]. split; [done|]. intros HR. by destruct (Hf HR).
  - cbn [fst snd]. rewrite run_bind. unfold AuditLog.append, audit_create. rewrite run_await.
    match goal with |- context [db_call ?g env ?w1] => destruct (db_call_cases g env w1) as [(e & Hf & H)|H] end.
    + rewrite H. intros [= <- <-]. split; [done|]. intros HR. by destruct (Hf HR).
    + rewrite H. cbn [fst snd]. intros [= <- <-]. eexists user, _, s, _. split_and!; try done.
      simpl. by rewrite lookup_insert_eq.
Qed.


(** ** Instances *)

#[local] Instance demo_uuids : UuidChecks := { isUUID _ := true; ParseUUIDPipe _ := true }.

#[local] Instance demo_ops : DecimalOps := {
  decimal_plus a b := (a + b)%Z;
  decimal_div_toNumber a n := ratio_to_number a (DECIMAL_SCALE * n) }.

#[local] Instance demo_utc : TimeZones := { zone_offset _ _ := 0%Z }.

Lemma auth_good : good_env auth_env.
Proof. split; [intros; apply demo_now_ok|done]. Qed.

(** A token of someone who has no part in the demo escrow. *)
Definition other_token : string :=
  match Sep10.issueJwt auth_env demo_now "GOTHER" with Ok token => token | Throw _ => "" end.

Definition other_header : HeaderValue := HOne ("Bearer " +:+ other_token).

Lemma other_is_stranger t user :
  JwtGuard.canActivate auth_env t other_header = Ok user -> stranger auth_env (demo_row "e1" FUNDED) user.
Proof.
  unfold other_header. rewrite (activate_issued auth_env demo_now t "GOTHER" other_token); [|reflexivity|done..].
  destruct (_ <=? _)%Z; [done|]. intros [= <-]. split_and!; [|done|done].
  rewrite !not_elem_of_cons. split_and!; [done|done|apply not_elem_of_nil].
Qed.

Definition other_requests : list HttpRequest :=
  [ToUser other_header (PatchCancel "e1"); ToUser HNone GetProfile; ToUser other_header (PostDispute "e1"
    (BuyerDispute.mkOpenDisputeDto "FRAUD" None None))].

Lemma api_follows_lifecycle_witness :
  evolves (demo_world [demo_row "e1" FUNDED]) (answer (C := demo_chain) auth_env other_requests (demo_world [demo_row "e1" FUNDED])).
Proof.
  apply (api_follows_lifecycle (C := demo_chain) auth_env other_requests); [apply auth_good|].
  apply demo_inv. repeat constructor; apply demo_row_dates.
Defined.

(** The administrator rotates the key. *)
Definition admin_header : HeaderValue :=
  HOne ("Bearer " +:+ match Sep10.issueJwt auth_env demo_now "GADMIN" with Ok token => token | Throw _ => "" end).

Lemma rotation_is_audited_witness :
  exists w', run (AdminControllers.rotateLogisticsKey admin_header "new-key") auth_env (demo_world []) =
      (Ok "Logistics API key updated and encrypted", w') /\
    exists entry, db_audit (w_db w') = [entry] /\ al_adminAddress entry = "GADMIN" /\
      al_details entry = [("provider", Some "logistics")].
Proof.
  destruct (run (AdminControllers.rotateLogisticsKey admin_header "new-key") auth_env (demo_world [])) as [[m|e] w'] eqn:H.
  2: { apply (f_equal (fun x => is_ok x.1)) in H. vm_compute in H. discriminate. }
  assert (Hm : m = "Logistics API key updated and encrypted").
  { apply (f_equal (fun x => match x.1 with Ok m => m | Throw _ => "" end)) in H. vm_compute in H. by rewrite H. }
  exists w'. split; [by rewrite Hm|].
  destruct (rotation_is_audited auth_env (demo_world []) admin_header "new-key" (Ok m) w' H)
    as (user & entry & s & t & _ & Ha & Hl & _ & Hu & Hd & _).
  exists entry. split_and!; [exact Hl| |exact Hd]. rewrite Hu. vm_compute in Ha. by injection Ha.
Defined.
