(* ===== verification/ConfigSpec.v ===== *)
(** * What a validated configuration guarantees

    The schema is checked once, at start-up; the theorem states what the
    services may rely on afterwards. *)
From S2P Require Import Prelude Records Dates Text Tables Crypto Effects EscrowRepo Contract Lifecycle EscrowSvc Workers Auth Http Doubles Health HealthSpec Config Demo.
Import ConfigSchema.

(** Membership in a list of constants. *)
Ltac in_list := apply list_elem_of_In; cbn; tauto.

Section validated.
Context {J : Joi} (raw : RawEnv).

Lemma hex_bytes_length n s : String.length s = 2 * n -> all_chars is_hex s = true -> length (hex_bytes s) = n.
Proof.
  revert s. induction n as [|n IH]; intros [|a [|b s]] Hl; try (simpl in Hl; lia); [done|].
  unfold all_chars. cbn [String.list_ascii_of_string forallb]. rewrite !andb_true_iff. unfold is_hex.
  intros (Ha & Hb & H). cbn [hex_bytes].
  destruct (hex_val a), (hex_val b); try done. cbn [length]. f_equal. apply IH; [simpl in Hl; lia|done].
Qed.

(** An environment the schema accepts, as the services read it. *)
Context (env : Env) (Hload : env_config env = loaded raw)
  (Hok : configValidationSchema raw = true).

(** The checks the theorem needs. *)
Lemma schema_checks :
  (forall key, key ∈ required_keys raw -> is_Some (raw key)) /\
  (forall key, key ∈ string_keys -> raw key <> Some "") /\
  check raw "NODE_ENV" (one_of ["development"; "production"; "test"]) = true /\
  check raw "STELLAR_NETWORK" (one_of ["TESTNET"; "MAINNET"]) = true /\
  check raw "CONTACT_ENCRYPTION_KEY" hex64 = true /\
  check raw "CREDENTIAL_ENCRYPTION_KEY" hex64 = true /\
  check raw "ADMIN_ADDRESS" (fun v => passes (stellarPublicKey v)) = true /\
  check raw "SEP10_JWT_SECRET" (fun v => Nat.leb 32 (js_length v)) = true /\
  check raw "SYSTEM_SIGNER_SECRET" (fun v => passes (stellarSecretKey "SYSTEM_SIGNER_SECRET" v)) = true /\
  check raw "TWILIO_FROM_NUMBER" e164 = true /\
  check raw "SOROBAN_RPC_URL" (fun v => passes (sorobanRpcUrl (coalesce (raw "STELLAR_NETWORK") "TESTNET") v)) = true /\
  (forall k, k ∈ NUMBER_KEYS -> check_number raw k = true) /\ less_than_interval raw = true.
Proof using Hok.
  unfold configValidationSchema in Hok. rewrite !andb_true_iff, !forallb_forall in Hok. destruct_and! Hok.
  split_and!; try done.
  - intros key Hin. match goal with H : forall x, In x (required_keys raw) -> _ |- _ =>
      specialize (H key ltac:(by apply list_elem_of_In)) end. by destruct (raw key).
  - intros key Hin E. match goal with H : forall x, In x string_keys -> _ |- _ =>
      specialize (H key ltac:(by apply list_elem_of_In)); unfold not_empty in H; by rewrite E in H end.
  - intros k Hin. match goal with H : forall x, In x NUMBER_KEYS -> _ |- _ => apply H end. by apply list_elem_of_In.
Qed.

(** A required text is there and not empty. *)
Lemma required_text key : key ∈ required_keys raw -> key ∈ string_keys -> exists v, env_config env key = Some v /\ raw key = Some v /\ v <> "".
Proof using Hload Hok.
  intros Hr Hs. destruct schema_checks as (Hreq & Hne & _). destruct (Hreq key Hr) as [v Hv].
  exists v. rewrite Hload. unfold loaded. rewrite Hv. split_and!; [done|done|]. intros ->. by apply (Hne key Hs).
Qed.

Lemma truthy_text key v : env_config env key = Some v -> v <> "" -> truthy (env_config env key) = true.
Proof using. intros -> Hv. cbn. by rewrite bool_decide_eq_false_2. Qed.

Lemma in_production key : key ∈ required_in_production -> env_config env "NODE_ENV" = Some "production" -> key ∈ required_keys raw.
Proof using Hload.
  intros Hk Hp. rewrite Hload in Hp. unfold required_keys. rewrite !elem_of_app. right. left.
  unfold loaded in Hp. unfold is_production. destruct (raw "NODE_ENV") as [v|]; [|done].
  injection Hp as ->. by rewrite bool_decide_eq_true_2.
Qed.

Lemma network_loaded : env_config env "STELLAR_NETWORK" = Some (coalesce (raw "STELLAR_NETWORK") "TESTNET") /\
  coalesce (raw "STELLAR_NETWORK") "TESTNET" ∈ ["TESTNET"; "MAINNET"].
Proof using Hload Hok.
  destruct schema_checks as (_ & _ & _ & H & _). rewrite Hload. unfold loaded, check in *.
  destruct (raw "STELLAR_NETWORK") as [v|]; cbn.
  - split; [done|]. unfold one_of in H. by apply bool_decide_eq_true in H.
  - split; [done|]. by left.
Qed.

(** A URL that agrees with a network. *)
Definition agrees (network url : string) : Prop :=
  (network = "MAINNET" -> ~ mentions "testnet" (toLowerCase url)) /\ (network = "TESTNET" -> ~ mentions "mainnet" (toLowerCase url)).

Lemma soroban_agrees network v : passes (sorobanRpcUrl network v) = true -> agrees network v.
Proof using.
  unfold sorobanRpcUrl, agrees. rewrite <- !includes_iff. intros H. split; intros ->.
  - rewrite bool_decide_eq_true_2 in H by done. cbn [andb] in H. by destruct (includes "testnet" _).
  - rewrite bool_decide_eq_false_2, bool_decide_eq_true_2 in H by done. cbn [andb] in H. by destruct (includes "mainnet" _).
Qed.

Lemma rpc_url_resolves : exists url, SorobanRpc.resolveRpcUrl env = Ok url /\
  agrees (coalesce (raw "STELLAR_NETWORK") "TESTNET") url.
Proof using Hload Hok.
  destruct schema_checks as (Hreq & Hne & Hnode & _ & _ & _ & _ & _ & _ & _ & Hurl & _). destruct network_loaded as [Hnet _].
  unfold SorobanRpc.resolveRpcUrl. rewrite Hnet.
  assert (Hc : env_config env "SOROBAN_RPC_URL" = raw "SOROBAN_RPC_URL").
  { rewrite Hload. unfold loaded. by destruct (raw "SOROBAN_RPC_URL"). }
  rewrite Hc. destruct (raw "SOROBAN_RPC_URL") as [v|] eqn:Hv.
  - exists v. assert (v <> "") by (intros ->; by apply (Hne "SOROBAN_RPC_URL" ltac:(in_list))).
    cbn [truthy coalesce]. rewrite bool_decide_eq_false_2 by done. cbn [negb]. split; [done|].
    unfold check in Hurl. rewrite Hv in Hurl. by apply soroban_agrees.
  - cbn [truthy]. rewrite bool_decide_eq_false_2.
    2: { intros Hp. apply (in_production "SOROBAN_RPC_URL") in Hp; [|in_list].
         destruct (Hreq _ Hp) as [? E]. congruence. }
    assert (Hm : coalesce (raw "STELLAR_NETWORK") "TESTNET" <> "MAINNET").
    { intros E. assert (Hin : "SOROBAN_RPC_URL" ∈ required_keys raw); [|destruct (Hreq _ Hin) as [? E']; congruence].
      unfold required_keys. rewrite !elem_of_app. right; right; left. unfold is_mainnet.
      destruct (raw "STELLAR_NETWORK"); [|done]. cbn in E. subst. rewrite bool_decide_eq_true_2 by done. by left. }
    rewrite bool_decide_eq_false_2 by congruence. eexists. split; [done|]. split; [done|]. intros _ H.
    apply includes_iff in H. vm_compute in H. done.
Qed.

Lemma hex64_bytes key : check raw key hex64 = true -> forall v, raw key = Some v -> length (hex_bytes v) = 32.
Proof using.
  unfold check. intros H v Hv. rewrite Hv in H. apply andb_true_iff in H as [Hl Hh].
  apply Nat.eqb_eq in Hl. by apply hex_bytes_length.
Qed.

(** The number a service reads under a key with that default. *)
Definition number_read (key : string) (default : option Z) : option number :=
  match raw key with Some text => joi_number text | None => of_Z <$> default end.

(** What a service may rely on: a whole number between the bounds. *)
Definition in_bounds (lo : Z) (hi : option Z) (x : number) : Prop :=
  is_integer x = true /\ number_ltb x (of_Z lo) = false /\
  match hi with Some hi => number_ltb (of_Z hi) x = false | None => True end.

(** The numbers, by the units the services use them in: key, least value,
    greatest value, default. *)
Definition RANGES : list (string * Z * option Z * Z) := [
  ("DB_POOL_CONNECTION_LIMIT", 1, None, 10); ("DB_POOL_TIMEOUT_MS", 0, None, 10000);
  ("QUERY_TIMEOUT_MS", 1000, None, 30000); ("SLOW_QUERY_THRESHOLD_MS", 0, None, 500);
  ("AUTH_CHALLENGE_LIMIT", 1, None, 10); ("AUTH_CHALLENGE_WINDOW", 1000, None, 60000);
  ("PUBLIC_LIMIT", 1, None, 60); ("PUBLIC_WINDOW", 1000, None, 60000);
  ("EVIDENCE_UPLOAD_LIMIT", 1, None, 10); ("EVIDENCE_UPLOAD_TTL", 1000, None, 60000);
  ("ACCESS_TOKEN_TTL", 1, Some 86400, 3600); ("REFRESH_TOKEN_TTL", 60, None, 604800);
  ("SOROBAN_POLL_INTERVAL_MS", 1000, None, 5000); ("SOROBAN_RPC_TIMEOUT_MS", 100, None, 4000);
  ("WEBHOOK_EVENT_RETENTION_DAYS", 1, None, 30)]%Z.

Lemma number_in_bounds key lo hi default :
  mkNumberKey key true (Some lo) hi (Some default) ∈ NUMBER_KEYS -> in_bounds lo hi (of_Z default) ->
  exists x, number_read key (Some default) = Some x /\ in_bounds lo hi x.
Proof using Hok.
  intros Hk Hd. destruct schema_checks as (_ & _ & _ & _ & _ & _ & _ & _ & _ & _ & _ & Hnum & _). specialize (Hnum _ Hk).
  unfold check_number in Hnum. unfold number_read. cbn [nk_name nk_integer nk_min nk_max negb orb] in Hnum.
  destruct (raw key) as [text|]; [|by eexists]. destruct (joi_number text) as [x|]; [|done]. exists x. split; [done|].
  unfold within in Hnum. rewrite !andb_true_iff, negb_true_iff in Hnum. destruct Hnum as (Hi & Hlo & Hhi).
  split_and!; [done|done|]. destruct hi; [by apply negb_true_iff|done].
Qed.

Lemma all_in_bounds : Forall (fun '(key, lo, hi, default) => exists x, number_read key (Some default) = Some x /\ in_bounds lo hi x) RANGES.
Proof using Hok. repeat constructor; (apply number_in_bounds; [in_list|by vm_compute]). Qed.

Lemma start_ledger_in_bounds ledger : number_read "SOROBAN_START_LEDGER" None = Some ledger -> in_bounds 1 None ledger.
Proof using Hok.
  destruct schema_checks as (_ & _ & _ & _ & _ & _ & _ & _ & _ & _ & _ & Hnum & _).
  specialize (Hnum (mkNumberKey "SOROBAN_START_LEDGER" true (Some 1%Z) None None) ltac:(in_list)).
  unfold check_number in Hnum. unfold number_read. cbn [nk_name nk_integer nk_min nk_max negb orb] in Hnum.
  destruct (raw "SOROBAN_START_LEDGER") as [text|]; [|done]. intros E. rewrite E in Hnum.
  unfold within in Hnum. rewrite !andb_true_iff, negb_true_iff in Hnum. by destruct Hnum as (? & ? & _).
Qed.

(** Contact encryption is on and the texts production needs are there. *)
Lemma production_ready :
  check raw "CONTACT_ENCRYPTION_KEY" hex64 = true ->
  (forall key, key ∈ required_keys raw -> is_Some (raw key)) ->
  (forall key, key ∈ required_in_production -> key ∈ required_keys raw) ->
  EscrowService.isContactEncryptionConfigured env = true /\
  is_Some (env_config env "CREDENTIAL_ENCRYPTION_KEY") /\ is_Some (env_config env "SENTRY_DSN") /\
  Forall (fun key => truthy (env_config env key) = true)
    ["STELLAR_WEBHOOK_SECRET"; "FRONTEND_URL"; "EVIDENCE_STORAGE_BASE_URL"; "SOROBAN_RPC_URL"].
Proof using Hload Hok.
  intros Hcontact Hreq Hp.
  assert (Hsome : forall key, key ∈ required_in_production -> is_Some (env_config env key)).
  { intros key Hk. destruct (Hreq key (Hp key Hk)) as [v Hv]. rewrite Hload. unfold loaded. rewrite Hv. by exists v. }
  assert (Ht : forall key, key ∈ required_in_production -> key ∈ string_keys -> truthy (env_config env key) = true).
  { intros key Hk Hs. destruct (required_text key (Hp key Hk) Hs) as (v & Hv & _ & Hv0). by eapply truthy_text. }
  split_and!.
  - destruct (required_text "CONTACT_ENCRYPTION_KEY") as (k1 & E1 & R1 & N1); [apply Hp; in_list|in_list|].
    unfold EscrowService.isContactEncryptionConfigured. rewrite (truthy_text _ k1 E1 N1), E1. cbn [coalesce].
    by rewrite (hex64_bytes _ Hcontact k1 R1).
  - apply Hsome. in_list.
  - apply Hsome. in_list.
  - repeat constructor; (apply Ht; in_list).
Qed.

(** C39. When the schema accepts the environment, the services find what they need:
    an administrator whose key decodes, a signing key that decodes, and a token
    secret of at least 32 characters; a database, a contract and a secret for
    evidence URLs; one of the three environments; an RPC URL that resolves and
    does not belong to the other network; encryption keys, where they are set,
    of 32 bytes; in production both of them, a webhook secret and the addresses
    of the front end, the evidence store and the error monitor; a sender
    whenever e-mail or SMS is enabled; every number a whole one within its
    bounds; and an RPC timeout that was given shorter than the poll interval. *)
Theorem validated_configuration :
  (exists admin, env_config env "ADMIN_ADDRESS" = Some admin /\ admin <> "" /\ fromPublicKey admin = true) /\
  (exists signer, env_config env "SYSTEM_SIGNER_SECRET" = Some signer /\ fromSecret signer = true) /\
  (exists secret, env_config env "SEP10_JWT_SECRET" = Some secret /\ 32 <= js_length secret) /\
  Forall (fun key => truthy (env_config env key) = true) ["DATABASE_URL"; "CONTRACT_ID"; "PRESIGN_SECRET"] /\
  env_config env "NODE_ENV" ∈ [Some "development"; Some "production"; Some "test"] /\
  (exists url, SorobanRpc.resolveRpcUrl env = Ok url /\
     forall network, env_config env "STELLAR_NETWORK" = Some network -> agrees network url) /\
  (forall key value, key ∈ ["CONTACT_ENCRYPTION_KEY"; "CREDENTIAL_ENCRYPTION_KEY"] ->
     env_config env key = Some value -> length (hex_bytes value) = 32) /\
  (ConfigService.isProduction env = true ->
     EscrowService.isContactEncryptionConfigured env = true /\
     is_Some (env_config env "CREDENTIAL_ENCRYPTION_KEY") /\
     is_Some (env_config env "SENTRY_DSN") /\
     Forall (fun key => truthy (env_config env key) = true)
       ["STELLAR_WEBHOOK_SECRET"; "FRONTEND_URL"; "EVIDENCE_STORAGE_BASE_URL"; "SOROBAN_RPC_URL"]) /\
  (truthy (env_config env "SENDGRID_API_KEY") = true -> truthy (env_config env "SENDGRID_FROM_EMAIL") = true) /\
  (truthy (env_config env "TWILIO_ACCOUNT_SID") = true ->
     exists from, env_config env "TWILIO_FROM_NUMBER" = Some from /\ e164 from = true) /\
  Forall (fun '(key, lo, hi, default) => exists x, number_read key (Some default) = Some x /\ in_bounds lo hi x) RANGES /\
  (forall ledger, number_read "SOROBAN_START_LEDGER" None = Some ledger -> in_bounds 1 None ledger) /\
  (raw "SOROBAN_RPC_TIMEOUT_MS" <> None ->
     exists timeout interval, number_read "SOROBAN_RPC_TIMEOUT_MS" None = Some timeout /\
       number_read "SOROBAN_POLL_INTERVAL_MS" (Some 5000%Z) = Some interval /\ number_ltb timeout interval = true).
Proof using Hload Hok.
  destruct schema_checks as (Hreq & Hne & Hnode & _ & Hcontact & Hcred & Hadmin & Hjwt & Hsigner & Htwilio & _ & Hnum & Hless).
  assert (Halways : forall key, key ∈ always_required -> key ∈ string_keys -> exists v, env_config env key = Some v /\ raw key = Some v /\ v <> "").
  { intros key Hk. apply required_text. unfold required_keys. rewrite elem_of_app. by left. }
  assert (Hproduction : ConfigService.isProduction env = true -> forall key, key ∈ required_in_production -> key ∈ required_keys raw).
  { unfold ConfigService.isProduction. intros Hp%bool_decide_eq_true key Hk. by apply in_production. }
  assert (Hset : forall key, key ∈ ["CONTACT_ENCRYPTION_KEY"; "CREDENTIAL_ENCRYPTION_KEY"] -> env_config env key = raw key).
  { intros key Hk. rewrite Hload. unfold loaded. destruct (raw key); [done|].
    rewrite !elem_of_cons, elem_of_nil in Hk. by destruct Hk as [->|[->|[]]]. }
  split_and!.
  - destruct (Halways "ADMIN_ADDRESS" ltac:(in_list) ltac:(in_list)) as (v & Hv & Hraw & Hv0).
    exists v. split_and!; [done|done|]. unfold check in Hadmin. rewrite Hraw in Hadmin. unfold stellarPublicKey in Hadmin.
    destruct (negb _); [done|]. by destruct (fromPublicKey v).
  - destruct (Halways "SYSTEM_SIGNER_SECRET" ltac:(in_list) ltac:(in_list)) as (v & Hv & Hraw & Hv0).
    exists v. split; [done|]. unfold check in Hsigner. rewrite Hraw in Hsigner. unfold stellarSecretKey in Hsigner.
    destruct (negb _); [done|]. by destruct (fromSecret v).
  - destruct (Halways "SEP10_JWT_SECRET" ltac:(in_list) ltac:(in_list)) as (v & Hv & Hraw & Hv0).
    exists v. split; [done|]. unfold check in Hjwt. rewrite Hraw in Hjwt. by apply Nat.leb_le.
  - assert (Ht : forall key, key ∈ always_required -> key ∈ string_keys -> truthy (env_config env key) = true).
    { intros key Ha Hs. destruct (Halways key Ha Hs) as (v & Hv & _ & Hv0). by eapply truthy_text. }
    repeat constructor; (apply Ht; in_list).
  - rewrite Hload. unfold loaded, check in *. destruct (raw "NODE_ENV") as [v|]; [|in_list].
    unfold one_of in Hnode. apply bool_decide_eq_true in Hnode. rewrite !elem_of_cons in Hnode.
    destruct Hnode as [->|[->|[->|Hn]]]; [in_list..|by apply not_elem_of_nil in Hn].
  - destruct rpc_url_resolves as (url & Hurl & Ha). exists url. split; [done|]. intros network Hn.
    destruct network_loaded as [E _]. rewrite E in Hn. by injection Hn as <-.
  - intros key value Hk Hv. rewrite (Hset key Hk) in Hv. rewrite !elem_of_cons, elem_of_nil in Hk.
    destruct Hk as [->|[->|[]]]; [by apply (hex64_bytes _ Hcontact)|by apply (hex64_bytes _ Hcred)].
  - intros Hp. apply production_ready; [done|done|by apply Hproduction].
  - intros Hs. assert (Hr : truthy (raw "SENDGRID_API_KEY") = true).
    { rewrite Hload in Hs. unfold loaded in Hs. by destruct (raw "SENDGRID_API_KEY"). }
    destruct (required_text "SENDGRID_FROM_EMAIL") as (v & E & _ & N); [|in_list|by apply (truthy_text _ v)].
    unfold required_keys. rewrite Hr, !elem_of_app. do 3 right; left. in_list.
  - intros Ht. destruct (raw "TWILIO_ACCOUNT_SID") as [sid|] eqn:Hr.
    2: { rewrite Hload in Ht. unfold loaded in Ht. rewrite Hr in Ht. done. }
    destruct (required_text "TWILIO_FROM_NUMBER") as (v & E & R & N); [|in_list|].
    { unfold required_keys. rewrite Hr, !elem_of_app. do 4 right. in_list. }
    exists v. split; [done|]. unfold check in Htwilio. by rewrite R in Htwilio.
  - apply all_in_bounds.
  - apply start_ledger_in_bounds.
  - unfold less_than_interval, loaded_number in Hless. unfold number_read. cbn [nk_name nk_default POLL_INTERVAL RPC_TIMEOUT] in Hless.
    destruct (raw "SOROBAN_RPC_TIMEOUT_MS") as [t|]; [|done]. intros _. destruct (joi_number t) as [timeout|]; [|done].
    destruct (match raw "SOROBAN_POLL_INTERVAL_MS" with Some text => joi_number text | None => of_Z <$> Some 5000%Z end) as [interval|]; [|done].
    by exists timeout, interval.
Qed.
End validated.

(** ** An environment *)

#[local] Instance demo_joi : Joi := {
  fromPublicKey _ := true; fromSecret _ := true; joi_uri _ := true; joi_email _ := true;
  joi_number text := match Number_of_string text with NaN => None | x => Some x end;
  joi_boolean _ := true }.

Definition demo_raw : RawEnv := fun key =>
  if bool_decide (key = "NODE_ENV") then Some "production"
  else if bool_decide (key = "STELLAR_NETWORK") then Some "MAINNET"
  else if bool_decide (key = "ADMIN_ADDRESS") then Some "GADMIN"
  else if bool_decide (key = "SYSTEM_SIGNER_SECRET") then Some "SSECRET"
  else if bool_decide (key = "SOROBAN_RPC_URL") then Some "https://rpc.example.org"
  else if bool_decide (key = "CONTACT_ENCRYPTION_KEY") || bool_decide (key = "CREDENTIAL_ENCRYPTION_KEY")
  then Some "000102030405060708090a0b0c0d0e0f101112131415161718191a1b1c1d1e1f"
  else if bool_decide (key ∈ always_required ++ required_in_production) then Some "0123456789abcdef0123456789abcdef"
  else None.

Definition demo_loaded_env : Env :=
  mkEnv (fun _ => demo_now) (fun _ => None) demo_uuid true false (fun _ => false) true
    true (loaded demo_raw) (fun _ => 25000000000%Z)
    None demo_sdk (fun s => s) (fun _ m => m) (fun _ => "0")
    (fun _ _ => Ok []) (fun _ => Ok 100%Z) (fun _ _ => Ok []) 30 None (fun _ => true) demo_providers.

Lemma validated_configuration_witness :
  exists url, SorobanRpc.resolveRpcUrl demo_loaded_env = Ok url /\ agrees "MAINNET" url.
Proof.
  destruct (validated_configuration demo_raw demo_loaded_env
    ltac:(reflexivity) ltac:(vm_compute; reflexivity)) as (_ & _ & _ & _ & _ & (url & Hurl & Ha) & _).
  exists url. split; [exact Hurl|]. apply Ha. vm_compute. reflexivity.
Defined.

(** A default is not checked: with a poll interval of one second and no timeout
    given, the schema accepts a timeout of four seconds, longer than the
    interval. *)
Theorem default_timeout_exceeds_interval :
  let raw := fun key => if bool_decide (key = "SOROBAN_POLL_INTERVAL_MS") then Some "1000" else demo_raw key in
  configValidationSchema raw = true /\
  loaded_number raw POLL_INTERVAL = Some (of_Z 1000) /\ loaded_number raw RPC_TIMEOUT = Some (of_Z 4000) /\
  number_ltb (of_Z 1000) (of_Z 4000) = true.
Proof. vm_compute. repeat split. Qed.
