(* ===== verification/DtoSpec.v ===== *)
(** * What an accepted request carries

    The services trust the typed values of their DTOs.  The theorems state what
    the global pipes establish of them, for any pipe that does what it is
    documented to do: an accepted amount is stored and read back exactly, an
    accepted tracking id is its own URL path, pages are bounded; and two guards
    that do not guard. *)
From Stdlib Require Import Ascii.
From S2P Require Import Prelude Records Dates Text Tables Crypto Json Effects Logistics Cache Prisma EscrowRepo Coherence Demo Contract Lifecycle QuerySpec EscrowSvc EscrowSpec Auth Http Doubles Config Disputes Dto.
Local Open Scope prog_scope.
Local Open Scope string_scope.

#[local] Arguments integer_of : simpl never.

(** Membership of a property in a class. *)
Ltac in_class := apply list_elem_of_In; cbn; tauto.

(** ** Instances *)

Section instances.
Context (env : Env) {V : ValidationPipe env}.

Lemma accepted_property C body o p :
  body_of env C body = Ok o -> p ∈ C -> property_ok env char_count library_check o p = true.
Proof using.
  intros H Hp. unfold body_of, global_pipes in H. apply pipe_ok in H. destruct o; try done.
  cbn [instance_ok] in H. apply andb_prop in H as [_ H]. rewrite forallb_forall in H. by apply H, list_elem_of_In.
Qed.

(** A property that is neither optional nor conditional satisfies every
    decorator. *)
Lemma accepted_required C body o name f ds :
  body_of env C body = Ok o -> with_transform f (required name ds) ∈ C ->
  Forall (fun d => holds env char_count library_check d (get_field name o) = true) ds.
Proof using.
  intros H Hp. apply (accepted_property _ _ _ _ H) in Hp. cbn in Hp. apply Forall_forall. intros d Hd.
  rewrite forallb_forall in Hp. by apply Hp, list_elem_of_In.
Qed.

(** An optional one is absent, null or satisfies them. *)
Lemma accepted_optional C body o name f ds v :
  body_of env C body = Ok o -> with_transform f (optional name ds) ∈ C ->
  get_field name o = Some v -> v <> JNull ->
  Forall (fun d => holds env char_count library_check d (Some v) = true) ds.
Proof using.
  intros H Hp Hv Hn. apply (accepted_property _ _ _ _ H) in Hp. unfold property_ok in Hp. cbn in Hp.
  rewrite Hv in Hp. apply orb_prop in Hp as [Hp|Hp]; [by destruct v|]. apply Forall_forall. intros d Hd.
  rewrite forallb_forall in Hp. by apply Hp, list_elem_of_In.
Qed.

Lemma accepted_transform C body o name f ds (q : string -> list Decorator -> Property) :
  bool_decide (NoDup (p_name <$> C)) = true -> body_of env C body = Ok o ->
  with_transform f (q name ds) ∈ C -> p_name (q name ds) = name -> exists v, f v = Ok (get_field name o).
Proof using.
  intros Hnd%bool_decide_eq_true H Hp Hn. destruct (pipe_transformed _ _ _ _ Hnd H Hp) as [v Hv]. exists v.
  cbn in Hv. by rewrite Hn in Hv.
Qed.

Lemma holds_string v : holds env char_count library_check IsString v = true -> exists s, v = Some (JStr s).
Proof using. destruct v as [[]|]; try done. by eexists. Qed.

Lemma holds_number v : holds env char_count library_check IsNumber v = true -> exists m e, v = Some (JNum (Finite m e)).
Proof using. destruct v as [[| |[]| | |]|]; try done. by eexists _, _. Qed.
End instances.

(** ** Trimmed text *)

(** What follows the white-space character a text starts with. *)
Definition space_prefix (s : string) : option string :=
  match s with
  | EmptyString => None
  | String c1 s1 =>
      if is_space c1 then Some s1
      else match s1 with
           | EmptyString => None
           | String c2 s2 =>
               if is_space2 c1 c2 then Some s2
               else match s2 with
                    | EmptyString => None
                    | String c3 s3 => if is_space3 c1 c2 c3 then Some s3 else None
                    end
           end
  end.

Lemma trim_start_step s : trim_start s = match space_prefix s with Some r => trim_start r | None => s end.
Proof.
  destruct s as [|c1 s1]; [done|]. simpl. destruct (is_space c1); [done|]. destruct s1 as [|c2 s2]; [done|].
  destruct (is_space2 c1 c2); [done|]. destruct s2 as [|c3 s3]; [done|]. by destruct (is_space3 c1 c2 c3).
Qed.

Lemma space_prefix_shorter s r : space_prefix s = Some r -> String.length r < String.length s.
Proof.
  destruct s as [|c1 s1]; [done|]. simpl. destruct (is_space c1); [intros [= ->]; lia|]. destruct s1 as [|c2 s2]; [done|].
  destruct (is_space2 c1 c2); [intros [= ->]; simpl; lia|]. destruct s2 as [|c3 s3]; [done|].
  destruct (is_space3 c1 c2 c3); [intros [= ->]; simpl; lia|done].
Qed.

Lemma space_prefix_app s r t : space_prefix s = Some r -> space_prefix (s +:+ t) = Some (r +:+ t).
Proof.
  destruct s as [|c1 s1]; [done|]. simpl. destruct (is_space c1); [by intros [= ->]|]. destruct s1 as [|c2 s2]; [done|].
  simpl. destruct (is_space2 c1 c2); [by intros [= ->]|]. destruct s2 as [|c3 s3]; [done|].
  simpl. destruct (is_space3 c1 c2 c3); [by intros [= ->]|done].
Qed.

(** Induction along the white space at the start. *)
Lemma trim_start_ind (P : string -> string -> Prop) :
  (forall s, space_prefix s = None -> P s s) ->
  (forall s r, space_prefix s = Some r -> P r (trim_start r) -> P s (trim_start r)) ->
  forall s, P s (trim_start s).
Proof.
  intros Hn Hs. assert (H : forall n s, String.length s < n -> P s (trim_start s)); [|intros s; apply (H (S (String.length s))); lia].
  induction n as [|n IH]; [lia|]. intros s Hl. rewrite trim_start_step. destruct (space_prefix s) as [r|] eqn:E; [|by apply Hn].
  apply Hs; [done|]. apply IH. apply space_prefix_shorter in E. lia.
Qed.

Lemma trim_start_none s : space_prefix (trim_start s) = None.
Proof. by apply (trim_start_ind (fun _ t => space_prefix t = None)). Qed.

Lemma trim_start_idem s : trim_start (trim_start s) = trim_start s.
Proof. rewrite (trim_start_step (trim_start s)). by rewrite trim_start_none. Qed.

(** Only white space. *)
Definition blank (s : string) : Prop := trim_start s = EmptyString.

Lemma blank_app a b : blank a -> blank b -> blank (a +:+ b).
Proof.
  unfold blank. intros Ha Hb. revert Ha. apply (trim_start_ind (fun a t => t = EmptyString -> trim_start (a +:+ b) = EmptyString)).
  - by intros s _ ->.
  - intros s r E IH Ht. rewrite trim_start_step, (space_prefix_app _ _ _ E). by apply IH.
Qed.

Lemma trim_end_split s : exists t, s = trim_end s +:+ t /\ blank t.
Proof.
  induction s as [|c s IH]; [by exists EmptyString|]. cbn [trim_end]. case_bool_decide as H; [by exists (String c s)|].
  destruct IH as (t & Ht & Hb). exists t. split; [|done]. change (String c s = String c (trim_end s +:+ t)). by f_equal.
Qed.

Lemma trim_end_idem s : trim_end (trim_end s) = trim_end s.
Proof.
  induction s as [|c s IH]; [done|]. cbn [trim_end]. case_bool_decide as H; [done|]. cbn [trim_end].
  rewrite bool_decide_eq_false_2; [by rewrite IH|]. intros Hb. apply H. destruct (trim_end_split s) as (t & Ht & Hbt).
  rewrite Ht. exact (blank_app _ _ Hb Hbt).
Qed.

Lemma trim_start_end s : trim_start s = s -> trim_start (trim_end s) = trim_end s.
Proof.
  intros H. rewrite trim_start_step. destruct (space_prefix (trim_end s)) as [r|] eqn:E; [|done]. exfalso.
  destruct (trim_end_split s) as (t & Ht & _). apply (space_prefix_app _ _ t) in E. rewrite <- Ht in E.
  pose proof (trim_start_none s) as Hn. rewrite H in Hn. congruence.
Qed.

Lemma trim_idem s : trim (trim s) = trim s.
Proof. unfold trim. rewrite (trim_start_end (trim_start s)) by apply trim_start_idem. apply trim_end_idem. Qed.

(** ** Amounts *)

(** The digits of a number's text, without the point. *)
Definition mantissa (text : string) : Z :=
  let '(ip, _, rest) := read_uint 10 0 0 text in
  match rest with String "." s => (read_uint 10 ip 0 s).1.1 | _ => ip end.

(** The decimal [n * 10^-k] a number's text denotes. *)
Definition decimal_text (text : string) : option (Z * Z) :=
  match number_text text with
  | Some (fraction, exponent) => Some (mantissa text, (Z.of_nat fraction - exponent)%Z)
  | None => None
  end.

Definition denoted (n k : Z) : number := ratio_to_number (n * 10 ^ Z.max 0 (- k)) (10 ^ Z.max 0 k).

(** [Number::toString]: the text of a number denotes a decimal whose nearest
    number is that number. *)
Definition prints (env : Env) (x : number) : Prop :=
  exists n k, decimal_text (env_numberToString env x) = Some (n, k) /\ denoted n k = x.

(** A number becomes the [Decimal] its text denotes: exactly, when that has
    at most the eight places of the column. *)
Definition stores_text (env : Env) (x : number) : Prop :=
  forall n k, decimal_text (env_numberToString env x) = Some (n, k) -> (k <= 8)%Z ->
    env_decimal env x = (n * 10 ^ (8 - k))%Z.

Lemma pow10_pos k : (0 < 10 ^ Z.max 0 k)%Z.
Proof. apply Z.pow_pos_nonneg; lia. Qed.

(** A positive number is near positive fractions only, and a bounded one near
    bounded fractions only. *)
Lemma near_positive n d m e : (0 < d)%Z -> (0 < m)%Z -> near n d m e -> (0 < n)%Z.
Proof.
  unfold near. intros Hd Hm H. destruct (Z.ltb_spec 0 n) as [|Hn]; [done|]. exfalso.
  pose proof (pow2_pos e) as A. pose proof (pow2_pos (- e)) as B.
  set (a := (2 ^ Z.max 0 e)%Z) in *. set (b := (2 ^ Z.max 0 (- e))%Z) in *.
  assert (Hx : (0 < m * a * d)%Z) by (repeat apply Z.mul_pos_pos; done).
  assert (Hy : (0 <= - n * b)%Z) by (apply Z.mul_nonneg_nonneg; lia).
  replace (m * a * d - n * b)%Z with (m * a * d + - n * b)%Z in H by lia.
  rewrite (Z.abs_eq (m * a * d + - n * b)), (Z.abs_neq n) in H by lia. lia.
Qed.

Lemma near_bounded n d m e (bound : Z) : (0 < d)%Z -> (0 < n)%Z -> (0 < bound < 2 ^ 53 - 1)%Z ->
  near n d m e -> (number_num m e <= bound * number_den e)%Z -> (n < (bound + 1) * d)%Z.
Proof.
  unfold near, number_num, number_den. intros Hd Hn Hb H Hle. pose proof (pow2_pos (- e)) as B.
  set (b := (2 ^ Z.max 0 (- e))%Z) in *. set (x := (m * 2 ^ Z.max 0 e)%Z) in *.
  rewrite (Z.abs_eq n) in H by lia.
  assert (H1 : (x * d <= bound * b * d)%Z) by (apply Z.mul_le_mono_nonneg_r; lia).
  assert (H2 : (n * b * (2 ^ 53 - 1) <= bound * b * d * 2 ^ 53)%Z).
  { change (2 ^ 53)%Z with 9007199254740992%Z in *. lia. }
  assert (H3 : (n * (2 ^ 53 - 1) <= bound * d * 2 ^ 53)%Z).
  { apply (Z.mul_le_mono_pos_r _ _ b); [done|]. lia. }
  assert (H4 : (bound * 2 ^ 53 < (bound + 1) * (2 ^ 53 - 1))%Z) by lia.
  apply (Z.mul_lt_mono_pos_r (2 ^ 53 - 1)); [lia|]. apply (Z.le_lt_trans _ _ _ H3).
  replace (bound * d * 2 ^ 53)%Z with (bound * 2 ^ 53 * d)%Z by lia.
  replace ((bound + 1) * d * (2 ^ 53 - 1))%Z with ((bound + 1) * (2 ^ 53 - 1) * d)%Z by lia.
  by apply Z.mul_lt_mono_pos_r.
Qed.

(** The column holds exactly an amount in range, and gives it back. *)
Lemma amount_fits env m e :
  let x := Finite m e in
  (0 < m)%Z -> MaxDecimalPlaces_validate env 8 x = true -> (number_num m e <= 9999999999 * number_den e)%Z ->
  prints env x -> stores_text env x ->
  (0 < env_decimal env x < 10 ^ 18)%Z /\ ratio_to_number (env_decimal env x) DECIMAL_SCALE = x.
Proof.
  intros x Hm Hplaces Hmax (n & k & Htext & Hden) Hstore.
  assert (Hk : (k <= 8)%Z).
  { unfold x, MaxDecimalPlaces_validate, countDecimalPlaces in Hplaces. rewrite (Z.abs_eq m) in Hplaces by lia.
    fold x in Hplaces. unfold decimal_text in Htext. destruct (number_text _) as [[f ex]|]; [|done].
    injection Htext as _ <-. b2p. lia. }
  rewrite (Hstore _ _ Htext Hk). unfold denoted in Hden.
  set (c := (10 ^ (8 - Z.max 0 k))%Z). assert (Hc : (0 < c)%Z) by (apply Z.pow_pos_nonneg; lia).
  set (num := (n * 10 ^ Z.max 0 (- k))%Z) in *. pose proof (pow10_pos k) as Hd. set (den := (10 ^ Z.max 0 k)%Z) in *.
  assert (Hu : (n * 10 ^ (8 - k))%Z = (num * c)%Z).
  { unfold num, c. rewrite <- Z.mul_assoc, <- Z.pow_add_r by lia. f_equal. f_equal. lia. }
  assert (Hs : DECIMAL_SCALE = (den * c)%Z).
  { unfold DECIMAL_SCALE, den, c. rewrite <- Z.pow_add_r by lia. f_equal. lia. }
  rewrite Hu, Hs. split; [|by rewrite ratio_scale].
  destruct (ratio_near num den Hd) as (m' & e' & Hr & Hnear). rewrite Hden in Hr. injection Hr as <- <-.
  pose proof (near_positive _ _ _ _ Hd Hm Hnear) as Hpos.
  pose proof (near_bounded _ _ _ _ 9999999999 Hd Hpos ltac:(lia) Hnear Hmax) as Hlt.
  split; [by apply Z.mul_pos_pos|]. replace (10 ^ 18)%Z with (10000000000 * (den * c))%Z by (rewrite <- Hs; done).
  rewrite Z.mul_assoc. apply Z.mul_lt_mono_pos_r; [done|]. lia.
Qed.

(** ** Creation *)

(** What an accepted creation body establishes of the DTO. *)
Record create_in_range (env : Env) (cc : string -> nat) (dto : CreateEscrowDto) : Prop := {
  cr_name : trim (dto_itemName dto) = dto_itemName dto /\ (3 <= cc (dto_itemName dto) <= 100)%nat;
  cr_ref : (3 <= cc (dto_itemRef dto) <= 100)%nat;
  cr_ref_trimmed : trim (dto_itemRef dto) = dto_itemRef dto;
  cr_amount : exists m e, dto_amount dto = Finite m e /\ (0 < m)%Z /\
    (number_num m e <= 9999999999 * number_den e)%Z /\ MaxDecimalPlaces_validate env 8 (dto_amount dto) = true;
  cr_currency : Forall (fun c => is_Some (List.find (Ascii.eqb c)
    (String.list_ascii_of_string "ABCDEFGHIJKLMNOPQRSTUVWXYZ0123456789"))) (String.list_ascii_of_string (dto_currency dto));
  cr_buyer : pv_strkey (env_providers env) (dto_buyerAddress dto) = true
}.

Section creation.
Context (env : Env) {V : ValidationPipe env}.

Lemma currency_chars s : Schema.CURRENCY s = true ->
  Forall (fun c => is_Some (List.find (Ascii.eqb c)
    (String.list_ascii_of_string "ABCDEFGHIJKLMNOPQRSTUVWXYZ0123456789"))) (String.list_ascii_of_string s).
Proof using.
  intros [_ H]%andb_prop. unfold ConfigSchema.all_chars in H. rewrite forallb_forall in H. apply Forall_forall.
  intros c Hc%list_elem_of_In%H. destruct c as [[] [] [] [] [] [] [] []]; try discriminate Hc; by eexists.
Qed.

Lemma accepted_create body o :
  body_of env Schema.CreateEscrowDto body = Ok o ->
  exists dto, read_create o = Some dto /\ create_in_range env char_count dto.
Proof using.
  intros H.
  assert (HN : with_transform trim_value (required "itemName" [IsString; MinLength 3; MaxLength 100]) ∈ Schema.CreateEscrowDto) by in_class.
  assert (HR : with_transform trim_string (required "itemRef" [IsString; MinLength 3; MaxLength 100]) ∈ Schema.CreateEscrowDto) by in_class.
  assert (HA : with_transform Ok (required "amount" [IsNumber; IsPositive; MaxDecimalPlaces 8; Max 9999999999]) ∈ Schema.CreateEscrowDto) by in_class.
  assert (HC : with_transform upper_trim (required "currency" [IsString; MinLength 3; MaxLength 12; Matches Schema.CURRENCY]) ∈ Schema.CreateEscrowDto) by in_class.
  assert (HB : with_transform trim_value (required "buyerAddress" [IsString; IsStellarAddress]) ∈ Schema.CreateEscrowDto) by in_class.
  pose proof (accepted_required env _ _ _ _ _ _ H HN) as FN. pose proof (accepted_required env _ _ _ _ _ _ H HR) as FR.
  pose proof (accepted_required env _ _ _ _ _ _ H HA) as FA. pose proof (accepted_required env _ _ _ _ _ _ H HC) as FC.
  pose proof (accepted_required env _ _ _ _ _ _ H HB) as FB.
  apply Forall_cons in FN as [N1 [N2 [N3 _]%Forall_cons]%Forall_cons], FR as [R1 [R2 [R3 _]%Forall_cons]%Forall_cons],
    FA as [A1 [A2 [A3 [A4 _]%Forall_cons]%Forall_cons]%Forall_cons],
    FC as [C1 [C2 [C3 [C4 _]%Forall_cons]%Forall_cons]%Forall_cons], FB as [B1 [B2 _]%Forall_cons].
  apply (holds_string env) in N1 as [name EN]. apply (holds_string env) in R1 as [ref ER].
  apply (holds_string env) in C1 as [currency EC]. apply (holds_string env) in B1 as [buyer EB].
  apply (holds_number env) in A1 as (m & e & EA).
  rewrite EN in N2, N3. rewrite ER in R2, R3. rewrite EA in A2, A3, A4. rewrite EC in C4. rewrite EB in B2.
  exists (mkCreateEscrowDto name ref (Finite m e) currency buyer).
  split; [unfold read_create, field_str, field_num; by rewrite EN, ER, EA, EC, EB|].
  destruct (accepted_transform env Schema.CreateEscrowDto _ _ _ _ _ required eq_refl H HN eq_refl) as [v Hv].
  destruct (accepted_transform env Schema.CreateEscrowDto _ _ _ _ _ required eq_refl H HR eq_refl) as [v' Hv'].
  rewrite EN in Hv. rewrite ER in Hv'. cbn in N2, N3, R2, R3, A2, A4, C4, B2. split; cbn.
  - destruct v as [[]|]; try done. cbn in Hv. injection Hv as <-. split; [apply trim_idem|]. by split; apply Nat.leb_le.
  - by split; apply Nat.leb_le.
  - destruct v' as [[]|]; try done. cbn in Hv'. injection Hv' as <-. apply trim_idem.
  - exists m, e. split_and!; [done|by apply Z.ltb_lt|by apply Z.leb_le|done].
  - by apply currency_chars.
  - by apply andb_prop in B2 as [_ ?].
Qed.

(** C34. The amount of a creation request survives
    the column.  If the global pipes accept the body, and numbers print and
    become decimals as JavaScript and Prisma document it, then for a free item
    reference and a buyer other than the vendor the escrow is created: the
    column holds a positive amount below its limit of 18 digits, and the
    record that comes back, like every later read of the row, shows exactly
    the number that was sent. *)
Theorem accepted_amount_is_stored_exactly w vendor body o :
  good_env env -> Inv env w -> db_reliable env -> env_prisma env = true ->
  (forall t, escrow_of w (env_uuid env t) = None) ->
  body_of env Schema.CreateEscrowDto body = Ok o ->
  (forall x, field_num "amount" o = Some x -> prints env x /\ stores_text env x) ->
  field_str "buyerAddress" o <> Some vendor ->
  (forall ref, field_str "itemRef" o = Some ref -> ~ taken w vendor ref) ->
  exists dto, read_create o = Some dto /\ create_in_range env char_count dto /\
    wp (EscrowService.createEscrow dto vendor) env w (fun r w' =>
      exists id row, r = Ok (mkWithUrl (toEscrowRecord row) (EscrowService.buildPaymentUrl env id)) /\
        escrow_of w' id = Some row /\ e_state row = CREATED /\
        (0 < e_amount row < 10 ^ 18)%Z /\ e_amount (toEscrowRecord row) = dto_amount dto).
Proof using.
  intros HE HI HR Hpr Hfresh Hbody Hlaws Hbuyer Hfree.
  destruct (accepted_create body o Hbody) as (dto & Hread & Hrange). exists dto. split; [done|]. split; [done|].
  assert (Hdto : field_num "amount" o = Some (dto_amount dto) /\ field_str "buyerAddress" o = Some (dto_buyerAddress dto) /\
    field_str "itemRef" o = Some (dto_itemRef dto)).
  { unfold read_create in Hread. repeat case_match; simplify_eq/=. done. }
  destruct Hdto as (Ha & Hb & Hi). destruct (Hlaws _ Ha) as [Hprint Hstore].
  destruct (cr_amount _ _ _ Hrange) as (m & e & Hx & Hm & Hmax & Hplaces). rewrite Hx in Hprint, Hstore, Hplaces.
  destruct (amount_fits env m e Hm Hplaces Hmax Hprint Hstore) as [Hfits Hback]. rewrite <- Hx in Hfits, Hback.
  unfold EscrowService.createEscrow. replace (number_le_0 (dto_amount dto)) with false by (rewrite Hx; cbn; symmetry; apply Z.leb_gt; lia).
  rewrite (bool_decide_false (dto_buyerAddress dto = vendor)) by congruence.
  apply wp_bind, (wp_findByVendorAndItem env w HE HI HR). intros c w1 HI1 [Hdb1 _] Hc.
  destruct c as [rec|]; [exfalso; apply (Hfree _ Hi), Hc; by eexists|].
  apply wp_bind, (wp_ensureVendorProfile env w HE HR); [done|done|done|]. intros t w2 HI2 He2 Hv2.
  apply wp_bind, wp_create; [done|done| |].
  - intros err w3 _ _ _ Hn. exfalso. apply (Hfree _ Hi). rewrite He2 in Hn. apply Hn; [done|done| |lia].
    rewrite Hv2. apply with_profile_some.
  - intros now uuid w3 _ row Hnew _ _ HI3 _ Hdb3. apply wp_bind, wp_await, wp_ret. exists uuid, row.
    split_and!; [done|simpl; rewrite Hdb3; apply lookup_insert_eq|done|apply Hfits|apply Hfits|exact Hback].
Qed.
End creation.

(** ** Shipments *)

Lemma encode_unreserved s :
  Forall (fun c => is_uri_unreserved c = true) (String.list_ascii_of_string s) -> encodeURIComponent s = s.
Proof.
  induction s as [|c s IH]; [done|]. cbn [String.list_ascii_of_string encodeURIComponent].
  intros [Hc Hs]%Forall_cons. by rewrite Hc, IH.
Qed.

Lemma tracking_char_unreserved c :
  (Schema.is_upper c || Schema.is_lower c || Schema.is_dig c || bool_decide (c ∈ ["-"; "_"]%char)) = true ->
  is_uri_unreserved c = true /\ c <> "/"%char /\ c <> "."%char.
Proof. destruct c as [[] [] [] [] [] [] [] []]; vm_compute; intros H; try discriminate H; done. Qed.

(** An accepted tracking id is not empty,
    has no surrounding space, so the service stores it as it was sent, and
    consists of characters that need no URL encoding: the provider is asked for
    exactly [/tracking/] followed by the id, and the id can neither add a path
    segment nor a query to that request. *)
Theorem accepted_tracking_id_is_its_own_path env {V : ValidationPipe env} body o :
  body_of env Schema.UpdateShipmentDto body = Ok o ->
  exists id, field_str "trackingId" o = Some id /\ id <> "" /\ trim id = id /\ encodeURIComponent id = id /\
    Forall (fun c => c <> "/"%char /\ c <> "."%char /\ is_uri_unreserved c = true) (String.list_ascii_of_string id).
Proof.
  intros H.
  assert (HT : with_transform trim_value (required "trackingId" [IsString; MinLength 3; MaxLength 64; Matches Schema.TRACKING_ID])
    ∈ Schema.UpdateShipmentDto) by in_class.
  pose proof (accepted_required env _ _ _ _ _ _ H HT) as F.
  apply Forall_cons in F as [F1 [F2 [F3 [F4 _]%Forall_cons]%Forall_cons]%Forall_cons].
  apply (holds_string env) in F1 as [id E]. rewrite E in F4. cbn in F4. apply andb_prop in F4 as [Hne Hchars]. b2p.
  destruct (accepted_transform env Schema.UpdateShipmentDto _ _ _ _ _ required eq_refl H HT eq_refl) as [v Hv].
  rewrite E in Hv. unfold ConfigSchema.all_chars in Hchars. rewrite forallb_forall in Hchars.
  assert (Hall : Forall (fun c => c <> "/"%char /\ c <> "."%char /\ is_uri_unreserved c = true) (String.list_ascii_of_string id)).
  { apply Forall_forall. intros c Hc%list_elem_of_In%Hchars%tracking_char_unreserved. tauto. }
  exists id. split_and!; [unfold field_str; by rewrite E|done| | |done].
  - destruct v as [[]|]; try done. cbn in Hv. injection Hv as <-. apply trim_idem.
  - apply encode_unreserved. eapply Forall_impl; [exact Hall|]. by intros c (_ & _ & ?).
Qed.

(** ** Pages *)

Lemma integer_of_value m e z : integer_of (Finite m e) = Some z -> (z * number_den e = number_num m e)%Z.
Proof.
  unfold integer_of, number_den, number_num. cbv zeta. pose proof (pow2_pos (- e)).
  set (p := (2 ^ Z.max 0 (- e))%Z) in *. destruct (m mod p =? 0)%Z eqn:E; [|done]. intros [= <-]. b2p.
  pose proof (Z.div_mod m p ltac:(lia)). nia.
Qed.

Section pages.
Context (env : Env) {V : ValidationPipe env}.

(** An integer property with bounds. *)
Lemma accepted_integer C body o name lo (hi : option Z) :
  body_of env C body = Ok o ->
  optional name (IsInt :: Min lo :: match hi with Some h => [Max h] | None => [] end) ∈ C ->
  match get_field name o with
  | None | Some JNull => field_int name o = None
  | Some _ => exists z, field_int name o = Some z /\ (lo <= z)%Z /\ forall h, hi = Some h -> (z <= h)%Z
  end.
Proof using.
  intros H Hp. unfold field_int, field_num.
  destruct (get_field name o) as [v|] eqn:E; [|done]. assert (Hn : v = JNull \/ v <> JNull) by (destruct v; auto).
  destruct Hn as [->|Hn]; [done|]. assert (F := accepted_optional env C body o name Ok _ v H Hp E Hn).
  apply Forall_cons in F as [F1 [F2 F3]%Forall_cons]. destruct v as [| |[|m e]| | |]; try done.
  cbn in F1, F2. b2p. destruct F1 as [z Hz]. exists z. rewrite Hz.
  pose proof (integer_of_value _ _ _ Hz) as Hval. pose proof (pow2_pos (- e)) as Hpos. fold (number_den e) in Hpos.
  rewrite <- Hval in F2. split; [done|]. split; [nia|]. intros h ->. apply Forall_cons in F3 as [F3 _]. cbn in F3. b2p. nia.
Qed.

Lemma read_state_str s st : read_state s = Some st -> EscrowState_str st = s.
Proof using. unfold read_state. intros [_ H]%find_some. by b2p. Qed.

Lemma read_state_total s : s ∈ Schema.EscrowStateEnum -> is_Some (read_state s).
Proof using.
  intros H%list_elem_of_In. cbn in H. repeat (destruct H as [<-|H]; [by eexists|]). done.
Qed.

Lemma elem_page_of {A} skip limit (l : list A) x : x ∈ page_of skip limit l -> x ∈ l.
Proof using.
  unfold page_of. rewrite <- (take_drop (Z.to_nat skip) l) at 2. rewrite elem_of_app.
  intros (i & H & _)%elem_of_take. right. by eapply list_elem_of_lookup_2.
Qed.

Lemma length_page_of {A} skip limit (l : list A) : (0 <= limit)%Z -> (Z.of_nat (length (page_of skip limit l)) <= limit)%Z.
Proof using. intros Hl. unfold page_of. rewrite length_take. lia. Qed.

(** An accepted query of the vendor
    dashboard is answered: never with the error of a negative offset, with a
    page and a limit from 1 and at most 100 escrows, all of them in the state
    the query names, if it names one. *)
Theorem accepted_vendor_query_is_answered query o vendor w :
  db_reliable env -> body_of env Schema.VendorEscrowsQueryDto query = Ok o ->
  exists page, (run (EscrowService.findVendorEscrows vendor (read_vendor_query o)) env w).1 = Ok page /\
    (length (EscrowService.vp_data page) <= 100)%nat /\
    (1 <= EscrowService.vp_page page)%Z /\ (1 <= EscrowService.vp_limit page <= 100)%Z /\
    forall s summary, field_str "state" o = Some s -> summary ∈ EscrowService.vp_data page ->
      EscrowState_str (EscrowService.su_state summary) = s.
Proof using.
  intros HR H. unfold EscrowService.findVendorEscrows. set (q := read_vendor_query o). cbv zeta.
  assert (HP := accepted_integer _ _ _ "page" 1 None H ltac:(in_class)).
  assert (HL := accepted_integer _ _ _ "limit" 1 (Some 100%Z) H ltac:(in_class)).
  assert (HS : forall s, field_str "state" o = Some s -> exists st, EscrowService.vq_state q = Some st /\ EscrowState_str st = s).
  { intros s Hs. unfold q, read_vendor_query. cbn. rewrite Hs.
    unfold field_str in Hs. destruct (get_field "state" o) as [[| | |s'| |]|] eqn:E; try done. injection Hs as ->.
    assert (F := accepted_optional env _ _ _ "state" Ok _ _ H ltac:(in_class) E ltac:(done)).
    apply Forall_cons in F as [F _]. cbn in F. b2p. destruct (read_state_total s F) as [st Hst].
    exists st. split; [done|by apply read_state_str]. }
  set (page := coalesce (EscrowService.vq_page q) 1%Z). set (limit := coalesce (EscrowService.vq_limit q) 20%Z).
  assert (Hpage : (1 <= page)%Z).
  { unfold page, q, read_vendor_query. cbn. destruct (get_field "page" o) as [[]|]; first [by rewrite HP | destruct HP as (z & -> & ? & _); done]. }
  assert (Hlimit : (1 <= limit <= 100)%Z).
  { unfold limit, q, read_vendor_query. cbn.
    destruct (get_field "limit" o) as [[]|]; first [by rewrite HL | destruct HL as (z & -> & ? & Hz); specialize (Hz _ eq_refl); cbn; lia]. }
  clearbody limit page q. rewrite run_bind. unfold EscrowRepo.findVendorEscrows. destruct (Z.ltb_spec ((page - 1) * limit) 0) as [|_]; [nia|].
  rewrite run_bind. erewrite run_findMany by done. rewrite run_bind, run_await. unfold escrow_count.
  rewrite db_call_reliable by done. cbn. eexists. split; [done|]. cbn. rewrite !length_fmap.
  split; [apply Nat2Z.inj_le; etrans; [apply length_page_of; lia|lia]|].
  split; [done|]. split; [done|]. intros s summary (st & Hst & <-)%HS Hin. rewrite Hst in Hin.
  apply list_elem_of_fmap in Hin as (rec & -> & (row & -> & Hin)%list_elem_of_fmap). cbn. f_equal.
  apply elem_page_of, elem_select in Hin as [Hw _]. unfold vendor_where in Hw. by b2p.
Qed.
End pages.

(** ** A pipe *)

(** The documented behaviour as a program, without type conversion: the
    transforms, then the checks. *)
Module DocumentedPipe.

Definition find_property (C : list Property) (key : string) : option Property :=
  List.find (fun p => bool_decide (p_name p = key)) C.

Fixpoint transform_fields (C : list Property) (fields : list (string * option json)) : outcome (list (string * option json)) :=
  match fields with
  | [] => Ok []
  | (k, v) :: rest =>
      match match find_property C k with Some p => p_transform p v | None => Ok v end with
      | Throw e => Throw e
      | Ok v' => match transform_fields C rest with Ok l => Ok ((k, v') :: l) | Throw e => Throw e end
      end
  end.

(** An absent property stays absent. *)
Definition absent_ok (o : json) (p : Property) : bool :=
  match get_field (p_name p) o with
  | Some _ => true
  | None => match p_transform p None with Ok None => true | _ => false end
  end.

Definition BAD : exn := BadRequestException "Bad Request Exception".

Section pipe.
Context (env : Env) (cc : string -> nat) (lib : string -> string -> bool).

Definition pipe (C : list Property) (body : json) : outcome json :=
  match body with
  | JObj fields =>
      match transform_fields C fields with
      | Throw e => Throw e
      | Ok fields' =>
          if instance_ok env cc lib C (JObj fields') && forallb (absent_ok (JObj fields')) C
          then Ok (JObj fields') else Throw BAD
      end
  | _ => Throw BAD
  end.

Lemma pipe_sound C body o : pipe C body = Ok o -> instance_ok env cc lib C o = true.
Proof using.
  unfold pipe. destruct body as [| | | | |fields]; try done. destruct (transform_fields C fields); [|done].
  destruct (_ && _) eqn:E; [|done]. intros [= <-]. by apply andb_prop in E as [? _].
Qed.

Lemma transform_fields_error C fields e : transform_fields C fields = Throw e ->
  exists p v, p ∈ C /\ p_transform p v = Throw e.
Proof using.
  induction fields as [|[k v] rest IH]; [done|]. cbn [transform_fields].
  destruct (find_property C k) as [p|] eqn:Ep.
  - destruct (p_transform p v) as [v'|e'] eqn:Ev; [|intros [= ->]].
    + destruct (transform_fields C rest); [done|]. intros [= ->]. by apply IH.
    + exists p, v. split; [|done]. apply find_some in Ep as [Ep _]. by apply list_elem_of_In.
  - destruct (transform_fields C rest); [done|]. intros [= ->]. by apply IH.
Qed.

Lemma pipe_errors C body e : pipe C body = Throw e ->
  (exists m, e = BadRequestException m) \/ exists p v, p ∈ C /\ p_transform p v = Throw e.
Proof using.
  unfold pipe. destruct body as [| | | | |fields]; try (intros [= <-]; left; by eexists).
  destruct (transform_fields C fields) as [l|e'] eqn:E.
  - destruct (_ && _); [done|]. intros [= <-]. left. by eexists.
  - intros [= ->]. right. by eapply transform_fields_error.
Qed.

Lemma find_property_unique C p : NoDup (p_name <$> C) -> p ∈ C -> find_property C (p_name p) = Some p.
Proof using.
  induction C as [|q C IH]; [intros _ []%elem_of_nil|]. cbn. intros [Hq Hnd]%NoDup_cons [->|Hp]%elem_of_cons.
  - by rewrite bool_decide_true.
  - rewrite bool_decide_false; [by apply IH|]. intros Heq. apply Hq. rewrite Heq. by apply list_elem_of_fmap_2.
Qed.

Lemma get_transformed C fields l name : transform_fields C fields = Ok l ->
  get_field name (JObj l) = None \/
  exists v, match find_property C name with Some p => p_transform p v | None => Ok v end = Ok (get_field name (JObj l)).
Proof using.
  revert l. induction fields as [|[k v] rest IH]; intros l; cbn [transform_fields]; [intros [= <-]; by left|].
  destruct (match find_property C k with Some p => p_transform p v | None => Ok v end) as [v'|] eqn:Ev; [|done].
  destruct (transform_fields C rest) as [l'|] eqn:El; [|done]. intros [= <-].
  unfold get_field. cbn [List.find fst]. destruct (bool_decide (k = name)) eqn:Ek.
  - b2p. subst k. right. by exists v.
  - by apply (IH l').
Qed.

Lemma pipe_transforms C body o p : NoDup (p_name <$> C) -> pipe C body = Ok o -> p ∈ C ->
  exists v, p_transform p v = Ok (get_field (p_name p) o).
Proof using.
  unfold pipe. intros Hnd H Hp. destruct body as [| | | | |fields]; try done.
  destruct (transform_fields C fields) as [l|] eqn:El; [|done]. destruct (_ && _) eqn:E; [|done]. injection H as <-.
  apply andb_prop in E as [_ E]. rewrite forallb_forall in E. specialize (E p ltac:(by apply list_elem_of_In)).
  destruct (get_transformed C fields l (p_name p) El) as [Hnone|[v Hv]].
  - exists None. unfold absent_ok in E. rewrite Hnone in E |- *. by destruct (p_transform p None) as [[]|].
  - exists v. by rewrite find_property_unique in Hv.
Qed.

Lemma transform_fields_id C fields :
  (forall k v p, (k, v) ∈ fields -> find_property C k = Some p -> p_transform p v = Ok v) -> transform_fields C fields = Ok fields.
Proof using.
  induction fields as [|[k v] rest IH]; intros H; [done|]. cbn [transform_fields].
  replace (match find_property C k with Some p => p_transform p v | None => Ok v end) with (Ok (A := option json) v).
  - rewrite IH; [done|]. intros k' v' p Hin. apply H. by right.
  - destruct (find_property C k) as [p|] eqn:E; [|done]. symmetry. eapply H; [by left|done].
Qed.

Lemma get_field_unique fields k v : NoDup fields.*1 -> (k, v) ∈ fields -> get_field k (JObj fields) = v.
Proof using.
  induction fields as [|[k' v'] rest IH]; [intros _ []%elem_of_nil|]. cbn. intros [Hk Hnd]%NoDup_cons [[= <- <-]|Hin]%elem_of_cons.
  - by rewrite bool_decide_true.
  - rewrite bool_decide_false; [by apply IH|]. intros ->. apply Hk. by apply (list_elem_of_fmap_2 fst) in Hin.
Qed.

Lemma pipe_fixpoints C fields : NoDup fields.*1 -> instance_ok env cc lib C (JObj fields) = true ->
  (forall p, p ∈ C -> p_transform p (get_field (p_name p) (JObj fields)) = Ok (get_field (p_name p) (JObj fields))) ->
  pipe C (JObj fields) = Ok (JObj fields).
Proof using.
  intros Hnd Hok Hfix. unfold pipe. rewrite transform_fields_id.
  - rewrite Hok. replace (forallb _ C) with true; [done|]. symmetry. apply forallb_forall. intros p Hp.
    unfold absent_ok. destruct (get_field (p_name p) (JObj fields)) eqn:E; [done|].
    apply list_elem_of_In, Hfix in Hp. by rewrite E in Hp; rewrite Hp.
  - intros k v p Hin Hp. apply find_some in Hp as [Hp Hk]. b2p. subst k.
    apply list_elem_of_In, Hfix in Hp. by rewrite (get_field_unique fields _ v) in Hp.
Qed.

End pipe.

(** Lengths are counted in bytes, every library check accepts. *)
Definition demo_pipe (env : Env) : ValidationPipe env := {|
  char_count := String.length;
  library_check := fun _ _ => true;
  Dto.pipe := pipe env String.length (fun _ _ => true);
  pipe_ok := pipe_sound env String.length (fun _ _ => true);
  pipe_transformed := pipe_transforms env String.length (fun _ _ => true);
  pipe_error := pipe_errors env String.length (fun _ _ => true);
  pipe_fixpoint := pipe_fixpoints env String.length (fun _ _ => true)
|}.
End DocumentedPipe.

(** ** Guards that do not guard *)

Section holes.
Context (env : Env) {V : ValidationPipe env}.

(** The sentinel property that should refuse a contact update without an email
    and a phone is itself a declared property: any body that sets it to a
    string passes, with neither. *)
Theorem contact_guard_is_bypassed s :
  sanitizeString s = s ->
  exists o, body_of env Schema.UpdateBuyerContactDto (JObj [("_atLeastOne", Some (JStr s))]) = Ok o /\
    read_contact o = EscrowService.mkContactDto None None.
Proof using.
  intros Hs. exists (JObj [("_atLeastOne", Some (JStr s))]). split; [|done].
  unfold body_of, global_pipes. cbn [sanitizeDeep fmap list_fmap fst snd]. rewrite Hs.
  apply pipe_fixpoint; [apply NoDup_singleton|done|]. intros p Hp%list_elem_of_In. cbn in Hp.
  by repeat destruct Hp as [<-|Hp].
Qed.

(** ... and the service then erases the contact the buyer had stored. *)
Theorem empty_contact_erases_the_stored_one w id row :
  good_env env -> Inv env w -> db_reliable env -> escrow_of w id = Some row ->
  TERMINAL_STATES (e_state row) = false -> EscrowService.isContactEncryptionConfigured env = true ->
  wp (EscrowService.updateBuyerContact id (EscrowService.mkContactDto None None)) env w (fun r w' =>
    r = Ok "Buyer contact information saved." /\
    exists row', escrow_of w' id = Some row' /\ e_buyerContactEmail row' = None /\ e_buyerContactPhone row' = None).
Proof using.
  intros HE HI HR Hrow Hst Henc. unfold EscrowService.updateBuyerContact. apply (wp_load env w HE HI HR).
  rewrite Hrow. intros w1 HI1 Hun. cbn [toEscrowRecord e_state]. rewrite Hst. apply wp_bind, wp_await. cbn [fst snd].
  rewrite Henc. cbn [negb]. unfold EscrowService.encrypt_opt. cbn [EscrowService.bc_email EscrowService.bc_phone truthy].
  apply wp_bind, wp_ret, wp_bind, wp_ret, wp_bind, (wp_write env w HE HR w1 id row); [done|done|done|solve_update|].
  intros now w2 row' HI2 Hre _. apply wp_ret. split; [done|]. exists row'.
  split; [rewrite Hre; apply lookup_insert_eq|done].
Qed.

(** The limits of [VirtualProfile] are decorated but never checked, since
    [profiles] lacks [ValidateNested]: up to ten values of any shape are
    accepted as load profiles. *)
Theorem load_profiles_are_not_validated name profiles :
  sanitizeString name = name -> Forall (fun p => sanitizeDeep p = p) profiles -> (length profiles <= 10)%nat ->
  exists o, body_of env Schema.StressTestConfigDto
    (JObj [("testName", Some (JStr name)); ("profiles", Some (JArr profiles))]) = Ok o /\
    get_field "profiles" o = Some (JArr profiles).
Proof using.
  intros Hn Hp Hl. exists (JObj [("testName", Some (JStr name)); ("profiles", Some (JArr profiles))]). split; [|done].
  assert (Hmap : sanitizeDeep <$> profiles = profiles) by (clear Hl; induction Hp as [|p l E _ IH]; [done|cbn; by rewrite E, IH]).
  change (pipe Schema.StressTestConfigDto (JObj [("testName", Some (JStr (sanitizeString name)));
    ("profiles", Some (JArr (sanitizeDeep <$> profiles)))])
    = Ok (JObj [("testName", Some (JStr name)); ("profiles", Some (JArr profiles))])). rewrite Hn, Hmap.
  apply pipe_fixpoint.
  - by apply (bool_decide_eq_true_1 (NoDup ["testName"; "profiles"])).
  - pose proof (proj2 (Nat.leb_le _ _) Hl) as Hle. vm_compute in Hle |- *. by rewrite Hle.
  - intros p Hin%list_elem_of_In. cbn in Hin. by repeat destruct Hin as [<-|Hin].
Qed.
End holes.

(** ** Instances *)

(** Numbers print as 250, and 250 is 25000000000 units of the column. *)
Definition priced_env : Env :=
  mkEnv (fun _ => demo_now) (fun _ => None) demo_uuid true false (fun _ => false) true
    false demo_config (fun _ => 25000000000%Z) None demo_sdk (fun s => s) (fun _ m => m)
    (fun _ => "250") (fun _ _ => Ok []) (fun _ => Ok 100%Z) (fun _ _ => Ok []) 30 None (fun _ => true) demo_providers.

Definition create_body : json :=
  JObj [("itemName", Some (JStr " <b>Camera</b> ")); ("itemRef", Some (JStr "SKU-1")); ("amount", Some (JNum (Number_of_string "250")));
        ("currency", Some (JStr "usdc")); ("buyerAddress", Some (JStr "GBUYER"))].

Lemma accepted_amount_is_stored_exactly_witness :
  exists dto, dto_itemName dto = "Camera" /\ dto_currency dto = "USDC" /\
    wp (EscrowService.createEscrow dto "GVENDOR") priced_env (demo_world []) (fun r w' =>
      exists id row, r = Ok (mkWithUrl (toEscrowRecord row) (EscrowService.buildPaymentUrl priced_env id)) /\
        escrow_of w' id = Some row /\ e_amount (toEscrowRecord row) = Number_of_string "250").
Proof.
  destruct (accepted_amount_is_stored_exactly priced_env (V := DocumentedPipe.demo_pipe priced_env) (demo_world []) "GVENDOR" create_body
    (JObj [("itemName", Some (JStr "Camera")); ("itemRef", Some (JStr "SKU-1")); ("amount", Some (JNum (Number_of_string "250")));
           ("currency", Some (JStr "USDC")); ("buyerAddress", Some (JStr "GBUYER"))])) as (dto & Hread & _ & Hwp).
  - split; [intros; apply demo_now_ok|done].
  - by apply demo_inv.
  - done.
  - done.
  - done.
  - vm_compute. reflexivity.
  - intros x [= <-]. split; [exists 250%Z, 0%Z; split; vm_compute; reflexivity|]. intros n k H _. vm_compute in H. by injection H as <- <-.
  - done.
  - intros ref _ (id & r & H & _). cbn in H. by rewrite lookup_empty in H.
  - exists dto. vm_compute in Hread. injection Hread as <-. split; [done|]. split; [done|].
    eapply wp_mono; [exact Hwp|]. intros r w' (id & row & Hr & Hrow & _ & _ & Ha). exists id, row. split_and!; [done|done|].
    rewrite Ha. vm_compute. reflexivity.
Defined.

Lemma accepted_tracking_id_is_its_own_path_witness :
  exists id, id = "TRK-1Z999" /\ encodeURIComponent id = id.
Proof.
  destruct (accepted_tracking_id_is_its_own_path priced_env (V := DocumentedPipe.demo_pipe priced_env)
    (JObj [("trackingId", Some (JStr "  TRK-1Z999 "))]) (JObj [("trackingId", Some (JStr "TRK-1Z999"))])) as (id & Hid & _ & _ & He & _).
  - vm_compute. reflexivity.
  - exists id. injection Hid as <-. by split.
Defined.

Definition vendor_query_body : json :=
  JObj [("state", Some (JStr "SHIPPED")); ("page", Some (JNum (Number_of_string "1"))); ("limit", Some (JNum (Number_of_string "50")))].

Lemma accepted_vendor_query_is_answered_witness :
  exists page, (run (EscrowService.findVendorEscrows "GVENDOR" (read_vendor_query vendor_query_body)) priced_env
      (demo_world [demo_row "E" SHIPPED; demo_row "F" FUNDED])).1 = Ok page /\ EscrowService.vp_limit page = 50%Z.
Proof.
  destruct (accepted_vendor_query_is_answered priced_env (V := DocumentedPipe.demo_pipe priced_env) vendor_query_body vendor_query_body
    "GVENDOR" (demo_world [demo_row "E" SHIPPED; demo_row "F" FUNDED])) as (page & Hrun & _).
  - done.
  - vm_compute. reflexivity.
  - exists page. split; [exact Hrun|]. apply (f_equal (fun r => match r with Ok p => EscrowService.vp_limit p | Throw _ => 0%Z end)) in Hrun.
    rewrite <- Hrun. vm_compute. reflexivity.
Defined.

Lemma contact_guard_is_bypassed_witness :
  exists o, body_of priced_env (V := DocumentedPipe.demo_pipe priced_env) Schema.UpdateBuyerContactDto
      (JObj [("_atLeastOne", Some (JStr "x"))]) = Ok o /\ read_contact o = EscrowService.mkContactDto None None.
Proof. apply (contact_guard_is_bypassed priced_env "x"). reflexivity. Defined.

Lemma load_profiles_are_not_validated_witness :
  exists o, body_of priced_env (V := DocumentedPipe.demo_pipe priced_env) Schema.StressTestConfigDto
      (JObj [("testName", Some (JStr "run")); ("profiles", Some (JArr [JNull; JBool true]))]) = Ok o /\
    get_field "profiles" o = Some (JArr [JNull; JBool true]).
Proof. apply (load_profiles_are_not_validated priced_env "run"); [reflexivity|by repeat constructor|simpl; lia]. Defined.
