(* ===== verification/WireSpec.v ===== *)
(** * From the wire to the handlers

    Requests with arbitrary bodies behave as the typed requests the pipes make
    of them, and those no parser, guard or pipe accepts do nothing; so what
    ApiSpec shows of typed requests holds of everything that arrives. *)
From S2P Require Import Prelude Records Dates Text Tables Crypto Json Effects Logistics Cache Prisma EscrowRepo Coherence Demo LogisticsSpec AuthSpec Contract Lifecycle EscrowSvc Vendor Notify RetryQueue Analytics Auth Http Doubles Config EscrowSound EscrowSpec Disputes Workers WorkersSound Dlq Webhook Dto Api Wire Poller Backend ApiSpec DtoSpec.
Local Open Scope prog_scope.

Section wire.
Context {U : UuidChecks} {C : ContractApi} {D : DecimalOps} {TZ : TimeZones}.
Context (env : Env) {V : ValidationPipe env} (parse_form : string -> json).

(** ** The guards, seen from outside *)

(** What the guards of a typed request answer. *)
Definition refusal (req : HttpRequest) (t : Z) : option exn :=
  match req with
  | ToPublic _ => None
  | ToUser auth _ => match JwtGuard.canActivate env t auth with Throw e => Some e | Ok _ => None end
  | ToAdmin auth _ =>
      match JwtGuard.canActivate env t auth with
      | Throw e => Some e
      | Ok user => match AdminGuard.canActivate env (Some user) with Throw e => Some e | Ok _ => None end
      end
  end.

Lemma stopped_user {A} auth (handler : AuthUser -> Prog A) w e :
  JwtGuard.canActivate env (env_now env (w_tick w)) auth = Throw e ->
  run (ignored (with_user auth handler)) env w = (Throw e, w).
Proof using. intros H. by rewrite run_ignored, run_with_user, H. Qed.

Lemma stopped_admin {A} auth (handler : AuthUser -> Prog A) w e :
  refusal (ToAdmin auth GetStats) (env_now env (w_tick w)) = Some e ->
  run (ignored (with_admin auth handler)) env w = (Throw e, w).
Proof using.
  cbn [refusal]. rewrite run_ignored, run_with_admin. destruct (JwtGuard.canActivate _ _ _); [|by intros [= <-]].
  destruct (AdminGuard.canActivate _ _); [done|]. by intros [= <-].
Qed.

(** A refused request does nothing. *)
Lemma respond_refused req w e :
  refusal req (env_now env (w_tick w)) = Some e -> run (respond req) env w = (Throw e, w).
Proof using.
  destruct req as [auth r|auth r|r]; [| |done].
  - simpl. destruct (JwtGuard.canActivate _ _ auth) as [user|e'] eqn:Hu; [done|]. intros [= <-].
    destruct r; exact (stopped_user auth _ w e' Hu).
  - intros H. destruct r; exact (stopped_admin auth _ w e H).
Qed.

(** The guard of a route is the guard of its typed request, and reads only. *)
Lemma run_guard_public r w : is_public (wr_route r) = true -> run (guard r) env w = (Ok tt, w).
Proof using. unfold guard. by intros ->. Qed.

Definition route_refusal (r : WireRequest) (t : Z) : option exn :=
  if is_public (wr_route r) then None
  else refusal (if guarded_by_admin (wr_route r) then ToAdmin (wr_authorization r) GetStats
                else ToUser (wr_authorization r) GetProfile) t.

Lemma run_guard r w :
  run (guard r) env w = (match route_refusal r (env_now env (w_tick w)) with Some e => Throw e | None => Ok tt end, w).
Proof using.
  unfold guard, route_refusal. destruct (is_public _); [done|]. destruct (guarded_by_admin _); cbn [refusal].
  - rewrite run_with_admin. destruct (JwtGuard.canActivate _ _ _); [|done]. by destruct (AdminGuard.canActivate _ _).
  - rewrite run_with_user. by destruct (JwtGuard.canActivate _ _ _).
Qed.

Lemma fmap_ok_Ok {X Y} (f : X -> Y) (r : outcome X) y : fmap_ok f r = Ok y -> exists x, r = Ok x /\ y = f x.
Proof using. destruct r; [|done]. intros [= <-]. eauto. Qed.

(** The typed request is for the same guards and carries the same header. *)
Lemma typed_route_guards r body req t :
  typed_route env r body = Some (Ok req) -> refusal req t = route_refusal r t.
Proof using.
  unfold typed_route, escrow_routes, vendor_routes, admin_routes, auth_routes, webhook_routes, route_refusal. destruct (wr_route r) as [[]| |[] id|id|id|id|id|id|[] id| |[]|[]|[]| | | |id| | | | |id|id|id|[]| | |]; simpl; try done;
    intros [= H]; try (apply fmap_ok_Ok in H as (x & _ & ->)); subst; done.
Qed.

Lemma typed_route_header r body req :
  typed_route env r body = Some (Ok req) ->
  match req with
  | ToUser auth _ | ToAdmin auth _ => auth = wr_authorization r
  | ToPublic _ => is_public (wr_route r) = true
  end.
Proof using.
  unfold typed_route, escrow_routes, vendor_routes, admin_routes, auth_routes, webhook_routes. destruct (wr_route r) as [[]| |[] id|id|id|id|id|id|[] id| |[]|[]|[]| | | |id| | | | |id|id|id|[]| | |]; simpl; try done;
    intros [= H]; try (apply fmap_ok_Ok in H as (x & _ & ->)); subst; done.
Qed.

(** ** Refinement *)

(** A request ends as its typed request does; one that is not accepted ends
    in an error and leaves everything as it was. *)
Lemma serve_typed r w :
  match typed env parse_form r with
  | Some req => run (serve_request env parse_form r) env w = run (respond req) env w
  | None => exists e, run (serve_request env parse_form r) env w = (Throw e, w)
  end.
Proof using.
  unfold typed, serve_request. destruct (request_body parse_form r) as [body|e]; [|by eexists].
  destruct (typed_route env r body) as [[req|e]|] eqn:Ht; [| |by eexists]; rewrite ?run_bind, ?run_guard.
  - rewrite <- (typed_route_guards _ _ _ _ Ht). destruct (refusal req _) as [e|] eqn:Hr; [|done].
    by rewrite (respond_refused _ _ _ Hr).
  - destruct (route_refusal _ _) as [e'|]; by eexists.
Qed.

Lemma serve_all_typed rs w : serve_all env parse_form rs w = answer env (omap (typed env parse_form) rs) w.
Proof using.
  revert w. induction rs as [|r rs IH]; intros w; [done|]. simpl. rewrite IH. pose proof (serve_typed r w) as Hr.
  destruct (typed env parse_form r) as [req|]; [by rewrite Hr|]. by destruct Hr as [e ->].
Qed.

Lemma typed_header r req :
  typed env parse_form r = Some req ->
  match req with
  | ToUser auth _ | ToAdmin auth _ => auth = wr_authorization r
  | ToPublic _ => is_public (wr_route r) = true
  end.
Proof using.
  unfold typed. destruct (request_body parse_form r) as [body|e]; [|done].
  destruct (typed_route env r body) as [[req'|e]|] eqn:Ht; try done. intros [= <-]. by eapply typed_route_header.
Qed.

(** The administration guard refuses a stranger. *)
Lemma stranger_no_admin row user :
  stranger env row user -> AdminGuard.canActivate env (Some user) = Throw (ForbiddenException "Admin access required").
Proof using.
  intros (_ & Ha & _). unfold AdminGuard.canActivate. destruct (env_config env "ADMIN_ADDRESS") as [a|]; [|done].
  simpl. case_bool_decide; [done|]. simpl. case_bool_decide as He; [|done]. destruct Ha. by rewrite He.
Qed.

(** Any sequence of requests, whatever headers and bodies they carry, keeps the
    store invariant and moves escrows only along the life cycle. *)
Theorem wire_follows_lifecycle rs w :
  good_env env -> Inv env w -> Inv env (serve_all env parse_form rs w) /\ evolves w (serve_all env parse_form rs w).
Proof using. rewrite serve_all_typed. apply answer_sound. Qed.

(** C12. No sequence of HTTP requests to the guarded routes by people with no
    part in an escrow, neither its vendor nor its buyer nor an administrator,
    changes anything of it, whatever ids and bodies they send and whatever the
    database does. *)
Theorem strangers_cannot_change_an_escrow id row rs w :
  good_env env -> Inv env w -> escrow_of w id = Some row ->
  Forall (fun r => is_public (wr_route r) = false /\
    forall t user, JwtGuard.canActivate env t (wr_authorization r) = Ok user -> stranger env row user) rs ->
  escrow_of (serve_all env parse_form rs w) id = Some row.
Proof using.
  intros HE HI Hrow Hrs. revert w HI Hrow. induction Hrs as [|r rs [Hpub Hr] _ IH]; intros w HI Hrow; [done|]. simpl.
  pose proof (serve_typed r w) as Hserve. destruct (typed env parse_form r) as [req|] eqn:Ht; [|by destruct Hserve as [e ->]; apply IH].
  rewrite Hserve. apply IH; [by apply sound_respond|]. apply typed_header in Ht. destruct req as [auth x|auth x|x].
  - subst. apply (strangers_spare_the_escrow env HE id row [ToUser (wr_authorization r) x]); [done..|].
    by apply Forall_singleton.
  - subst. destruct (refusal (ToAdmin (wr_authorization r) x) (env_now env (w_tick w))) as [e|] eqn:Href;
      [by rewrite (respond_refused _ _ _ Href)|]. exfalso. revert Href. cbn [refusal].
    destruct (JwtGuard.canActivate _ _ _) as [user|] eqn:Hu; [|done]. apply Hr in Hu. by rewrite (stranger_no_admin row).
  - congruence.
Qed.
End wire.

(** ** Concrete requests *)

#[local] Existing Instance demo_uuids.
#[local] Existing Instance demo_ops.
#[local] Existing Instance demo_utc.

Definition wire_request (route : Route) (authorization : HeaderValue) (body : string) : WireRequest :=
  mkWire route authorization None None ApplicationJson body (JObj []).

(** No request below has a form as its body. *)
Definition no_forms (_ : string) : json := JObj [].

Definition quoted (s : string) : string := DQ +:+ s +:+ DQ.

Definition tracking_body : string := "{ " +:+ quoted "trackingId" +:+ " : " +:+ quoted " GIG-1234 " +:+ " }".

Definition dispute_body : string :=
  "{" +:+ quoted "reason" +:+ ":" +:+ quoted "FRAUD" +:+ "," +:+ quoted "description" +:+ ":" +:+
  quoted "This is a long enough description" +:+ "}".

Definition vendor_header : HeaderValue :=
  HOne ("Bearer " +:+ match Sep10.issueJwt auth_env demo_now "GVENDOR" with Ok token => token | Throw _ => "" end).

#[local] Instance documented : ValidationPipe auth_env := DocumentedPipe.demo_pipe auth_env.

(** The bytes of a body reach the handler trimmed and typed; the same bytes
    from a stranger, and a body of the wrong type, do not. *)
Example wire_ship :
  let w := demo_world [demo_row "e1" FUNDED] in
  let state w := e_state <$> db_escrows (w_db w) !! "e1" in
  let tracking w := db_escrows (w_db w) !! "e1" ≫= e_trackingId in
  let after r := (run (serve_request (C := demo_chain) auth_env no_forms r) auth_env w).2 in
  (state (after (wire_request (R_ship "e1") vendor_header tracking_body)),
   tracking (after (wire_request (R_ship "e1") vendor_header tracking_body))) = (Some SHIPPED, Some "GIG-1234") /\
  state (after (wire_request (R_ship "e1") other_header tracking_body)) = Some FUNDED /\
  (run (serve_request (C := demo_chain) auth_env no_forms (wire_request (R_ship "e1") vendor_header "{}")) auth_env w).1 =
    Throw (BadRequestException "Bad Request Exception") /\
  (run (serve_request (C := demo_chain) auth_env no_forms (wire_request (R_ship "e1") vendor_header "nonsense")) auth_env w).1 = Throw BAD_JSON.
Proof. vm_compute. done. Qed.

Definition other_wire_requests : list WireRequest :=
  [wire_request (R_cancel "e1") other_header "{}"; wire_request (R_ship "e1") other_header tracking_body;
   wire_request (R_dispute POST "e1") other_header dispute_body; wire_request (R_resolve "e1") other_header "{}";
   wire_request (R_profile GET) HNone ""].

Lemma strangers_cannot_change_an_escrow_witness :
  escrow_of (serve_all (C := demo_chain) auth_env no_forms other_wire_requests (demo_world [demo_row "e1" FUNDED])) "e1" =
    Some (demo_row "e1" FUNDED).
Proof.
  apply (strangers_cannot_change_an_escrow (C := demo_chain) auth_env no_forms "e1" (demo_row "e1" FUNDED)).
  - apply auth_good.
  - apply demo_inv. repeat constructor; apply demo_row_dates.
  - reflexivity.
  - repeat (apply Forall_cons_2; [split; [reflexivity|first [exact other_is_stranger|intros t user; discriminate]]|]).
    apply Forall_nil_2.
Defined.
