(* ===== verification/StressSpec.v ===== *)
(** * Properties of the load generator

    Every schedule of the workers of a profile ends with the planned number of
    measurements; the percentiles it reports are observed and ordered; the
    throughput of a run divides by the duration of its last profile only. *)
From S2P Require Import Prelude Records Doubles Text Tables Crypto Json Effects Demo Analytics Auth Dlq Api Stress.
Import StressTest.

(** ** Rounded products *)

(** The operations yield finite numbers, off by at most one part in [2^53]. *)
Lemma number_near n d : (0 < d)%Z ->
  exists m e, ratio_to_number n d = Finite m e /\ (0 < number_den e)%Z /\
    (Z.abs (number_num m e * d - n * number_den e) * 2 ^ 53 <= Z.abs n * number_den e)%Z.
Proof.
  intros Hd. destruct (ratio_near n d Hd) as (m & e & -> & H). exists m, e. split; [done|].
  unfold number_den. split; [apply Z.pow_pos_nonneg; lia|]. exact H.
Qed.

(** A share of a length, as the two roundings leave it. *)
Lemma share_near h n : (0 < h <= 100)%Z -> (0 < n)%Z ->
  exists m e, number_mul (ratio_to_number h 100) n = Finite m e /\ (0 < number_den e)%Z /\
    (Z.abs (number_num m e * 100 - h * n * number_den e) * 2 ^ 51 <= h * n * number_den e)%Z.
Proof.
  intros Hh Hn. destruct (number_near h 100 ltac:(lia)) as (m1 & e1 & -> & D1 & H1). cbn [number_mul].
  destruct (number_near (number_num m1 e1 * n) (number_den e1) D1) as (m & e & -> & D & H).
  exists m, e. split; [done|]. split; [done|].
  generalize dependent (number_num m1 e1). generalize dependent (number_den e1). intros d1 D1 a1 H1.
  generalize (number_num m e). generalize dependent (number_den e). intros d D a H.
  rewrite (Z.abs_eq h) in H1 by lia.
  assert (B1 : (100 * Z.abs a1 <= 2 * (h * d1))%Z) by lia.
  assert (Hnd : (0 < n * d)%Z) by (apply Z.mul_pos_pos; lia).
  assert (B2 : (100 * Z.abs (a * d1 - a1 * n * d) * 2 ^ 53 <= 2 * (h * d1) * (n * d))%Z).
  { rewrite Z.abs_mul, (Z.abs_eq n) in H by lia.
    apply (Z.mul_le_mono_nonneg_r _ _ (n * d)) in B1; [|lia].
    replace (100 * Z.abs a1 * (n * d))%Z with (100 * (Z.abs a1 * n * d))%Z in B1 by ring. lia. }
  assert (B3 : (n * d * Z.abs (a1 * 100 - h * d1) * 2 ^ 53 <= h * d1 * (n * d))%Z).
  { apply (Z.mul_le_mono_nonneg_l _ _ (n * d)) in H1; [|lia]. lia. }
  assert (E : ((a * 100 - h * n * d) * d1 = 100 * (a * d1 - a1 * n * d) + n * d * (a1 * 100 - h * d1))%Z) by ring.
  apply (Z.mul_le_mono_pos_r _ _ d1 D1).
  replace (Z.abs (a * 100 - h * n * d) * 2 ^ 51 * d1)%Z with (Z.abs ((a * 100 - h * n * d) * d1) * 2 ^ 51)%Z
    by (rewrite Z.abs_mul, (Z.abs_eq d1) by lia; ring).
  rewrite E. pose proof (Z.abs_triangle (100 * (a * d1 - a1 * n * d)) (n * d * (a1 * 100 - h * d1))) as T.
  rewrite (Z.abs_mul 100), (Z.abs_mul (n * d)), (Z.abs_eq (n * d)), (Z.abs_eq 100) in T by lia.
  replace (h * n * d * d1)%Z with (h * d1 * (n * d))%Z by ring. lia.
Qed.

Abbreviation LENGTHS := (2 ^ 40)%Z.

(** The index of a share is its floor, give or take a rounding. *)
Lemma share_index_bounds h n : (0 < h < 100)%Z -> (0 < n < LENGTHS)%Z ->
  let i := share_index h n in (0 <= i < n)%Z.
Proof.
  intros Hh Hn. unfold share_index. destruct (share_near h n) as (m & e & -> & D & H); [lia..|]. cbn [Math_floor].
  generalize dependent (number_num m e). generalize dependent (number_den e). intros d D a H. cbv zeta.
  assert (Hhn : (h * n * d <= 99 * (n * d))%Z) by nia.
  assert (Hp : (0 < h * n * d)%Z) by (apply Z.mul_pos_pos; [|lia]; nia).
  split; [apply Z.div_pos; lia|]. apply Z.div_lt_upper_bound; lia.
Qed.

Lemma share_index_mono h h' n : (0 < h < h')%Z -> (h' <= 100)%Z -> (0 < n < LENGTHS)%Z ->
  (share_index h n <= share_index h' n)%Z.
Proof.
  intros Hh Hh' Hn. unfold share_index.
  destruct (share_near h n) as (m & e & -> & D & H); [lia..|].
  destruct (share_near h' n) as (m' & e' & -> & D' & H'); [lia..|]. cbn [Math_floor].
  generalize dependent (number_num m e). generalize dependent (number_den e). intros d D a H.
  generalize dependent (number_num m' e'). generalize dependent (number_den e'). intros d' D' a' H'.
  assert (X : (a * d' <= a' * d)%Z).
  { assert (Hn0 : (0 < n * d)%Z) by (apply Z.mul_pos_pos; lia).
    assert (A1 : (a * 100 * 2 ^ 51 <= h * n * d * (2 ^ 51 + 1))%Z) by lia.
    assert (A2 : (h' * n * d' * (2 ^ 51 - 1) <= a' * 100 * 2 ^ 51)%Z) by lia.
    apply (Z.mul_le_mono_nonneg_r _ _ d') in A1; [|lia]. apply (Z.mul_le_mono_nonneg_r _ _ d) in A2; [|lia].
    assert (A3 : (h * (2 ^ 51 + 1) <= h' * (2 ^ 51 - 1))%Z) by lia.
    apply (Z.mul_le_mono_nonneg_r _ _ (n * d * d')) in A3; [|apply Z.mul_nonneg_nonneg; lia].
    nia. }
  apply Z.div_le_lower_bound; [lia|]. apply (Z.mul_le_mono_pos_r _ _ d D).
  pose proof (Z.mul_div_le a d D). nia.
Qed.

(** ** The workers *)

(** The number of requests a profile asks for. *)
Definition planned (p : VirtualProfile) : Z := (Zpos (vp_requestsPerSecond p) * Zpos (vp_duration p))%Z.

Lemma quotient_near N w : (0 < N)%Z -> (0 < w)%Z ->
  exists m e, number_div (of_Z N) w = Finite m e /\ (0 < number_den e)%Z /\
    (Z.abs (number_num m e * w - N * number_den e) * 2 ^ 51 <= N * number_den e)%Z.
Proof.
  intros HN Hw. unfold of_Z. destruct (number_near N 1 ltac:(lia)) as (m1 & e1 & -> & D1 & H1). cbn [number_div].
  destruct (number_near (number_num m1 e1) (number_den e1 * w)) as (m & e & -> & D & H); [apply Z.mul_pos_pos; lia|].
  exists m, e. split; [done|]. split; [done|].
  generalize dependent (number_num m1 e1). generalize dependent (number_den e1). intros d1 D1 a1 H1.
  generalize (number_num m e). generalize dependent (number_den e). intros d D a H.
  rewrite (Z.abs_eq N) in H1 by lia. rewrite Z.mul_1_r in H1.
  assert (B1 : (Z.abs a1 <= 2 * (N * d1))%Z) by lia.
  apply (Z.mul_le_mono_nonneg_r _ _ d) in B1; [|lia]. apply (Z.mul_le_mono_nonneg_l _ _ d) in H1; [|lia].
  apply (Z.mul_le_mono_pos_r _ _ d1 D1).
  replace (Z.abs (a * w - N * d) * 2 ^ 51 * d1)%Z with (Z.abs ((a * w - N * d) * d1) * 2 ^ 51)%Z
    by (rewrite Z.abs_mul, (Z.abs_eq d1) by lia; ring).
  replace ((a * w - N * d) * d1)%Z with ((a * (d1 * w) - a1 * d) + d * (a1 - N * d1))%Z by ring.
  pose proof (Z.abs_triangle (a * (d1 * w) - a1 * d) (d * (a1 - N * d1))) as T.
  rewrite (Z.abs_mul d), (Z.abs_eq d) in T by lia. lia.
Qed.

Lemma requests_bounds p : (planned p < 2 ^ 50)%Z ->
  (planned p <= workers p * requestsPerWorker p <= planned p + workers p)%Z /\ (0 < workers p)%Z /\ (0 <= requestsPerWorker p)%Z.
Proof.
  intros HN. assert (Hw : (0 < workers p)%Z) by (unfold workers; lia).
  assert (HN0 : (0 < planned p)%Z) by (unfold planned; lia).
  unfold requestsPerWorker. fold (planned p). destruct (quotient_near (planned p) (workers p) HN0 Hw) as (m & e & -> & D & H).
  cbn [Math_ceil]. generalize dependent (number_num m e). generalize dependent (number_den e). intros d D a H.
  generalize dependent (workers p). generalize dependent (planned p). intros N HN HN0 w Hw H. clear p.
  pose proof (Z.div_mod (- a) d ltac:(lia)) as E. pose proof (Z.mod_pos_bound (- a) d D) as B.
  set (q := (- a / d)%Z) in *.
  assert (Nd : (N * d < 2 ^ 50 * d)%Z) by (apply Z.mul_lt_mono_pos_r; lia).
  assert (L : (N * d - d < a * w < N * d + d)%Z) by lia.
  assert (R1 : (a * w <= - q * d * w)%Z) by (apply Z.mul_le_mono_nonneg_r; lia).
  assert (R2 : ((- q - 1) * d * w < a * w)%Z) by (apply Z.mul_lt_mono_pos_r; lia).
  assert (R3 : ((N - 1) * d < (w * - q) * d)%Z) by lia.
  assert (R4 : ((w * (- q - 1)) * d < (N + 1) * d)%Z) by lia.
  apply (Z.mul_lt_mono_pos_r d) in R3; [|done]. apply (Z.mul_lt_mono_pos_r d) in R4; [|done].
  split_and!; [lia..|]. nia.
Qed.

(** What the pool keeps: requests are served or left, and each measurement is
    of a request that took no negative time. *)
Definition pool_ok (total : nat) (s : Pool) : Prop :=
  sum_list s.1 + length s.2 = total /\ Forall (fun m => (0 <= pm_responseTime m)%Z) s.2.

Lemma sum_list_serve left_over i n : left_over !! i = Some (S n) -> S (sum_list (<[i := n]> left_over)) = sum_list left_over.
Proof.
  revert i. induction left_over as [|x l IH]; intros [|i]; simpl; [done|done|by intros [= ->]|].
  intros H. rewrite <- (IH i H). lia.
Qed.

Lemma pool_step_ok total s s' : pool_step s s' -> pool_ok total s -> pool_ok total s' /\ sum_list s'.1 < sum_list s.1.
Proof.
  intros [left_over metrics i n t1 t2 r Hi Ht] [Hsum Hall]. unfold pool_ok in *. cbn [fst snd] in *.
  pose proof (sum_list_serve _ _ _ Hi). rewrite length_app. cbn [length]. split_and!; [lia| |lia].
  apply Forall_app. split; [done|]. apply Forall_singleton. destruct r; cbn; lia.
Qed.

Lemma pool_steps_ok total s s' : rtc pool_step s s' -> pool_ok total s -> pool_ok total s'.
Proof. induction 1 as [|s s1 s' Hs _ IH]; [done|]. intros H. apply IH. by apply (pool_step_ok total s). Qed.

Lemma sum_list_replicate n k : sum_list (replicate n k) = n * k.
Proof. induction n; simpl; lia. Qed.

Lemma sum_list_zero l : sum_list l = 0 <-> Forall (fun n => n = 0) l.
Proof.
  induction l as [|x l IH]; simpl; [by split|]. rewrite Forall_cons, <- IH. lia.
Qed.

(** Whatever order the workers of a profile settle their requests in, and
    whatever the answers are, the load ends: the pool cannot go on forever, it
    can go on as long as a request is left, and when none is left it has made
    all the requests asked for, rounded up per worker.  No measurement has a
    negative duration. *)
Theorem stress_workers_complete p left_over metrics :
  (planned p < 2 ^ 50)%Z -> rtc pool_step (pool_start p) (left_over, metrics) ->
  Acc (flip pool_step) (pool_start p) /\
  (left_over = replicate (length left_over) 0 \/ forall t r, exists next, pool_step (left_over, metrics) (next, metrics ++ [measure t t r])) /\
  (Z.of_nat (length metrics) <= planned p + workers p)%Z /\
  (left_over = replicate (length left_over) 0 -> (planned p <= Z.of_nat (length metrics))%Z) /\
  Forall (fun m => (0 <= pm_responseTime m)%Z) metrics.
Proof.
  intros HN Hrtc. destruct (requests_bounds p HN) as ((Hlo & Hhi) & Hw & Hr).
  set (total := Z.to_nat (workers p) * Z.to_nat (requestsPerWorker p)).
  assert (Hstart : pool_ok total (pool_start p)).
  { unfold pool_ok, pool_start, total. cbn [fst snd length]. by rewrite sum_list_replicate, Nat.add_0_r. }
  assert (Htotal : Z.of_nat total = (workers p * requestsPerWorker p)%Z) by (unfold total; lia).
  destruct (pool_steps_ok _ _ _ Hrtc Hstart) as [Hsum Hall]. cbn [fst snd] in *. split_and!.
  - clear Hrtc Hsum. generalize dependent (pool_start p). intros s. remember (sum_list s.1) as k eqn:Hk. revert s Hk.
    induction (lt_wf k) as [k _ IH]; intros s -> Hs. constructor. intros s' Hstep.
    destruct (pool_step_ok _ _ _ Hstep Hs) as [Hs' Hlt]. by apply (IH _ Hlt s').
  - destruct (decide (Forall (fun n => n = 0) left_over)) as [Hz|Hz].
    + left. symmetry. apply replicate_as_Forall. split; [done|]. eapply Forall_impl; [exact Hz|]. by intros x ->.
    + right. intros t r. apply not_Forall_Exists in Hz; [|intros x; apply _]. apply Exists_exists in Hz as (x & Hx & Hne).
      apply list_elem_of_lookup_1 in Hx as (i & Hi). destruct x as [|n]; [by destruct Hne|].
      exists (<[i := n]> left_over). constructor; [done|lia].
  - lia.
  - intros Hz. assert (sum_list left_over = 0) by (rewrite Hz, sum_list_replicate; lia). lia.
  - done.
Qed.

(** ** The percentiles *)

Lemma share_rank h n : (0 < h < 100)%Z -> (0 < n < LENGTHS)%Z -> (h * n <= 100 * (share_index h n + 1))%Z.
Proof.
  intros Hh Hn. unfold share_index. destruct (share_near h n) as (m & e & -> & D & H); [lia..|]. cbn [Math_floor].
  generalize dependent (number_num m e). generalize dependent (number_den e). intros d D a H.
  pose proof (Z.div_mod a d ltac:(lia)) as E. pose proof (Z.mod_pos_bound a d D) as B. set (q := (a / d)%Z) in *.
  assert (Hnd : (h * n * d < 100 * LENGTHS * d)%Z).
  { apply Z.mul_lt_mono_pos_r; [lia|]. nia. }
  assert (L : ((h * n - 1) * d < (100 * (q + 1)) * d)%Z) by lia.
  apply (Z.mul_lt_mono_pos_r d) in L; lia.
Qed.

Definition Zsorted : list Z -> list Z := sort_by Z.leb.

Lemma Zsorted_sorted l : StronglySorted (fun a b => (a <=? b)%Z = true) (Zsorted l).
Proof. apply sort_by_sorted; intros; [destruct (Z.leb_spec x y); [by left|right; apply Z.leb_le; lia]|b2p; lia]. Qed.

Lemma sorted_lookup l i j x y : StronglySorted (fun a b => (a <=? b)%Z = true) l ->
  l !! i = Some x -> l !! j = Some y -> i <= j -> (x <= y)%Z.
Proof.
  intros H. revert i j. induction H as [|z l _ IH Hz]; intros i j Hx Hy Hij; [done|].
  destruct i as [|i], j as [|j]; simpl in *; simplify_eq; [lia| |lia|by apply (IH i j); [..|lia]].
  rewrite Forall_forall in Hz. apply list_elem_of_lookup_2 in Hy. specialize (Hz _ Hy). b2p. lia.
Qed.

(** How many of the times are at most [v]. *)
Definition at_most (v : Z) (times : list Z) : Z := Z.of_nat (length (filter (fun t => (t <= v)%Z) times)).

(** [v] was measured, and at least [h] percent of the times are at most [v]. *)
Definition percentile (h : Z) (times : list Z) (v : Z) : Prop :=
  v ∈ times /\ (h * Z.of_nat (length times) <= 100 * at_most v times)%Z.

Lemma filter_at_most (v : Z) l : Forall (fun t => (t <= v)%Z) l -> filter (fun t => (t <= v)%Z) l = l.
Proof. induction 1 as [|x l Hx _ IH]; [done|]. by rewrite filter_cons_True, IH. Qed.

Lemma sorted_at_most l i v : StronglySorted (fun a b => (a <=? b)%Z = true) l -> l !! i = Some v ->
  (Z.of_nat i + 1 <= at_most v l)%Z.
Proof.
  intros Hs Hi. unfold at_most. rewrite <- (take_drop (S i) l), filter_app, length_app.
  assert (Hall : filter (fun t => (t <= v)%Z) (take (S i) l) = take (S i) l).
  { apply filter_at_most, Forall_forall. intros x Hx. apply list_elem_of_lookup_1 in Hx as (j & Hj).
    apply lookup_take_Some in Hj as [Hj ?]. by apply (sorted_lookup l j i); [..|lia]. }
  apply lookup_lt_Some in Hi. rewrite Hall, length_take. lia.
Qed.

(** What the service reads at an index of the sorted times. *)
Lemma at_index_lookup times i : (0 <= i < Z.of_nat (length times))%Z ->
  Zsorted times !! Z.to_nat i = Some (at_index (Zsorted times) i).
Proof.
  intros H. unfold at_index. destruct (Zsorted times !! Z.to_nat i) eqn:E; [done|].
  apply lookup_ge_None in E. unfold Zsorted in E. rewrite sort_by_perm in E. lia.
Qed.

Lemma at_index_percentile h times i : (0 <= i < Z.of_nat (length times))%Z ->
  (h * Z.of_nat (length times) <= 100 * (i + 1))%Z -> percentile h times (at_index (Zsorted times) i).
Proof.
  intros Hi Hh. pose proof (at_index_lookup times i Hi) as E. split.
  - apply (elem_of_Permutation_proper _ _ _ (sort_by_perm Z.leb times)). by eapply list_elem_of_lookup_2.
  - pose proof (sorted_at_most _ _ _ (Zsorted_sorted times) E) as C.
    assert (P : at_most (at_index (Zsorted times) i) (Zsorted times) = at_most (at_index (Zsorted times) i) times).
    { unfold at_most, Zsorted. by rewrite (sort_by_perm Z.leb times). }
    rewrite P in C. lia.
Qed.

Lemma at_index_mono times i j : (0 <= i <= j)%Z -> (j < Z.of_nat (length times))%Z ->
  (at_index (Zsorted times) i <= at_index (Zsorted times) j)%Z.
Proof.
  intros Hij Hj. apply (sorted_lookup _ (Z.to_nat i) (Z.to_nat j) _ _ (Zsorted_sorted times)); [apply at_index_lookup; lia..|lia].
Qed.

Lemma sum_foldl l a : foldl Z.add a l = (a + foldr Z.add 0%Z l)%Z.
Proof. revert a. induction l as [|x l IH]; intros a; simpl; [lia|]. rewrite IH. lia. Qed.

Lemma sum_perm l l' : l ≡ₚ l' -> foldr Z.add 0%Z l = foldr Z.add 0%Z l'.
Proof. induction 1; simpl; lia. Qed.

Lemma filter_split {A} (f : A -> bool) l :
  length (List.filter f l) + length (List.filter (fun x => negb (f x)) l) = length l /\
  length (List.filter f l) = length (filter (fun x => f x = true) l).
Proof.
  induction l as [|x l [IH1 IH2]]; [done|]. rewrite filter_cons. cbn [List.filter].
  destruct (f x) eqn:Hx; case_decide; try congruence; cbn [negb length]; lia.
Qed.

(** The result of a profile counts each measurement once, as a success or as a
    failure; its average is the mean of the times rounded once per operation; its
    percentiles are times that were measured, in order between the minimum and
    the maximum, and at least the stated share of the times is no longer than
    each. *)
Theorem stress_profile_statistics metrics i duration :
  metrics <> [] -> (Z.of_nat (length metrics) < LENGTHS)%Z ->
  let r := calculateProfileMetrics metrics i duration in
  let times := pm_responseTime <$> metrics in
  pr_totalRequests r = Z.of_nat (length metrics) /\
  pr_successfulRequests r = Z.of_nat (length (filter (fun m => pm_success m = true) metrics)) /\
  (pr_successfulRequests r + pr_failedRequests r = pr_totalRequests r)%Z /\
  pr_averageResponseTime r = ratio_to_number (foldr Z.add 0%Z times) (Z.of_nat (length metrics)) /\
  Forall (fun t => pr_minResponseTime r <= t <= pr_maxResponseTime r)%Z times /\
  (pr_minResponseTime r <= pr_p50ResponseTime r <= pr_p95ResponseTime r)%Z /\
  (pr_p95ResponseTime r <= pr_p99ResponseTime r <= pr_maxResponseTime r)%Z /\
  percentile 50 times (pr_p50ResponseTime r) /\ percentile 95 times (pr_p95ResponseTime r) /\
  percentile 99 times (pr_p99ResponseTime r) /\ pr_minResponseTime r ∈ times /\ pr_maxResponseTime r ∈ times.
Proof.
  intros Hne Hlen r times. set (n := Z.of_nat (length metrics)) in *.
  assert (Hn : (0 < n)%Z) by (unfold n; destruct metrics; [done|cbn [length]; lia]).
  assert (Ht : Z.of_nat (length times) = n) by (unfold times; by rewrite length_fmap).
  destruct (filter_split pm_success metrics) as [Hsum Hcount].
  pose proof (share_index_bounds 50 n ltac:(lia) ltac:(lia)) as B50. pose proof (share_index_bounds 95 n ltac:(lia) ltac:(lia)) as B95.
  pose proof (share_index_bounds 99 n ltac:(lia) ltac:(lia)) as B99. cbv zeta in B50, B95, B99.
  pose proof (share_index_mono 50 95 n ltac:(lia) ltac:(lia) ltac:(lia)).
  pose proof (share_index_mono 95 99 n ltac:(lia) ltac:(lia) ltac:(lia)).
  assert (Hrank : forall h, (0 < h < 100)%Z -> percentile h times (at_index (Zsorted times) (share_index h n))).
  { intros h Hh. apply at_index_percentile; rewrite Ht; [by apply share_index_bounds|]. by apply share_rank. }
  assert (Hin : forall i, (0 <= i < n)%Z -> at_index (Zsorted times) i ∈ times).
  { intros k Hk. apply (at_index_percentile 0); rewrite Ht; lia. }
  unfold r, calculateProfileMetrics. cbn [pr_totalRequests pr_successfulRequests pr_failedRequests pr_averageResponseTime
    pr_minResponseTime pr_maxResponseTime pr_p50ResponseTime pr_p95ResponseTime pr_p99ResponseTime].
  fold n times. fold (Zsorted times). destruct (Z.eqb_spec n 0) as [|_]; [lia|]. split_and!.
  - done.
  - by rewrite Hcount.
  - unfold n. lia.
  - rewrite sum_foldl, Z.add_0_l. unfold Zsorted. by rewrite (sum_perm _ _ (sort_by_perm Z.leb times)).
  - apply Forall_forall. intros t Hin'. rewrite <- (sort_by_perm Z.leb times) in Hin'.
    apply list_elem_of_lookup_1 in Hin' as (k & Hk).
    assert (Hkn : (Z.of_nat k < n)%Z) by (rewrite <- Ht; apply lookup_lt_Some in Hk; rewrite sort_by_perm in Hk; lia).
    split.
    + apply (sorted_lookup _ (Z.to_nat 0) k _ _ (Zsorted_sorted times)); [apply at_index_lookup; lia|done|lia].
    + apply (sorted_lookup _ k (Z.to_nat (n - 1)) _ _ (Zsorted_sorted times)); [done|apply at_index_lookup; lia|lia].
  - apply at_index_mono; lia.
  - apply at_index_mono; lia.
  - apply at_index_mono; lia.
  - apply at_index_mono; lia.
  - by apply Hrank.
  - by apply Hrank.
  - by apply Hrank.
  - apply Hin. lia.
  - apply Hin. lia.
Qed.

(** ** The throughput of a run *)

(** Seconds between the first and the last entry of a profile. *)
Definition measured_seconds (p : ProfileResult) : option number :=
  match head (pr_metrics p), last (pr_metrics p) with
  | Some first, Some final => Some (ratio_to_number (pm_timestamp final - pm_timestamp first) 1000)
  | _, _ => None
  end.

Lemma positive_ratio n d : (0 < n)%Z -> (0 < d)%Z ->
  exists m e, ratio_to_number n d = Finite m e /\ (0 < m)%Z.
Proof.
  intros Hn Hd. destruct (number_near n d Hd) as (m & e & Hr & D & H). exists m, e. split; [done|].
  unfold number_num in H. rewrite (Z.abs_eq n) in H by lia.
  assert (Hp : (0 < n * number_den e)%Z) by (apply Z.mul_pos_pos; lia).
  destruct (Z.le_gt_cases m 0) as [Hm|]; [|done].
  assert (E : (m * 2 ^ Z.max 0 e * d <= 0)%Z).
  { apply Z.mul_nonpos_nonneg; [|lia]. apply Z.mul_nonpos_nonneg; [done|]. apply Z.pow_nonneg. lia. }
  lia.
Qed.

Lemma positive_ltb m e : number_ltb (Finite 0 0) (Finite m e) = (0 <? m)%Z.
Proof.
  unfold number_ltb, number_num, number_den. pose proof (Z.pow_pos_nonneg 2 (Z.max 0 e) ltac:(lia) ltac:(lia)).
  simpl (2 ^ Z.max 0 0)%Z. simpl (2 ^ Z.max 0 (- 0))%Z. rewrite Z.mul_1_r.
  destruct (Z.ltb_spec 0 m), (Z.ltb_spec (0 * 2 ^ Z.max 0 (- e)) (m * 2 ^ Z.max 0 e)); try done; nia.
Qed.

(** A sum that is not negative, and a positive count. *)
Lemma add_count_positive sum k : number_ltb sum (Finite 0 0) = false -> sum <> NaN -> (0 < k)%Z ->
  number_ltb (Finite 0 0) (number_add sum (of_Z k)) = true.
Proof.
  intros Hs Hn Hk. destruct sum as [|m e]; [done|]. unfold of_Z.
  destruct (positive_ratio k 1 Hk ltac:(lia)) as (m' & e' & -> & Hm'). cbn [number_add].
  assert (D : forall x, (0 < number_den x)%Z) by (intros x; apply Z.pow_pos_nonneg; lia).
  assert (Hm : (0 <= number_num m e)%Z).
  { unfold number_ltb in Hs. apply Z.ltb_ge in Hs. change (number_num 0 0) with 0%Z in Hs. change (number_den 0) with 1%Z in Hs. lia. }
  assert (Hn' : (0 < number_num m' e')%Z) by (apply Z.mul_pos_pos; [done|]; apply Z.pow_pos_nonneg; lia).
  destruct (positive_ratio (number_num m e * number_den e' + number_num m' e' * number_den e) (number_den e * number_den e'))
    as (m2 & e2 & -> & H2).
  - pose proof (D e). pose proof (D e'). nia.
  - pose proof (D e). pose proof (D e'). nia.
  - rewrite positive_ltb. by apply Z.ltb_lt.
Qed.

Lemma sum_of_foldr f profiles : sum_of f profiles = foldr Z.add 0%Z (f <$> profiles).
Proof.
  unfold sum_of. assert (H : forall a, foldl (fun s p => (s + f p)%Z) a profiles = (a + foldr Z.add 0 (f <$> profiles))%Z).
  { induction profiles as [|p l IH]; intros a; [cbn; lia|]. cbn [foldl]. rewrite IH, fmap_cons. cbn [foldr]. lia. }
  by rewrite H.
Qed.

(** The durations of the profiles are not added up: whatever the profiles
    before it took, as long as that is not negative, the throughput of a run is
    the number of all its requests over the duration of its last profile. *)
Theorem throughput_uses_last_profile profiles p sum seconds :
  foldl add_duration (Some (Finite 0 0)) profiles = Some sum -> number_ltb sum (Finite 0 0) = false -> sum <> NaN ->
  measured_seconds p = Some seconds -> number_ltb (Finite 0 0) seconds = true ->
  exists o, calculateOverallMetrics (profiles ++ [p]) = Some o /\
    om_totalRequests o = foldr Z.add 0%Z (pr_totalRequests <$> profiles ++ [p]) /\
    om_overallThroughput o = number_quot (of_Z (om_totalRequests o)) seconds.
Proof.
  intros Hsum Hpos Hfin Hsec Hlt. unfold calculateOverallMetrics, totalDuration. rewrite foldl_app, Hsum. cbn [foldl].
  assert (Hadd : add_duration (Some sum) p = Some seconds).
  { unfold add_duration. rewrite add_count_positive; [exact Hsec|done|done|].
    unfold measured_seconds in Hsec. destruct (pr_metrics p); [done|cbn [length]; lia]. }
  rewrite Hadd. replace (falsy seconds) with false; [rewrite Hlt|].
  - eexists. split; [done|]. cbn [om_totalRequests om_overallThroughput]. split; [apply sum_of_foldr|done].
  - destruct seconds as [|m e]; [done|]. rewrite positive_ltb in Hlt. cbn. symmetry. apply Z.eqb_neq. apply Z.ltb_lt in Hlt. lia.
Qed.

(** ** Instances *)

Definition demo_profile : VirtualProfile := mkProfile 2 3 1 "/api/escrows" None None.

Definition demo_metric (timestamp responseTime : Z) : PerformanceMetrics :=
  mkMetric timestamp responseTime 200 true None.

(** ** The two generators *)

(** For the same outcome of a request the runner and the service record the
    same time, status and success; the texts of errors differ. *)
Lemma runner_measures_alike startTime endTime o :
  let r := StressTestRunner.measure startTime endTime o in
  let s := StressTest.measure startTime endTime (StressTestRunner.axios_service o) in
  StressTest.pm_timestamp r = StressTest.pm_timestamp s /\ StressTest.pm_responseTime r = StressTest.pm_responseTime s /\
  StressTest.pm_statusCode r = StressTest.pm_statusCode s /\ StressTest.pm_success r = StressTest.pm_success s.
Proof.
  destruct o as [status|message]; [|done]. cbn. destruct ((200 <=? status)%Z && (status <? 300)%Z) eqn:H; cbn; by rewrite ?H.
Qed.

(** Of a profile that was measured at all they compute the same statistics. *)
Lemma runner_agrees metrics profileIndex duration :
  metrics <> [] ->
  StressTestRunner.calculateProfileMetrics metrics profileIndex duration =
  StressTest.calculateProfileMetrics metrics profileIndex duration.
Proof.
  intros Hne. unfold StressTestRunner.calculateProfileMetrics, StressTest.calculateProfileMetrics. cbv zeta.
  assert (Hpos : (0 < Z.of_nat (length metrics))%Z) by (destruct metrics; simpl in *; [done|lia]).
  by rewrite (proj2 (Z.ltb_lt _ _) Hpos), (proj2 (Z.eqb_neq _ _)) by lia.
Qed.

(** ** The runs in progress *)

Lemma registry_get_set id id' r m :
  registry_get id (registry_set id' r m) = if bool_decide (id' = id) then Some r else registry_get id m.
Proof.
  induction m as [|[k v] m IH]; simpl; [done|]. repeat (case_bool_decide; simpl); subst; try done.
Qed.

Lemma registry_get_delete id id' m :
  registry_get id (registry_delete id' m) = if bool_decide (id' = id) then None else registry_get id m.
Proof.
  induction m as [|[k v] m IH]; simpl; [by case_bool_decide|]. repeat (case_bool_decide; simpl); subst; try done.
Qed.

(** What a run has reported, from its own events. *)
Definition progress (id : string) (run : option StressTestResult) (ev : RunEvent) : option StressTestResult :=
  match ev with
  | RunStarted id' name t => if bool_decide (id' = id) then Some (new_result id name t) else run
  | ProfileFinished id' r => if bool_decide (id' = id) then push_profile r <$> run else run
  | RunEnded id' => if bool_decide (id' = id) then None else run
  end.

(** However runs interleave, a run is found exactly while it is in progress,
    with its own results in their order. *)
Lemma runs_do_not_interfere id m evs :
  registry_get id (foldl run_event m evs) = foldl (progress id) (registry_get id m) evs.
Proof.
  revert m. induction evs as [|ev evs IH]; intros m; [done|]. cbn [foldl]. rewrite IH. f_equal.
  destruct ev as [id' name t|id' r|id']; cbn [run_event progress].
  - rewrite registry_get_set. by case_bool_decide; subst.
  - destruct (registry_get id' m) as [run|] eqn:E; [rewrite registry_get_set|]; case_bool_decide; subst; by rewrite ?E.
  - apply registry_get_delete.
Qed.

(** A run in progress is shown with the status of a completed one. *)
Lemma active_runs_claim_completion id evs run :
  getActiveTest id (foldl run_event [] evs) = Ok run -> ru_status run = RUN_COMPLETED /\ ru_endTime run = 0%Z.
Proof.
  unfold getActiveTest. rewrite runs_do_not_interfere. cbn [registry_get].
  assert (H : forall o, (forall r, o = Some r -> ru_status r = RUN_COMPLETED /\ ru_endTime r = 0%Z) ->
    forall r, foldl (progress id) o evs = Some r -> ru_status r = RUN_COMPLETED /\ ru_endTime r = 0%Z).
  { induction evs as [|ev evs IH]; intros o Ho r; [apply Ho|]. cbn [foldl]. apply IH. clear r. intros r Hr.
    destruct ev as [id' name t|id' p|id']; cbn [progress] in Hr; case_bool_decide; try (by apply Ho).
    - by injection Hr as <-.
    - apply fmap_Some in Hr as (r' & Hr' & ->). exact (Ho r' Hr'). }
  destruct (foldl _ None evs) as [r|] eqn:E; [|done]. intros [= <-]. by apply (H None).
Qed.

(** Two workers with two requests each; the first settles one. *)
Lemma stress_workers_complete_witness :
  exists next, pool_step ([1; 2], [measure 0 5 (Answered 200)]) (next, [measure 0 5 (Answered 200)] ++ [measure 9 9 (Answered 503)]).
Proof.
  assert (Hstep : rtc pool_step (pool_start demo_profile) ([1; 2], [measure 0 5 (Answered 200)])).
  { apply rtc_once. apply (request_settles [2; 2] [] 0 1 0 5 (Answered 200)); [done|lia]. }
  destruct (stress_workers_complete demo_profile [1; 2] [measure 0 5 (Answered 200)] ltac:(vm_compute; reflexivity) Hstep)
    as (_ & [H|H] & _); [discriminate|apply H].
Defined.

Lemma stress_profile_statistics_witness :
  percentile 95 [30; 10; 20]%Z 30.
Proof.
  destruct (stress_profile_statistics [demo_metric 0 30; demo_metric 0 10; demo_metric 5 20] 0 1 ltac:(done) ltac:(vm_compute; reflexivity))
    as (_ & _ & _ & _ & _ & _ & _ & _ & H & _). exact H.
Defined.

(** Two profiles of ten seconds with two requests each: the throughput is four
    requests over ten seconds. *)
Definition demo_result : ProfileResult :=
  calculateProfileMetrics [demo_metric 0 30; demo_metric 10000 10] 0 10.

Lemma throughput_uses_last_profile_witness :
  exists o, calculateOverallMetrics [demo_result; demo_result] = Some o /\
    om_overallThroughput o = number_quot (of_Z 4) (of_Z 10).
Proof.
  destruct (throughput_uses_last_profile [demo_result] demo_result (of_Z 10) (of_Z 10)
    ltac:(vm_compute; reflexivity) ltac:(vm_compute; reflexivity) ltac:(done)
    ltac:(vm_compute; reflexivity) ltac:(vm_compute; reflexivity)) as (o & Ho & Hr & Ht).
  exists o. split; [exact Ho|]. rewrite Ht, Hr. reflexivity.
Defined.
